(* ===== verification/_CoqProject ===== *)
-Q . S2P
Prelude.v
MachineInt.v
Murmur.v
Binary64.v
Options.v
Differentiation.v
Rules.v
TokenBucketStats.v
TokenBucket.v
ThreadedBucket.v
EnforcementObjects.v
Buffers.v
ChannelStatistics.v
Channel.v
Core.v
Queueing.v
RulesParser.v
StageInfo.v
Logging.v
Agent.v
Networking.v
Southbound.v
Connection.v
Stage.v
Instances.v
Limits.v
RateControl.v
Progress.v
SharedQueue.v
Microbenchmark.v
DrlBenchmark.v
ClassBenchmarks.v
