(* ===== verification/Prelude.v ===== *)
(** * PAIO: a verification library for the data plane stage

    PAIO differentiates the I/O requests of an application and enforces rules on
    them.  A layer of the application ([PosixLayer], [LsmKvsLayer],
    [PaioInstance]) submits each request with a context to a stage
    ([PaioStage]); the core of the stage hashes the classifiers of the request to
    the token of a channel; the channel hashes its operation to the token of an
    enforcement object, a no-op or a rate limiter over a token bucket, which
    answers with a result.  Housekeeping rules create channels and objects,
    enforcement rules configure them; they come from files, or from a control
    plane through sockets, and an agent carries them out.

    ** Files

    The files are listed in the order of their dependencies; paths are under
    [src/src] and [src/include/paio].

    - [Prelude]: the monad of the components, outcomes, generic lemmas, tactics.
    - [MachineInt]: the integers of the code at their widths.
    - [Murmur] ([utils/murmurhash.cpp]): the three hash functions on bytes.
    - [Binary64]: [double] and [float], bit for bit on [SpecFloat].
    - [Options] ([options.hpp], [context_propagation_definitions.hpp],
      [context.hpp], [status.cpp]): enumerations, options, contexts, statuses.
    - [Differentiation] ([murmurhash_token_builder.cpp] and the headers of
      [differentiation/]): from classifiers to tokens.
    - [Rules] ([rules/]): the rules and the two tables that keep them.
    - [TokenBucketStats], [TokenBucket], [ThreadedBucket]
      ([enforcement/objects/drl/]): the statistics of a bucket, the bucket that
      its consumers refill, and the one with a thread for the refills.
    - [EnforcementObjects] ([ticket.cpp], [result.cpp], [objects/]): tickets,
      results, the two kinds of objects behind the class [EnforcementObject].
    - [Buffers] ([ticket.cpp], [result.cpp]): the same tickets and results as
      owners of arrays on a heap, with their copies, moves and destructors.
    - [ChannelStatistics] ([channel_statistics.cpp],
      [enforcement_object_statistics.cpp]): counters and metrics.
    - [Channel] ([channel_default.cpp], [submission_queue.cpp],
      [completion_queue.cpp]): a channel and its queues, one caller at a time.
    - [Queueing] (the same files): several callers and workers, interleaved.
    - [Core] ([core.cpp]): channels, links, tokens, housekeeping.
    - [RulesParser] ([rules_parser.cpp]): rule files.
    - [StageInfo] ([stage_info.cpp]): the description of a stage.
    - [Logging] ([utils/logging.cpp]): the messages of the four qualifiers.
    - [Agent] ([agent.cpp]): rules and statistics on behalf of the control plane.
    - [Networking] ([interface_definitions.hpp], [connection_options.hpp],
      [connection_handler.hpp]): raw structures, sockets.
    - [Southbound], [Connection] ([southbound_connection_handler.cpp],
      [handshake_connection_handler.cpp], [connection_manager.cpp]): the control
      operations, the handshake, the threads.
    - [Stage] ([paio_stage.cpp]): the parts put together.
    - [Instances] ([interface/]): the layers of the application.
    - [Limits], [RateControl], [Progress]: the parts composed, from a [write] of
      the layer to the token bucket: what a limiter lets through, the rate that
      a rule of the control plane sets, and that the write returns.
    - [SharedQueue] ([submission_queue.cpp], [token_bucket.cpp]): the threads that
      meet at the lock of a submission queue, the bucket by steps.
    - [Microbenchmark] ([benchmarking/paio_microbenchmarking.cpp]): a run of the
      microbenchmark as a system of workers.
    - [DrlBenchmark] ([benchmarking/paio_object_drl_test.cpp]): the tests of the
      rate limiter, the last one as a system of two threads.
    - [ClassBenchmarks] ([benchmarking/paio_object_noop_test.cpp],
      [benchmarking/murmurhash_performance_test.cpp]): threads on one no-op object,
      and the hashes of a message.

    ** How the code is modelled

    A component is a [Module] with its state as a [Record] [t], whose fields have
    the names of the members, and a definition for each operation, with the name
    of the method.  An operation is a computation of the monad [M]: it has the
    state of its component and ends in a value, an exception, or a loss of the
    run ([Crash]: undefined behaviour, a failed assertion, a deadlock,
    [std::terminate], or the fuel of a loop that is out).  A component that owns
    another runs its operations with [zoom]; what the code shares by pointer (the
    core between stage and agent, the agent between the two handlers) is in one
    place of the state, and the others reach it there.

    Integers are [Z], with the conversions to the widths of the code written out;
    token counts are binary64 numbers; strings are [string], raw bytes lists of
    [Z].  Buffers are modelled by their contents where they have one owner; the
    block that a caller passes to [read] is kept apart, for [realloc] may free
    it.  The iteration order of a hash table is a parameter.

    What the program asks of its environment is a class, an argument of the
    definitions that use it: [SystemClock] (the n-th reading of the clock),
    [Process] (what the C library tells of the process), [FileSystem] (the
    contents of the files that open), [Sockets] (what the n-th system call on a
    socket does), [RulesOrder] (the order of a table), [OtherThreads] (what
    others do to a stage while a caller sleeps), [Posix] (the system calls of the
    layers and [realloc]), [Random] (what the n-th call of [random] returns).  Hypotheses on them are in the statements:
    [clock_progress], readings below 2^62, what a socket delivers.

    Loops that the data do not bound have fuel: the loops of the token bucket,
    the rounds of [listen], the attempts of a layer.  A run that is short of fuel
    is [Crash OutOfFuel], never a result.  Termination is stated as such:
    [try_consume_terminates] gives a fuel that is enough when the clock gets past
    every instant, [listen_serves_requests] a number of rounds for a
    conversation, [enforce_until_ready] the number of attempts for a stage that
    becomes ready; [no_capacity_never_serves] and [default_stage_blocks_writes]
    show the loops that no fuel ends.

    Concurrency is modelled where the code's correctness hangs on it: the
    callers and workers of the queues ([Queueing]), the consumers and the refill
    thread of a bucket ([ThreadedBucket]), the two steps of an insertion into the
    housekeeping table ([Rules]), the workers of a run ([Microbenchmark]) and of
    the no-op test ([ClassBenchmarks]), as events that interleave in any order; an
    event is a critical section.  The critical section of a request, with the loops
    of the token bucket in it, is taken apart in [DrlBenchmark], for two threads at
    one limiter, and in [SharedQueue], where [calls_are_atomic] shows that the
    threads cannot tell it from one event; this is what lets the other files run
    one operation after the other.

    ** What the theorems show

    - Requests: a request goes to the channel its classifiers hash to and is
      enforced there by the object of its operation ([request_routing],
      [enforce_mechanism_refines]); queueing mode gives a caller alone what the
      fast path gives ([queueing_equals_fast_path]); with several callers tickets
      are conserved ([tickets_conserved]), but a caller that meets the result of
      another stops the channel ([no_delivery_after_foreign_front]).
    - Rates: what a bucket lets through is bounded by its refills, which are a
      period apart, against an abstract bucket of integers ([rate_is_limited],
      [tokens_within_capacity], [enforce_consumes_payload]); with the refill
      thread under all interleavings ([refills_bound_consumers]); consumers
      are served ([try_consume_terminates], [refills_serve_consumers]), unless
      the capacity is lowered below their share ([lowered_capacity_starves]).
      End to end, the writes of a layer that a limiter serves move no more bytes
      than its bucket lets through ([writes_are_limited]) and all return,
      each with the answer of its system call ([writes_return]), at the rate that the control plane asks for
      ([control_plane_sets_rate]).
    - Locks: the calls on a submission queue are atomic ([calls_are_atomic]); a
      request gives the lock back when its limiter can serve
      ([requests_release_lock]), and never when it cannot
      ([no_capacity_closes_queue]).
    - State: the invariants of channels, core, agent and stage hold after every
      sequence of operations ([channel_invariant], [core_invariant],
      [agent_invariant], [stage_invariant], [listen_keeps_core]); so do the
      counters of the rule tables and statistics ([housekeeping_counters],
      [counters_account]).
    - Memory: results behave as values whatever is copied, moved and assigned
      ([results_are_values]), with the leaks of [results_leak]; tickets
      do not ([assigned_ticket_freed_twice]).
    - Rules: [create_channel_outcome] on every branch, at most one execution of a
      rule ([rule_executed_once]), the outcome of a pass over the table
      ([execute_housekeeping_rules_outcome]).
    - Files and messages: what is printed is read back ([rules_file_roundtrip]),
      the rules and then the configurations of the files of an agent are employed
      one after the other, and what makes the stage ready is the status of the last
      rule ([files_take_effect]); the description of
      a stage survives its serialization ([serialize_roundtrip]), what was logged
      can be told from the log ([log_reads_back]); a read from a socket leaves the
      members that its bytes cover as the peer has them and the others as they were
      ([received_structure_typed]).
    - Control plane: the handler refines a specification of requests and answers,
      for one request and for a whole conversation ([request_served],
      [listen_serves_requests]); the handshake exchanges what it should
      ([handshake_exchange]).
    - Layers: a write is enforced before it is made ([write_enforced_first]); a
      request waits for the stage ([enforce_until_ready], [enforce_when_ready]).
    - Runs: the microbenchmark with the options and the files of the repository
      ends with one worker or two, for operations of any size, through one channel
      ([two_workers_share_channel]), and never with more
      ([three_workers_never_start]); the advanced test of the rate limiter is
      limited by the rate of its flag on every schedule
      ([adjusted_enforcement_is_limited]) and ends on every schedule
      ([adjusted_enforcement_ends]) when this rate is positive, unless a rate of 0 is
      drawn ([zero_rate_stops]); the threads of the no-op test lose no ticket
      ([noop_test_counts]), and the hash test prints the words of the
      token builder ([hash_test_outputs]).
    - Errors: the theorems on refused requests, on messages and statistics out of
      bounds, on the default files and on the southbound connection say what the
      code does where it fails.

    ** What is not modelled

    The text of the log messages of the components and of the [to_string] and
    [list] operations, which only people read; the durations of sleeps; mutexes
    of components that are modelled one operation at a time; the default
    constructors that leave null pointers; the start and the join of the refill
    thread of a limiter; the flags and the reports of the benchmarks; the tests,
    which drive single classes and print.
    Memory is modelled where the code can go wrong with it: copies, arrays with
    their lengths, structures on sockets; the allocator is not. *)

From stdpp Require Export base tactics list gmap strings pretty numbers.
From Stdlib Require Export ZArith Lia.

#[global] Open Scope Z_scope.

(** ** Outcomes

    A C++ call ends in one of three ways: it returns a value, it throws, or
    the run is lost ([Crash]): the program did something the language leaves
    undefined, an [assert] failed, it waits for what no other thread will do, an
    exception left a thread and the program was terminated, or the fuel of a loop
    of the model ran out before the loop did.  An exception keeps the state
    reached so far, as the objects of the program survive the unwinding. *)

Inductive exn :=
| LogicError (what : string)
| RuntimeError (what : string)
| OutOfRange (what : string)
| InvalidArgument (what : string)
| BadFunctionCall.

Inductive crash :=
| UndefinedBehaviour (what : string)
| AssertionFailed (what : string)
| Deadlock (what : string)
| Terminated (what : string)
| OutOfFuel.

Inductive Outcome (S A : Type) :=
| Ok (a : A) (s : S) (t : nat)
| Raise (e : exn) (s : S) (t : nat)
| Crash (c : crash).
Arguments Ok {S A} a s t.
Arguments Raise {S A} e s t.
Arguments Crash {S A} c.

(** ** The state monad of the components

    [M S A] runs on a component state [S]; the natural number that is threaded
    along counts the readings of the system clock taken so far. *)

Definition M (S A : Type) : Type := S -> nat -> Outcome S A.

#[export] Instance M_ret S : MRet (M S) := fun A a s t => Ok a s t.

#[export] Instance M_bind S : MBind (M S) := fun A B f m s t =>
  match m s t with
  | Ok a s' t' => f a s' t'
  | Raise e s' t' => Raise e s' t'
  | Crash c => Crash c
  end.

Definition gets {S A} (f : S -> A) : M S A := fun s t => Ok (f s) s t.
Definition modify {S} (f : S -> S) : M S unit := fun s t => Ok tt (f s) t.
Definition throw {S A} (e : exn) : M S A := fun s t => Raise e s t.
Definition crash_with {S A} (c : crash) : M S A := fun _ _ => Crash c.

(** A pure state transformer as a computation. *)
Definition state {S A} (f : S -> A * S) : M S A :=
  fun s t => let '(a, s') := f s in Ok a s' t.

(** Run a computation of a part [T] of the state [S]. *)
Definition zoom {S T A} (get : S -> T) (set : T -> S -> S) (m : M T A) : M S A :=
  fun s t =>
    match m (get s) t with
    | Ok a x t' => Ok a (set x s) t'
    | Raise e x t' => Raise e (set x s) t'
    | Crash c => Crash c
    end.

(** The readings of [std::chrono::system_clock], in microseconds since the
    epoch: the n-th reading the program takes. *)
Class SystemClock := clock_at : nat -> Z.

Definition now `{SystemClock} {S} : M S Z := fun s t => Ok (clock_at t) s (Datatypes.S t).

(** The clock gets past every instant, for good. *)
Definition clock_progress `{SystemClock} : Prop :=
  forall instant : Z, exists n : nat, forall m : nat, (n <= m)%nat -> instant <= clock_at m.

(** Vector access.  [v.at (i)] throws out of range, [v[i]] is undefined there. *)
Definition vector_index {S A} (v : list A) (i : Z) : M S A :=
  match decide (0 <= i) with
  | left _ =>
      match v !! Z.to_nat i with
      | Some x => mret x
      | None => crash_with (UndefinedBehaviour "vector index out of range")
      end
  | right _ => crash_with (UndefinedBehaviour "vector index out of range")
  end.

Definition vector_at {S A} (v : list A) (i : Z) : M S A :=
  match decide (0 <= i) with
  | left _ =>
      match v !! Z.to_nat i with
      | Some x => mret x
      | None => throw (OutOfRange "vector::at")
      end
  | right _ => throw (OutOfRange "vector::at")
  end.

Lemma vector_index_state {S A} (v : list A) i (s s' : S) t t' x :
  vector_index v i s t = Ok x s' t' -> s' = s /\ t' = t.
Proof. unfold vector_index. repeat case_match; [by intros [= <- <- <-]|done..]. Qed.

(** ** Outcome predicates *)

(** The run neither throws nor is lost, and its end satisfies [Q]. *)
Definition returns {S A} (o : Outcome S A) (Q : A -> S -> nat -> Prop) : Prop :=
  match o with Ok a s t => Q a s t | _ => False end.

(** Whatever way the run ends, short of a loss, the state satisfies [P]. *)
Definition keeps {S A} (P : S -> Prop) (o : Outcome S A) : Prop :=
  match o with Ok _ s _ | Raise _ s _ => P s | Crash _ => True end.

(** The run returned, as a test that evaluates. *)
Definition is_Ok {S A} (o : Outcome S A) : bool := match o with Ok _ _ _ => true | _ => false end.

Lemma is_Ok_inv {S A} (o : Outcome S A) : is_Ok o = true -> exists a s t, o = Ok a s t.
Proof. destruct o; [eauto|done..]. Qed.

Lemma returns_inv {S A} (o : Outcome S A) Q :
  returns o Q -> exists a s t, o = Ok a s t /\ Q a s t.
Proof. destruct o; simpl; [eauto | done | done]. Qed.

Lemma bind_Ok {S A B} (m : M S A) (f : A -> M S B) s t a s' t' :
  m s t = Ok a s' t' -> (m ≫= f) s t = f a s' t'.
Proof. intros H. unfold mbind, M_bind. by rewrite H. Qed.

Lemma bind_Ok_inv {S A B} (m : M S A) (f : A -> M S B) s t b s'' t'' :
  (m ≫= f) s t = Ok b s'' t'' ->
  exists a s' t', m s t = Ok a s' t' /\ f a s' t' = Ok b s'' t''.
Proof. unfold mbind, M_bind. destruct (m s t); [eauto|done..]. Qed.

Lemma bind_Crash {S A B} (m : M S A) (f : A -> M S B) s t c :
  m s t = Crash c -> (m ≫= f) s t = Crash c.
Proof. intros H. unfold mbind, M_bind. by rewrite H. Qed.

Lemma bind_Raise {S A B} (m : M S A) (f : A -> M S B) s t e s' t' :
  m s t = Raise e s' t' -> (m ≫= f) s t = Raise e s' t'.
Proof. intros H. unfold mbind, M_bind. by rewrite H. Qed.

Lemma zoom_Ok {S T A} (get : S -> T) set (m : M T A) s t a x t' :
  m (get s) t = Ok a x t' -> zoom get set m s t = Ok a (set x s) t'.
Proof. intros H. unfold zoom. by rewrite H. Qed.

Lemma returns_bind {S A B} (m : M S A) (f : A -> M S B) s t Q :
  returns (m s t) (fun a s' t' => returns (f a s' t') Q) -> returns ((m ≫= f) s t) Q.
Proof. unfold mbind, M_bind. by destruct (m s t). Qed.

Lemma returns_mono {S A} (o : Outcome S A) (Q Q' : A -> S -> nat -> Prop) :
  (forall a s t, Q a s t -> Q' a s t) -> returns o Q -> returns o Q'.
Proof. destruct o; simpl; auto. Qed.

Lemma keeps_bind {S A B} P (m : M S A) (f : A -> M S B) s t :
  keeps P (m s t) -> (forall a s' t', P s' -> keeps P (f a s' t')) ->
  keeps P ((m ≫= f) s t).
Proof. unfold mbind, M_bind. destruct (m s t); simpl; auto. Qed.

(** The same when the first part keeps something stronger. *)
Lemma keeps_bind_stronger {S A B} (P' P : S -> Prop) (m : M S A) (f : A -> M S B) s t :
  keeps P' (m s t) -> (forall s', P' s' -> P s') ->
  (forall a s' t', P' s' -> keeps P (f a s' t')) -> keeps P ((m ≫= f) s t).
Proof. unfold mbind, M_bind. destruct (m s t); simpl; auto. Qed.

Lemma keeps_zoom {S T A} (PT : T -> Prop) (PS : S -> Prop) get set (m : M T A) s t :
  keeps PT (m (get s) t) -> (forall x, PT x -> PS (set x s)) ->
  keeps PS (zoom get set m s t).
Proof. unfold zoom. destruct (m (get s) t); simpl; auto. Qed.

Lemma returns_keeps {S A} (o : Outcome S A) (P : S -> Prop) :
  returns o (fun _ s _ => P s) -> keeps P o.
Proof. by destruct o. Qed.

Lemma vector_index_keeps {S A} (P : S -> Prop) (v : list A) i s n :
  P s -> keeps P (vector_index v i s n).
Proof. intros Hp. unfold vector_index. destruct (decide _); [|done]. by destruct (v !! _). Qed.

Lemma zoom_Ok_inv {S T A} (get : S -> T) set (m : M T A) s t a s' t' :
  zoom get set m s t = Ok a s' t' -> exists x, m (get s) t = Ok a x t' /\ s' = set x s.
Proof. unfold zoom. destruct (m (get s) t); [|done..]. intros [= <- <- <-]. eauto. Qed.

(** Computations on a part run one after the other as one on the part. *)
Lemma zoom_bind {S T A B} (get : S -> T) set (m : M T A) (f : A -> M T B) s t :
  (forall x s, get (set x s) = x) -> (forall x y s, set y (set x s) = set y s) ->
  (zoom get set m ≫= fun a => zoom get set (f a)) s t = zoom get set (m ≫= f) s t.
Proof.
  intros Hget Hset. unfold zoom, mbind, M_bind. destruct (m (get s) t) as [a x t'| |]; [|done..].
  rewrite Hget. destruct (f a x t'); by rewrite ?Hset.
Qed.

(** The end of a run, its state mapped. *)
Definition outcome_map {S T A} (g : S -> T) (o : Outcome S A) : Outcome T A :=
  match o with
  | Ok a s t => Ok a (g s) t
  | Raise e s t => Raise e (g s) t
  | Crash c => Crash c
  end.

Lemma gets_bind {S A B} (g : S -> A) (f : A -> M S B) s t : (gets g ≫= f) s t = f (g s) s t.
Proof. done. Qed.

Lemma modify_bind {S B} (g : S -> S) (f : unit -> M S B) s t :
  (modify g ≫= f) s t = f tt (g s) t.
Proof. done. Qed.

Lemma ret_bind {S A B} (a : A) (f : A -> M S B) s t : (mret a ≫= f) s t = f a s t.
Proof. done. Qed.

Create HintDb paio.
#[export] Hint Resolve returns_keeps : paio.

(** ** Distinct keys *)

(** A check, by a map of the keys seen so far, that the keys are distinct. *)
Fixpoint distinct_from (seen : gmap Z unit) (l : list Z) : bool :=
  match l with
  | [] => true
  | x :: l =>
      match seen !! x with
      | Some _ => false
      | None => distinct_from (<[x := tt]> seen) l
      end
  end.

Lemma distinct_from_sound l : forall seen, distinct_from seen l = true ->
  NoDup l /\ forall x, x ∈ l -> seen !! x = None.
Proof.
  induction l as [|y l IH]; intros seen H; simpl in H.
  - split; [constructor|]. intros x Hx. by apply not_elem_of_nil in Hx.
  - destruct (seen !! y) eqn:Hy; [done|]. destruct (IH _ H) as [Hnd Hfresh]. split.
    + constructor; [|done]. intros Hin. apply Hfresh in Hin. by rewrite lookup_insert_eq in Hin.
    + intros x [->|Hx]%elem_of_cons; [done|]. apply Hfresh in Hx.
      by apply lookup_insert_None in Hx as [? ?].
Qed.

Lemma distinct_sound l : distinct_from ∅ l = true -> NoDup l.
Proof. intros H. by apply distinct_from_sound in H as [? _]. Qed.

Lemma filter_Forall {A} (P : A -> Prop) `{!forall x, Decision (P x)} l :
  Forall P l -> filter P l = l.
Proof. induction 1; [done|]. rewrite filter_cons_True by done. by f_equal. Qed.

Lemma length_omap_le {A B} (f : A -> option B) l : (length (omap f l) <= length l)%nat.
Proof. induction l as [|x l IH]; [done|]. cbn. destruct (f x); cbn; fold (omap f l); lia. Qed.

(** A map without repeated values is injective on its domain. *)
Lemma NoDup_fmap_inj {A B} (f : A -> B) l x y :
  NoDup (f <$> l) -> x ∈ l -> y ∈ l -> f x = f y -> x = y.
Proof.
  intros Hnd [i Hi]%list_elem_of_lookup_1 [j Hj]%list_elem_of_lookup_1 Heq.
  assert (i = j) as <-.
  { apply (NoDup_lookup (f <$> l) i j (f x)); [done|by rewrite list_lookup_fmap, Hi|].
    rewrite list_lookup_fmap, Hj. simpl. by rewrite Heq. }
  congruence.
Qed.

(** ** Tactics *)

(** Split every conditional, [decide] and [match] of the goal. *)
Ltac cases_goal := repeat (case_decide || case_match); simplify_eq/=.

(** Split a run that returned into the runs of its parts. *)
Ltac run_inv H :=
  rewrite ?gets_bind, ?modify_bind, ?ret_bind in H;
  match type of H with
  | (_ ≫= _) _ _ = Ok _ _ _ =>
      let a := fresh "a" in let s := fresh "s" in let n := fresh "n" in
      let H1 := fresh "Hrun" in
      apply bind_Ok_inv in H as (a & s & n & H1 & H); run_inv H
  | mret _ _ _ = Ok _ _ _ => injection H as <- <- <-
  | modify _ _ _ = Ok _ _ _ => injection H as <- <- <-
  | _ => idtac
  end.

(** [lia] with the quotients and remainders of the goal eliminated. *)
Ltac dlia := zify; Z.to_euclidean_division_equations; lia.

(** Reduce the boolean integer tests of the context to propositions. *)
Ltac bools := repeat match goal with
  | H : (_ <=? _) = true |- _ => apply Z.leb_le in H
  | H : (_ <=? _) = false |- _ => apply Z.leb_gt in H
  | H : (_ <? _) = true |- _ => apply Z.ltb_lt in H
  | H : (_ <? _) = false |- _ => apply Z.ltb_ge in H
  | H : (_ =? _) = true |- _ => apply Z.eqb_eq in H
  | H : (_ =? _) = false |- _ => apply Z.eqb_neq in H
  | H : (_ && _)%bool = true |- _ => apply andb_true_iff in H as [? ?]
  | H : (_ || _)%bool = false |- _ => apply orb_false_iff in H as [? ?]
  end.
