(* ===== verification/MachineInt.v ===== *)
(** * Machine integers

    The fixed-width integers of the code as [Z], with the conversion of a value
    to a width written out: [u32] and [u64] for the unsigned types, [s32] and
    [s64] for [int] and [long].  The lemmas state that the operations the hash
    functions are made of (rotation, xor with a shifted copy, multiplication by
    an odd constant) are injective on their width. *)

From S2P Require Import Prelude.

Definition u8 (z : Z) : Z := z mod 2 ^ 8.
Definition u32 (z : Z) : Z := z mod 2 ^ 32.
Definition u64 (z : Z) : Z := z mod 2 ^ 64.
Definition s8 (z : Z) : Z := (z + 2 ^ 7) mod 2 ^ 8 - 2 ^ 7.
Definition s32 (z : Z) : Z := (z + 2 ^ 31) mod 2 ^ 32 - 2 ^ 31.
Definition s64 (z : Z) : Z := (z + 2 ^ 63) mod 2 ^ 64 - 2 ^ 63.

Definition int_max : Z := 2 ^ 31 - 1.
Definition int_min : Z := - 2 ^ 31.
Definition long_max : Z := 2 ^ 63 - 1.
Definition long_min : Z := - 2 ^ 63.

(** Values of a width. *)
Definition word (w x : Z) : Prop := 0 <= x < 2 ^ w.
Definition is_int (x : Z) : Prop := int_min <= x <= int_max.
Definition is_long (x : Z) : Prop := long_min <= x <= long_max.

#[export] Instance word_dec w x : Decision (word w x).
Proof. unfold word. apply _. Defined.
#[export] Instance is_int_dec x : Decision (is_int x).
Proof. unfold is_int. apply _. Defined.
#[export] Instance is_long_dec x : Decision (is_long x).
Proof. unfold is_long. apply _. Defined.

(** The operations of the hash functions on a width [w]. *)
Definition rotl (w x r : Z) : Z := Z.lor (Z.shiftl x r mod 2 ^ w) (Z.shiftr x (w - r)).
Definition xorshr (x r : Z) : Z := Z.lxor x (Z.shiftr x r).
Definition mulw (w x c : Z) : Z := x * c mod 2 ^ w.
Definition addw (w x c : Z) : Z := (x + c) mod 2 ^ w.

(** ** Ranges *)

Lemma u32_word z : word 32 (u32 z).
Proof. apply Z.mod_pos_bound. lia. Qed.

Lemma u64_word z : word 64 (u64 z).
Proof. apply Z.mod_pos_bound. lia. Qed.

Lemma mulw_word w x c : 0 <= w -> word w (mulw w x c).
Proof. intros. apply Z.mod_pos_bound. lia. Qed.

Lemma addw_word w x c : 0 <= w -> word w (addw w x c).
Proof. intros. apply Z.mod_pos_bound. lia. Qed.

Lemma u32_small z : word 32 z -> u32 z = z.
Proof. intros H. by apply Z.mod_small. Qed.

Lemma u64_small z : word 64 z -> u64 z = z.
Proof. intros H. by apply Z.mod_small. Qed.

Lemma s64_range z : is_long (s64 z).
Proof.
  unfold is_long, s64, long_min, long_max.
  pose proof (Z.mod_pos_bound (z + 2 ^ 63) (2 ^ 64)). lia.
Qed.

Lemma s64_small z : is_long z -> s64 z = z.
Proof.
  unfold is_long, s64, long_min, long_max. intros H. rewrite Z.mod_small; lia.
Qed.

Lemma s32_small z : is_int z -> s32 z = z.
Proof.
  unfold s32, is_int, int_min, int_max. intros Hz.
  rewrite Z.mod_small by lia. lia.
Qed.

Lemma word_testbit w x n : 0 <= w -> word w x -> w <= n -> Z.testbit x n = false.
Proof.
  intros Hw [H0 H1] Hn. destruct (Z.eq_dec x 0) as [-> | Hx]; [by rewrite Z.bits_0|].
  apply Z.bits_above_log2; [lia|]. apply Z.log2_lt_pow2; [lia|].
  eapply Z.lt_le_trans; [exact H1|]. apply Z.pow_le_mono_r; lia.
Qed.

Lemma bits_word w x :
  0 <= w -> 0 <= x -> (forall n, w <= n -> Z.testbit x n = false) -> word w x.
Proof.
  intros Hw Hx H. split; [done|].
  destruct (Z.eq_dec x 0) as [-> | Hne]; [lia|].
  apply Z.log2_lt_pow2; [lia|].
  destruct (Z.lt_ge_cases (Z.log2 x) w) as [|Hge]; [done|exfalso].
  specialize (H (Z.log2 x) Hge). rewrite Z.bit_log2 in H; [done|lia].
Qed.

Lemma lxor_word w x y : 0 <= w -> word w x -> word w y -> word w (Z.lxor x y).
Proof.
  intros Hw Hx Hy. apply bits_word; [done| |].
  - apply Z.lxor_nonneg. unfold word in *. lia.
  - intros n Hn. rewrite Z.lxor_spec, !(word_testbit w) by done. done.
Qed.

Lemma lor_word w x y : 0 <= w -> word w x -> word w y -> word w (Z.lor x y).
Proof.
  intros Hw Hx Hy. apply bits_word; [done| |].
  - apply Z.lor_nonneg. unfold word in *. lia.
  - intros n Hn. rewrite Z.lor_spec, !(word_testbit w) by done. done.
Qed.

Lemma shiftr_word w x r : 0 <= r -> word w x -> word w (Z.shiftr x r).
Proof.
  intros Hr [H0 H1]. rewrite Z.shiftr_div_pow2 by done. split.
  - apply Z.div_pos; lia.
  - apply Z.div_lt_upper_bound; [lia|]. nia.
Qed.

Lemma xorshr_word w x r : 0 <= w -> 0 <= r -> word w x -> word w (xorshr x r).
Proof. intros. unfold xorshr. apply lxor_word; [done..|]. by apply shiftr_word. Qed.

Lemma rotl_word w x r : 0 <= r <= w -> word w x -> word w (rotl w x r).
Proof.
  intros Hr Hx. unfold rotl. apply lor_word; [lia| |].
  - apply Z.mod_pos_bound. lia.
  - apply shiftr_word; [lia|done].
Qed.

#[export] Hint Resolve u32_word u64_word mulw_word addw_word lxor_word lor_word
  shiftr_word xorshr_word rotl_word : paio.

(** Close a [word] goal made of the operations above. *)
Ltac word_tac := cbv zeta; repeat (try assumption; lazymatch goal with
  | |- word _ (u32 _) => apply u32_word
  | |- word _ (u64 _) => apply u64_word
  | |- word _ (mulw _ _ _) => apply mulw_word; lia
  | |- word _ (addw _ _ _) => apply addw_word; lia
  | |- word _ (xorshr _ _) => apply xorshr_word; [lia|lia|]
  | |- word _ (Z.lxor _ _) => apply lxor_word; [lia| |]
  | |- word _ (rotl _ _ _) => apply rotl_word; [lia|]
  | |- word _ _ => unfold word; lia
  end).

(** ** Injectivity *)

Lemma lxor_inj_r a b c : Z.lxor a c = Z.lxor b c -> a = b.
Proof.
  intros H. apply (f_equal (fun z => Z.lxor z c)) in H.
  by rewrite !Z.lxor_assoc, Z.lxor_nilpotent, !Z.lxor_0_r in H.
Qed.

Lemma lxor_inj_l a b c : Z.lxor c a = Z.lxor c b -> a = b.
Proof. rewrite !(Z.lxor_comm c). apply lxor_inj_r. Qed.

Lemma xorshr_inj x y r : 0 <= x -> 0 <= y -> 0 < r -> xorshr x r = xorshr y r -> x = y.
Proof.
  unfold xorshr. intros Hx Hy Hr H.
  assert (Hd : Z.lxor x y = Z.shiftr (Z.lxor x y) r).
  { rewrite Z.shiftr_lxor. apply Z.bits_inj'. intros n Hn.
    apply (f_equal (fun z => Z.testbit z n)) in H.
    rewrite !Z.lxor_spec in *.
    destruct (Z.testbit x n), (Z.testbit y n), (Z.testbit (Z.shiftr x r) n),
      (Z.testbit (Z.shiftr y r) n); simpl in *; congruence. }
  assert (H0 : 0 <= Z.lxor x y) by (apply Z.lxor_nonneg; lia).
  apply Z.lxor_eq. destruct (Z.eq_dec (Z.lxor x y) 0) as [->|Hne]; [done|exfalso].
  rewrite Z.shiftr_div_pow2 in Hd by lia.
  assert (Z.lxor x y / 2 ^ r < Z.lxor x y); [|lia].
  apply Z.div_lt; [lia|]. change 1 with (2 ^ 0). apply Z.pow_lt_mono_r; lia.
Qed.

Lemma mulw_inj w x y c ci :
  0 <= w -> c * ci mod 2 ^ w = 1 mod 2 ^ w -> word w x -> word w y ->
  mulw w x c = mulw w y c -> x = y.
Proof.
  unfold mulw. intros Hw Hc Hx Hy H.
  apply (f_equal (fun z => z * ci mod 2 ^ w)) in H.
  rewrite !Z.mul_mod_idemp_l, <- !Z.mul_assoc in H by lia.
  rewrite <- (Z.mul_mod_idemp_r x), <- (Z.mul_mod_idemp_r y), Hc in H by lia.
  rewrite !Z.mul_mod_idemp_r, !Z.mul_1_r, !Z.mod_small in H by (done || lia). done.
Qed.

Lemma addw_inj w x y c : 0 <= w -> word w x -> word w y -> addw w x c = addw w y c -> x = y.
Proof.
  unfold addw. intros Hw Hx Hy H.
  apply (f_equal (fun z => (z - c) mod 2 ^ w)) in H.
  rewrite !Zminus_mod_idemp_l, !Z.add_simpl_r, !Z.mod_small in H by done. done.
Qed.

Lemma lor_disjoint a b r : 0 <= r -> 0 <= b < 2 ^ r -> Z.lor (a * 2 ^ r) b = a * 2 ^ r + b.
Proof.
  intros Hr Hb. rewrite <- Z.add_lor_land.
  replace (Z.land (a * 2 ^ r) b) with 0; [lia|].
  symmetry. apply Z.bits_inj'. intros n Hn. rewrite Z.bits_0, Z.land_spec.
  destruct (decide (n < r)).
  - by rewrite Z.mul_pow2_bits_low.
  - rewrite (word_testbit r b); [|lia|done|lia]. by rewrite andb_false_r.
Qed.

Lemma lxor_disjoint a b r : 0 <= r -> 0 <= b < 2 ^ r -> Z.lxor (Z.shiftl a r) b = a * 2 ^ r + b.
Proof.
  intros Hr Hb. rewrite <- (lor_disjoint a b r), Z.shiftl_mul_pow2 by done.
  apply Z.lxor_lor, Z.bits_inj'. intros n Hn. rewrite Z.bits_0, Z.land_spec.
  destruct (decide (n < r)).
  - by rewrite Z.mul_pow2_bits_low.
  - rewrite (word_testbit r b); [|lia|done|lia]. by rewrite andb_false_r.
Qed.

Lemma rotl_arith w x r : 0 <= r <= w -> word w x ->
  rotl w x r = x mod 2 ^ (w - r) * 2 ^ r + x / 2 ^ (w - r).
Proof.
  intros Hr [H0 H1]. unfold rotl.
  assert (Hp : 2 ^ w = 2 ^ (w - r) * 2 ^ r) by (rewrite <- Z.pow_add_r; [f_equal|..]; lia).
  rewrite Z.shiftl_mul_pow2, Z.shiftr_div_pow2 by lia.
  rewrite Hp, Z.mul_mod_distr_r by lia.
  apply lor_disjoint; [lia|]. split; [apply Z.div_pos; lia|].
  apply Z.div_lt_upper_bound; lia.
Qed.

Lemma rotl_inj w x y r : 0 <= r <= w -> word w x -> word w y ->
  rotl w x r = rotl w y r -> x = y.
Proof.
  intros Hr Hx Hy. rewrite !rotl_arith by done. intros H.
  assert (Hd : forall z, word w z -> 0 <= z / 2 ^ (w - r) < 2 ^ r).
  { intros z [? Hz]. split; [apply Z.div_pos; lia|].
    apply Z.div_lt_upper_bound; [lia|]. rewrite <- Z.pow_add_r by lia.
    replace (w - r + r) with w by lia. done. }
  pose proof (Hd x Hx). pose proof (Hd y Hy).
  rewrite (Z.div_mod x (2 ^ (w - r))), (Z.div_mod y (2 ^ (w - r))) by lia.
  assert (x mod 2 ^ (w - r) = y mod 2 ^ (w - r) /\ x / 2 ^ (w - r) = y / 2 ^ (w - r))
    as [-> ->]; [|done].
  apply (Z.div_mod_unique (2 ^ r)); [by left..|]. lia.
Qed.
