(* ===== verification/Murmur.v ===== *)
(** * MurmurHash3

    [src/src/utils/murmurhash.cpp]: the three hash functions the token builder
    can be bound to.  A message is the list of its bytes ([Z] in [0, 256));
    blocks are loaded little-endian, as on the x86 targets of the code.  The
    fall-through switches on the tail are written as the sequence of steps they
    run.  The theorems: a word of the width comes out, and the 32-bit function
    does not collide on two messages of one length that differ inside a single
    aligned block of four bytes. *)

From S2P Require Import Prelude MachineInt.

Module MurmurHash3.

Definition m_seed : Z := 42.

Definition rotl32 (x r : Z) : Z := rotl 32 x r.
Definition rotl64 (x r : Z) : Z := rotl 64 x r.

(** The [i]-th byte of the data; the code reads below [size] only. *)
Definition byte (data : list Z) (i : nat) : Z := nth i data 0.

Definition getblock32 (p : list Z) (i : nat) : Z :=
  byte p (4 * i) + 2 ^ 8 * byte p (4 * i + 1) + 2 ^ 16 * byte p (4 * i + 2)
  + 2 ^ 24 * byte p (4 * i + 3).

Definition getblock64 (p : list Z) (i : nat) : Z :=
  getblock32 p (2 * i) + 2 ^ 32 * getblock32 p (2 * i + 1).

Definition fmix32 (h : Z) : Z :=
  let h := xorshr h 16 in
  let h := mulw 32 h 0x85ebca6b in
  let h := xorshr h 13 in
  let h := mulw 32 h 0xc2b2ae35 in
  xorshr h 16.

Definition fmix64 (k : Z) : Z :=
  let k := xorshr k 33 in
  let k := mulw 64 k 0xff51afd7ed558ccd in
  let k := xorshr k 33 in
  let k := mulw 64 k 0xc4ceb9fe1a85ec53 in
  xorshr k 33.

(** *** MurmurHash3_x86_32 *)

Definition c1_32 : Z := 0xcc9e2d51.
Definition c2_32 : Z := 0x1b873593.

(** The scrambling of a block (or of the tail) before it enters the hash. *)
Definition scramble_x86_32 (k1 : Z) : Z :=
  let k1 := mulw 32 k1 c1_32 in
  let k1 := rotl32 k1 15 in
  mulw 32 k1 c2_32.

(** The body of the loop over the blocks. *)
Definition round_x86_32 (h1 k1 : Z) : Z :=
  let h1 := Z.lxor h1 (scramble_x86_32 k1) in
  let h1 := rotl32 h1 13 in
  addw 32 (mulw 32 h1 5) 0xe6546b64.

(** The loop over [n] blocks, the block pointer advancing by four bytes. *)
Fixpoint body_x86_32 (blocks : list Z) (n : nat) (h1 : Z) : Z :=
  match n with
  | O => h1
  | S n => body_x86_32 (drop 4 blocks) n (round_x86_32 h1 (getblock32 blocks 0))
  end.

Definition tail_x86_32 (tail : list Z) (size : Z) (h1 : Z) : Z :=
  let r := Z.land size 3 in
  let k1 := 0 in
  let k1 := if r =? 3 then Z.lxor k1 (Z.shiftl (byte tail 2) 16) else k1 in
  let k1 := if 2 <=? r then Z.lxor k1 (Z.shiftl (byte tail 1) 8) else k1 in
  if 1 <=? r
  then let k1 := Z.lxor k1 (byte tail 0) in Z.lxor h1 (scramble_x86_32 k1)
  else h1.

Definition MurmurHash3_x86_32 (message : list Z) : Z :=
  let size := Z.of_nat (length message) in
  let nblocks := Z.to_nat (size / 4) in
  let h1 := body_x86_32 message nblocks m_seed in
  let h1 := tail_x86_32 (drop (nblocks * 4) message) size h1 in
  let h1 := Z.lxor h1 (u32 size) in
  fmix32 h1.

(** *** MurmurHash3_x86_128 *)

Definition c1_128 : Z := 0x239b961b.
Definition c2_128 : Z := 0xab0e9789.
Definition c3_128 : Z := 0x38b34ae5.
Definition c4_128 : Z := 0xa1e38b93.

Definition scramble32 (ca cb r k : Z) : Z := mulw 32 (rotl32 (mulw 32 k ca) r) cb.

Definition round_x86_128 (h : Z * Z * Z * Z) (k1 k2 k3 k4 : Z) : Z * Z * Z * Z :=
  let '(h1, h2, h3, h4) := h in
  let h1 := Z.lxor h1 (scramble32 c1_128 c2_128 15 k1) in
  let h1 := rotl32 h1 19 in
  let h1 := addw 32 h1 h2 in
  let h1 := addw 32 (mulw 32 h1 5) 0x561ccd1b in
  let h2 := Z.lxor h2 (scramble32 c2_128 c3_128 16 k2) in
  let h2 := rotl32 h2 17 in
  let h2 := addw 32 h2 h3 in
  let h2 := addw 32 (mulw 32 h2 5) 0x0bcaa747 in
  let h3 := Z.lxor h3 (scramble32 c3_128 c4_128 17 k3) in
  let h3 := rotl32 h3 15 in
  let h3 := addw 32 h3 h4 in
  let h3 := addw 32 (mulw 32 h3 5) 0x96cd1c35 in
  let h4 := Z.lxor h4 (scramble32 c4_128 c1_128 18 k4) in
  let h4 := rotl32 h4 13 in
  let h4 := addw 32 h4 h1 in
  let h4 := addw 32 (mulw 32 h4 5) 0x32ac3b17 in
  (h1, h2, h3, h4).

Fixpoint body_x86_128 (blocks : list Z) (n : nat) (h : Z * Z * Z * Z) : Z * Z * Z * Z :=
  match n with
  | O => h
  | S n =>
      body_x86_128 (drop 16 blocks) n
        (round_x86_128 h (getblock32 blocks 0) (getblock32 blocks 1)
           (getblock32 blocks 2) (getblock32 blocks 3))
  end.

(** A step [k ^= tail[i] << s] of the tail switch, run when the switch entered
    at or above its label. *)
Definition tail_step (tail : list Z) (r label : Z) (i : nat) (s k : Z) : Z :=
  if label <=? r then Z.lxor k (Z.shiftl (byte tail i) s) else k.

Definition tail_x86_128 (tail : list Z) (size : Z) (h : Z * Z * Z * Z) : Z * Z * Z * Z :=
  let '(h1, h2, h3, h4) := h in
  let r := Z.land size 15 in
  let st := tail_step tail r in
  let k4 := st 13 12%nat 0 (st 14 13%nat 8 (st 15 14%nat 16 0)) in
  let h4 := if 13 <=? r then Z.lxor h4 (scramble32 c4_128 c1_128 18 k4) else h4 in
  let k3 := st 9 8%nat 0 (st 10 9%nat 8 (st 11 10%nat 16 (st 12 11%nat 24 0))) in
  let h3 := if 9 <=? r then Z.lxor h3 (scramble32 c3_128 c4_128 17 k3) else h3 in
  let k2 := st 5 4%nat 0 (st 6 5%nat 8 (st 7 6%nat 16 (st 8 7%nat 24 0))) in
  let h2 := if 5 <=? r then Z.lxor h2 (scramble32 c2_128 c3_128 16 k2) else h2 in
  let k1 := st 1 0%nat 0 (st 2 1%nat 8 (st 3 2%nat 16 (st 4 3%nat 24 0))) in
  let h1 := if 1 <=? r then Z.lxor h1 (scramble32 c1_128 c2_128 15 k1) else h1 in
  (h1, h2, h3, h4).

(** The cross additions that open and close the finalization. *)
Definition cross_x86_128 (h : Z * Z * Z * Z) : Z * Z * Z * Z :=
  let '(h1, h2, h3, h4) := h in
  let h1 := addw 32 h1 h2 in
  let h1 := addw 32 h1 h3 in
  let h1 := addw 32 h1 h4 in
  (h1, addw 32 h2 h1, addw 32 h3 h1, addw 32 h4 h1).

Definition MurmurHash3_x86_128 (message : list Z) : list Z :=
  let size := Z.of_nat (length message) in
  let nblocks := Z.to_nat (size / 16) in
  let h := body_x86_128 message nblocks (m_seed, m_seed, m_seed, m_seed) in
  let '(h1, h2, h3, h4) := tail_x86_128 (drop (nblocks * 16) message) size h in
  let sz := u32 size in
  let '(h1, h2, h3, h4) :=
    cross_x86_128 (Z.lxor h1 sz, Z.lxor h2 sz, Z.lxor h3 sz, Z.lxor h4 sz) in
  let '(h1, h2, h3, h4) := cross_x86_128 (fmix32 h1, fmix32 h2, fmix32 h3, fmix32 h4) in
  [h1; h2; h3; h4].

(** *** MurmurHash3_x64_128 *)

Definition c1_64 : Z := 0x87c37b91114253d5.
Definition c2_64 : Z := 0x4cf5ad432745937f.

Definition scramble64 (ca cb r k : Z) : Z := mulw 64 (rotl64 (mulw 64 k ca) r) cb.

Definition round_x64_128 (h : Z * Z) (k1 k2 : Z) : Z * Z :=
  let '(h1, h2) := h in
  let h1 := Z.lxor h1 (scramble64 c1_64 c2_64 31 k1) in
  let h1 := rotl64 h1 27 in
  let h1 := addw 64 h1 h2 in
  let h1 := addw 64 (mulw 64 h1 5) 0x52dce729 in
  let h2 := Z.lxor h2 (scramble64 c2_64 c1_64 33 k2) in
  let h2 := rotl64 h2 31 in
  let h2 := addw 64 h2 h1 in
  let h2 := addw 64 (mulw 64 h2 5) 0x38495ab5 in
  (h1, h2).

Fixpoint body_x64_128 (blocks : list Z) (n : nat) (h : Z * Z) : Z * Z :=
  match n with
  | O => h
  | S n =>
      body_x64_128 (drop 16 blocks) n
        (round_x64_128 h (getblock64 blocks 0) (getblock64 blocks 1))
  end.

Definition tail_x64_128 (tail : list Z) (size : Z) (h : Z * Z) : Z * Z :=
  let '(h1, h2) := h in
  let r := Z.land size 15 in
  let st := tail_step tail r in
  let k2 := st 9 8%nat 0 (st 10 9%nat 8 (st 11 10%nat 16 (st 12 11%nat 24
            (st 13 12%nat 32 (st 14 13%nat 40 (st 15 14%nat 48 0)))))) in
  let h2 := if 9 <=? r then Z.lxor h2 (scramble64 c2_64 c1_64 33 k2) else h2 in
  let k1 := st 1 0%nat 0 (st 2 1%nat 8 (st 3 2%nat 16 (st 4 3%nat 24
            (st 5 4%nat 32 (st 6 5%nat 40 (st 7 6%nat 48 (st 8 7%nat 56 0))))))) in
  let h1 := if 1 <=? r then Z.lxor h1 (scramble64 c1_64 c2_64 31 k1) else h1 in
  (h1, h2).

Definition MurmurHash3_x64_128 (message : list Z) : list Z :=
  let size := Z.of_nat (length message) in
  let nblocks := Z.to_nat (size / 16) in
  let h := body_x64_128 message nblocks (m_seed, m_seed) in
  let '(h1, h2) := tail_x64_128 (drop (nblocks * 16) message) size h in
  let h1 := Z.lxor h1 (u64 size) in
  let h2 := Z.lxor h2 (u64 size) in
  let h1 := addw 64 h1 h2 in
  let h2 := addw 64 h2 h1 in
  let h1 := fmix64 h1 in
  let h2 := fmix64 h2 in
  let h1 := addw 64 h1 h2 in
  let h2 := addw 64 h2 h1 in
  [h1; h2].

(** Bytes, as the messages hold them. *)
Definition is_byte (x : Z) : Prop := 0 <= x < 256.

(** ** Ranges *)

Lemma fmix32_word h : word 32 h -> word 32 (fmix32 h).
Proof. intros. unfold fmix32; word_tac. Qed.

Lemma scramble_x86_32_word k : word 32 (scramble_x86_32 k).
Proof. unfold scramble_x86_32. word_tac. Qed.

Lemma round_x86_32_word h k : word 32 (round_x86_32 h k).
Proof. unfold round_x86_32. word_tac. Qed.

Lemma body_x86_32_word n : forall blocks h, word 32 h -> word 32 (body_x86_32 blocks n h).
Proof. induction n as [|n IH]; simpl; intros; [done|]. apply IH, round_x86_32_word. Qed.

Lemma tail_x86_32_word tail size h : word 32 h -> word 32 (tail_x86_32 tail size h).
Proof.
  intros Hh. unfold tail_x86_32. case_match; [|done]. word_tac. apply scramble_x86_32_word.
Qed.

(** The hash before the final mix is a word. *)
Lemma MurmurHash3_x86_32_bounds_aux message : word 32 (MurmurHash3_x86_32 message).
Proof.
  unfold MurmurHash3_x86_32. apply fmix32_word, lxor_word; [lia| |word_tac].
  apply tail_x86_32_word, body_x86_32_word. unfold m_seed. word_tac.
Qed.

(** ** Injectivity of the parts *)

Lemma fmix32_inj x y : word 32 x -> word 32 y -> fmix32 x = fmix32 y -> x = y.
Proof.
  intros Hx Hy H. unfold fmix32 in H.
  apply xorshr_inj in H; [|apply mulw_word; lia|apply mulw_word; lia|lia].
  apply (mulw_inj 32 _ _ _ 0x7ed1b41d) in H; [|lia|reflexivity|word_tac|word_tac].
  apply xorshr_inj in H; [|apply mulw_word; lia|apply mulw_word; lia|lia].
  apply (mulw_inj 32 _ _ _ 0xa5cb9243) in H; [|lia|reflexivity|word_tac|word_tac].
  apply xorshr_inj in H; [done|apply Hx|apply Hy|lia].
Qed.

Lemma scramble_x86_32_inj x y :
  word 32 x -> word 32 y -> scramble_x86_32 x = scramble_x86_32 y -> x = y.
Proof.
  intros Hx Hy H. unfold scramble_x86_32, rotl32 in H.
  apply (mulw_inj 32 _ _ _ 0x56ed309b) in H; [|lia|reflexivity|word_tac|word_tac].
  apply rotl_inj in H; [|lia|word_tac|word_tac].
  by apply (mulw_inj 32 _ _ _ 0xdee13bb1) in H; [|lia|reflexivity|..].
Qed.

(** The part of the round after the block has entered the hash. *)
Lemma round_tail_inj x y : word 32 x -> word 32 y ->
  addw 32 (mulw 32 (rotl32 x 13) 5) 0xe6546b64 = addw 32 (mulw 32 (rotl32 y 13) 5) 0xe6546b64 ->
  x = y.
Proof.
  intros Hx Hy H. unfold rotl32 in H.
  apply addw_inj in H; [|lia|word_tac|word_tac].
  apply (mulw_inj 32 _ _ _ 0xcccccccd) in H; [|lia|reflexivity|word_tac|word_tac].
  by apply rotl_inj in H; [|lia|..].
Qed.

Lemma round_x86_32_inj_h h h' k :
  word 32 h -> word 32 h' -> round_x86_32 h k = round_x86_32 h' k -> h = h'.
Proof.
  intros Hh Hh' H. pose proof (scramble_x86_32_word k).
  apply round_tail_inj in H; [|word_tac|word_tac]. by apply lxor_inj_r in H.
Qed.

Lemma round_x86_32_inj_k h k k' :
  word 32 h -> word 32 k -> word 32 k' -> round_x86_32 h k = round_x86_32 h k' -> k = k'.
Proof.
  intros Hh Hk Hk' H.
  pose proof (scramble_x86_32_word k). pose proof (scramble_x86_32_word k').
  apply round_tail_inj in H; [|word_tac|word_tac].
  apply lxor_inj_l in H. by apply scramble_x86_32_inj in H.
Qed.

Lemma body_x86_32_inj n : forall blocks h h', word 32 h -> word 32 h' ->
  body_x86_32 blocks n h = body_x86_32 blocks n h' -> h = h'.
Proof.
  induction n as [|n IH]; simpl; intros blocks h h' Hh Hh' H; [done|].
  apply IH in H; [|auto using round_x86_32_word..]. by apply round_x86_32_inj_h in H.
Qed.

Lemma tail_x86_32_inj tail size h h' : word 32 h -> word 32 h' ->
  tail_x86_32 tail size h = tail_x86_32 tail size h' -> h = h'.
Proof. unfold tail_x86_32. case_match; [|done]. intros ?? H'. by apply lxor_inj_r in H'. Qed.

(** ** Blocks *)

Lemma getblock32_word b : Forall is_byte b -> word 32 (getblock32 b 0).
Proof.
  intros H.
  assert (Hb : forall i, is_byte (byte b i)).
  { intros i. unfold byte. destruct (nth_in_or_default i b 0) as [Hin| ->].
    - by apply (proj1 (List.Forall_forall _ _) H).
    - unfold is_byte. lia. }
  unfold getblock32. pose proof (Hb (4 * 0)%nat). pose proof (Hb (4 * 0 + 1)%nat).
  pose proof (Hb (4 * 0 + 2)%nat). pose proof (Hb (4 * 0 + 3)%nat).
  unfold is_byte, word in *. lia.
Qed.

Lemma getblock32_inj b b' r r' : length b = 4%nat -> length b' = 4%nat ->
  Forall is_byte b -> Forall is_byte b' ->
  getblock32 (b ++ r) 0 = getblock32 (b' ++ r') 0 -> b = b'.
Proof.
  intros Hl Hl' Hb Hb'.
  destruct b as [|x0 [|x1 [|x2 [|x3 [|]]]]]; try done.
  destruct b' as [|y0 [|y1 [|y2 [|y3 [|]]]]]; try done.
  repeat match goal with H : Forall _ (_ :: _) |- _ => inversion_clear H end.
  unfold getblock32, byte, is_byte in *; simpl.
  intros Heq. repeat f_equal; lia.
Qed.

(** Blocks before the one that differs leave the loops in step. *)
Lemma body_x86_32_app n : forall pre rest h m, length pre = (4 * n)%nat ->
  body_x86_32 (pre ++ rest) (n + m) h = body_x86_32 rest m (body_x86_32 (pre ++ rest) n h).
Proof.
  induction n as [|n IH]; intros pre rest h m Hl.
  - by destruct pre.
  - destruct pre as [|x0 [|x1 [|x2 [|x3 pre]]]]; simpl in Hl; try lia.
    simpl. apply IH. lia.
Qed.

Lemma body_x86_32_prefix n : forall pre rest rest' h, length pre = (4 * n)%nat ->
  body_x86_32 (pre ++ rest) n h = body_x86_32 (pre ++ rest') n h.
Proof.
  induction n as [|n IH]; intros pre rest rest' h Hl; [done|].
  destruct pre as [|x0 [|x1 [|x2 [|x3 pre]]]]; simpl in Hl; try lia.
  simpl. apply IH. lia.
Qed.

(** The bytes of the tail, as one little-endian number. *)
Definition tail_value (tail : list Z) : Z :=
  byte tail 2 * 2 ^ 16 + (byte tail 1 * 2 ^ 8 + byte tail 0).

Lemma byte_range b i : Forall is_byte b -> is_byte (byte b i).
Proof.
  intros H. unfold byte. destruct (nth_in_or_default i b 0) as [Hin| ->].
  - by apply (proj1 (List.Forall_forall _ _) H).
  - unfold is_byte. lia.
Qed.

Lemma byte_beyond b i : (length b <= i)%nat -> byte b i = 0.
Proof. apply nth_overflow. Qed.

Lemma size_land_3 (n : nat) : Z.land (Z.of_nat n) 3 = Z.of_nat n mod 4.
Proof. apply (Z.land_ones _ 2). lia. Qed.

Lemma tail_x86_32_value tail (size : nat) h :
  Forall is_byte tail -> Z.of_nat size mod 4 = Z.of_nat (length tail) ->
  tail_x86_32 tail (Z.of_nat size) h =
  if decide (tail = []) then h else Z.lxor h (scramble_x86_32 (tail_value tail)).
Proof.
  intros Hb Hs. unfold tail_x86_32. rewrite size_land_3, Hs.
  assert (Hl : (length tail < 4)%nat) by (pose proof (Z.mod_pos_bound (Z.of_nat size) 4); lia).
  pose proof (byte_range tail 0 Hb) as H0. pose proof (byte_range tail 1 Hb) as H1.
  unfold is_byte in H0, H1. unfold tail_value.
  destruct tail as [|x0 [|x1 [|x2 [|]]]]; simpl in Hl; try lia; [done|..];
    case_decide; try done; unfold byte in *; simpl in *; f_equal; f_equal.
  - rewrite Z.lxor_0_l, (lxor_disjoint x1 x0 8) by lia. done.
  - rewrite Z.lxor_0_l, Z.lxor_assoc, (lxor_disjoint x1 x0 8) by lia. apply (lxor_disjoint x2 _ 16); lia.
Qed.

Lemma tail_value_inj t t' : (length t < 4)%nat -> length t = length t' ->
  Forall is_byte t -> Forall is_byte t' -> tail_value t = tail_value t' -> t = t'.
Proof.
  intros Hl He Hb Hb'. unfold tail_value.
  pose proof (byte_range t 0 Hb). pose proof (byte_range t 1 Hb).
  pose proof (byte_range t' 0 Hb'). pose proof (byte_range t' 1 Hb').
  unfold is_byte in *. intros Heq.
  assert (byte t 0 = byte t' 0 /\ byte t 1 = byte t' 1 /\ byte t 2 = byte t' 2)
    as (E0 & E1 & E2) by lia.
  destruct t as [|x0 [|x1 [|x2 [|]]]], t' as [|y0 [|y1 [|y2 [|]]]]; simpl in *; try lia;
    unfold byte in *; simpl in *; congruence.
Qed.

Lemma tail_value_word t : (length t < 4)%nat -> Forall is_byte t -> word 32 (tail_value t).
Proof.
  intros Hl Hb. unfold tail_value.
  pose proof (byte_range t 0 Hb). pose proof (byte_range t 1 Hb). pose proof (byte_range t 2 Hb).
  unfold is_byte, word in *. lia.
Qed.

(** Hashes of messages of one size are equal only if the hashes before the
    final mix are. *)
Lemma MurmurHash3_x86_32_unmix m m' : length m = length m' ->
  MurmurHash3_x86_32 m = MurmurHash3_x86_32 m' ->
  let n := Z.to_nat (Z.of_nat (length m) / 4) in
  tail_x86_32 (drop (n * 4) m) (Z.of_nat (length m)) (body_x86_32 m n m_seed)
  = tail_x86_32 (drop (n * 4) m') (Z.of_nat (length m)) (body_x86_32 m' n m_seed).
Proof.
  intros Hl H. unfold MurmurHash3_x86_32 in H. rewrite <- Hl in H.
  assert (Hw : forall x n, word 32 (Z.lxor (tail_x86_32 (drop (n * 4) x) (Z.of_nat (length m))
    (body_x86_32 x n m_seed)) (u32 (Z.of_nat (length m))))).
  { intros. apply lxor_word; [lia| |word_tac].
    apply tail_x86_32_word, body_x86_32_word. unfold m_seed. word_tac. }
  apply fmix32_inj in H; [|apply Hw..]. by apply lxor_inj_r in H.
Qed.

(** A block of four bytes determines the hash, whatever stands around it. *)
Lemma block_injective n pre b b' post : length pre = (4 * n)%nat ->
  length b = 4%nat -> length b' = 4%nat -> Forall is_byte b -> Forall is_byte b' ->
  MurmurHash3_x86_32 (pre ++ b ++ post) = MurmurHash3_x86_32 (pre ++ b' ++ post) -> b = b'.
Proof.
  intros Hn Hl Hl' Hb Hb' H.
  apply MurmurHash3_x86_32_unmix in H; [|rewrite !length_app; lia]. cbv zeta in H.
  set (N := Z.to_nat _) in H.
  assert (HN : exists m, N = (n + S m)%nat /\ (4 * S n <= N * 4)%nat).
  { exists (length post / 4)%nat. unfold N. rewrite !length_app, Hn, Hl.
    rewrite <- Nat2Z.inj_div with (m := 4%nat), Nat2Z.id.
    replace (4 * n + (4 + length post))%nat with (length post + S n * 4)%nat by lia.
    rewrite Nat.div_add by lia. lia. }
  destruct HN as (m & HN & Hge).
  assert (Hd : forall x, length x = 4%nat -> drop (N * 4) (pre ++ x ++ post) = drop (N * 4 - 4 * S n) post).
  { intros x Hx. rewrite app_assoc, drop_app_ge by (rewrite length_app; lia).
    f_equal. rewrite length_app. lia. }
  rewrite !Hd in H by done. apply tail_x86_32_inj in H;
    [|apply body_x86_32_word; unfold m_seed; word_tac..].
  rewrite HN, !body_x86_32_app in H by done. simpl in H.
  rewrite !drop_app_ge, Hl, Hl' in H by lia.
  rewrite (body_x86_32_prefix n pre (b' ++ post) (b ++ post)) in H by done.
  apply body_x86_32_inj in H; [|apply round_x86_32_word..].
  apply round_x86_32_inj_k in H.
  - by apply getblock32_inj in H.
  - apply body_x86_32_word. unfold m_seed. word_tac.
  - rewrite <- (app_nil_r (b ++ post)). 
    replace (getblock32 ((b ++ post) ++ []) 0) with (getblock32 b 0).
    + by apply getblock32_word.
    + destruct b as [|x0 [|x1 [|x2 [|x3 [|]]]]]; done.
  - replace (getblock32 (b' ++ post) 0) with (getblock32 b' 0).
    + by apply getblock32_word.
    + destruct b' as [|x0 [|x1 [|x2 [|x3 [|]]]]]; done.
Qed.

(** So do the bytes of the tail. *)
Lemma tail_injective n pre t t' : length pre = (4 * n)%nat ->
  (length t < 4)%nat -> length t = length t' -> Forall is_byte t -> Forall is_byte t' ->
  MurmurHash3_x86_32 (pre ++ t) = MurmurHash3_x86_32 (pre ++ t') -> t = t'.
Proof.
  intros Hn Hl He Hb Hb' H.
  apply MurmurHash3_x86_32_unmix in H; [|rewrite !length_app; lia]. cbv zeta in H.
  set (N := Z.to_nat _) in H.
  assert (HN : N = n).
  { unfold N. rewrite length_app, Hn. dlia. }
  rewrite HN, !drop_app_ge in H by lia. rewrite Hn, Nat.mul_comm, Nat.sub_diag in H.
  rewrite !drop_0, (body_x86_32_prefix n pre t' t) in H by done.
  assert (Hm : Z.of_nat (length (pre ++ t)) mod 4 = Z.of_nat (length t)).
  { rewrite length_app, Hn. replace (Z.of_nat _) with (Z.of_nat (length t) + Z.of_nat n * 4) by lia.
    rewrite Z.mod_add, Z.mod_small by lia. done. }
  rewrite !tail_x86_32_value in H by (done || (rewrite Hm; lia)).
  destruct t as [|x t], t' as [|x' t']; try (simpl in He; lia); [done|].
  rewrite !decide_False in H by done.
  apply lxor_inj_l, scramble_x86_32_inj in H.
  - by apply tail_value_inj in H.
  - by apply tail_value_word.
  - apply tail_value_word; [lia|done].
Qed.

(** The token of every message fits the 32 bits of a differentiation token. *)
Theorem MurmurHash3_x86_32_bounds message : word 32 (MurmurHash3_x86_32 message).
Proof. apply MurmurHash3_x86_32_bounds_aux. Qed.

(** Two messages that differ inside one block of the hash - four
    bytes at an offset that is a multiple of four, or the shorter tail - never
    have the same 32-bit token, whatever the rest of the messages is. *)
Theorem single_block_collision_free pre b b' post :
  (length pre mod 4 = 0)%nat -> length b = length b' ->
  length b = 4%nat \/ (length b < 4)%nat /\ post = [] ->
  Forall is_byte b -> Forall is_byte b' -> b <> b' ->
  MurmurHash3_x86_32 (pre ++ b ++ post) <> MurmurHash3_x86_32 (pre ++ b' ++ post).
Proof.
  intros Hp He Hl Hb Hb' Hne H. apply Hne.
  assert (Hn : length pre = (4 * (length pre / 4))%nat) by (apply Nat.Div0.div_exact; done).
  destruct Hl as [Hl|[Hl ->]].
  - eapply block_injective; [exact Hn| | | | |exact H]; [done|congruence|done|done].
  - rewrite !app_nil_r in H. by eapply tail_injective.
Qed.

(** The messages "1000|1" and "2000|1" of two workflows. *)
Lemma single_block_collision_free_witness :
  MurmurHash3_x86_32 ([] ++ [49; 48; 48; 48] ++ [124; 49])
  <> MurmurHash3_x86_32 ([] ++ [50; 48; 48; 48] ++ [124; 49]).
Proof.
  apply single_block_collision_free;
    [reflexivity | reflexivity | left; reflexivity | | | discriminate];
    repeat constructor; discriminate.
Defined.

End MurmurHash3.
