(* ===== verification/Binary64.v ===== *)
(** * IEEE 754 arithmetic of the token counts and metrics

    The code counts tokens in [double] and normalizes statistics in [float].
    Both are modelled bit for bit by the [spec_float] of the Standard Library,
    with the operations rounding to nearest even.  This file gives the laws the
    components rely on, for the finite numbers that are not negative: a
    subtraction [x - y] of [y <= x] is between 0 and [x], the comparisons order
    the numbers by their value, integers below 2^53 are exact, products and
    quotients are well-formed numbers. *)

From Stdlib Require Export SpecFloat.
From S2P Require Import Prelude MachineInt.

(** ** Operations *)

(** The format of [double] and the format of [float]. *)
Definition prec64 : Z := 53.
Definition emax64 : Z := 1024.
Definition prec32 : Z := 24.
Definition emax32 : Z := 128.

Abbreviation double := spec_float.

Definition dsub : double -> double -> double := SFsub prec64 emax64.
Definition dadd : double -> double -> double := SFadd prec64 emax64.
Definition dmul : double -> double -> double := SFmul prec64 emax64.
Definition ddiv : double -> double -> double := SFdiv prec64 emax64.
Definition dle : double -> double -> bool := SFleb.
Definition dlt : double -> double -> bool := SFltb.
Definition dgt (x y : double) : bool := SFltb y x.
Definition fdiv : spec_float -> spec_float -> spec_float := SFdiv prec32 emax32.

(** [static_cast<double>] and [static_cast<float>] of an integer. *)
Definition to_double (z : Z) : double := binary_normalize prec64 emax64 z 0 false.
Definition to_float (z : Z) : spec_float := binary_normalize prec32 emax32 z 0 false.

Definition d0 : double := to_double 0.

(** The integer part, towards zero, of a finite number. *)
Definition dtrunc (x : double) : option Z :=
  match x with
  | S754_zero _ => Some 0
  | S754_finite s m e =>
      let t := match e with
               | Z0 => Zpos m
               | Zpos p => Z.shiftl (Zpos m) e
               | Zneg p => Z.shiftr (Zpos m) (Zpos p)
               end in
      Some (if s then - t else t)
  | S754_infinity _ | S754_nan => None
  end.

(** [static_cast<long>] of a [double]: undefined when the integer part is not
    a [long]. *)
Definition double_to_long (x : double) : option Z :=
  match dtrunc x with
  | Some z => if decide (is_long z) then Some z else None
  | None => None
  end.

(** [static_cast<uint64_t>] of a [double]. *)
Definition double_to_u64 (x : double) : option Z :=
  match dtrunc x with
  | Some z => if decide (0 <= z < 2 ^ 64) then Some z else None
  | None => None
  end.

(** ** A format *)

Section Format.
Variables prec emax : Z.
Hypothesis Hprec : 1 < prec.

Abbreviation emin := (SpecFloat.emin prec emax).
Abbreviation fexp := (SpecFloat.fexp prec emax).
Abbreviation digits m := (Zpos (digits2_pos m)).

(** *** Numbers of binary digits *)

Lemma digits_bound m : 2 ^ (digits m - 1) <= Zpos m < 2 ^ digits m.
Proof.
  induction m as [p IH|p IH|]; simpl digits2_pos; [..|simpl; lia].
  all: rewrite Pos2Z.inj_succ, Z.pow_succ_r by lia.
  all: replace (Z.succ (digits p) - 1) with (Z.succ (digits p - 1)) by lia.
  all: rewrite Z.pow_succ_r by lia; lia.
Qed.

Lemma pow2_lt_inv a b : 0 <= b -> 2 ^ a < 2 ^ b -> a < b.
Proof. intros Hb H. apply Z.lt_nge. intros Hge. pose proof (Z.pow_le_mono_r 2 b a). lia. Qed.

Lemma digits_lower m d : 0 <= d -> 2 ^ d <= Zpos m -> d < digits m.
Proof.
  intros Hd H. pose proof (digits_bound m). apply pow2_lt_inv; lia.
Qed.

Lemma digits_upper m d : 0 <= d -> Zpos m < 2 ^ d -> digits m <= d.
Proof.
  intros Hd H. pose proof (digits_bound m).
  assert (digits m - 1 < d); [|lia]. apply pow2_lt_inv; lia.
Qed.

Lemma digits_unique m d : 0 < d -> 2 ^ (d - 1) <= Zpos m < 2 ^ d -> digits m = d.
Proof.
  intros Hd [H1 H2]. apply digits_lower in H1; [|lia]. apply digits_upper in H2; lia.
Qed.

Lemma digits_shift m n : 0 <= n -> forall p, Zpos p = Zpos m * 2 ^ n -> digits p = digits m + n.
Proof.
  intros Hn p Hp. pose proof (digits_bound m). apply digits_unique; [lia|]. rewrite Hp.
  replace (digits m + n - 1) with (digits m - 1 + n) by lia.
  rewrite !Z.pow_add_r by lia. nia.
Qed.

(** *** Exponents *)

Lemma fexp_mono a b : a <= b -> fexp a <= fexp b.
Proof. unfold SpecFloat.fexp. lia. Qed.

Lemma fexp_emin a : emin <= fexp a.
Proof. unfold SpecFloat.fexp. lia. Qed.

Lemma canonical_inv m e : canonical_mantissa prec emax m e = true ->
  emin <= e /\ digits m <= prec /\ (emin < e -> digits m = prec).
Proof. unfold canonical_mantissa, SpecFloat.fexp. intros H%Z.eqb_eq. lia. Qed.

Lemma canonical_intro m e : emin <= e -> digits m <= prec -> (emin < e -> digits m = prec) ->
  canonical_mantissa prec emax m e = true.
Proof. unfold canonical_mantissa, SpecFloat.fexp. intros. apply Z.eqb_eq. lia. Qed.

(** *** Shifting to the right *)

Lemma iter_pos_nat {A} (f : A -> A) p x : SpecFloat.iter_pos f p x = Nat.iter (Pos.to_nat p) f x.
Proof.
  revert x. induction p as [p IH|p IH|]; intros x; cbn [SpecFloat.iter_pos]; rewrite ?IH, <- ?Nat.iter_add.
  - rewrite Pos2Nat.inj_xI, <- Nat.iter_succ_r. f_equal. lia.
  - rewrite Pos2Nat.inj_xO. f_equal. lia.
  - done.
Qed.

(** The record after [k] steps on [m]: the quotient, and a mark when a bit was
    lost. *)
Definition shifted (m : Z) (lost : bool) (k : Z) (r : shr_record) : Prop :=
  shr_m r = m / 2 ^ k /\ ((shr_r r || shr_s r)%bool = true <-> lost = true \/ m mod 2 ^ k <> 0).

Lemma shr_1_shifted m lost k r : 0 <= m -> 0 <= k ->
  shifted m lost k r -> shifted m lost (k + 1) (shr_1 r).
Proof.
  intros Hm Hk [Hq Hl]. destruct r as [q b s]. simpl in Hq, Hl.
  assert (Hq0 : 0 <= q) by (subst; apply Z.div_pos; lia).
  assert (Hd : m / 2 ^ (k + 1) = q / 2).
  { rewrite Z.pow_add_r, <- Z.div_div by lia. by rewrite <- Hq. }
  assert (Hr : m mod 2 ^ (k + 1) = m mod 2 ^ k + 2 ^ k * (q mod 2)).
  { rewrite Z.pow_add_r by lia. rewrite Z.rem_mul_r by lia. by rewrite <- Hq. }
  pose proof (Z.mod_pos_bound m (2 ^ k)) as Hb.
  assert (Hodd : m mod 2 ^ (k + 1) <> 0 <-> (m mod 2 ^ k <> 0 \/ q mod 2 = 1)).
  { rewrite Hr. pose proof (Z.mod_pos_bound q 2).
    assert (q mod 2 = 0 \/ q mod 2 = 1) as [->| ->] by lia; lia. }
  unfold shifted. rewrite Hd, Hodd.
  destruct q as [|[p|p|]|]; simpl; try lia.
  all: split; [try done; try dlia|].
  - rewrite Hl, Zmod_0_l. intuition lia.
  - replace (Zpos p~1 mod 2) with 1 by dlia. intuition.
  - rewrite Hl. replace (Zpos p~0 mod 2) with 0 by dlia. intuition lia.
  - replace (1 mod 2) with 1 by done. intuition.
Qed.

Definition inexact (l : location) : bool :=
  match l with loc_Exact => false | loc_Inexact _ => true end.

Lemma shr_shifted m l e n : 0 <= m -> 0 <= n ->
  exists r, shr (shr_record_of_loc m l) e n = (r, e + n) /\ shifted m (inexact l) n r.
Proof.
  intros Hm Hn.
  assert (H0 : shifted m (inexact l) 0 (shr_record_of_loc m l)).
  { split; [destruct l as [|[]]; simpl; by rewrite Z.div_1_r|].
    rewrite Z.mod_1_r. destruct l as [|[]]; simpl; intuition congruence. }
  destruct n as [|p|p]; [|simpl|lia].
  - exists (shr_record_of_loc m l). simpl. split; [f_equal; lia|done].
  - eexists. split; [done|]. rewrite iter_pos_nat.
    rewrite <- (positive_nat_Z p). induction (Pos.to_nat p) as [|k IH]; [done|].
    rewrite Nat2Z.inj_succ. simpl. apply shr_1_shifted; [lia|lia|done].
Qed.

Lemma round_choice r :
  let q := round_nearest_even (shr_m r) (loc_of_shr_record r) in
  q = shr_m r \/ (q = shr_m r + 1 /\ (shr_r r || shr_s r)%bool = true).
Proof. destruct r as [q [] []]; simpl; [by right| |by left..]. destruct (Z.even q); auto. Qed.

(** *** Rounding *)

(** The number with mantissa [q <= 2^prec] and exponent [f], renormalized when
    the rounding carried out of the mantissa. *)
Definition pack (s : bool) (q f : Z) : spec_float :=
  match q with
  | Zpos p =>
      let '(p, f) := if Z.eqb q (2 ^ prec) then (Z.to_pos (2 ^ (prec - 1)), f + 1) else (p, f) in
      if Z.leb f (emax - prec) then S754_finite s p f else S754_infinity s
  | _ => S754_zero s
  end.

Lemma Zdigits_pow2 p : Zpos p = 2 ^ prec -> digits p = prec + 1.
Proof.
  intros H. apply digits_unique; [lia|]. rewrite H.
  replace (prec + 1 - 1) with prec by lia. split; [lia|]. apply Z.pow_lt_mono_r; lia.
Qed.

Lemma shr_record_exact (m : Z) : shr_m (shr_record_of_loc m loc_Exact) = m.
Proof. done. Qed.

(** The second normalization, after rounding. *)
Lemma renormalize s q f : 0 <= q <= 2 ^ prec -> emin <= f ->
  (let '(mrs, e) := shr_fexp prec emax q f loc_Exact in
   match shr_m mrs with
   | Z0 => S754_zero s
   | Zpos m => if Z.leb e (emax - prec) then S754_finite s m e else S754_infinity s
   | _ => S754_nan
   end) = pack s q f.
Proof.
  intros Hq Hf. unfold shr_fexp.
  destruct q as [|p|p]; [| |lia].
  - unfold shr, SpecFloat.fexp. simpl Zdigits2.
    destruct (Z.max (0 + f - prec) emin - f) as [|n|n] eqn:E; try lia; done.
  - simpl Zdigits2. unfold pack. destruct (Z.eqb_spec (Zpos p) (2 ^ prec)) as [He|He].
    + rewrite Zdigits_pow2 by done.
      replace (fexp (prec + 1 + f) - f) with 1 by (unfold SpecFloat.fexp; lia).
      destruct (shr_shifted (Zpos p) loc_Exact f 1) as (r & -> & Hr & _); [lia..|].
      rewrite Hr, He. replace (2 ^ prec) with (2 ^ (prec - 1) * 2 ^ 1)
        by (rewrite <- Z.pow_add_r by lia; f_equal; lia).
      rewrite Z.div_mul by lia. destruct (2 ^ (prec - 1)) as [|p'|p'] eqn:E; [|done|].
      all: pose proof (Z.pow_pos_nonneg 2 (prec - 1)); lia.
    + assert (digits p <= prec) by (apply digits_upper; lia).
      unfold shr. destruct (fexp (digits p + f) - f) as [|n|n] eqn:E; [done| |done].
      unfold SpecFloat.fexp in E. lia.
Qed.

Definition round_exp (m e : Z) : Z := fexp (Zdigits2 m + e).

Lemma quotient_bound m e : 0 <= m -> e <= round_exp m e ->
  let q := m / 2 ^ (round_exp m e - e) in
  0 <= q < 2 ^ prec /\ (emin < round_exp m e -> 2 ^ (prec - 1) <= q).
Proof.
  intros Hm He q. set (n := round_exp m e - e) in *.
  assert (Hn : 0 <= n) by lia. split; [split; [apply Z.div_pos; lia|]|].
  - destruct m as [|p|p]; [|simpl|lia].
    { unfold q. rewrite Z.div_0_l by lia. lia. }
    apply Z.div_lt_upper_bound; [lia|]. rewrite <- Z.pow_add_r by lia.
    eapply Z.lt_le_trans; [apply digits_bound|]. apply Z.pow_le_mono_r; [lia|].
    unfold n, round_exp, SpecFloat.fexp in *. simpl. lia.
  - intros Hlt. destruct m as [|p|p]; [..|lia].
    { unfold round_exp, SpecFloat.fexp in *. simpl in *. lia. }
    apply Z.div_le_lower_bound; [lia|]. rewrite <- Z.pow_add_r by lia.
    etransitivity; [|apply digits_bound]. apply Z.pow_le_mono_r; [lia|].
    unfold n, round_exp, SpecFloat.fexp in *. simpl in *. lia.
Qed.

(** What rounding does: the quotient at the exponent of the result, or the next
    one when bits were lost. *)
Lemma binary_round_aux_spec s m e l : 0 <= m -> e <= round_exp m e ->
  exists q, binary_round_aux prec emax s m e l = pack s q (round_exp m e) /\
    0 <= q <= 2 ^ prec /\
    let d := m / 2 ^ (round_exp m e - e) in
    (q = d \/ (q = d + 1 /\ (inexact l = true \/ m mod 2 ^ (round_exp m e - e) <> 0))).
Proof.
  intros Hm He. unfold binary_round_aux.
  destruct (quotient_bound m e Hm He) as [Hq _].
  unfold shr_fexp at 1. fold (round_exp m e).
  destruct (shr_shifted m l e (round_exp m e - e)) as (r & -> & Hr & Hl); [lia..|].
  replace (e + (round_exp m e - e)) with (round_exp m e) by lia.
  set (q := round_nearest_even _ _). exists q.
  assert (Hc : q = shr_m r \/ (q = shr_m r + 1 /\ (shr_r r || shr_s r)%bool = true))
    by apply round_choice.
  rewrite Hr, Hl in Hc. split; [|split; [lia|done]].
  rewrite <- renormalize; [done|lia|]. unfold round_exp. apply fexp_emin.
Qed.

(** *** Well-formed numbers *)

(** Finite numbers that are not negative, and their value in units of the
    smallest positive number. *)
Definition finite_nonneg (x : spec_float) : Prop :=
  match x with
  | S754_zero _ => True
  | S754_finite false m e => bounded prec emax m e = true
  | _ => False
  end.

(** Numbers that are not negative, an infinity included. *)
Definition nonneg (x : spec_float) : Prop :=
  match x with
  | S754_infinity false => True
  | _ => finite_nonneg x
  end.

Definition val (x : spec_float) : Z :=
  match x with
  | S754_finite _ m e => Zpos m * 2 ^ (e - emin)
  | _ => 0
  end.

Lemma val_nonneg x : 0 <= val x.
Proof.
  destruct x as [| | |s m e]; simpl; lia.
Qed.

Lemma pack_nonneg q f : 0 <= q <= 2 ^ prec -> emin <= f ->
  (emin < f -> 2 ^ (prec - 1) <= q) -> nonneg (pack false q f).
Proof.
  intros Hq Hf Hn. unfold pack. destruct q as [|p|p]; [done| |done].
  destruct (Z.eqb_spec (Zpos p) (2 ^ prec)) as [He|He]; case_match eqn:Hov; try done;
    apply Z.leb_le in Hov; simpl; unfold bounded; apply andb_true_iff;
    (split; [|by apply Z.leb_le]).
  - assert (Hd : digits (Z.to_pos (2 ^ (prec - 1))) = prec).
    { apply digits_unique; [lia|]. rewrite Z2Pos.id by (apply Z.pow_pos_nonneg; lia).
      split; [lia|]. apply Z.pow_lt_mono_r; lia. }
    apply canonical_intro; lia.
  - assert (digits p <= prec) by (apply digits_upper; lia).
    apply canonical_intro; [done|done|]. intros Hlt. specialize (Hn Hlt).
    apply digits_unique; lia.
Qed.

Lemma pack_val q f : 0 <= q <= 2 ^ prec -> emin <= f ->
  finite_nonneg (pack false q f) -> val (pack false q f) = q * 2 ^ (f - emin).
Proof.
  intros Hq Hf. unfold pack. destruct q as [|p|p]; [done| |lia].
  destruct (Z.eqb_spec (Zpos p) (2 ^ prec)) as [He|He]; case_match; try done; intros _; simpl.
  rewrite He, Z2Pos.id by (apply Z.pow_pos_nonneg; lia).
  rewrite <- !Z.pow_add_r by lia. f_equal. lia.
Qed.

Lemma round_aux_nonneg m e l : 0 <= m -> e <= round_exp m e ->
  nonneg (binary_round_aux prec emax false m e l).
Proof.
  intros Hm He. destruct (binary_round_aux_spec false m e l Hm He) as (q & -> & Hq & Hd).
  destruct (quotient_bound m e Hm He) as [? Hlow].
  apply pack_nonneg; [done|unfold round_exp; apply fexp_emin|].
  intros Hlt. specialize (Hlow Hlt). cbv zeta in *. lia.
Qed.

(** *** Order *)

Lemma val_finite_bounds m e : canonical_mantissa prec emax m e = true ->
  2 ^ (digits m + e - 1 - emin) <= Zpos m * 2 ^ (e - emin) < 2 ^ (digits m + e - emin).
Proof.
  intros (He & _ & _)%canonical_inv. pose proof (digits_bound m) as [H1 H2].
  replace (digits m + e - 1 - emin) with (digits m - 1 + (e - emin)) by lia.
  replace (digits m + e - emin) with (digits m + (e - emin)) by lia.
  rewrite !Z.pow_add_r by lia. nia.
Qed.

(** A larger exponent means a larger number. *)
Lemma canonical_exp_le m1 e1 m2 e2 :
  canonical_mantissa prec emax m1 e1 = true -> canonical_mantissa prec emax m2 e2 = true ->
  Zpos m1 * 2 ^ (e1 - emin) <= Zpos m2 * 2 ^ (e2 - emin) -> e1 <= e2.
Proof.
  intros H1 H2 Hle.
  pose proof (val_finite_bounds _ _ H1). pose proof (val_finite_bounds _ _ H2).
  apply Z.eqb_eq in H1, H2. rewrite <- H1, <- H2. apply fexp_mono.
  assert (digits m1 + e1 - 1 - emin < digits m2 + e2 - emin); [|lia].
  apply pow2_lt_inv; [|lia]. pose proof (fexp_emin (digits m2 + e2)). lia.
Qed.

Lemma canonical_unique m1 e1 m2 e2 :
  canonical_mantissa prec emax m1 e1 = true -> canonical_mantissa prec emax m2 e2 = true ->
  Zpos m1 * 2 ^ (e1 - emin) = Zpos m2 * 2 ^ (e2 - emin) -> m1 = m2 /\ e1 = e2.
Proof.
  intros H1 H2 Heq.
  assert (e1 = e2) as <-.
  { apply Z.le_antisymm; eapply canonical_exp_le; eauto; lia. }
  split; [|done]. apply canonical_inv in H1. 
  pose proof (Z.pow_pos_nonneg 2 (e1 - emin)). nia.
Qed.

(** The comparison of the code is the comparison of the values. *)
Lemma compare_val x y : finite_nonneg x -> finite_nonneg y ->
  SFcompare x y = Some (val x ?= val y).
Proof.
  destruct x as [| | |[] m1 e1], y as [| | |[] m2 e2];
    cbn [SFcompare val finite_nonneg]; try done; intros Hx Hy.
  - assert (0 < Zpos m2 * 2 ^ (e2 - emin)) as H.
    { apply andb_true_iff in Hy as [Hy%canonical_inv _].
      pose proof (Z.pow_pos_nonneg 2 (e2 - emin)). lia. }
    by apply Z.compare_lt_iff in H as ->.
  - assert (0 < Zpos m1 * 2 ^ (e1 - emin)) as H.
    { apply andb_true_iff in Hx as [Hx%canonical_inv _].
      pose proof (Z.pow_pos_nonneg 2 (e1 - emin)). lia. }
    by apply Z.compare_gt_iff in H as ->.
  - apply andb_true_iff in Hx as [Hx _], Hy as [Hy _]. f_equal. symmetry.
    destruct (Z.compare_spec e1 e2) as [->|Hlt|Hlt].
    + change (Pos.compare_cont Eq m1 m2) with (Zpos m1 ?= Zpos m2).
      apply canonical_inv in Hy. pose proof (Z.pow_pos_nonneg 2 (e2 - emin)).
      destruct (Z.compare_spec (Zpos m1) (Zpos m2)).
      * apply Z.compare_eq_iff. nia.
      * apply Z.compare_lt_iff. nia.
      * apply Z.compare_gt_iff. nia.
    + apply Z.compare_lt_iff. apply Z.lt_nge. intros Hge.
      apply (canonical_exp_le _ _ _ _ Hy Hx) in Hge. lia.
    + apply Z.compare_gt_iff. apply Z.lt_nge. intros Hge.
      apply (canonical_exp_le _ _ _ _ Hx Hy) in Hge. lia.
Qed.

Lemma leb_val x y : finite_nonneg x -> finite_nonneg y -> SFleb x y = (val x <=? val y).
Proof.
  intros Hx Hy. unfold SFleb. rewrite compare_val by done.
  rewrite Z.leb_compare. by destruct (val x ?= val y).
Qed.

Lemma ltb_val x y : finite_nonneg x -> finite_nonneg y -> SFltb x y = (val x <? val y).
Proof.
  intros Hx Hy. unfold SFltb. rewrite compare_val by done.
  rewrite Z.ltb_compare. by destruct (val x ?= val y).
Qed.

(** *** Rounding is faithful: no representable number is passed *)

Lemma round_normalize m e : emin <= e -> exists m' e',
  binary_normalize prec emax (Zpos m) e false = binary_round_aux prec emax false (Zpos m') e' loc_Exact
  /\ emin <= e' /\ e' <= round_exp (Zpos m') e'
  /\ Zpos m' * 2 ^ (e' - emin) = Zpos m * 2 ^ (e - emin).
Proof.
  intros He. simpl. unfold binary_round, shl_align.
  set (f := fexp (digits m + e)).
  assert (Hf : emin <= f) by apply fexp_emin.
  destruct (f - e) as [|d|d] eqn:E.
  1, 2: exists m, e; split; [done|]; split; [done|]; split; [|done]; unfold round_exp; simpl; lia.
  assert (Hm : Zpos (Pos.iter xO m d) = Zpos m * 2 ^ Zpos d).
  { rewrite <- Z.shiftl_mul_pow2 by lia. by apply (Pos.iter_swap_gen _ _ Zpos xO (Z.mul 2)). }
  assert (Hd : digits (Pos.iter xO m d) = digits m + Zpos d) by (apply (digits_shift m); lia).
  exists (Pos.iter xO m d), f. split; [done|]. split; [done|]. split.
  - unfold round_exp. simpl. rewrite Hd. replace (digits m + Zpos d + f) with (digits m + e) by lia.
    fold f. lia.
  - rewrite Hm, <- Z.mul_assoc, <- Z.pow_add_r by lia. do 2 f_equal. lia.
Qed.

(** The exponent chosen for a value is at most the one of any larger number. *)
Lemma round_exp_le m e mg eg : emin <= e -> canonical_mantissa prec emax mg eg = true ->
  Zpos m * 2 ^ (e - emin) <= Zpos mg * 2 ^ (eg - emin) -> round_exp (Zpos m) e <= eg.
Proof.
  intros He Hg Hle. pose proof (val_finite_bounds _ _ Hg) as [_ Hup].
  pose proof (digits_bound m) as [Hlow _].
  assert (Hm : 2 ^ (digits m - 1 + (e - emin)) <= Zpos m * 2 ^ (e - emin)).
  { rewrite Z.pow_add_r by lia. nia. }
  assert (digits m - 1 + (e - emin) < digits mg + eg - emin).
  { apply pow2_lt_inv; [|lia]. apply canonical_inv in Hg. lia. }
  apply Z.eqb_eq in Hg. rewrite <- Hg. unfold round_exp. simpl. apply fexp_mono. lia.
Qed.

Lemma pack_finite q f : 0 <= q <= 2 ^ prec -> emin <= f ->
  (emin < f -> 2 ^ (prec - 1) <= q) ->
  (0 < q < 2 ^ prec -> f <= emax - prec) -> (q = 2 ^ prec -> f + 1 <= emax - prec) ->
  finite_nonneg (pack false q f).
Proof.
  intros Hq Hf Hn H1 H2. pose proof (pack_nonneg q f Hq Hf Hn) as Hp. revert Hp.
  unfold pack. destruct q as [|p|p]; [done| |done].
  destruct (Z.eqb_spec (Zpos p) (2 ^ prec)) as [He|He].
  - replace (f + 1 <=? emax - prec) with true; [done|]. symmetry. apply Z.leb_le. auto.
  - replace (f <=? emax - prec) with true; [done|]. symmetry. apply Z.leb_le. apply H1. lia.
Qed.

Section Faithful.
Variables (m : positive) (e : Z) (mg : positive) (eg : Z).
Hypothesis He : emin <= e.
Hypothesis Hg : bounded prec emax mg eg = true.

Let V := Zpos m * 2 ^ (e - emin).
Let G := Zpos mg * 2 ^ (eg - emin).

(** The number before rounding, the exponent of the result at least its own. *)
Section Aux.
Hypothesis Hle : e <= round_exp (Zpos m) e.
Let f := round_exp (Zpos m) e.
Let r := binary_round_aux prec emax false (Zpos m) e loc_Exact.

Lemma aux_spec : exists q, r = pack false q f /\ 0 <= q <= 2 ^ prec /\
  let d := Zpos m / 2 ^ (f - e) in
  (q = d \/ (q = d + 1 /\ Zpos m mod 2 ^ (f - e) <> 0)) /\
  (emin < f -> 2 ^ (prec - 1) <= d).
Proof.
  destruct (binary_round_aux_spec false (Zpos m) e loc_Exact ltac:(lia) Hle)
    as (q & Hr & Hq & Hd).
  destruct (quotient_bound (Zpos m) e ltac:(lia) Hle) as [_ Hlow].
  exists q. split; [done|]. split; [done|]. split; [|done].
  destruct Hd as [?|[? [|]]]; [by left|done|by right].
Qed.

Lemma aux_le : V <= G -> finite_nonneg r /\ val r <= G.
Proof.
  intros HVG. apply andb_true_iff in Hg as [Hc Hov%Z.leb_le].
  assert (Hf : emin <= f) by apply fexp_emin.
  assert (Hfe : f <= eg) by (apply (round_exp_le m e mg); done).
  destruct aux_spec as (q & -> & Hq & Hd & Hlow). cbv zeta in Hd, Hlow.
  fold f in Hle. set (d := Zpos m / 2 ^ (f - e)) in *.
  assert (HW : q * 2 ^ (f - emin) <= G).
  { pose proof (Z.div_mod (Zpos m) (2 ^ (f - e)) ltac:(lia)) as Hdm. fold d in Hdm.
    pose proof (Z.mod_pos_bound (Zpos m) (2 ^ (f - e)) ltac:(lia)) as Hmb.
    assert (Hs : 2 ^ (f - emin) = 2 ^ (f - e) * 2 ^ (e - emin))
      by (rewrite <- Z.pow_add_r by lia; f_equal; lia).
    pose proof (Z.pow_pos_nonneg 2 (e - emin)) as Hp.
    destruct Hd as [->|[-> Hr]]; [unfold V in HVG; nia|].
    assert (HG : G = Zpos mg * 2 ^ (eg - f) * 2 ^ (f - emin)).
    { unfold G. rewrite <- Z.mul_assoc, <- Z.pow_add_r by lia. do 2 f_equal. lia. }
    rewrite HG. apply Z.mul_le_mono_nonneg_r; [lia|].
    assert (d * 2 ^ (f - emin) < Zpos mg * 2 ^ (eg - f) * 2 ^ (f - emin)) as Hlt%Z.mul_lt_mono_pos_r;
      [|lia..]. unfold V in HVG. nia. }
  assert (Hfin : finite_nonneg (pack false q f)).
  { apply pack_finite; [done|done| |lia|].
    - intros Hlt. specialize (Hlow Hlt). lia.
    - intros ->. pose proof (val_finite_bounds _ _ Hc) as [_ Hup]. fold G in Hup.
      apply canonical_inv in Hc as (? & ? & ?). rewrite <- Z.pow_add_r in HW by lia.
      assert (prec + (f - emin) < digits mg + eg - emin) by (apply pow2_lt_inv; lia). lia. }
  split; [done|]. by rewrite pack_val.
Qed.

Lemma aux_ge : G <= V -> finite_nonneg r -> G <= val r.
Proof.
  intros HVG. apply andb_true_iff in Hg as [Hc _].
  assert (Hf : emin <= f) by apply fexp_emin.
  destruct aux_spec as (q & -> & Hq & Hd & Hlow). cbv zeta in Hd, Hlow.
  fold f in Hle. set (d := Zpos m / 2 ^ (f - e)) in *.
  intros Hfin. rewrite pack_val by done.
  destruct (Z.le_gt_cases f eg) as [Hfe|Hfe].
  - assert (HG : G = Zpos mg * 2 ^ (eg - f) * 2 ^ (f - emin)).
    { unfold G. rewrite <- Z.mul_assoc, <- Z.pow_add_r by lia. do 2 f_equal. lia. }
    rewrite HG. apply Z.mul_le_mono_nonneg_r; [lia|].
    assert (Zpos mg * 2 ^ (eg - f) <= d); [|lia].
    apply Z.div_le_lower_bound; [lia|].
    assert (Hs : 2 ^ (f - emin) = 2 ^ (f - e) * 2 ^ (e - emin))
      by (rewrite <- Z.pow_add_r by lia; f_equal; lia).
    apply (Z.mul_le_mono_pos_r _ _ (2 ^ (e - emin))); [lia|]. unfold V in HVG. lia.
  - pose proof (val_finite_bounds _ _ Hc) as [_ Hup]. fold G in Hup.
    apply canonical_inv in Hc as (? & ? & ?). specialize (Hlow ltac:(lia)).
    apply Z.lt_le_incl. eapply Z.lt_le_trans; [exact Hup|].
    transitivity (2 ^ (prec - 1 + (f - emin))).
    + apply Z.pow_le_mono_r; lia.
    + rewrite Z.pow_add_r by lia. apply Z.mul_le_mono_nonneg_r; lia.
Qed.
End Aux.
End Faithful.

Section Normalized.
Variables (m : positive) (e : Z) (mg : positive) (eg : Z).
Hypothesis He : emin <= e.
Hypothesis Hg : bounded prec emax mg eg = true.

Lemma round_le : Zpos m * 2 ^ (e - emin) <= Zpos mg * 2 ^ (eg - emin) ->
  finite_nonneg (binary_normalize prec emax (Zpos m) e false) /\
  val (binary_normalize prec emax (Zpos m) e false) <= Zpos mg * 2 ^ (eg - emin).
Proof.
  intros HVG. destruct (round_normalize m e He) as (m' & e' & -> & He' & Hle & HV).
  apply (aux_le m' e' mg eg); [done..|]. by rewrite HV.
Qed.

Lemma round_ge : Zpos mg * 2 ^ (eg - emin) <= Zpos m * 2 ^ (e - emin) ->
  finite_nonneg (binary_normalize prec emax (Zpos m) e false) ->
  Zpos mg * 2 ^ (eg - emin) <= val (binary_normalize prec emax (Zpos m) e false).
Proof.
  intros HVG. destruct (round_normalize m e He) as (m' & e' & -> & He' & Hle & HV).
  apply (aux_ge m' e' mg eg); [done..|]. by rewrite HV.
Qed.
End Normalized.

(** *** Subtraction *)

Lemma shl_align_val m e e' : e' <= e -> Zpos (fst (shl_align m e e')) = Zpos m * 2 ^ (e - e').
Proof.
  intros H. unfold shl_align. destruct (e' - e) as [|d|d] eqn:E; [| lia |]; simpl.
  - replace (e - e') with 0 by lia. lia.
  - replace (e - e') with (Zpos d) by lia. rewrite <- Z.shiftl_mul_pow2 by lia.
    by apply (Pos.iter_swap_gen _ _ Zpos xO (Z.mul 2)).
Qed.

(** The difference before rounding. *)
Lemma sub_cases x y : finite_nonneg x -> finite_nonneg y -> val y <= val x ->
  (val x = val y /\ exists s, SFsub prec emax x y = S754_zero s) \/
  (val y = 0 /\ SFsub prec emax x y = x) \/
  (exists d e, SFsub prec emax x y = binary_normalize prec emax (Zpos d) e false /\
     emin <= e /\ Zpos d * 2 ^ (e - emin) = val x - val y).
Proof.
  intros Hx Hy Hle. destruct x as [sx| | |[] mx ex], y as [sy| | |[] my ey]; try done.
  - left. split; [done|]. destruct sx, sy; simpl; eauto.
  - exfalso. simpl in Hy, Hle. apply andb_true_iff in Hy as [Hy%canonical_inv _].
    pose proof (Z.pow_pos_nonneg 2 (ey - emin)). lia.
  - right; left. split; done.
  - apply andb_true_iff in Hx as [Hx%canonical_inv _], Hy as [Hy%canonical_inv _].
    cbn [SFsub cond_Zopp]. set (ez := Z.min ex ey). cbn [val] in *.
    rewrite !shl_align_val by lia.
    set (D := Zpos mx * 2 ^ (ex - ez) - Zpos my * 2 ^ (ey - ez)).
    assert (HD : D * 2 ^ (ez - emin) = Zpos mx * 2 ^ (ex - emin) - Zpos my * 2 ^ (ey - emin)).
    { unfold D. rewrite Z.mul_sub_distr_r, <- !Z.mul_assoc, <- !Z.pow_add_r by lia.
      do 3 f_equal; lia. }
    destruct D as [|d|d] eqn:E.
    + left. split; [lia|]. by eexists.
    + right; right. exists d, ez. split; [done|]. split; [lia|done].
    + pose proof (Z.pow_pos_nonneg 2 (ez - emin)). nia.
Qed.

Lemma sub_le x y g : finite_nonneg x -> finite_nonneg y -> finite_nonneg g ->
  val y <= val x -> val x - val y <= val g ->
  finite_nonneg (SFsub prec emax x y) /\ val (SFsub prec emax x y) <= val g.
Proof.
  intros Hx Hy Hg Hle HG.
  destruct (sub_cases x y Hx Hy Hle) as [[Heq [s ->]]|[[H0 ->]|(d & e & -> & He & Hd)]].
  - split; [done|apply val_nonneg].
  - split; [done|lia].
  - destruct g as [| | |[] mg eg]; simpl in Hg; try done.
    + exfalso. simpl in HG. pose proof (Z.pow_pos_nonneg 2 (e - emin)). lia.
    + apply round_le; [done|done|]. simpl in HG. lia.
Qed.

Lemma sub_ge x y g : finite_nonneg x -> finite_nonneg y -> finite_nonneg g ->
  val y <= val x -> val g <= val x - val y -> val g <= val (SFsub prec emax x y).
Proof.
  intros Hx Hy Hg Hle HG.
  destruct (sub_le x y x Hx Hy Hx Hle) as [Hfin _]; [pose proof (val_nonneg y); lia|].
  destruct (sub_cases x y Hx Hy Hle) as [[Heq [s Hs]]|[[H0 Hs]|(d & e & Hs & He & Hd)]];
    rewrite Hs in *.
  - simpl. lia.
  - lia.
  - destruct g as [| | |[] mg eg]; simpl in Hg; try done; [apply val_nonneg|].
    apply round_ge; [done|done| |done]. simpl in HG. lia.
Qed.

(** A difference that is a number of the format is computed exactly. *)
Lemma sub_exact x y g : finite_nonneg x -> finite_nonneg y -> finite_nonneg g ->
  val x - val y = val g -> val (SFsub prec emax x y) = val g.
Proof.
  intros Hx Hy Hg H. pose proof (val_nonneg g).
  destruct (sub_le x y g Hx Hy Hg) as [_ ?]; [lia|lia|].
  pose proof (sub_ge x y g Hx Hy Hg). lia.
Qed.

(** The sum before rounding. *)
Lemma add_cases x y : finite_nonneg x -> finite_nonneg y ->
  (val x = 0 /\ val y = 0 /\ exists s, SFadd prec emax x y = S754_zero s) \/
  (val y = 0 /\ SFadd prec emax x y = x) \/ (val x = 0 /\ SFadd prec emax x y = y) \/
  (exists d e, SFadd prec emax x y = binary_normalize prec emax (Zpos d) e false /\
     emin <= e /\ Zpos d * 2 ^ (e - emin) = val x + val y).
Proof.
  intros Hx Hy. destruct x as [sx| | |[] mx ex], y as [sy| | |[] my ey]; try done.
  - left. split_and!; [done..|]. destruct sx, sy; simpl; eauto.
  - right; right; left. by split.
  - right; left. by split.
  - apply andb_true_iff in Hx as [Hx%canonical_inv _], Hy as [Hy%canonical_inv _].
    cbn [SFadd cond_Zopp]. set (ez := Z.min ex ey). cbn [val] in *.
    rewrite !shl_align_val by lia.
    set (D := Zpos mx * 2 ^ (ex - ez) + Zpos my * 2 ^ (ey - ez)).
    assert (HD : D * 2 ^ (ez - emin) = Zpos mx * 2 ^ (ex - emin) + Zpos my * 2 ^ (ey - emin)).
    { unfold D. rewrite Z.mul_add_distr_r, <- !Z.mul_assoc, <- !Z.pow_add_r by lia.
      do 3 f_equal; lia. }
    assert (H0 : 0 < D).
    { pose proof (Z.pow_pos_nonneg 2 (ex - ez)). pose proof (Z.pow_pos_nonneg 2 (ey - ez)). nia. }
    do 3 right. destruct D as [|d|d] eqn:E; [lia| |lia].
    exists d, ez. split; [done|]. split; [lia|done].
Qed.

(** A sum that is a number of the format is computed exactly. *)
Lemma add_exact x y g : finite_nonneg x -> finite_nonneg y -> finite_nonneg g ->
  val x + val y = val g ->
  finite_nonneg (SFadd prec emax x y) /\ val (SFadd prec emax x y) = val g.
Proof.
  intros Hx Hy Hg H.
  destruct (add_cases x y Hx Hy) as [(H1 & H2 & s & ->)|[[H1 ->]|[[H1 ->]|(d & e & -> & He & Hd)]]].
  - split; [done|]. simpl. lia.
  - split; [done|lia].
  - split; [done|lia].
  - destruct g as [| | |[] mg eg]; cbn [val finite_nonneg] in *; try done.
    + pose proof (Z.pow_pos_nonneg 2 (e - emin)). nia.
    + destruct (round_le d e mg eg) as [Hf Hle]; [done|done|lia|]. split; [done|].
      apply Z.le_antisymm; [done|]. apply round_ge; [done|done|lia|done].
Qed.

(** The next number below [x] is at most one unit in the last place away. *)
Definition ulp (x : spec_float) : Z :=
  match x with
  | S754_finite _ _ e => 2 ^ (e - emin)
  | _ => 1
  end.

Lemma sub_ulp x : finite_nonneg x -> 0 < val x ->
  exists g, finite_nonneg g /\ val g = val x - ulp x.
Proof.
  destruct x as [s| | |[] m e]; cbn [finite_nonneg val ulp]; try done; intros Hx _.
  apply andb_true_iff in Hx as [Hc Hov]. apply canonical_inv in Hc as (He & Hd & Hp).
  pose proof (digits_bound m) as [Hlow Hup].
  destruct (decide (m = 1%positive)) as [->|Hm1].
  { exists (S754_zero false). split; [done|]. simpl. lia. }
  destruct (decide (emin < e /\ Zpos m = 2 ^ (prec - 1))) as [[Hlt Heq]|Hn].
  - exists (S754_finite false (Pos.pred m)~0 (e - 1)). cbn [finite_nonneg val]. split.
    + apply andb_true_iff. split; [|apply Z.leb_le; apply Z.leb_le in Hov; lia].
      assert (digits (Pos.pred m)~0 = prec); [|apply canonical_intro; lia].
      apply digits_unique; [lia|].
      assert (H2 : 2 ^ prec = 2 * 2 ^ (prec - 1))
        by (rewrite <- Z.pow_succ_r by lia; f_equal; lia). lia.
    + replace (e - emin) with (1 + (e - 1 - emin)) by lia. rewrite Z.pow_add_r by lia.
      replace (Zpos (Pos.pred m)~0) with (2 * (Zpos m - 1)) by lia. lia.
  - exists (S754_finite false (Pos.pred m) e). cbn [finite_nonneg val]. split.
    + apply andb_true_iff. split; [|done].
      destruct (decide (emin < e)) as [Hlt|?].
      * specialize (Hp Hlt). rewrite Hp in Hlow, Hup.
        assert (digits (Pos.pred m) = prec); [|apply canonical_intro; lia].
        apply digits_unique; lia.
      * apply canonical_intro; [done| |lia]. apply digits_upper; [lia|].
        apply Z.lt_le_trans with (Zpos m); [lia|].
        apply Z.le_trans with (2 ^ digits m); [lia|]. apply Z.pow_le_mono_r; lia.
    + pose proof (Z.pow_pos_nonneg 2 (e - emin)). nia.
Qed.

(** Subtracting a unit in the last place or more makes progress. *)
Lemma sub_lt x y : finite_nonneg x -> finite_nonneg y -> 0 < val x ->
  ulp x <= val y -> val y <= val x -> val (SFsub prec emax x y) < val x.
Proof.
  intros Hx Hy H0 Hu Hle. destruct (sub_ulp x Hx H0) as (g & Hg & Hv).
  destruct (sub_le x y g Hx Hy Hg) as [_ ?]; [lia|lia|].
  assert (0 < ulp x); [|lia].
  destruct x as [| | |s m e]; cbn [ulp]; try lia. apply Z.pow_pos_nonneg; [lia|].
  destruct s; [done|]. apply andb_true_iff in Hx as [Hx%canonical_inv _]. lia.
Qed.

(** *** Products and quotients *)

Lemma mul_nonneg x y : emin <= 0 -> finite_nonneg x -> finite_nonneg y ->
  nonneg (SFmul prec emax x y).
Proof.
  intros H0. destruct x as [sx| | |[] mx ex], y as [sy| | |[] my ey]; try done; intros Hx Hy.
  apply andb_true_iff in Hx as [Hx%canonical_inv _], Hy as [Hy%canonical_inv _].
  cbn [SFmul xorb]. apply round_aux_nonneg; [lia|].
  pose proof (digits_bound mx) as [Hx1 _]. pose proof (digits_bound my) as [Hy1 _].
  assert (H : Zpos mx * 2 ^ 0 <= Zpos (mx * my) /\ Zpos my * 2 ^ 0 <= Zpos (mx * my)) by nia.
  assert (digits mx - 1 < digits (mx * my)) by (apply digits_lower; lia).
  assert (digits my - 1 < digits (mx * my)) by (apply digits_lower; lia).
  unfold round_exp, SpecFloat.fexp. simpl Zdigits2. lia.
Qed.

(** A product is at most any number of the format its exact value is at most. *)
Lemma mul_le mx ex my ey mg eg : emin <= ex + ey -> emin <= 0 ->
  bounded prec emax mx ex = true -> bounded prec emax my ey = true ->
  bounded prec emax mg eg = true ->
  Zpos mx * Zpos my * 2 ^ (ex + ey - emin) <= Zpos mg * 2 ^ (eg - emin) ->
  let z := SFmul prec emax (S754_finite false mx ex) (S754_finite false my ey) in
  finite_nonneg z /\ val z <= Zpos mg * 2 ^ (eg - emin).
Proof.
  intros He H0 Hx Hy Hg Hle. apply (aux_le (mx * my) (ex + ey) mg eg); [done|done| |done].
  apply andb_true_iff in Hx as [Hx%canonical_inv _], Hy as [Hy%canonical_inv _].
  pose proof (digits_bound mx) as [Hx1 _]. pose proof (digits_bound my) as [Hy1 _].
  assert (digits mx - 1 < digits (mx * my)) by (apply digits_lower; nia).
  assert (digits my - 1 < digits (mx * my)) by (apply digits_lower; nia).
  unfold round_exp, SpecFloat.fexp. simpl Zdigits2. lia.
Qed.

Lemma mul_ge mx ex my ey mg eg : emin <= ex + ey -> emin <= 0 ->
  bounded prec emax mx ex = true -> bounded prec emax my ey = true ->
  bounded prec emax mg eg = true ->
  Zpos mg * 2 ^ (eg - emin) <= Zpos mx * Zpos my * 2 ^ (ex + ey - emin) ->
  let z := SFmul prec emax (S754_finite false mx ex) (S754_finite false my ey) in
  finite_nonneg z -> Zpos mg * 2 ^ (eg - emin) <= val z.
Proof.
  intros He H0 Hx Hy Hg Hle. apply (aux_ge (mx * my) (ex + ey) mg eg); [done|done| |done].
  apply andb_true_iff in Hx as [Hx%canonical_inv _], Hy as [Hy%canonical_inv _].
  pose proof (digits_bound mx) as [Hx1 _]. pose proof (digits_bound my) as [Hy1 _].
  assert (digits mx - 1 < digits (mx * my)) by (apply digits_lower; nia).
  assert (digits my - 1 < digits (mx * my)) by (apply digits_lower; nia).
  unfold round_exp, SpecFloat.fexp. simpl Zdigits2. lia.
Qed.

Lemma div_nonneg x y : finite_nonneg x -> finite_nonneg y -> 0 < val y ->
  nonneg (SFdiv prec emax x y).
Proof.
  destruct x as [sx| | |[] mx ex], y as [sy| | |[] my ey]; try done; intros Hx Hy _.
  cbn [SFdiv xorb]. unfold SFdiv_core_binary. simpl Zdigits2.
  set (e' := Z.min _ _). set (s := ex - ey - e').
  assert (Hs : 0 <= s) by lia.
  assert (Hm : (match s with Zpos _ => Z.shiftl (Zpos mx) s | Z0 => Zpos mx | Zneg _ => 0 end)
               = Zpos mx * 2 ^ s).
  { destruct s; [lia| |lia]. by rewrite Z.shiftl_mul_pow2. }
  rewrite Hm. destruct (Z.div_eucl (Zpos mx * 2 ^ s) (Zpos my)) as [q r] eqn:E.
  assert (Hq : q = Zpos mx * 2 ^ s / Zpos my) by (unfold Z.div; by rewrite E).
  assert (Hq0 : 0 <= q) by (rewrite Hq; apply Z.div_pos; nia).
  apply round_aux_nonneg; [done|]. unfold round_exp.
  transitivity (fexp (digits mx + ex - (digits my + ey))); [lia|]. apply fexp_mono.
  assert (digits mx + s - digits my <= Zdigits2 q); [|lia].
  pose proof (digits_bound mx) as [Hx1 _]. pose proof (digits_bound my) as [_ Hy2].
  destruct (Z.le_gt_cases (digits mx + s - digits my) 0) as [?|Hpos].
  { destruct q; simpl; lia. }
  assert (Hge : 2 ^ (digits mx + s - digits my - 1) <= q).
  { rewrite Hq. apply Z.div_le_lower_bound; [lia|].
    apply Z.le_trans with (2 ^ digits my * 2 ^ (digits mx + s - digits my - 1)); [nia|].
    rewrite <- Z.pow_add_r by lia.
    replace (digits my + (digits mx + s - digits my - 1)) with (digits mx - 1 + s) by lia.
    rewrite Z.pow_add_r by lia. nia. }
  destruct q as [|q|q]; [|simpl|]; [lia| |lia].
  assert (digits mx + s - digits my - 1 < digits q); [|lia]. apply digits_lower; lia.
Qed.

(** *** Integers *)

(** An integer of at most [prec] bits is a number of the format. *)
Lemma normalize_exact p g : emin <= 0 -> finite_nonneg g -> val g = Zpos p * 2 ^ (- emin) ->
  finite_nonneg (binary_normalize prec emax (Zpos p) 0 false) /\
  val (binary_normalize prec emax (Zpos p) 0 false) = Zpos p * 2 ^ (- emin).
Proof.
  intros H0 Hg Hv. destruct g as [| | |[] mg eg]; cbn [val finite_nonneg] in *; try done.
  - pose proof (Z.pow_pos_nonneg 2 (- emin)). nia.
  - destruct (round_le p 0 mg eg) as [Hf ?]; [done|done|by rewrite Z.sub_0_l, Hv|].
    split; [done|]. apply Z.le_antisymm; [by rewrite <- Hv|]. rewrite <- Hv.
    apply round_ge; [done|done| |done]. by rewrite Z.sub_0_l, Hv.
Qed.

Lemma integer_representable p : emin <= 0 -> prec <= emax -> digits p <= prec ->
  exists g, finite_nonneg g /\ val g = Zpos p * 2 ^ (- emin).
Proof.
  intros H0 Hpe Hd. set (e := fexp (digits p)).
  assert (He : e <= 0) by (unfold e, SpecFloat.fexp; lia).
  assert (Hemin : emin <= e) by apply fexp_emin.
  assert (Hm : 0 < Zpos p * 2 ^ (- e)) by (pose proof (Z.pow_pos_nonneg 2 (- e)); nia).
  exists (S754_finite false (Z.to_pos (Zpos p * 2 ^ (- e))) e). cbn [finite_nonneg val].
  rewrite Z2Pos.id by done. split.
  - apply andb_true_iff. split; [|apply Z.leb_le; lia].
    assert (digits (Z.to_pos (Zpos p * 2 ^ (- e))) = digits p - e).
    { rewrite (digits_shift p (- e)); [lia..|]. by rewrite Z2Pos.id. }
    apply canonical_intro; [done| |]; unfold e, SpecFloat.fexp in *; lia.
  - rewrite <- Z.mul_assoc, <- Z.pow_add_r by lia. do 2 f_equal. lia.
Qed.

End Format.

(** ** The double format *)

Lemma prec64_gt : 1 < prec64. Proof. done. Qed.

(** Doubles that are finite and not negative, and their value in units of
    2^-1074, the smallest positive double. *)
Abbreviation dwf := (finite_nonneg prec64 emax64).
Abbreviation dval := (val prec64 emax64).

(** The value of one. *)
Definition one64 : Z := 2 ^ 1074.

Lemma dval_nonneg x : 0 <= dval x.
Proof. apply val_nonneg. Qed.

Lemma dle_val x y : dwf x -> dwf y -> dle x y = (dval x <=? dval y).
Proof. by apply leb_val. Qed.

Lemma dlt_val x y : dwf x -> dwf y -> dlt x y = (dval x <? dval y).
Proof. by apply ltb_val. Qed.

Lemma dgt_val x y : dwf x -> dwf y -> dgt x y = (dval y <? dval x).
Proof. intros Hx Hy. unfold dgt. by apply dlt_val. Qed.

Lemma dsub_range x y : dwf x -> dwf y -> dval y <= dval x ->
  dwf (dsub x y) /\ 0 <= dval (dsub x y) <= dval x.
Proof.
  intros Hx Hy Hle. destruct (sub_le _ _ prec64_gt x y x Hx Hy Hx Hle) as [? ?].
  - pose proof (dval_nonneg y). lia.
  - split; [done|]. split; [apply dval_nonneg|done].
Qed.

Lemma dsub_progress x y : dwf x -> dwf y -> 0 < dval x ->
  ulp prec64 emax64 x <= dval y -> dval y <= dval x -> dval (dsub x y) < dval x.
Proof. by apply sub_lt. Qed.

Lemma dsub_exact x y g : dwf x -> dwf y -> dwf g ->
  dval x - dval y = dval g -> dval (dsub x y) = dval g.
Proof. by apply sub_exact. Qed.

(** The unit in the last place of a number below 2^53 is at most one. *)
Lemma ulp_le_one x : dwf x -> dval x < 2 ^ 53 * one64 -> ulp prec64 emax64 x <= one64.
Proof.
  destruct x as [| | |[] m e]; cbn [finite_nonneg val ulp]; [|done..|].
  { intros _ _. unfold one64. pose proof (Z.pow_pos_nonneg 2 1074). lia. }
  intros [Hc _]%andb_true_iff Hlt. apply canonical_inv in Hc as (He & Hd & Hp).
  unfold one64 in *. change (SpecFloat.emin prec64 emax64) with (-1074) in *.
  apply Z.pow_le_mono_r; [lia|]. apply Z.le_ngt. intros Hgt. specialize (Hp ltac:(lia)).
  pose proof (digits_bound m) as [Hlow _]. rewrite Hp in Hlow.
  change (2 ^ (prec64 - 1)) with (2 ^ 52) in Hlow.
  assert (2 ^ 52 * 2 ^ (1 + 1074) <= Zpos m * 2 ^ (e - -1074)).
  { apply Z.mul_le_mono_nonneg; [lia|done|lia|]. apply Z.pow_le_mono_r; lia. }
  replace (2 ^ 53 * 2 ^ 1074) with (2 ^ 52 * 2 ^ (1 + 1074)) in Hlt; [lia|].
  rewrite <- !Z.pow_add_r by lia. f_equal.
Qed.

(** Integers up to 2^53 are exact. *)
Lemma to_double_val z : 0 <= z < 2 ^ 53 ->
  dwf (to_double z) /\ dval (to_double z) = z * one64.
Proof.
  intros Hz. destruct z as [|p|p]; [done| |lia].
  destruct (integer_representable prec64 emax64 prec64_gt p) as (g & Hg & Hv); [done|done| |].
  { apply digits_upper; [done|]. change prec64 with 53. lia. }
  exact (normalize_exact prec64 emax64 prec64_gt p g ltac:(done) Hg Hv).
Qed.

Lemma dval_one : one64 = dval (to_double 1).
Proof. by destruct (to_double_val 1 ltac:(lia)) as [_ ->]. Qed.

Lemma d0_val : dwf d0 /\ dval d0 = 0.
Proof. done. Qed.

(** The integer part. *)
Lemma dtrunc_val x : dwf x -> dtrunc x = Some (dval x / one64).
Proof.
  destruct x as [| | |[] m e]; cbn [finite_nonneg val]; try done.
  intros [Hc _]%andb_true_iff. apply canonical_inv in Hc as (He & _).
  unfold one64. change (SpecFloat.emin prec64 emax64) with (-1074) in *. unfold dtrunc. f_equal.
  destruct e as [|p|p].
  - rewrite Z.div_mul by lia. done.
  - rewrite Z.shiftl_mul_pow2 by lia.
    replace (Zpos p - -1074) with (Zpos p + 1074) by lia.
    rewrite Z.pow_add_r, Z.mul_assoc, Z.div_mul by lia. done.
  - rewrite Z.shiftr_div_pow2 by lia.
    assert (2 ^ 1074 = 2 ^ Zpos p * 2 ^ (Zneg p - -1074)) as ->
      by (rewrite <- Z.pow_add_r by lia; f_equal; lia).
    rewrite Z.div_mul_cancel_r; [done|lia..].
Qed.

Lemma dtrunc_to_double z : 0 <= z < 2 ^ 53 -> dtrunc (to_double z) = Some z.
Proof.
  intros Hz. destruct (to_double_val z Hz) as [Hw Hv].
  rewrite dtrunc_val, Hv by done. f_equal. apply Z.div_mul. unfold one64. lia.
Qed.

Lemma dmul_nonneg x y : dwf x -> dwf y -> nonneg prec64 emax64 (dmul x y).
Proof. by apply mul_nonneg. Qed.

Lemma ddiv_nonneg x y : dwf x -> dwf y -> 0 < dval y -> nonneg prec64 emax64 (ddiv x y).
Proof. by apply div_nonneg. Qed.

(** *** Doubles that hold integers *)

(** [x] is the integer [z], below 2^53. *)
Definition holds (x : double) (z : Z) : Prop :=
  dwf x /\ dval x = z * one64 /\ 0 <= z < 2 ^ 53.

Lemma one64_pos : 0 < one64.
Proof. unfold one64. apply Z.pow_pos_nonneg; lia. Qed.

Lemma holds_to_double z : 0 <= z < 2 ^ 53 -> holds (to_double z) z.
Proof. intros Hz. destruct (to_double_val z Hz). done. Qed.

Lemma holds_d0 : holds d0 0.
Proof. by apply (holds_to_double 0). Qed.

Lemma holds_unique x z z' : holds x z -> holds x z' -> z = z'.
Proof. intros (_ & H & _) (_ & H' & _). pose proof one64_pos. nia. Qed.

Lemma holds_dgt x y a b : holds x a -> holds y b -> dgt x y = (b <? a).
Proof.
  intros (Hx & Ha & _) (Hy & Hb & _). rewrite dgt_val by done. rewrite Ha, Hb.
  pose proof one64_pos. destruct (Z.ltb_spec b a).
  - apply Z.ltb_lt. nia.
  - apply Z.ltb_ge. nia.
Qed.

Lemma holds_dlt x y a b : holds x a -> holds y b -> dlt x y = (a <? b).
Proof. intros Hx Hy. change (dlt x y) with (dgt y x). by apply holds_dgt. Qed.

(** Integers are subtracted exactly. *)
Lemma holds_dsub x y a b : holds x a -> holds y b -> b <= a -> holds (dsub x y) (a - b).
Proof.
  intros (Hx & Ha & Har) (Hy & Hb & Hbr) Hle. pose proof one64_pos.
  destruct (dsub_range x y Hx Hy) as [Hw _]; [nia|].
  destruct (holds_to_double (a - b)) as (Hg & Hv & Hr); [lia|].
  split; [done|]. split; [|done]. rewrite <- Hv.
  apply dsub_exact; [done..|]. rewrite Hv. nia.
Qed.

(** Integers are added exactly, below 2^53. *)
Lemma holds_dadd x y a b : holds x a -> holds y b -> a + b < 2 ^ 53 -> holds (dadd x y) (a + b).
Proof.
  intros (Hx & Ha & Har) (Hy & Hb & Hbr) Hlt.
  destruct (holds_to_double (a + b)) as (Hg & Hv & Hr); [lia|].
  destruct (add_exact prec64 emax64 prec64_gt x y (to_double (a + b)) Hx Hy Hg) as [Hf He].
  { rewrite Hv, Ha, Hb. lia. }
  split; [done|]. split; [|done]. unfold dadd. by rewrite He, Hv.
Qed.

(** The shape of an integer that is not zero. *)
Lemma holds_finite x p : holds x p -> 0 < p -> exists m e, x = S754_finite false m e /\
  bounded prec64 emax64 m e = true /\ -52 <= e.
Proof.
  intros (Hw & Hv & Hp) H0.
  destruct x as [| | |[] m e]; cbn [finite_nonneg val] in *; try done.
  { pose proof one64_pos. nia. }
  exists m, e. split; [done|]. split; [done|].
  apply andb_true_iff in Hw as [(He & Hd & _)%canonical_inv _].
  pose proof (digits_bound m) as [_ Hm]. change (emin prec64 emax64) with (-1074) in *.
  apply Z.le_ngt. intros Hlt. unfold one64 in Hv.
  assert (2 ^ Zpos (digits2_pos m) <= 2 ^ 53)
    by (apply Z.pow_le_mono_r; [lia|]; change prec64 with 53 in Hd; lia).
  assert (Zpos m * 2 ^ (e - -1074) < 2 ^ 53 * 2 ^ 1021).
  { apply Z.lt_le_trans with (2 ^ 53 * 2 ^ (e - -1074)).
    - apply Z.mul_lt_mono_pos_r; [apply Z.pow_pos_nonneg; lia|lia].
    - apply Z.mul_le_mono_nonneg_l; [lia|]. apply Z.pow_le_mono_r; lia. }
  replace (2 ^ 53 * 2 ^ 1021) with (1 * 2 ^ 1074) in * by (rewrite <- Z.pow_add_r by lia; done).
  assert (1 * 2 ^ 1074 <= p * 2 ^ 1074); [|lia]. apply Z.mul_le_mono_nonneg_r; lia.
Qed.

Lemma to_double_finite p : 0 < p < 2 ^ 53 -> exists m e, to_double p = S754_finite false m e /\
  bounded prec64 emax64 m e = true /\ -52 <= e.
Proof. intros Hp. eapply holds_finite; [apply holds_to_double|]; lia. Qed.

(** A product by one is exact. *)
Lemma holds_dmul_one x z : holds x z -> holds (dmul x (to_double 1)) z.
Proof.
  intros Hx. assert (Hx' := Hx). destruct Hx' as (Hw & Hv & Hz).
  destruct (decide (z = 0)) as [->|Hne].
  { destruct x as [| | |[] m e]; cbn [finite_nonneg val] in *; try done.
    pose proof one64_pos. pose proof (Z.pow_nonneg 2 (e - emin prec64 emax64)).
    apply andb_true_iff in Hw as [(He & _)%canonical_inv _].
    pose proof (Z.pow_pos_nonneg 2 (e - emin prec64 emax64)). nia. }
  destruct (holds_finite x z Hx) as (m & e & -> & Hb & He); [lia|].
  destruct (to_double_finite 1) as (m1 & e1 & H1 & Hb1 & He1); [lia|].
  assert (H1' : m1 = Pos.pow 2 52 /\ e1 = -52).
  { vm_compute in H1. injection H1 as <- <-. done. }
  destruct H1' as [-> ->]. rewrite H1. unfold dmul.
  assert (Heq : Zpos m * Zpos (Pos.pow 2 52) * 2 ^ (e + -52 - emin prec64 emax64) =
                Zpos m * 2 ^ (e - emin prec64 emax64)).
  { change (emin prec64 emax64) with (-1074). change (Zpos (Pos.pow 2 52)) with (2 ^ 52).
    rewrite <- Z.mul_assoc, <- Z.pow_add_r by lia. do 2 f_equal. lia. }
  destruct (mul_le prec64 emax64 prec64_gt m e (Pos.pow 2 52) (-52) m e) as [Hf Hle]; try done.
  { change (emin prec64 emax64) with (-1074). lia. }
  { by rewrite Heq. }
  split; [done|]. split; [|done]. rewrite <- Hv. apply Z.le_antisymm; [done|].
  apply (mul_ge prec64 emax64 prec64_gt m e (Pos.pow 2 52) (-52) m e); try done.
  { change (emin prec64 emax64) with (-1074). lia. }
  by rewrite Heq.
Qed.

(** So is a quotient by one. *)
Lemma holds_ddiv_one x z : holds x z -> holds (ddiv x (to_double 1)) z.
Proof.
  intros Hx. assert (Hx' := Hx). destruct Hx' as (Hw & Hv & Hz).
  destruct (decide (z = 0)) as [->|Hne].
  { destruct x as [| | |[] m e]; cbn [finite_nonneg val] in *; try done.
    pose proof one64_pos. apply andb_true_iff in Hw as [(He & _)%canonical_inv _].
    pose proof (Z.pow_pos_nonneg 2 (e - emin prec64 emax64)). nia. }
  destruct (holds_finite x z Hx) as (m & e & -> & Hb & He); [lia|].
  assert (H1 : to_double 1 = S754_finite false (Pos.pow 2 52) (-52)) by (vm_compute; reflexivity).
  rewrite H1. unfold ddiv. cbn [SFdiv xorb].
  assert (Hb' := Hb). apply andb_true_iff in Hb' as [(_ & _ & Hexp)%canonical_inv _].
  change (emin prec64 emax64) with (-1074) in Hexp. specialize (Hexp ltac:(lia)). change prec64 with 53 in Hexp.
  assert (Hf : forall k, -1074 <= k - 53 -> SpecFloat.fexp prec64 emax64 k = k - 53).
  { intros k Hk. unfold SpecFloat.fexp. change (SpecFloat.emin prec64 emax64) with (-1074).
    change prec64 with 53. lia. }
  assert (Hcore : SFdiv_core_binary prec64 emax64 (Zpos m) e (Zpos (Pos.pow 2 52)) (-52) =
    (Zpos (xO m), e - 1, loc_Exact)).
  { unfold SFdiv_core_binary. change (Zdigits2 (Zpos (Pos.pow 2 52))) with 53. cbn [Zdigits2].
    rewrite Hexp, Hf by lia. replace (Z.min _ _) with (e - 1) by lia.
    replace (e - -52 - (e - 1)) with 53 by lia. cbv iota zeta. rewrite Z.shiftl_mul_pow2 by lia.
    assert (Z.div_eucl (Zpos m * 2 ^ 53) (Zpos (Pos.pow 2 52)) = (Zpos (xO m), 0)) as ->; [|done].
    change (Zpos (Pos.pow 2 52)) with (2 ^ 52).
    replace (Zpos m * 2 ^ 53) with (Zpos (xO m) * 2 ^ 52) by (change (2 ^ 53) with (2 * 2 ^ 52); lia).
    pose proof (Z.div_mul (Zpos (xO m)) (2 ^ 52) ltac:(lia)) as Hdiv.
    pose proof (Z.mod_mul (Zpos (xO m)) (2 ^ 52) ltac:(lia)) as Hmod.
    unfold Z.div in Hdiv. unfold Z.modulo in Hmod.
    destruct (Z.div_eucl _ _) as [q r]. by subst. }
  rewrite Hcore.
  assert (Hround : e - 1 <= round_exp prec64 emax64 (Zpos (xO m)) (e - 1)).
  { unfold round_exp. cbn [Zdigits2 digits2_pos]. rewrite Pos2Z.inj_succ, Hexp, Hf by lia. lia. }
  assert (Heq : Zpos (xO m) * 2 ^ (e - 1 - emin prec64 emax64) = Zpos m * 2 ^ (e - emin prec64 emax64)).
  { change (emin prec64 emax64) with (-1074). change (Zpos (xO m)) with (2 * Zpos m).
    replace (e - -1074) with (Z.succ (e - 1 - -1074)) by lia. rewrite Z.pow_succ_r by lia. lia. }
  assert (Hemin : emin prec64 emax64 <= e - 1) by (change (emin prec64 emax64) with (-1074); lia).
  destruct (aux_le prec64 emax64 prec64_gt (xO m) (e - 1) m e Hemin Hb Hround) as [Hfin Hle]; [by rewrite Heq|].
  split; [exact Hfin|]. split; [|done]. rewrite <- Hv. apply Z.le_antisymm; [exact Hle|].
  apply (aux_ge prec64 emax64 prec64_gt (xO m) (e - 1) m e Hemin Hb Hround); [by rewrite Heq|exact Hfin].
Qed.
