(* ===== verification/Options.v ===== *)
(** * Configuration: context domains, options, contexts and statuses

    The enumerations of [context_propagation_definitions.hpp] with their integer
    codes, the compile-time options of [options.hpp] the components read, the
    [Context] a request carries and the [PStatus] of an operation. *)

From S2P Require Import Prelude MachineInt.

(** ** Context domains *)

Inductive ContextType :=
| PAIO_GENERAL | POSIX | POSIX_META | LSM_KVS_SIMPLE | LSM_KVS_DETAILED | KVS.

#[export] Instance ContextType_eq_dec : EqDecision ContextType.
Proof. solve_decision. Defined.

(** General contexts. *)
Module PAIO_GENERAL_.

Inductive t :=
| foreground | background | high_priority | low_priority | no_op.

Definition code (op : t) : Z :=
  match op with
  | foreground => 1 | background => 2 | high_priority => 3 | low_priority => 4
  | no_op => 0
  end.

Definition all : list t :=
  [no_op; foreground; background; high_priority; low_priority].

End PAIO_GENERAL_.

(** Contexts of an LSM key-value store. *)
Module LSM_KVS_DETAILED_.

Inductive t :=
| bg_flush | bg_compaction | bg_compaction_L0_L0 | bg_compaction_L0_L1
| bg_compaction_L1_L2 | bg_compaction_L2_L3 | bg_compaction_LN | foreground | no_op.

Definition code (op : t) : Z :=
  match op with
  | bg_flush => 1 | bg_compaction => 2 | bg_compaction_L0_L0 => 3
  | bg_compaction_L0_L1 => 4 | bg_compaction_L1_L2 => 5 | bg_compaction_L2_L3 => 6
  | bg_compaction_LN => 7 | foreground => 8 | no_op => 0
  end.

Definition all : list t :=
  [no_op; bg_flush; bg_compaction; bg_compaction_L0_L0; bg_compaction_L0_L1;
   bg_compaction_L1_L2; bg_compaction_L2_L3; bg_compaction_LN; foreground].

End LSM_KVS_DETAILED_.

(** Coarser contexts of an LSM key-value store. *)
Module LSM_KVS_SIMPLE_.

Inductive t :=
| bg_flush | bg_compaction_high_priority | bg_compaction_low_priority | foreground
| background | no_op.

Definition code (op : t) : Z :=
  match op with
  | bg_flush => 1 | bg_compaction_high_priority => 2 | bg_compaction_low_priority => 3
  | foreground => 4 | background => 5 | no_op => 0
  end.

Definition all : list t :=
  [no_op; bg_flush; bg_compaction_high_priority; bg_compaction_low_priority; foreground;
   background].

End LSM_KVS_SIMPLE_.

(** The operations of the POSIX interface. *)
Module POSIX_.

Inductive t :=
| read | write | pread | pwrite | pread64 | pwrite64 | fread | fwrite | open | open64
| creat | creat64 | openat | close | fsync | fdatasync | sync | syncfs | truncate
| truncate64 | ftruncate | ftruncate64 | xstat | xstat64 | lxstat | lxstat64 | fxstat
| fxstat64 | fxstatat | fxstatat64 | statfs | statfs64 | fstatfs | fstatfs64 | link
| linkat | unlink | unlinkat | rename | renameat | symlink | symlinkat | readlink
| readlinkat | fopen | fopen64 | fdopen | freopen | freopen64 | fclose | fflush | access
| faccessat | lseek | lseek64 | fseek | fseek64 | ftell | fseeko | fseeko64 | ftello
| ftello64 | mkdir | mkdirat | readdir | readdir64 | opendir | fdopendir | closedir
| rmdir | dirfd | getxattr | lgetxattr | fgetxattr | setxattr | lsetxattr | fsetxattr
| listxattr | llistxattr | flistxattr | removexattr | lremovexattr | fremovexattr | chmod
| fchmod | fchmodat | chown | lchown | fchown | fchownat | mknod | mknodat | mmap
| munmap | no_op.

Definition code (op : t) : Z :=
  match op with
  | read => 1 | write => 2 | pread => 3 | pwrite => 4 | pread64 => 5 | pwrite64 => 6
  | fread => 7 | fwrite => 8 | open => 9 | open64 => 10 | creat => 11 | creat64 => 12
  | openat => 13 | close => 14 | fsync => 15 | fdatasync => 16 | sync => 17
  | syncfs => 18 | truncate => 19 | truncate64 => 20 | ftruncate => 21
  | ftruncate64 => 22 | xstat => 23 | xstat64 => 24 | lxstat => 25 | lxstat64 => 26
  | fxstat => 27 | fxstat64 => 28 | fxstatat => 29 | fxstatat64 => 30 | statfs => 31
  | statfs64 => 32 | fstatfs => 33 | fstatfs64 => 34 | link => 35 | linkat => 36
  | unlink => 37 | unlinkat => 38 | rename => 39 | renameat => 40 | symlink => 41
  | symlinkat => 42 | readlink => 43 | readlinkat => 44 | fopen => 45 | fopen64 => 46
  | fdopen => 47 | freopen => 48 | freopen64 => 49 | fclose => 50 | fflush => 51
  | access => 52 | faccessat => 53 | lseek => 54 | lseek64 => 55 | fseek => 56
  | fseek64 => 57 | ftell => 58 | fseeko => 59 | fseeko64 => 60 | ftello => 61
  | ftello64 => 62 | mkdir => 63 | mkdirat => 64 | readdir => 65 | readdir64 => 66
  | opendir => 67 | fdopendir => 68 | closedir => 69 | rmdir => 70 | dirfd => 71
  | getxattr => 72 | lgetxattr => 73 | fgetxattr => 74 | setxattr => 75 | lsetxattr => 76
  | fsetxattr => 77 | listxattr => 78 | llistxattr => 79 | flistxattr => 80
  | removexattr => 81 | lremovexattr => 82 | fremovexattr => 83 | chmod => 84
  | fchmod => 85 | fchmodat => 86 | chown => 87 | lchown => 88 | fchown => 89
  | fchownat => 90 | mknod => 91 | mknodat => 92 | mmap => 93 | munmap => 94 | no_op => 0
  end.

Definition all : list t :=
  [no_op; read; write; pread; pwrite; pread64; pwrite64; fread; fwrite; open; open64;
   creat; creat64; openat; close; fsync; fdatasync; sync; syncfs; truncate; truncate64;
   ftruncate; ftruncate64; xstat; xstat64; lxstat; lxstat64; fxstat; fxstat64; fxstatat;
   fxstatat64; statfs; statfs64; fstatfs; fstatfs64; link; linkat; unlink; unlinkat;
   rename; renameat; symlink; symlinkat; readlink; readlinkat; fopen; fopen64; fdopen;
   freopen; freopen64; fclose; fflush; access; faccessat; lseek; lseek64; fseek; fseek64;
   ftell; fseeko; fseeko64; ftello; ftello64; mkdir; mkdirat; readdir; readdir64;
   opendir; fdopendir; closedir; rmdir; dirfd; getxattr; lgetxattr; fgetxattr; setxattr;
   lsetxattr; fsetxattr; listxattr; llistxattr; flistxattr; removexattr; lremovexattr;
   fremovexattr; chmod; fchmod; fchmodat; chown; lchown; fchown; fchownat; mknod;
   mknodat; mmap; munmap].

End POSIX_.

(** Classes of POSIX operations. *)
Module POSIX_META_.

Inductive t :=
| foreground | background | high_priority | med_priority | low_priority | data_op
| meta_op | dir_op | ext_attr_op | file_mod_op | no_op.

Definition code (op : t) : Z :=
  match op with
  | foreground => 1 | background => 2 | high_priority => 3 | med_priority => 4
  | low_priority => 5 | data_op => 6 | meta_op => 7 | dir_op => 8 | ext_attr_op => 9
  | file_mod_op => 10 | no_op => 0
  end.

Definition all : list t :=
  [no_op; foreground; background; high_priority; med_priority; low_priority; data_op;
   meta_op; dir_op; ext_attr_op; file_mod_op].

End POSIX_META_.

(** The operations of a key-value store. *)
Module KVS_.

Inductive t :=
| put | get | new_iterator | delete_ | write | get_snapshot | get_property
| get_approximate_size | compact_range | no_op.

Definition code (op : t) : Z :=
  match op with
  | put => 1 | get => 2 | new_iterator => 3 | delete_ => 4 | write => 5
  | get_snapshot => 6 | get_property => 7 | get_approximate_size => 8
  | compact_range => 9 | no_op => 0
  end.

Definition all : list t :=
  [no_op; put; get; new_iterator; delete_; write; get_snapshot; get_property;
   get_approximate_size; compact_range].

End KVS_.

Definition paio_general_size : Z := 5.
Definition lsm_kvs_detailed_size : Z := 9.
Definition lsm_kvs_simple_size : Z := 6.
Definition posix_size : Z := 95.
Definition posix_meta_size : Z := 11.
Definition kvs_size : Z := 10.

(** ** Options *)

Inductive EnforcementObjectType := drl | noop.

Inductive CommunicationType := _unix | inet | rpc | none.

Inductive ChannelMode := fast_path | queueing.

Inductive HashingScheme := MurmurHash_x86_32 | MurmurHash_x86_128 | MurmurHash_x64_128.

Inductive StatisticMetric := throughput | counter.

Inductive ClassifierType := ClassifierType_operation_type | ClassifierType_operation_context.

#[export] Instance EnforcementObjectType_eq_dec : EqDecision EnforcementObjectType.
Proof. solve_decision. Defined.
#[export] Instance ChannelMode_eq_dec : EqDecision ChannelMode.
Proof. solve_decision. Defined.
#[export] Instance HashingScheme_eq_dec : EqDecision HashingScheme.
Proof. solve_decision. Defined.
#[export] Instance StatisticMetric_eq_dec : EqDecision StatisticMetric.
Proof. solve_decision. Defined.
#[export] Instance ClassifierType_eq_dec : EqDecision ClassifierType.
Proof. solve_decision. Defined.

Definition EnforcementObjectType_code (t : EnforcementObjectType) : Z :=
  match t with drl => 1 | noop => 0 end.

Definition option_default_communication_type : CommunicationType := none.
Definition option_execute_rule_on_receive : bool := true.
Definition option_default_hashing_algorithm : HashingScheme := MurmurHash_x86_32.
Definition option_default_has_io_transformation : bool := false.
Definition option_create_default_channels : bool := true.
Definition option_default_channel_mode : ChannelMode := fast_path.
Definition option_define_default_object_differentiation_on_create_channel : bool := true.
Definition option_default_channel_differentiation_workflow : bool := false.
Definition option_default_channel_differentiation_operation_type : bool := false.
Definition option_default_channel_differentiation_operation_context : bool := true.
Definition option_default_enforcement_object_differentiation_operation_type : bool := false.
Definition option_default_enforcement_object_differentiation_operation_context : bool := false.
Definition option_default_channel_thread_pool_size : Z := 4.
Definition option_default_channel_statistic_collection : bool := true.
Definition option_default_object_statistic_collection : bool := false.
Definition option_default_statistic_metric : StatisticMetric := throughput.
Definition option_default_statistic_classifier : ClassifierType := ClassifierType_operation_context.
Definition option_default_context_type : ContextType := PAIO_GENERAL.

(** ** Context of a request *)

Record Context := mkContext {
  m_workflow_id : Z;        (* long *)
  m_operation_type : Z;     (* int *)
  m_operation_context : Z;  (* int *)
  m_operation_size : Z;     (* uint64_t *)
  m_total_operations : Z;   (* int *)
}.

Definition default_Context : Context :=
  mkContext (-1) (PAIO_GENERAL_.code PAIO_GENERAL_.no_op)
    (PAIO_GENERAL_.code PAIO_GENERAL_.no_op) 0 0.

(** The ranges of the C++ types. *)
Definition Context_typed (c : Context) : Prop :=
  is_long (m_workflow_id c) /\ is_int (m_operation_type c) /\
  is_int (m_operation_context c) /\ word 64 (m_operation_size c) /\
  is_int (m_total_operations c).

(** ** Status of an operation *)

Inductive PStatus :=
| PStatus_OK | PStatus_NotFound | PStatus_NotSupported | PStatus_Error | PStatus_Enforced
| PStatus_NoStatus.

#[export] Instance PStatus_eq_dec : EqDecision PStatus.
Proof. solve_decision. Defined.

Definition is_ok (s : PStatus) : bool := bool_decide (s = PStatus_OK).
Definition is_not_found (s : PStatus) : bool := bool_decide (s = PStatus_NotFound).
Definition is_not_supported (s : PStatus) : bool := bool_decide (s = PStatus_NotSupported).
Definition is_enforced (s : PStatus) : bool := bool_decide (s = PStatus_Enforced).
Definition is_error (s : PStatus) : bool := bool_decide (s = PStatus_Error).

Definition PStatus_to_string (s : PStatus) : string :=
  match s with
  | PStatus_OK => "OK"
  | PStatus_NotFound => "NotFound"
  | PStatus_NotSupported => "NotSupported"
  | PStatus_Enforced => "Enforced"
  | PStatus_Error => "Error"
  | PStatus_NoStatus => "Unknown Status"
  end.

(** The codes of a domain are its positions: they are distinct and below its
    size. *)
Lemma posix_codes : POSIX_.code <$> POSIX_.all = seqZ 0 posix_size.
Proof. reflexivity. Qed.

Lemma posix_all op : op ∈ POSIX_.all.
Proof. apply list_elem_of_In. destruct op; simpl; tauto. Qed.

Lemma posix_code_range op : 0 <= POSIX_.code op < posix_size.
Proof. destruct op; vm_compute; intuition discriminate. Qed.

Lemma posix_code_inj (op op' : POSIX_.t) : POSIX_.code op = POSIX_.code op' -> op = op'.
Proof.
  intros H. destruct (list_elem_of_lookup_1 _ _ (posix_all op)) as [i Hi].
  destruct (list_elem_of_lookup_1 _ _ (posix_all op')) as [j Hj].
  assert (Hc : forall k o, POSIX_.all !! k = Some o -> POSIX_.code o = Z.of_nat k).
  { intros k o Hk. assert (H' : (POSIX_.code <$> POSIX_.all) !! k = Some (POSIX_.code o))
      by (by rewrite list_lookup_fmap, Hk).
    rewrite posix_codes in H'. apply lookup_seqZ in H'. lia. }
  apply Hc in Hi as Hi', Hj as Hj'. assert (i = j) as <- by lia. congruence.
Qed.
