(* ===== verification/Differentiation.v ===== *)
(** * Differentiation: from the classifiers of a request to its token

    [MurmurHashTokenBuilder] hashes a message into the 32-bit object the caller
    passes, with one of three schemes; [ChannelHashingDifferentiation] and
    [ObjectHashingDifferentiation] make the message from the classifiers that
    are in use.  The theorems say which requests share a token: the message is
    an injective encoding of the classifiers in use, and the hash separates the
    codes of the POSIX domain and the small workflow identifiers. *)

From S2P Require Import Prelude MachineInt Murmur Options.

(** ** Messages *)

Definition bytes_of_string (s : string) : list Z :=
  (fun c => Z.of_N (Ascii.N_of_ascii c)) <$> String.list_ascii_of_string s.

(** [std::to_string] of an unsigned integer. *)
Definition to_string (x : Z) : string := pretty (Z.to_N x).

Module MurmurHashTokenBuilder.

(** The bytes a scheme writes from the address of the token on, and the 32-bit
    word it leaves at that address. *)
Definition Written : Type := Z * Z.

Definition WrapperMurmurHash3_x86_32 (message_token : list Z) : Written :=
  (4, MurmurHash3.MurmurHash3_x86_32 message_token).

Definition WrapperMurmurHash3_x86_128 (message_token : list Z) : Written :=
  (16, nth 0 (MurmurHash3.MurmurHash3_x86_128 message_token) 0).

Definition WrapperMurmurHash3_x64_128 (message_token : list Z) : Written :=
  (16, u32 (nth 0 (MurmurHash3.MurmurHash3_x64_128 message_token) 0)).

Definition bind_function (m_hashing_scheme : HashingScheme) : list Z -> Written :=
  match m_hashing_scheme with
  | MurmurHash_x86_32 => WrapperMurmurHash3_x86_32
  | MurmurHash_x86_128 => WrapperMurmurHash3_x86_128
  | MurmurHash_x64_128 => WrapperMurmurHash3_x64_128
  end.

Definition generate_differentiation_token (m_hashing_scheme : HashingScheme)
    (message_token : list Z) : Written :=
  bind_function m_hashing_scheme message_token.

End MurmurHashTokenBuilder.

(** The [uint32_t& hash_value] of the builders: four bytes of the caller. *)
Definition hash_value {S} (w : MurmurHashTokenBuilder.Written) : M S Z :=
  if fst w <=? 4 then mret (snd w)
  else crash_with (UndefinedBehaviour "write past the 32-bit hash_value").

Definition hash_message (scheme : HashingScheme) (message_token : string) :=
  MurmurHashTokenBuilder.generate_differentiation_token scheme (bytes_of_string message_token).

(** ** Tuples of classifiers *)

Record ChannelDifferentiationTuple := mkTuple {
  m_workflow_identifier : Z;      (* uint32_t *)
  tuple_operation_type : Z;       (* uint32_t *)
  tuple_operation_context : Z;    (* uint32_t *)
}.

Record ObjectDifferentiationPair := mkPair {
  pair_operation_type : Z;        (* uint32_t *)
  pair_operation_context : Z;     (* uint32_t *)
}.

Module ChannelHashingDifferentiation.

Definition build_function : Type :=
  HashingScheme -> Z -> Z -> Z -> MurmurHashTokenBuilder.Written.

Definition build_workflow_type_context : build_function :=
  fun m_token_builder workflow_id operation_type operation_context =>
    let message_token := to_string workflow_id in
    let message_token := message_token +:+ "|" in
    let message_token := message_token +:+ to_string operation_type in
    let message_token := message_token +:+ "|" in
    let message_token := message_token +:+ to_string operation_context in
    hash_message m_token_builder message_token.

Definition build_workflow_type : build_function :=
  fun m_token_builder workflow_id operation_type _ =>
    let message_token := to_string workflow_id in
    let message_token := message_token +:+ "|" in
    let message_token := message_token +:+ to_string operation_type in
    hash_message m_token_builder message_token.

Definition build_workflow_context : build_function :=
  fun m_token_builder workflow_id _ operation_context =>
    let message_token := to_string workflow_id in
    let message_token := message_token +:+ "|" in
    let message_token := message_token +:+ to_string operation_context in
    hash_message m_token_builder message_token.

Definition build_workflow : build_function :=
  fun m_token_builder workflow_id _ _ => hash_message m_token_builder (to_string workflow_id).

Definition build_type_context : build_function :=
  fun m_token_builder _ operation_type operation_context =>
    let message_token := to_string operation_type in
    let message_token := message_token +:+ "|" in
    let message_token := message_token +:+ to_string operation_context in
    hash_message m_token_builder message_token.

Definition build_type : build_function :=
  fun m_token_builder _ operation_type _ => hash_message m_token_builder (to_string operation_type).

Definition build_context : build_function :=
  fun m_token_builder _ _ operation_context =>
    hash_message m_token_builder (to_string operation_context).

Definition build_no_diff : build_function :=
  fun m_token_builder _ _ _ => hash_message m_token_builder "no_diff".

Record t := mk {
  m_use_workflow : bool;
  m_use_operation_type : bool;
  m_use_operation_context : bool;
  m_token_builder : HashingScheme;
  m_func_build_token : option build_function;
}.

Definition generate_builder (b : t) : t :=
  let f :=
    if m_use_workflow b && m_use_operation_type b && m_use_operation_context b
    then build_workflow_type_context
    else if m_use_workflow b && m_use_operation_type b then build_workflow_type
    else if m_use_workflow b && m_use_operation_context b then build_workflow_context
    else if m_use_workflow b then build_workflow
    else if m_use_operation_type b && m_use_operation_context b then build_type_context
    else if m_use_operation_type b then build_type
    else if m_use_operation_context b then build_context
    else build_no_diff in
  mk (m_use_workflow b) (m_use_operation_type b) (m_use_operation_context b)
    (m_token_builder b) (Some f).

(** The constructors. *)
Definition default : t := mk false false false option_default_hashing_algorithm None.
Definition with_scheme (scheme : HashingScheme) : t := mk false false false scheme None.
Definition with_classifiers (workflow_id operation_type operation_context : bool)
    (scheme : HashingScheme) : t :=
  generate_builder (mk workflow_id operation_type operation_context scheme None).

Definition bind_builder (b : t) : t := generate_builder b.

Definition set_classifiers (workflow operation_type operation_context : bool) (b : t) : t :=
  mk workflow operation_type operation_context (m_token_builder b) (m_func_build_token b).

Definition build_differentiation_token {S} (b : t)
    (workflow_id operation_type operation_context : Z) : M S Z :=
  match m_func_build_token b with
  | Some f => hash_value (f (m_token_builder b) workflow_id operation_type operation_context)
  | None => throw BadFunctionCall
  end.

Definition build_differentiation_token_tuple {S} (b : t)
    (differentiation_tuple : ChannelDifferentiationTuple) : M S Z :=
  build_differentiation_token b (m_workflow_identifier differentiation_tuple)
    (tuple_operation_type differentiation_tuple) (tuple_operation_context differentiation_tuple).

End ChannelHashingDifferentiation.

Module ObjectHashingDifferentiation.

Definition build_function : Type :=
  HashingScheme -> Z -> Z -> MurmurHashTokenBuilder.Written.

Definition build_type_context : build_function :=
  fun m_token_builder operation_type operation_context =>
    let message_token := to_string operation_type in
    let message_token := message_token +:+ "|" in
    let message_token := message_token +:+ to_string operation_context in
    hash_message m_token_builder message_token.

Definition build_type : build_function :=
  fun m_token_builder operation_type _ => hash_message m_token_builder (to_string operation_type).

Definition build_context : build_function :=
  fun m_token_builder _ operation_context =>
    hash_message m_token_builder (to_string operation_context).

Definition build_no_diff : build_function :=
  fun m_token_builder _ _ => hash_message m_token_builder "no_diff".

Record t := mk {
  m_use_operation_type : bool;
  m_use_operation_context : bool;
  m_token_builder : HashingScheme;
  m_func_build_token : option build_function;
}.

Definition generate_builder (b : t) : t :=
  let f :=
    if m_use_operation_type b && m_use_operation_context b then build_type_context
    else if m_use_operation_type b then build_type
    else if m_use_operation_context b then build_context
    else build_no_diff in
  mk (m_use_operation_type b) (m_use_operation_context b) (m_token_builder b) (Some f).

(** The constructors. *)
Definition default : t := mk false false option_default_hashing_algorithm None.
Definition with_scheme (scheme : HashingScheme) : t := mk false false scheme None.
Definition with_classifiers (operation_type operation_context : bool)
    (scheme : HashingScheme) : t :=
  generate_builder (mk operation_type operation_context scheme None).

Definition bind_builder (b : t) : t := generate_builder b.

Definition set_classifiers (operation_type operation_context : bool) (b : t) : t :=
  mk operation_type operation_context (m_token_builder b) (m_func_build_token b).

Definition build_differentiation_token {S} (b : t)
    (operation_type operation_context : Z) : M S Z :=
  match m_func_build_token b with
  | Some f => hash_value (f (m_token_builder b) operation_type operation_context)
  | None => throw BadFunctionCall
  end.

Definition build_differentiation_token_pair {S} (b : t)
    (differentiation_pair : ObjectDifferentiationPair) : M S Z :=
  build_differentiation_token b (pair_operation_type differentiation_pair)
    (pair_operation_context differentiation_pair).

End ObjectHashingDifferentiation.

(** ** The message as an encoding *)

(** The classifiers in use, and the message they make: their decimal forms,
    separated by bars. *)
Definition selected (workflow type context : bool) (w t c : Z) : list Z :=
  (if workflow then [w] else []) ++ (if type then [t] else []) ++ (if context then [c] else []).

Fixpoint join (parts : list string) : string :=
  match parts with
  | [] => ""
  | [p] => p
  | p :: ps => p +:+ "|" +:+ join ps
  end.

Definition message (classifiers : list Z) : string :=
  match classifiers with
  | [] => "no_diff"
  | _ => join (to_string <$> classifiers)
  end.

(** The token of a message, for each scheme. *)
Definition token_outcome {S} (scheme : HashingScheme) (msg : string) (s : S) (n : nat) :
    Outcome S Z :=
  match scheme with
  | MurmurHash_x86_32 => Ok (MurmurHash3.MurmurHash3_x86_32 (bytes_of_string msg)) s n
  | _ => Crash (UndefinedBehaviour "write past the 32-bit hash_value")
  end.

Lemma hash_message_outcome {S} scheme msg (s : S) n :
  hash_value (hash_message scheme msg) s n = token_outcome scheme msg s n.
Proof. by destruct scheme. Qed.

Lemma string_app_assoc (s1 s2 s3 : string) : (s1 +:+ s2) +:+ s3 = s1 +:+ s2 +:+ s3.
Proof. induction s1 as [|a s1 IH]; [done|]. by apply (f_equal (String a)) in IH. Qed.

(** Characters of a decimal form. *)
Definition is_digit (c : Ascii.ascii) : bool :=
  let n := Ascii.N_of_ascii c in ((48 <=? n) && (n <=? 57))%N.

Fixpoint all_digits (s : string) : bool :=
  match s with
  | EmptyString => true
  | String c s => is_digit c && all_digits s
  end.

Lemma pretty_N_char_digit x : is_digit (pretty_N_char x) = true.
Proof. by destruct x as [|[[[[]|[]|]|[[]|[]|]|]|[[[]|[]|]|[[]|[]|]|]|]]. Qed.

Lemma pretty_N_go_digits x : forall s, all_digits s = true -> all_digits (pretty_N_go x s) = true.
Proof.
  induction (N.lt_wf_0 x) as [x _ IH]. intros s Hs.
  destruct (decide (x = 0)%N) as [->|Hx]; [by rewrite pretty_N_go_0|].
  rewrite pretty_N_go_step by lia. apply IH; [apply N.div_lt; lia|].
  cbn [all_digits]. by rewrite pretty_N_char_digit, Hs.
Qed.

Lemma to_string_digits x : all_digits (to_string x) = true.
Proof.
  unfold to_string, pretty, pretty_N. case_decide; [done|]. by apply pretty_N_go_digits.
Qed.

Lemma to_string_inj x y : 0 <= x -> 0 <= y -> to_string x = to_string y -> x = y.
Proof. intros Hx Hy H. unfold to_string in H. apply (inj (@pretty N _)) in H. lia. Qed.

(** A bar ends the first number. *)
Lemma bar_split s1 s2 r1 r2 : all_digits s1 = true -> all_digits s2 = true ->
  s1 +:+ "|" +:+ r1 = s2 +:+ "|" +:+ r2 -> s1 = s2 /\ r1 = r2.
Proof.
  revert s2. induction s1 as [|c s1 IH]; intros [|c' s2] H1 H2 Heq.
  - by injection Heq.
  - injection Heq as <- _. done.
  - injection Heq as -> _. done.
  - apply andb_true_iff in H1 as [_ H1], H2 as [_ H2]. injection Heq as -> Heq.
    destruct (IH s2 H1 H2 Heq) as [-> ->]; done.
Qed.

Lemma join_inj l l' : length l = length l' ->
  Forall (fun s => all_digits s = true) l -> Forall (fun s => all_digits s = true) l' ->
  join l = join l' -> l = l'.
Proof.
  revert l'. induction l as [|p [|q l] IH]; intros [|p' [|q' l']] Hlen H H' Heq; try done.
  - simpl in Heq. by subst.
  - inversion H; inversion H'; subst. change (join (p :: q :: l)) with (p +:+ "|" +:+ join (q :: l)) in Heq.
    change (join (p' :: q' :: l')) with (p' +:+ "|" +:+ join (q' :: l')) in Heq.
    apply bar_split in Heq as [-> Heq]; [|done..]. f_equal. apply IH; [cbn [length] in *; lia|done..].
Qed.

Lemma fmap_to_string_inj l l' : Forall (fun x => 0 <= x) l -> Forall (fun x => 0 <= x) l' ->
  to_string <$> l = to_string <$> l' -> l = l'.
Proof.
  revert l'. induction l as [|x l IH]; intros [|x' l'] H H' Heq; try done.
  inversion H; inversion H'; subst. injection Heq as Hx Hl. f_equal; [|by apply IH].
  by apply to_string_inj.
Qed.

Lemma selected_length wf ty cx w t c w' t' c' :
  length (selected wf ty cx w t c) = length (selected wf ty cx w' t' c').
Proof. by destruct wf, ty, cx. Qed.

Lemma selected_Forall (P : Z -> Prop) wf ty cx w t c : P w -> P t -> P c ->
  Forall P (selected wf ty cx w t c).
Proof. intros. destruct wf, ty, cx; simpl; repeat constructor; done. Qed.

Lemma message_inj_aux wf ty cx w t c w' t' c' :
  0 <= w -> 0 <= t -> 0 <= c -> 0 <= w' -> 0 <= t' -> 0 <= c' ->
  message (selected wf ty cx w t c) = message (selected wf ty cx w' t' c') ->
  selected wf ty cx w t c = selected wf ty cx w' t' c'.
Proof.
  intros. pose proof (selected_length wf ty cx w t c w' t' c') as Hlen.
  pose proof (selected_Forall (fun x => 0 <= x) wf ty cx w t c) as HF.
  pose proof (selected_Forall (fun x => 0 <= x) wf ty cx w' t' c') as HF'.
  destruct (selected wf ty cx w t c) as [|x l], (selected wf ty cx w' t' c') as [|x' l']; try done.
  unfold message in *. apply fmap_to_string_inj; [auto..|]. apply join_inj.
  - by rewrite !length_fmap.
  - apply Forall_fmap, Forall_true. intros. apply to_string_digits.
  - apply Forall_fmap, Forall_true. intros. apply to_string_digits.
  - done.
Qed.

(** The token of the classifiers in use. *)
Definition token_of (classifiers : list Z) : Z :=
  MurmurHash3.MurmurHash3_x86_32 (bytes_of_string (message classifiers)).

(** Every pair of a POSIX operation and a POSIX context, and the workflow
    identifiers of at most three digits. *)
Definition posix_pairs : list (list Z) :=
  t ← seqZ 0 posix_size; c ← seqZ 0 posix_meta_size; [[t; c]].

Definition small_workflows : list (list Z) := (fun w => [w]) <$> seqZ 0 1000.

Lemma posix_pairs_elem t c : 0 <= t < posix_size -> 0 <= c < posix_meta_size ->
  [t; c] ∈ posix_pairs.
Proof.
  intros Ht Hc. apply list_elem_of_bind. exists t. split; [|apply elem_of_seqZ; lia].
  apply list_elem_of_bind. exists c. split; [by left|apply elem_of_seqZ; lia].
Qed.

Lemma posix_pairs_distinct : NoDup (token_of <$> posix_pairs).
Proof. apply distinct_sound. vm_compute. reflexivity. Qed.

Lemma small_workflows_distinct : NoDup (token_of <$> small_workflows).
Proof. apply distinct_sound. vm_compute. reflexivity. Qed.

Lemma token_outcome_Ok {S} scheme msg (s s' : S) n n' tok :
  token_outcome scheme msg s n = Ok tok s' n' ->
  tok = MurmurHash3.MurmurHash3_x86_32 (bytes_of_string msg).
Proof. destruct scheme; simpl; [congruence|done..]. Qed.

Lemma channel_token_message_aux {S} (b : ChannelHashingDifferentiation.t) wf ty cx w t c (s : S) n :
  ChannelHashingDifferentiation.build_differentiation_token
    (ChannelHashingDifferentiation.bind_builder
       (ChannelHashingDifferentiation.set_classifiers wf ty cx b)) w t c s n =
  token_outcome (ChannelHashingDifferentiation.m_token_builder b)
    (message (selected wf ty cx w t c)) s n.
Proof.
  unfold ChannelHashingDifferentiation.build_differentiation_token. simpl.
  destruct wf, ty, cx; cbn -[hash_value hash_message to_string token_outcome];
    rewrite <- hash_message_outcome;
    unfold ChannelHashingDifferentiation.build_workflow_type_context,
      ChannelHashingDifferentiation.build_workflow_type,
      ChannelHashingDifferentiation.build_workflow_context,
      ChannelHashingDifferentiation.build_type_context;
    cbv zeta; rewrite ?string_app_assoc; done.
Qed.

Lemma object_token_message_aux {S} (b : ObjectHashingDifferentiation.t) ty cx t c (s : S) n :
  ObjectHashingDifferentiation.build_differentiation_token
    (ObjectHashingDifferentiation.bind_builder
       (ObjectHashingDifferentiation.set_classifiers ty cx b)) t c s n =
  token_outcome (ObjectHashingDifferentiation.m_token_builder b)
    (message (selected false ty cx 0 t c)) s n.
Proof.
  unfold ObjectHashingDifferentiation.build_differentiation_token. simpl.
  destruct ty, cx; cbn -[hash_value hash_message to_string token_outcome];
    rewrite <- hash_message_outcome; unfold ObjectHashingDifferentiation.build_type_context;
    cbv zeta; rewrite ?string_app_assoc; done.
Qed.

(** ** Theorems *)

(** After [set_classifiers] and [bind_builder], the token of a
    request is the hash of the decimal forms of the classifiers in use, joined
    by bars ("no_diff" when none is), whatever classifiers were bound before;
    with a 128-bit scheme the hash is written past the 32-bit token. *)
Theorem channel_token_message {S} (b : ChannelHashingDifferentiation.t) wf ty cx w t c (s : S) n :
  ChannelHashingDifferentiation.build_differentiation_token
    (ChannelHashingDifferentiation.bind_builder
       (ChannelHashingDifferentiation.set_classifiers wf ty cx b)) w t c s n =
  token_outcome (ChannelHashingDifferentiation.m_token_builder b)
    (message (selected wf ty cx w t c)) s n.
Proof. apply channel_token_message_aux. Qed.

(** The same for the tokens of enforcement objects, which never use
    the workflow. *)
Theorem object_token_message {S} (b : ObjectHashingDifferentiation.t) ty cx t c (s : S) n :
  ObjectHashingDifferentiation.build_differentiation_token
    (ObjectHashingDifferentiation.bind_builder
       (ObjectHashingDifferentiation.set_classifiers ty cx b)) t c s n =
  token_outcome (ObjectHashingDifferentiation.m_token_builder b)
    (message (selected false ty cx 0 t c)) s n.
Proof. apply object_token_message_aux. Qed.


(** The message is an injective encoding: two requests hash the same
    message exactly when they agree on the classifiers in use. *)
Theorem message_injective wf ty cx w t c w' t' c' :
  Forall (word 32) [w; t; c; w'; t'; c'] ->
  (message (selected wf ty cx w t c) = message (selected wf ty cx w' t' c') <->
   selected wf ty cx w t c = selected wf ty cx w' t' c').
Proof.
  intros HF. repeat match goal with
    | H : Forall _ (_ :: _) |- _ => apply Forall_cons_1 in H as [? H] end.
  unfold word in *. split; [apply message_inj_aux; lia|congruence].
Qed.

Lemma message_injective_witness :
  message (selected true true true 1 2 3) = message (selected true true true 1 2 3) <->
  selected true true true 1 2 3 = selected true true true 1 2 3.
Proof.
  apply (message_injective true true true 1 2 3 1 2 3).
  repeat (constructor; [split; [vm_compute; discriminate|reflexivity]|]). constructor.
Defined.

(** No two POSIX requests of different operation or context get the
    same token from the object differentiation by type and context. *)
Theorem posix_object_tokens_distinct {S} (b : ObjectHashingDifferentiation.t) t c t' c'
    (s s1 s2 : S) n n1 n2 tok :
  let b := ObjectHashingDifferentiation.bind_builder
             (ObjectHashingDifferentiation.set_classifiers true true b) in
  0 <= t < posix_size -> 0 <= c < posix_meta_size ->
  0 <= t' < posix_size -> 0 <= c' < posix_meta_size ->
  ObjectHashingDifferentiation.build_differentiation_token b t c s n = Ok tok s1 n1 ->
  ObjectHashingDifferentiation.build_differentiation_token b t' c' s n = Ok tok s2 n2 ->
  t = t' /\ c = c'.
Proof.
  intros b' Ht Hc Ht' Hc' H1 H2. unfold b' in H1, H2.
  rewrite object_token_message_aux in H1, H2. apply token_outcome_Ok in H1, H2.
  assert (Heq : [t; c] = [t'; c']).
  { apply (NoDup_fmap_inj token_of posix_pairs); [apply posix_pairs_distinct|..].
    1, 2: by apply posix_pairs_elem.
    etransitivity; [symmetry; exact H1|exact H2]. }
  by injection Heq.
Qed.

Lemma posix_object_tokens_distinct_witness : 1 = 1 /\ 6 = 6.
Proof.
  apply (posix_object_tokens_distinct ObjectHashingDifferentiation.default 1 6 1 6 tt tt tt
           0%nat 0%nat 0%nat
           (MurmurHash3.MurmurHash3_x86_32 (bytes_of_string (message [1; 6]))));
    first [lia | vm_compute; intuition discriminate | reflexivity].
Defined.

(** Channels differentiated by workflow tell apart every two workflow
    identifiers below 1000. *)
Theorem workflow_tokens_distinct {S} (b : ChannelHashingDifferentiation.t) w t c w' t' c'
    (s s1 s2 : S) n n1 n2 tok :
  let b := ChannelHashingDifferentiation.bind_builder
             (ChannelHashingDifferentiation.set_classifiers true false false b) in
  0 <= w < 1000 -> 0 <= w' < 1000 ->
  ChannelHashingDifferentiation.build_differentiation_token b w t c s n = Ok tok s1 n1 ->
  ChannelHashingDifferentiation.build_differentiation_token b w' t' c' s n = Ok tok s2 n2 ->
  w = w'.
Proof.
  intros b' Hw Hw' H1 H2. unfold b' in H1, H2.
  rewrite channel_token_message_aux in H1, H2. apply token_outcome_Ok in H1, H2.
  assert (He : forall x, 0 <= x < 1000 -> [x] ∈ small_workflows).
  { intros x Hx. apply list_elem_of_fmap. exists x. split; [done|]. apply elem_of_seqZ. lia. }
  assert (Heq : [w] = [w']).
  { apply (NoDup_fmap_inj token_of small_workflows); [apply small_workflows_distinct|auto..].
    etransitivity; [symmetry; exact H1|exact H2]. }
  by injection Heq.
Qed.

Lemma workflow_tokens_distinct_witness : 999 = 999.
Proof.
  apply (workflow_tokens_distinct ChannelHashingDifferentiation.default 999 1 1 999 2 3 tt tt tt
           0%nat 0%nat 0%nat
           (MurmurHash3.MurmurHash3_x86_32 (bytes_of_string (message [999]))));
    first [lia | reflexivity].
Defined.
