(* ===== verification/Rules.v ===== *)
(** * Rules and their tables

    The rules the control plane sends ([housekeeping_rule.cpp],
    [differentiation_rule.cpp], [enforcement_rule.cpp]) and the tables that
    keep the first two.  A housekeeping table counts its rules and the rules
    left to enforce; the counters are [std::atomic<int>], updated after the
    lock of the table is released, so an insertion is modelled in its two
    steps and the theorems cover their interleavings with other operations. *)

From stdpp Require Import relations.
From S2P Require Import Prelude MachineInt Options.

Inductive HousekeepingOperation :=
| hsk_create_channel | hsk_create_object | hsk_configure | hsk_remove | hsk_no_op.

#[export] Instance HousekeepingOperation_eq_dec : EqDecision HousekeepingOperation.
Proof. solve_decision. Defined.

Module HousekeepingRule.

Record t := mk {
  m_rule_id : Z;                    (* uint64_t *)
  m_rule_type : HousekeepingOperation;
  m_channel_id : Z;                 (* long *)
  m_enforcement_object_id : Z;      (* long *)
  m_properties : list Z;            (* vector<long> *)
  m_enforced : bool;
}.

(** The constructors: default and parameterized. *)
Definition default : t := mk 0 hsk_no_op (-1) (-1) [] false.
Definition make (id : Z) (operation : HousekeepingOperation) (channel enforcement_object : Z)
    (properties : list Z) : t :=
  mk id operation channel enforcement_object properties false.

Definition get_properties_size (r : t) : Z := s32 (Z.of_nat (length (m_properties r))).

Definition get_property_at_index {S} (r : t) (index : Z) : M S Z :=
  if index =? int_max then crash_with (UndefinedBehaviour "int overflow")
  else if s32 (Z.of_nat (length (m_properties r))) >=? index + 1 then vector_at (m_properties r) index
  else mret (-1).

(** The loop that copies the properties from [i] on, [n] of them. *)
Fixpoint copy_range {S} (properties : list Z) (i : Z) (n : nat) (selected : list Z) : M S (list Z) :=
  match n with
  | O => mret selected
  | Datatypes.S n =>
      x ← vector_at properties i;
      copy_range properties (i + 1) n (selected ++ [x])
  end.

(** The number of properties copied, and [selected_properties] after the call. *)
Definition get_properties_at_range {S} (r : t) (begin_index end_index : Z)
    (selected_properties : list Z) : M S (Z * list Z) :=
  if (begin_index =? int_max) || (end_index =? int_max)
  then crash_with (UndefinedBehaviour "int overflow")
  else
    let size := s32 (Z.of_nat (length (m_properties r))) in
    if (size >=? begin_index + 1) && (size >=? end_index + 1) && (begin_index <=? end_index)
    then
      selected ← copy_range (m_properties r) begin_index
        (Z.to_nat (end_index - begin_index + 1)) selected_properties;
      mret (end_index - begin_index + 1, selected)
    else mret (-1, selected_properties).

Definition set_enforced (value : bool) (r : t) : t :=
  mk (m_rule_id r) (m_rule_type r) (m_channel_id r) (m_enforcement_object_id r)
    (m_properties r) value.

Definition operation_to_string (r : t) : string :=
  match m_rule_type r with
  | hsk_create_channel => "create_channel"
  | hsk_create_object => "create_object"
  | hsk_configure => "configure"
  | hsk_remove => "remove"
  | hsk_no_op => "no_op"
  end.

End HousekeepingRule.

Module HousekeepingTable.

Record t := mk {
  m_housekeeping_rules : gmap Z HousekeepingRule.t;
  m_number_of_rules : Z;                    (* atomic<int> *)
  m_number_of_rules_left_to_employ : Z;     (* atomic<int> *)
}.

Definition empty : t := mk ∅ 0 0.

(** The two steps of an insertion: [emplace] with the lock held, and the
    counters once it is released. *)
Definition emplace (rule_id : Z) (rule : HousekeepingRule.t) (tb : t) : bool * t :=
  match m_housekeeping_rules tb !! rule_id with
  | Some _ => (false, tb)
  | None => (true, mk (<[rule_id := rule]> (m_housekeeping_rules tb))
                      (m_number_of_rules tb) (m_number_of_rules_left_to_employ tb))
  end.

Definition count_rule (tb : t) : t :=
  mk (m_housekeeping_rules tb) (s32 (m_number_of_rules tb + 1))
    (s32 (m_number_of_rules_left_to_employ tb + 1)).

Definition insert_housekeeping_rule_fields (rule_id : Z) (operation : HousekeepingOperation)
    (channel_id enforcement_object_id : Z) (properties : list Z) (tb : t) : PStatus * t :=
  let '(inserted, tb) := emplace rule_id
    (HousekeepingRule.make rule_id operation channel_id enforcement_object_id properties) tb in
  if inserted then (PStatus_OK, count_rule tb) else (PStatus_Error, tb).

Definition insert_housekeeping_rule (rule : HousekeepingRule.t) (tb : t) : PStatus * t :=
  let '(inserted, tb) := emplace (HousekeepingRule.m_rule_id rule) rule tb in
  if inserted then (PStatus_OK, count_rule tb) else (PStatus_Error, tb).

(** The status, and the [rule] the caller passed by reference. *)
Definition select_housekeeping_rule (rule_id : Z) (rule : HousekeepingRule.t) (tb : t) :
    PStatus * HousekeepingRule.t :=
  match m_housekeeping_rules tb !! rule_id with
  | Some r => (PStatus_OK, r)
  | None => (PStatus_NotFound, rule)
  end.

Definition mark_housekeeping_rule_as_enforced (rule_id : Z) (tb : t) : PStatus * t :=
  match m_housekeeping_rules tb !! rule_id with
  | Some r =>
      if negb (HousekeepingRule.m_enforced r) then
        (PStatus_OK,
         mk (<[rule_id := HousekeepingRule.set_enforced true r]> (m_housekeeping_rules tb))
           (m_number_of_rules tb) (s32 (m_number_of_rules_left_to_employ tb - 1)))
      else (PStatus_Error, tb)
  | None => (PStatus_NotFound, tb)
  end.

Definition remove_housekeeping_rule (rule_id : Z) (tb : t) : PStatus * t :=
  match m_housekeeping_rules tb !! rule_id with
  | Some r =>
      let left :=
        if negb (HousekeepingRule.m_enforced r)
        then s32 (m_number_of_rules_left_to_employ tb - 1)
        else m_number_of_rules_left_to_employ tb in
      (PStatus_OK, mk (delete rule_id (m_housekeeping_rules tb))
                     (s32 (m_number_of_rules tb - 1)) left)
  | None => (PStatus_NotFound, tb)
  end.

Definition get_housekeeping_table_size (tb : t) : Z := m_number_of_rules tb.
Definition get_total_of_rules_left_to_employ (tb : t) : Z := m_number_of_rules_left_to_employ tb.

(** The calls of the other components, and the steps of concurrent callers:
    an insertion is left pending between its two steps. *)
Inductive call :=
| InsertRule (rule : HousekeepingRule.t)
| MarkEnforced (rule_id : Z)
| RemoveRule (rule_id : Z).

Definition run (c : call) (tb : t) : PStatus * t :=
  match c with
  | InsertRule rule => insert_housekeeping_rule rule tb
  | MarkEnforced rule_id => mark_housekeeping_rule_as_enforced rule_id tb
  | RemoveRule rule_id => remove_housekeeping_rule rule_id tb
  end.

Inductive step : t * nat -> t * nat -> Prop :=
| step_emplace rule tb tb' pending :
    HousekeepingRule.m_enforced rule = false ->
    emplace (HousekeepingRule.m_rule_id rule) rule tb = (true, tb') ->
    step (tb, pending) (tb', S pending)
| step_duplicate rule tb tb' pending :
    emplace (HousekeepingRule.m_rule_id rule) rule tb = (false, tb') ->
    step (tb, pending) (tb', pending)
| step_count tb pending : step (tb, S pending) (count_rule tb, pending)
| step_mark rule_id tb pending :
    step (tb, pending) (snd (mark_housekeeping_rule_as_enforced rule_id tb), pending)
| step_remove rule_id tb pending :
    step (tb, pending) (snd (remove_housekeeping_rule rule_id tb), pending).

(** The rules left to enforce. *)
Definition not_enforced (rules : gmap Z HousekeepingRule.t) : gmap Z HousekeepingRule.t :=
  filter (fun '(_, r) => HousekeepingRule.m_enforced r = false) rules.

Definition counters_match (tb : t) (pending : nat) : Prop :=
  s32 (m_number_of_rules tb + Z.of_nat pending) = s32 (Z.of_nat (size (m_housekeeping_rules tb))) /\
  s32 (m_number_of_rules_left_to_employ tb + Z.of_nat pending) =
    s32 (Z.of_nat (size (not_enforced (m_housekeeping_rules tb)))).

End HousekeepingTable.

Inductive DifferentiationRuleType :=
| channel_differentiation | enforcement_object_differentiation | no_differentiation.

Module DifferentiationRule.

Record t := mk {
  m_rule_id : Z;                    (* uint64_t *)
  m_rule_type : DifferentiationRuleType;
  m_channel_id : Z;                 (* long *)
  m_enforcement_object_id : Z;      (* long *)
  m_workflow_id : Z;                (* uint32_t *)
  m_operation_type : Z;             (* uint32_t *)
  m_operation_context : Z;          (* uint32_t *)
}.

Definition default : t := mk 0 no_differentiation (-1) (-1) 0 0 0.

Definition operation_to_string (r : t) : string :=
  match m_rule_type r with
  | channel_differentiation => "channel_differentiation"
  | enforcement_object_differentiation => "enforcement_object_differentiation"
  | no_differentiation => "none"
  end.

End DifferentiationRule.

Module DifferentiationTable.

Record t := mk {
  m_differentiation_rules : gmap Z DifferentiationRule.t;
  m_number_of_rules : Z;                    (* atomic<int> *)
}.

Definition empty : t := mk ∅ 0.

Definition insert_differentiation_rule (rule : DifferentiationRule.t) (tb : t) : PStatus * t :=
  match m_differentiation_rules tb !! DifferentiationRule.m_rule_id rule with
  | Some _ => (PStatus_Error, tb)
  | None =>
      (PStatus_OK, mk (<[DifferentiationRule.m_rule_id rule := rule]> (m_differentiation_rules tb))
                     (s32 (m_number_of_rules tb + 1)))
  end.

Definition insert_differentiation_rule_fields (rule_id : Z) (rule_type : DifferentiationRuleType)
    (channel_id enforcement_object_id workflow_id operation_type operation_context : Z) (tb : t) :
    PStatus * t :=
  insert_differentiation_rule
    (DifferentiationRule.mk rule_id rule_type channel_id enforcement_object_id workflow_id
       operation_type operation_context) tb.

(** The status, and the rule the caller passed by reference. *)
Definition select_differentiation_rule (rule_id : Z) (differentiation_rule : DifferentiationRule.t)
    (tb : t) : PStatus * DifferentiationRule.t :=
  match m_differentiation_rules tb !! rule_id with
  | Some r => (PStatus_OK, r)
  | None => (PStatus_NotFound, differentiation_rule)
  end.

Definition remove_differentiation_rule (rule_id : Z) (tb : t) : PStatus * t :=
  match m_differentiation_rules tb !! rule_id with
  | Some _ =>
      (PStatus_OK, mk (delete rule_id (m_differentiation_rules tb)) (s32 (m_number_of_rules tb - 1)))
  | None => (PStatus_NotFound, tb)
  end.

Definition get_differentiation_table_size (tb : t) : Z := m_number_of_rules tb.

Definition well_formed (tb : t) : Prop :=
  m_number_of_rules tb = s32 (Z.of_nat (size (m_differentiation_rules tb))) /\
  map_Forall (fun id r => DifferentiationRule.m_rule_id r = id) (m_differentiation_rules tb).

End DifferentiationTable.

Record EnforcementRuleRaw := mkEnforcementRuleRaw {
  raw_rule_id : Z;                  (* long *)
  raw_channel_id : Z;               (* long *)
  raw_enforcement_object_id : Z;    (* long *)
  raw_enforcement_operation : Z;    (* int *)
  raw_property_first : Z;           (* long *)
  raw_property_second : Z;          (* long *)
  raw_property_third : Z;           (* long *)
}.

Module EnforcementRule.

Record t := mk {
  m_rule_id : Z;                    (* uint64_t *)
  m_channel_id : Z;                 (* long *)
  m_enforcement_object_id : Z;      (* long *)
  m_operation_type : Z;             (* int *)
  m_configurations : list Z;        (* vector<long> *)
}.

Definition default : t := mk 0 (-1) (-1) 0 [].

(** The constructor from the structure the control plane sends: a property
    of -1 is absent. *)
Definition of_raw (raw_rule : EnforcementRuleRaw) : t :=
  mk (u64 (raw_rule_id raw_rule)) (raw_channel_id raw_rule) (raw_enforcement_object_id raw_rule)
    (raw_enforcement_operation raw_rule)
    ((if raw_property_first raw_rule =? -1 then [] else [raw_property_first raw_rule]) ++
     (if raw_property_second raw_rule =? -1 then [] else [raw_property_second raw_rule]) ++
     (if raw_property_third raw_rule =? -1 then [] else [raw_property_third raw_rule])).

Definition get_configurations_size (r : t) : Z := s32 (Z.of_nat (length (m_configurations r))).

End EnforcementRule.

(** ** Wrap-around counting *)

Lemma s32_add a b : s32 (s32 a + b) = s32 (a + b).
Proof. unfold s32. dlia. Qed.

Lemma s32_eq_add a b c : s32 a = s32 b -> s32 (a + c) = s32 (b + c).
Proof. intros H. by rewrite <- (s32_add a), H, s32_add. Qed.

(** ** Invariants of the tables *)

Section Housekeeping.
Import HousekeepingTable.

Lemma not_enforced_insert rules id r : rules !! id = None ->
  HousekeepingRule.m_enforced r = false ->
  size (not_enforced (<[id := r]> rules)) = S (size (not_enforced rules)).
Proof.
  intros Hid Hr. unfold not_enforced. rewrite map_filter_insert_True by done.
  apply map_size_insert_None. apply map_lookup_filter_None. auto.
Qed.

Lemma not_enforced_mark rules id r : rules !! id = Some r ->
  HousekeepingRule.m_enforced r = false ->
  S (size (not_enforced (<[id := HousekeepingRule.set_enforced true r]> rules))) =
  size (not_enforced rules).
Proof.
  intros Hid Hr. unfold not_enforced. rewrite map_filter_insert_False by done.
  rewrite map_filter_delete, map_size_delete_Some; [|eexists; by apply map_lookup_filter_Some].
  assert (size (filter (fun '(_, r) => HousekeepingRule.m_enforced r = false) rules) <> 0%nat); [|lia].
  intros H0%map_size_empty_inv.
  assert (filter (fun '(_, r) => HousekeepingRule.m_enforced r = false) rules !! id = Some r)
    by (by apply map_lookup_filter_Some).
  by rewrite H0, lookup_empty in H.
Qed.

Lemma not_enforced_delete rules id r : rules !! id = Some r ->
  size (not_enforced rules) =
  ((if negb (HousekeepingRule.m_enforced r) then 1 else 0) + size (not_enforced (delete id rules)))%nat.
Proof.
  intros Hid. unfold not_enforced. rewrite map_filter_delete.
  destruct (HousekeepingRule.m_enforced r) eqn:Hr; simpl.
  - rewrite delete_id; [done|]. apply map_lookup_filter_None. right. intros x Hx. congruence.
  - rewrite <- (map_size_insert_None id r), insert_delete_id; [done|..].
    + by apply map_lookup_filter_Some.
    + by rewrite lookup_delete_eq.
Qed.

Lemma emplace_counters rule tb tb' pending : HousekeepingRule.m_enforced rule = false ->
  counters_match tb pending -> emplace (HousekeepingRule.m_rule_id rule) rule tb = (true, tb') ->
  counters_match tb' (S pending).
Proof.
  intros Hr [Hn Hl]. unfold emplace. case_match eqn:Hid; intros [= <-]. split; simpl.
  - rewrite map_size_insert_None by done. rewrite !Nat2Z.inj_succ, <- !Z.add_1_r, Z.add_assoc.
    by apply s32_eq_add.
  - rewrite not_enforced_insert by done. rewrite !Nat2Z.inj_succ, <- !Z.add_1_r, Z.add_assoc.
    by apply s32_eq_add.
Qed.

Lemma count_rule_counters tb pending :
  counters_match tb (S pending) -> counters_match (count_rule tb) pending.
Proof.
  unfold counters_match. simpl. rewrite !s32_add, Nat2Z.inj_succ.
  by rewrite <- !Z.add_assoc, !Z.add_1_l.
Qed.

Lemma mark_counters rule_id tb pending : counters_match tb pending ->
  counters_match (snd (mark_housekeeping_rule_as_enforced rule_id tb)) pending.
Proof.
  intros [Hn Hl]. unfold mark_housekeeping_rule_as_enforced.
  destruct (m_housekeeping_rules tb !! rule_id) as [r|] eqn:Hid; [|done].
  destruct (HousekeepingRule.m_enforced r) eqn:Hr; [done|]. split; simpl.
  - by rewrite map_size_insert_Some by done.
  - pose proof (not_enforced_mark _ _ _ Hid Hr) as Hs. rewrite <- Hs in Hl.
    rewrite s32_add. rewrite Nat2Z.inj_succ in Hl.
    apply (s32_eq_add _ _ (-1)) in Hl.
    replace (m_number_of_rules_left_to_employ tb - 1 + Z.of_nat pending)
      with (m_number_of_rules_left_to_employ tb + Z.of_nat pending + -1) by lia.
    rewrite Hl. f_equal. lia.
Qed.

Lemma remove_counters rule_id tb pending : counters_match tb pending ->
  counters_match (snd (remove_housekeeping_rule rule_id tb)) pending.
Proof.
  intros [Hn Hl]. unfold remove_housekeeping_rule.
  destruct (m_housekeeping_rules tb !! rule_id) as [r|] eqn:Hid; [|done]. split; simpl.
  - rewrite s32_add. pose proof (map_size_ne_0_lookup_2 (m_housekeeping_rules tb) rule_id (mk_is_Some _ _ Hid)).
    rewrite map_size_delete_Some by (by eexists). apply (s32_eq_add _ _ (-1)) in Hn.
    replace (m_number_of_rules tb - 1 + Z.of_nat pending)
      with (m_number_of_rules tb + Z.of_nat pending + -1) by lia.
    rewrite Hn. f_equal. lia.
  - rewrite (not_enforced_delete _ _ _ Hid) in Hl.
    destruct (negb (HousekeepingRule.m_enforced r)); [|done].
    rewrite s32_add. apply (s32_eq_add _ _ (-1)) in Hl.
    replace (m_number_of_rules_left_to_employ tb - 1 + Z.of_nat pending)
      with (m_number_of_rules_left_to_employ tb + Z.of_nat pending + -1) by lia.
    rewrite Hl. f_equal. lia.
Qed.

Lemma step_counters c c' : step c c' ->
  counters_match (fst c) (snd c) -> counters_match (fst c') (snd c').
Proof.
  intros []; simpl.
  - intros. by eapply emplace_counters.
  - intros. unfold emplace in *. case_match; by simplify_eq.
  - apply count_rule_counters.
  - apply mark_counters.
  - apply remove_counters.
Qed.

End Housekeeping.

(** ** Properties of a rule *)

Lemma copy_range_spec {S} (props : list Z) n : forall i sel (s : S) t,
  0 <= i -> (Z.to_nat i + n <= length props)%nat ->
  HousekeepingRule.copy_range props i n sel s t = Ok (sel ++ take n (drop (Z.to_nat i) props)) s t.
Proof.
  induction n as [|n IH]; intros i sel s t Hi Hn; simpl.
  - by rewrite take_0, app_nil_r.
  - destruct (lookup_lt_is_Some_2 props (Z.to_nat i)) as [x Hx]; [lia|].
    rewrite (bind_Ok _ _ s t x s t).
    + rewrite IH by lia. rewrite (drop_S props x (Z.to_nat i) Hx). simpl.
      rewrite <- app_assoc. simpl. by rewrite Z2Nat.inj_add, Nat.add_1_r by lia.
    + unfold vector_at. rewrite decide_True by done. by rewrite Hx.
Qed.

Lemma get_property_at_index_aux {S} (r : HousekeepingRule.t) (index : Z) (s : S) t :
  int_min <= index < int_max ->
  Z.of_nat (length (HousekeepingRule.m_properties r)) <= int_max ->
  HousekeepingRule.get_property_at_index r index s t =
    if index <? 0 then Raise (OutOfRange "vector::at") s t
    else Ok (default (-1) (HousekeepingRule.m_properties r !! Z.to_nat index)) s t.
Proof.
  intros Hi Hl. unfold HousekeepingRule.get_property_at_index.
  destruct (Z.eqb_spec index int_max); [lia|].
  rewrite s32_small by (unfold is_int, int_min in *; lia).
  unfold vector_at. destruct (Z.ltb_spec index 0) as [Hn|Hn].
  - rewrite decide_False by lia.
    destruct (Z.geb_spec (Z.of_nat (length (HousekeepingRule.m_properties r))) (index + 1));
      [done|lia].
  - rewrite decide_True by lia.
    destruct (Z.geb_spec (Z.of_nat (length (HousekeepingRule.m_properties r))) (index + 1)).
    + destruct (lookup_lt_is_Some_2 (HousekeepingRule.m_properties r) (Z.to_nat index))
        as [x ->]; [lia|done].
    + by rewrite lookup_ge_None_2 by lia.
Qed.

Lemma get_properties_at_range_aux {S} (r : HousekeepingRule.t) b e sel (s : S) t :
  0 <= b < int_max -> 0 <= e < int_max ->
  Z.of_nat (length (HousekeepingRule.m_properties r)) <= int_max ->
  HousekeepingRule.get_properties_at_range r b e sel s t =
    if (b <=? e) && (e <? Z.of_nat (length (HousekeepingRule.m_properties r)))
    then Ok (e - b + 1,
             sel ++ take (Z.to_nat (e - b + 1))
                      (drop (Z.to_nat b) (HousekeepingRule.m_properties r))) s t
    else Ok (-1, sel) s t.
Proof.
  intros Hb He Hl. unfold HousekeepingRule.get_properties_at_range.
  destruct (Z.eqb_spec b int_max); [lia|]. destruct (Z.eqb_spec e int_max); [lia|]. simpl orb.
  cbv iota. rewrite s32_small by (unfold is_int, int_min in *; lia).
  set (props := HousekeepingRule.m_properties r) in *. cbv zeta.
  destruct (Z.leb_spec b e) as [Hbe|Hbe]; simpl andb; [|by rewrite andb_false_r].
  destruct (Z.ltb_spec e (Z.of_nat (length props))) as [Hel|Hel].
  - replace (Z.of_nat (length props) >=? b + 1) with true by lia.
    replace (Z.of_nat (length props) >=? e + 1) with true by lia. simpl.
    erewrite bind_Ok; [|apply copy_range_spec; lia]. done.
  - replace (Z.of_nat (length props) >=? e + 1) with false by lia. by rewrite andb_false_r.
Qed.

(** ** Theorems *)

(** Whatever the interleaving of insertions (their two steps apart),
    markings and removals, the counters of the table fall short of the number
    of rules, and of the rules left to enforce, by exactly the insertions
    between their two steps: with none pending, they are those numbers. *)
Theorem housekeeping_counters tb pending :
  rtc HousekeepingTable.step (HousekeepingTable.empty, O) (tb, pending) ->
  HousekeepingTable.counters_match tb pending.
Proof.
  intros H. assert (Hinv : forall c c', rtc HousekeepingTable.step c c' ->
    HousekeepingTable.counters_match (fst c) (snd c) ->
    HousekeepingTable.counters_match (fst c') (snd c')).
  { induction 1 as [|c1 c2 c3 Hs _ IH]; [done|]. intros Hc. apply IH. by eapply step_counters. }
  by apply (Hinv _ _ H).
Qed.

Lemma housekeeping_counters_witness :
  HousekeepingTable.counters_match
    (snd (HousekeepingTable.insert_housekeeping_rule
       (HousekeepingRule.make 7 hsk_create_channel 1000 (-1) [0; 1; 2; 3]) HousekeepingTable.empty)) 0.
Proof.
  apply housekeeping_counters. eapply rtc_l.
  - apply (HousekeepingTable.step_emplace
      (HousekeepingRule.make 7 hsk_create_channel 1000 (-1) [0; 1; 2; 3])); reflexivity.
  - eapply rtc_l; [apply HousekeepingTable.step_count|apply rtc_refl].
Defined.

Section Once.
Import HousekeepingTable.

(** The statuses of a run. *)
Fixpoint run_all (calls : list call) (tb : t) : list PStatus * t :=
  match calls with
  | [] => ([], tb)
  | c :: calls =>
      let '(status, tb) := run c tb in
      let '(statuses, tb) := run_all calls tb in (status :: statuses, tb)
  end.

(** The times a run enforced the rule. *)
Fixpoint enforcements (rule_id : Z) (calls : list call) (tb : t) : nat :=
  match calls with
  | [] => 0
  | c :: calls =>
      ((match c with
        | MarkEnforced id => if decide (id = rule_id /\ is_ok (fst (run c tb)) = true) then 1 else 0
        | _ => 0
        end) + enforcements rule_id calls (snd (run c tb)))%nat
  end.

Definition keeps_rule (rule_id : Z) (c : call) : Prop :=
  match c with RemoveRule id => id <> rule_id | _ => True end.

Definition enforced_in (rule_id : Z) (tb : t) : Prop :=
  exists r, m_housekeeping_rules tb !! rule_id = Some r /\ HousekeepingRule.m_enforced r = true.

Lemma run_keeps_enforced rule_id c tb : keeps_rule rule_id c ->
  enforced_in rule_id tb -> enforced_in rule_id (snd (run c tb)).
Proof.
  intros Hk (r & Hr & He).
  destruct c as [rule|id|id]; simpl;
    unfold insert_housekeeping_rule, emplace, mark_housekeeping_rule_as_enforced,
      remove_housekeeping_rule, enforced_in; simpl in Hk.
  - destruct (m_housekeeping_rules tb !! HousekeepingRule.m_rule_id rule) eqn:Hid; simpl; [eauto|].
    exists r. by rewrite lookup_insert_ne by congruence.
  - destruct (m_housekeeping_rules tb !! id) as [r'|] eqn:Hid; simpl; [|eauto].
    destruct (HousekeepingRule.m_enforced r') eqn:Hen; simpl; [eauto|].
    destruct (decide (id = rule_id)) as [->|Hne].
    + rewrite Hr in Hid. simplify_eq. by rewrite He in Hen.
    + exists r. by rewrite lookup_insert_ne.
  - destruct (m_housekeeping_rules tb !! id); simpl; [|eauto].
    exists r. by rewrite lookup_delete_ne.
Qed.

Lemma enforcements_enforced rule_id calls : forall tb, Forall (keeps_rule rule_id) calls ->
  enforced_in rule_id tb -> enforcements rule_id calls tb = 0%nat.
Proof.
  induction calls as [|c calls IH]; intros tb HF Hen; simpl; [done|].
  apply Forall_cons_1 in HF as [Hc HF]. rewrite IH; [|done|by apply run_keeps_enforced].
  destruct c as [| id |]; [done| |done]. case_decide as Hd; [|done]. destruct Hd as [-> Hok].
  destruct Hen as (r & Hr & He). simpl in Hok. unfold mark_housekeeping_rule_as_enforced in Hok.
  by rewrite Hr, He in Hok.
Qed.

(** A rule that is not removed is marked as enforced at most once,
    whatever else the table is asked to do: every later marking is refused. *)
Theorem enforced_at_most_once rule_id calls tb :
  Forall (keeps_rule rule_id) calls -> (enforcements rule_id calls tb <= 1)%nat.
Proof.
  revert tb. induction calls as [|c calls IH]; intros tb HF; simpl; [lia|].
  apply Forall_cons_1 in HF as [Hc HF].
  destruct c as [rule|id|id]; [by apply IH| |by apply IH].
  case_decide as Hd; [|by apply IH]. destruct Hd as [-> Hok].
  rewrite enforcements_enforced; [lia|done|]. simpl in *.
  unfold mark_housekeeping_rule_as_enforced in *. case_match; [|done]. case_match; [|done].
  eexists. cbn [snd m_housekeeping_rules]. by rewrite lookup_insert_eq.
Qed.

Lemma enforced_at_most_once_witness :
  (enforcements 7 [InsertRule (HousekeepingRule.make 7 hsk_create_channel 1000 (-1) []);
                   MarkEnforced 7; InsertRule (HousekeepingRule.make 7 hsk_no_op 0 0 []);
                   MarkEnforced 7] empty <= 1)%nat.
Proof. apply enforced_at_most_once. repeat constructor. Defined.

End Once.

(** A property at an index: its value, -1 past the end, and an
    exception for a negative index; the vector has less than 2^31 elements. *)
Theorem get_property_at_index_spec {S} (r : HousekeepingRule.t) (index : Z) (s : S) t :
  int_min <= index < int_max ->
  Z.of_nat (length (HousekeepingRule.m_properties r)) <= int_max ->
  HousekeepingRule.get_property_at_index r index s t =
    if index <? 0 then Raise (OutOfRange "vector::at") s t
    else Ok (default (-1) (HousekeepingRule.m_properties r !! Z.to_nat index)) s t.
Proof. apply get_property_at_index_aux. Qed.

Lemma get_property_at_index_spec_witness :
  HousekeepingRule.get_property_at_index (HousekeepingRule.make 1 hsk_create_object 1 2 [5; 6])
    1 tt 0%nat = Ok 6 tt 0%nat.
Proof.
  apply (get_property_at_index_spec (HousekeepingRule.make 1 hsk_create_object 1 2 [5; 6]) 1 tt 0%nat);
    vm_compute; intuition discriminate.
Defined.

(** A range of properties within the vector is appended to the
    caller's vector, in order, and its length is returned; a range that ends
    past the vector, or before it begins, copies nothing and returns -1. *)
Theorem get_properties_at_range_spec {S} (r : HousekeepingRule.t) b e sel (s : S) t :
  0 <= b < int_max -> 0 <= e < int_max ->
  Z.of_nat (length (HousekeepingRule.m_properties r)) <= int_max ->
  HousekeepingRule.get_properties_at_range r b e sel s t =
    if (b <=? e) && (e <? Z.of_nat (length (HousekeepingRule.m_properties r)))
    then Ok (e - b + 1,
             sel ++ take (Z.to_nat (e - b + 1))
                      (drop (Z.to_nat b) (HousekeepingRule.m_properties r))) s t
    else Ok (-1, sel) s t.
Proof. apply get_properties_at_range_aux. Qed.

Lemma get_properties_at_range_spec_witness :
  HousekeepingRule.get_properties_at_range (HousekeepingRule.make 1 hsk_create_object 1 2 [5; 6; 7; 8])
    1 2 [9] tt 0%nat = Ok (2, [9; 6; 7]) tt 0%nat.
Proof.
  apply (get_properties_at_range_spec
           (HousekeepingRule.make 1 hsk_create_object 1 2 [5; 6; 7; 8]) 1 2 [9] tt 0%nat);
    vm_compute; intuition discriminate.
Defined.

(** The differentiation table keeps every rule under its identifier
    and counts its rules. *)
Theorem differentiation_table_well_formed rule rule_id tb :
  DifferentiationTable.well_formed tb ->
  DifferentiationTable.well_formed (snd (DifferentiationTable.insert_differentiation_rule rule tb)) /\
  DifferentiationTable.well_formed (snd (DifferentiationTable.remove_differentiation_rule rule_id tb)).
Proof.
  intros [Hn Hk]. split.
  - unfold DifferentiationTable.insert_differentiation_rule. case_match eqn:Hid; [done|].
    split; simpl.
    + rewrite map_size_insert_None, Nat2Z.inj_succ, <- Z.add_1_r by done. by rewrite Hn, s32_add.
    + by apply map_Forall_insert_2.
  - unfold DifferentiationTable.remove_differentiation_rule. case_match eqn:Hid; [|done].
    split; simpl.
    + pose proof (map_size_ne_0_lookup_2 (DifferentiationTable.m_differentiation_rules tb) rule_id
        (mk_is_Some _ _ Hid)).
      rewrite map_size_delete_Some by (by eexists). rewrite Hn. unfold Z.sub. rewrite s32_add.
      f_equal. lia.
    + by apply map_Forall_delete.
Qed.

Lemma differentiation_table_well_formed_witness :
  DifferentiationTable.well_formed (snd (DifferentiationTable.insert_differentiation_rule
    DifferentiationRule.default DifferentiationTable.empty)).
Proof.
  apply (differentiation_table_well_formed DifferentiationRule.default 0 DifferentiationTable.empty).
  split; [reflexivity|apply map_Forall_empty].
Defined.
