(* ===== verification/TokenBucketStats.v ===== *)
(** * Statistics of a token bucket

    [TBStats] keeps the last hundred times the bucket ran out of tokens in a
    ring of entries; [garbage_collection] looks for the first entry within the
    sliding window and [collect_stats] copies the entries from it on to the
    structure sent to the control plane.  Reads and writes out of an array are
    undefined behaviour. *)

From Stdlib Require Import Sorted.
From S2P Require Import Prelude MachineInt Binary64.

Record TBStatsEntry := mkEntry {
  m_normalized_empty_bucket : spec_float;   (* float *)
  m_tokens_left : double;
  m_collection_timestamp : Z;               (* uint64_t *)
}.

Definition default_TBStatsEntry : TBStatsEntry := mkEntry (S754_zero false) d0 0.

Record TBStatsRaw := mkTBStatsRaw {
  raw_normalized_empty_bucket : spec_float; (* float *)
  raw_tokens_left : double;
}.

Definition object_statistics_entries_size : nat := 100.

Record ObjectStatisticsRaw := mkObjectStatisticsRaw {
  stats_channel_id : Z;                     (* long *)
  stats_enforcement_object_id : Z;          (* long *)
  stats_total : Z;                          (* int m_total_stats *)
  m_object_statistic_entries : list TBStatsRaw;
}.

Definition default_ObjectStatisticsRaw : ObjectStatisticsRaw :=
  mkObjectStatisticsRaw (-1) (-1) 0
    (replicate object_statistics_entries_size (mkTBStatsRaw (S754_zero false) d0)).

Module TBStats.

Record t := mk {
  m_tb_statistics : list TBStatsEntry;
  m_total_stats : Z;                        (* int *)
  m_position : Z;                           (* int *)
  m_valid_entry_index : Z;                  (* int *)
  m_max_statistics : Z;                     (* int *)
}.

Definition set_statistics (l : list TBStatsEntry) (b : t) : t :=
  mk l (m_total_stats b) (m_position b) (m_valid_entry_index b) (m_max_statistics b).
Definition set_total (n : Z) (b : t) : t :=
  mk (m_tb_statistics b) n (m_position b) (m_valid_entry_index b) (m_max_statistics b).
Definition set_position (n : Z) (b : t) : t :=
  mk (m_tb_statistics b) (m_total_stats b) n (m_valid_entry_index b) (m_max_statistics b).
Definition set_valid (n : Z) (b : t) : t :=
  mk (m_tb_statistics b) (m_total_stats b) (m_position b) n (m_max_statistics b).

Definition initialize_statistic_entries (b : t) : t :=
  set_statistics
    (m_tb_statistics b ++ replicate (Z.to_nat (m_max_statistics b)) default_TBStatsEntry) b.

(** The constructor. *)
Definition default : t := initialize_statistic_entries (mk [] 0 0 (-1) 100).

Definition copy_stat_entry (stats_raw : ObjectStatisticsRaw) (stat_index raw_index : Z) :
    M t ObjectStatisticsRaw :=
  stats ← gets m_tb_statistics;
  entry ← vector_index stats stat_index;
  _ ← vector_index (m_object_statistic_entries stats_raw) raw_index;
  mret (mkObjectStatisticsRaw (stats_channel_id stats_raw) (stats_enforcement_object_id stats_raw)
          (stats_total stats_raw)
          (<[Z.to_nat raw_index := mkTBStatsRaw (m_normalized_empty_bucket entry) (m_tokens_left entry)]>
             (m_object_statistic_entries stats_raw))).

Definition reset_stats : M t unit := modify (fun b => set_position 0 (set_total 0 b)).

Definition store_stats_entry `{SystemClock} (empty_bucket_time : spec_float) (tokens_left : double) :
    M t unit :=
  total ← gets m_total_stats;
  max ← gets m_max_statistics;
  _ ← modify (set_position (Z.rem total max));
  position ← gets m_position;
  stats ← gets m_tb_statistics;
  timestamp ← now;
  _ ← vector_index stats position;
  _ ← modify (set_statistics
                (<[Z.to_nat position := mkEntry empty_bucket_time tokens_left (u64 timestamp)]> stats));
  if total =? int_max then crash_with (UndefinedBehaviour "int overflow")
  else modify (set_total (total + 1)).

(** The loops of [collect_stats]: [n] entries from [i] on, to the raw entries
    from [index] on. *)
Fixpoint copy_entries (stats_raw : ObjectStatisticsRaw) (i index : Z) (n : nat) :
    M t ObjectStatisticsRaw :=
  match n with
  | O => mret stats_raw
  | S n =>
      stats_raw ← copy_stat_entry stats_raw i index;
      copy_entries stats_raw (i + 1) (index + 1) n
  end.

Definition set_raw_total (n : Z) (r : ObjectStatisticsRaw) : ObjectStatisticsRaw :=
  mkObjectStatisticsRaw (stats_channel_id r) (stats_enforcement_object_id r) n
    (m_object_statistic_entries r).

(** The entries copied: their number, and the structure. *)
Definition collect_entries (statistics_raw : ObjectStatisticsRaw) : M t (Z * ObjectStatisticsRaw) :=
  total ← gets m_total_stats;
  max ← gets m_max_statistics;
  position ← gets m_position;
  valid ← gets m_valid_entry_index;
  if 0 <? total then
    if total <=? max then
      let n := Z.to_nat (total - valid) in
      raw ← copy_entries statistics_raw valid 0 n;
      mret (Z.of_nat n, raw)
    else if 0 <=? position - valid then
      let n := Z.to_nat (position - valid) in
      raw ← copy_entries statistics_raw valid 0 n;
      mret (Z.of_nat n, raw)
    else
      let n := Z.to_nat (max - valid) in
      let m := Z.to_nat position in
      raw ← copy_entries statistics_raw valid 0 n;
      raw ← copy_entries raw 0 (Z.of_nat n) m;
      mret (Z.of_nat n + Z.of_nat m, raw)
  else mret (0, statistics_raw).

Definition collect_stats (statistics_raw : ObjectStatisticsRaw) : M t (Z * ObjectStatisticsRaw) :=
  '(copied, raw) ← collect_entries statistics_raw;
  _ ← reset_stats;
  _ ← modify (set_valid (-1));
  mret (copied, set_raw_total copied raw).

Definition get_total_stats (b : t) : Z := m_total_stats b.

(** [time_point - timestamp], on [uint64_t]. *)
Definition age (time_point : Z) (entry : TBStatsEntry) : Z :=
  u64 (time_point - m_collection_timestamp entry).

(** The loops of [garbage_collection]: look for an entry younger than the
    window from [i] on, [n] entries at most.  The result is its index, and the
    number of entries passed over. *)
Fixpoint find_valid (time_point sliding_window i : Z) (n : nat) : M t (option Z * Z) :=
  match n with
  | O => mret (None, 0)
  | S n =>
      stats ← gets m_tb_statistics;
      entry ← vector_index stats i;
      if age time_point entry <? sliding_window then mret (Some i, 0)
      else
        '(found, passed) ← find_valid time_point sliding_window (i + 1) n;
        mret (found, passed + 1)
  end.

Definition update_valid (found : option Z) : M t unit :=
  match found with
  | Some i => modify (set_valid i)
  | None => mret tt
  end.

Definition garbage_collection (time_point sliding_window : Z) : M t Z :=
  total ← gets m_total_stats;
  max ← gets m_max_statistics;
  position ← gets m_position;
  stats ← gets m_tb_statistics;
  if 0 <? total then
    latest ← vector_index stats position;
    if sliding_window <? age time_point latest then
      _ ← modify (set_valid (-1));
      _ ← reset_stats;
      total ← gets m_total_stats;
      mret (if total <=? max then total else max)
    else if total <=? max then
      '(found, _) ← find_valid time_point sliding_window 0 (Z.to_nat total);
      _ ← update_valid found;
      gets m_valid_entry_index
    else
      '(found, discarded) ← find_valid time_point sliding_window 0 (Z.to_nat position);
      _ ← update_valid found;
      valid ← gets m_valid_entry_index;
      if valid =? 0 then
        '(found, discarded') ← find_valid time_point sliding_window position
                                 (Z.to_nat (max - position));
        _ ← update_valid found;
        mret (discarded + discarded')
      else mret (discarded + (max - position))
  else
    _ ← reset_stats;
    _ ← modify (set_valid (-1));
    mret 0.

(** [TokenBucket::try_collect_statistics] runs both. *)
Definition gc_then_collect (time_point sliding_window : Z) (raw : ObjectStatisticsRaw) :
    M t (Z * ObjectStatisticsRaw) :=
  _ ← garbage_collection time_point sliding_window;
  collect_stats raw.

(** ** Well-formed rings *)

Definition well_formed (b : t) : Prop :=
  length (m_tb_statistics b) = 100%nat /\ m_max_statistics b = 100 /\
  0 <= m_total_stats b <= int_max /\
  m_position b = (if m_total_stats b =? 0 then 0 else (m_total_stats b - 1) mod 100) /\
  -1 <= m_valid_entry_index b < 100.

End TBStats.

Section Lemmas.
Import TBStats.

(** The entries at the head of a list that are not younger than the window. *)
Fixpoint old_prefix (tp w : Z) (l : list TBStatsEntry) : nat :=
  match l with
  | [] => O
  | e :: l => if age tp e <? w then O else S (old_prefix tp w l)
  end.

Definition young (tp w : Z) (e : TBStatsEntry) : Prop := age tp e < w.
#[export] Instance young_dec tp w e : Decision (young tp w e).
Proof. unfold young. apply _. Defined.

Lemma vector_index_lookup {S A} (v : list A) i x (s : S) t :
  0 <= i -> v !! Z.to_nat i = Some x -> vector_index v i s t = Ok x s t.
Proof. intros Hi Hx. unfold vector_index. rewrite decide_True by done. by rewrite Hx. Qed.

Lemma find_valid_spec tp w n : forall i b t, 0 <= i ->
  (Z.to_nat i + n <= length (m_tb_statistics b))%nat ->
  let j := old_prefix tp w (take n (drop (Z.to_nat i) (m_tb_statistics b))) in
  find_valid tp w i n b t =
    Ok (if Nat.ltb j n then Some (i + Z.of_nat j) else None, Z.of_nat j) b t.
Proof.
  induction n as [|n IH]; intros i b t Hi Hn; [done|].
  destruct (lookup_lt_is_Some_2 (m_tb_statistics b) (Z.to_nat i)) as [e He]; [lia|].
  rewrite (drop_S _ e (Z.to_nat i) He). cbn [take old_prefix find_valid].
  unfold gets. erewrite bind_Ok; [|done]. erewrite bind_Ok; [|by apply vector_index_lookup].
  destruct (age tp e <? w); simpl; [by rewrite Z.add_0_r|].
  erewrite bind_Ok; [|apply IH; lia]. cbv beta iota.
  replace (Z.to_nat (i + 1)) with (S (Z.to_nat i)) by lia. unfold mret, M_ret.
  set (j := old_prefix tp w _). change (Nat.ltb (S j) (S n)) with (Nat.ltb j n).
  do 2 f_equal; [|lia]. destruct (Nat.ltb j n); [|done]. f_equal. lia.
Qed.

Lemma old_prefix_le tp w l : (old_prefix tp w l <= length l)%nat.
Proof. induction l as [|e l IH]; simpl; [lia|]. case_match; lia. Qed.

Lemma drop_old_prefix tp w e l : drop (old_prefix tp w (e :: l)) (e :: l) =
  if age tp e <? w then e :: l else drop (old_prefix tp w l) l.
Proof. simpl. by case_match. Qed.

(** Entries recorded in order: the young ones come last. *)
Definition ordered (tp : Z) (l : list TBStatsEntry) : Prop :=
  StronglySorted (fun e e' => age tp e' <= age tp e) l.

Fixpoint orderedb (tp : Z) (l : list TBStatsEntry) : bool :=
  match l with
  | [] => true
  | e :: l => forallb (fun e' => age tp e' <=? age tp e) l && orderedb tp l
  end.

Lemma orderedb_sound tp l : orderedb tp l = true -> ordered tp l.
Proof.
  induction l as [|e l IH]; [constructor|]. simpl. intros [Hf Hl]%andb_true_iff.
  constructor; [by apply IH|]. apply Forall_forall. intros e' He'.
  rewrite forallb_forall in Hf. apply Z.leb_le, Hf. done.
Qed.

Lemma filter_young tp w l : ordered tp l ->
  filter (young tp w) l = drop (old_prefix tp w l) l.
Proof.
  induction 1 as [|e l Hs IH Hf]; [done|]. rewrite drop_old_prefix.
  destruct (Z.ltb_spec (age tp e) w) as [Hy|Ho].
  - rewrite filter_cons_True by done. f_equal. apply filter_Forall.
    revert Hf. apply Forall_impl. unfold young. simpl. lia.
  - rewrite filter_cons_False by (unfold young; lia). done.
Qed.

Definition to_raw (e : TBStatsEntry) : TBStatsRaw :=
  mkTBStatsRaw (m_normalized_empty_bucket e) (m_tokens_left e).

Definition set_raw_entries (l : list TBStatsRaw) (r : ObjectStatisticsRaw) : ObjectStatisticsRaw :=
  mkObjectStatisticsRaw (stats_channel_id r) (stats_enforcement_object_id r) (stats_total r) l.

Lemma copy_entries_spec n : forall raw i index b t, 0 <= i -> 0 <= index ->
  (Z.to_nat i + n <= length (m_tb_statistics b))%nat ->
  (Z.to_nat index + n <= length (m_object_statistic_entries raw))%nat ->
  copy_entries raw i index n b t =
    Ok (set_raw_entries
          (list_inserts (Z.to_nat index)
             (to_raw <$> take n (drop (Z.to_nat i) (m_tb_statistics b)))
             (m_object_statistic_entries raw)) raw) b t.
Proof.
  induction n as [|n IH]; intros raw i index b t Hi Hx Hn Hm.
  - by destruct raw.
  - destruct (lookup_lt_is_Some_2 (m_tb_statistics b) (Z.to_nat i)) as [e He]; [lia|].
    destruct (lookup_lt_is_Some_2 (m_object_statistic_entries raw) (Z.to_nat index)) as [r Hr]; [lia|].
    cbn [copy_entries]. erewrite bind_Ok.
    2: { unfold copy_stat_entry, gets. erewrite bind_Ok; [|done].
         erewrite bind_Ok; [|by apply vector_index_lookup].
         erewrite bind_Ok; [|by apply vector_index_lookup]. done. }
    rewrite IH; [|lia|lia|lia|simpl; rewrite length_insert; lia].
    rewrite (drop_S _ e (Z.to_nat i) He). cbn [take fmap list_fmap].
    f_equal. unfold set_raw_entries. cbn [stats_channel_id stats_enforcement_object_id stats_total
      m_object_statistic_entries]. f_equal.
    replace (Z.to_nat (i + 1)) with (S (Z.to_nat i)) by lia.
    replace (Z.to_nat (index + 1)) with (S (Z.to_nat index)) by lia.
    simpl. by rewrite list_insert_inserts_lt by lia.
Qed.

(** An entry that is young is found. *)
Lemma old_prefix_lt tp w l e : e ∈ l -> age tp e < w -> (old_prefix tp w l < length l)%nat.
Proof.
  induction l as [|e' l IH]; intros He Ha; [by apply not_elem_of_nil in He|]. simpl.
  destruct (Z.ltb_spec (age tp e') w); [lia|].
  apply elem_of_cons in He as [->|He]; [lia|]. specialize (IH He Ha). lia.
Qed.

Lemma reset_spec b t : reset_stats b t =
  Ok tt (mk (m_tb_statistics b) 0 0 (m_valid_entry_index b) (m_max_statistics b)) t.
Proof. done. Qed.

Lemma collect_stats_spec raw b t n raw' :
  collect_entries raw b t = Ok (n, raw') b t ->
  collect_stats raw b t =
    Ok (n, set_raw_total n raw') (mk (m_tb_statistics b) 0 0 (-1) (m_max_statistics b)) t.
Proof. intros H. unfold collect_stats. by erewrite bind_Ok by exact H. Qed.

Lemma collect_entries_crash raw b t c :
  collect_entries raw b t = Crash c -> collect_stats raw b t = Crash c.
Proof. intros H. unfold collect_stats. by erewrite bind_Crash by exact H. Qed.

(** The position of the latest entry of a ring. *)
Lemma position_total b : well_formed b -> 0 < m_total_stats b ->
  m_position b = (m_total_stats b - 1) mod 100 /\ 0 <= m_position b < 100.
Proof.
  intros (_ & _ & _ & Hp & _) H0. rewrite Hp. destruct (Z.eqb_spec (m_total_stats b) 0); [lia|].
  split; [done|]. dlia.
Qed.

(** Garbage collection when the latest entry is within the window, of a ring
    that has not wrapped, and of one that has. *)
Lemma gc_small tp w b t e : well_formed b -> 0 < m_total_stats b <= 100 ->
  m_tb_statistics b !! Z.to_nat (m_total_stats b - 1) = Some e -> age tp e < w ->
  let l := take (Z.to_nat (m_total_stats b)) (m_tb_statistics b) in
  (old_prefix tp w l < length l)%nat /\
  garbage_collection tp w b t =
    Ok (Z.of_nat (old_prefix tp w l)) (set_valid (Z.of_nat (old_prefix tp w l)) b) t.
Proof.
  intros Hwf Ht He Ha l. destruct (position_total b Hwf) as [Hpos Hr]; [lia|].
  destruct Hwf as (Hlen & Hmax & Htot & _ & _).
  rewrite Z.mod_small in Hpos by lia.
  assert (Hj : (old_prefix tp w l < length l)%nat).
  { apply (old_prefix_lt tp w l e); [|done]. apply list_elem_of_lookup_2 with (Z.to_nat (m_total_stats b - 1)).
    unfold l. rewrite lookup_take_lt by lia. done. }
  split; [done|]. unfold garbage_collection, gets, mbind, M_bind.
  rewrite (proj2 (Z.ltb_lt 0 _)) by lia.
  rewrite (vector_index_lookup _ _ e) by (rewrite ?Hpos; first [lia|done]).
  rewrite (proj2 (Z.ltb_ge w _)) by lia. rewrite Hmax.
  rewrite (proj2 (Z.leb_le _ 100)) by lia.
  rewrite find_valid_spec by lia. rewrite drop_0. fold l.
  replace (length l) with (Z.to_nat (m_total_stats b)) in Hj
    by (unfold l; rewrite length_take; lia).
  rewrite (proj2 (Nat.ltb_lt _ _) Hj). done.
Qed.

Lemma gc_wrapped tp w b t e e0 : well_formed b -> 100 < m_total_stats b -> 0 < m_position b ->
  m_tb_statistics b !! Z.to_nat (m_position b) = Some e -> age tp e < w ->
  m_tb_statistics b !! 0%nat = Some e0 -> age tp e0 < w ->
  garbage_collection tp w b t = Ok 0 (set_valid (m_position b) b) t.
Proof.
  intros Hwf Ht Hp He Ha He0 Ha0. destruct (position_total b Hwf) as [_ Hr]; [lia|].
  destruct Hwf as (Hlen & Hmax & _ & _ & _).
  unfold garbage_collection, gets, mbind, M_bind.
  rewrite (proj2 (Z.ltb_lt 0 _)) by lia.
  rewrite (vector_index_lookup _ _ e) by first [lia|done].
  rewrite (proj2 (Z.ltb_ge w _)) by lia. rewrite Hmax.
  rewrite (proj2 (Z.leb_gt _ 100)) by lia.
  rewrite find_valid_spec by lia. rewrite drop_0.
  destruct (Z.to_nat (m_position b)) as [|k] eqn:Hk; [lia|].
  destruct (m_tb_statistics b) as [|x l] eqn:Hl; [done|]. injection He0 as ->.
  cbn [take old_prefix]. rewrite (proj2 (Z.ltb_lt _ w) Ha0). cbn [Nat.ltb Nat.leb update_valid].
  unfold modify. cbn [m_valid_entry_index set_valid].
  change (Z.of_nat 0) with 0. change (0 + 0) with 0. change (0 =? 0) with true. cbv iota beta.
  rewrite find_valid_spec by (cbn [m_tb_statistics set_valid]; rewrite ?Hl; lia).
  cbn [m_tb_statistics set_valid]. rewrite Hl, Hk.
  rewrite (drop_S (e0 :: l) e (S k)) by done.
  destruct (Z.to_nat (100 - m_position b)) as [|n] eqn:Hn; [lia|].
  cbn [take old_prefix]. rewrite (proj2 (Z.ltb_lt _ w) Ha). cbn [Nat.ltb Nat.leb update_valid].
  unfold mret, M_ret. rewrite Z.add_0_r. by destruct b.
Qed.

End Lemmas.

(** ** Theorems *)

Section Theorems.
Import TBStats.

Lemma collect_small_spec b raw t j : well_formed b -> 0 < m_total_stats b <= 100 ->
  m_valid_entry_index b = Z.of_nat j -> (j < Z.to_nat (m_total_stats b))%nat ->
  length (m_object_statistic_entries raw) = 100%nat ->
  let l := drop j (take (Z.to_nat (m_total_stats b)) (m_tb_statistics b)) in
  collect_entries raw b t =
    Ok (Z.of_nat (length l),
        set_raw_entries (list_inserts 0 (to_raw <$> l) (m_object_statistic_entries raw)) raw) b t.
Proof.
  intros (Hlen & Hmax & Htot & _ & _) Ht Hv Hj Hraw l.
  unfold collect_entries, gets, mbind, M_bind.
  rewrite (proj2 (Z.ltb_lt 0 _)) by lia. rewrite Hmax, (proj2 (Z.leb_le _ 100)) by lia.
  rewrite copy_entries_spec by lia. rewrite Hv, Nat2Z.id.
  assert (Hl : take (Z.to_nat (m_total_stats b - Z.of_nat j)) (drop j (m_tb_statistics b)) = l).
  { unfold l. rewrite take_drop_commute. do 2 f_equal. lia. }
  rewrite Hl. unfold mret, M_ret. do 2 f_equal.
  unfold l. rewrite length_drop, length_take. lia.
Qed.

Lemma copy_entries_keeps P n : forall raw i index b t, P b -> keeps P (copy_entries raw i index n b t).
Proof.
  induction n as [|n IH]; intros raw i index b t Hb; [done|]. cbn [copy_entries].
  apply keeps_bind; [|intros; by apply IH]. unfold copy_stat_entry.
  apply keeps_bind; [done|]. intros stats b' t' Hb'.
  apply keeps_bind; [by apply vector_index_keeps|]. intros e b2 t2 Hb2.
  apply keeps_bind; [by apply vector_index_keeps|]. by intros.
Qed.

Lemma collect_well_formed raw b t : well_formed b -> keeps well_formed (collect_stats raw b t).
Proof.
  intros Hwf. unfold collect_stats. apply keeps_bind.
  - unfold collect_entries. unfold gets, mbind at 1 2 3 4, M_bind at 1 2 3 4.
    repeat case_match; try done.
    all: apply keeps_bind; [by apply copy_entries_keeps|].
    all: intros a b' t' Hb'; try done.
    apply keeps_bind; [by apply copy_entries_keeps|]. by intros.
  - intros [n raw'] b' t' (Hlen & Hmax & Htot & Hp & Hv). simpl.
    unfold well_formed. simpl.
    split_and!; try done; lia.
Qed.

Lemma store_well_formed `{SystemClock} empty tokens b t :
  well_formed b -> keeps well_formed (store_stats_entry empty tokens b t).
Proof.
  intros (Hlen & Hmax & Htot & Hp & Hv). unfold store_stats_entry, gets, modify, now, mbind, M_bind.
  rewrite Hmax. assert (Hr : Z.rem (m_total_stats b) 100 = m_total_stats b mod 100)
    by (apply Z.rem_mod_nonneg; lia).
  cbn [m_position set_position m_tb_statistics]. rewrite Hr.
  destruct (lookup_lt_is_Some_2 (m_tb_statistics b) (Z.to_nat (m_total_stats b mod 100)))
    as [e He]; [pose proof (Z.mod_pos_bound (m_total_stats b) 100); lia|].
  erewrite vector_index_lookup; [|apply Z.mod_pos_bound; lia|exact He].
  destruct (Z.eqb_spec (m_total_stats b) int_max); [done|].
  unfold well_formed. simpl. split_and!; [by rewrite length_insert|done|lia|lia| |lia|lia].
  destruct (Z.eqb_spec (m_total_stats b + 1) 0); [lia|]. f_equal. lia.
Qed.

Lemma set_valid_well_formed v b : -1 <= v < 100 -> well_formed b -> well_formed (set_valid v b).
Proof. intros Hv (H1 & H2 & H3 & H4 & H5). unfold well_formed. simpl. split_and!; try done; lia. Qed.

Lemma reset_well_formed b : well_formed b -> well_formed (set_position 0 (set_total 0 b)).
Proof.
  intros (H1 & H2 & H3 & H4 & H5). unfold well_formed. simpl. split_and!; try done; lia.
Qed.

(** A search, and the update that follows it. *)
Lemma find_update_keeps tp w i n b t : well_formed b -> 0 <= i -> i + Z.of_nat n <= 100 ->
  exists d b', well_formed b' /\ m_max_statistics b' = 100 /\
    (find_valid tp w i n ≫= (fun '(found, p) => update_valid found ≫= fun _ => mret p)) b t = Ok d b' t.
Proof.
  intros Hwf Hi Hn. assert (Hlen : length (m_tb_statistics b) = 100%nat) by apply Hwf.
  assert (Hmax : m_max_statistics b = 100) by apply Hwf.
  erewrite bind_Ok; [|apply find_valid_spec; lia].
  set (j := old_prefix tp w _). destruct (Nat.ltb_spec j n) as [Hj|Hj].
  - exists (Z.of_nat j), (set_valid (i + Z.of_nat j) b).
    split; [apply set_valid_well_formed; [lia|done]|by split].
  - by exists (Z.of_nat j), b.
Qed.

Lemma gc_well_formed tp w b t : well_formed b -> keeps well_formed (garbage_collection tp w b t).
Proof.
  intros Hwf. unfold garbage_collection.
  destruct (Z.ltb_spec 0 (m_total_stats b)) as [H0|H0].
  2: { unfold gets, reset_stats, modify, mbind, M_bind. rewrite (proj2 (Z.ltb_ge 0 _)) by lia.
       simpl. apply set_valid_well_formed; [lia|]. by apply reset_well_formed. }
  destruct (position_total b Hwf H0) as [_ Hpr].
  assert (Hlen : length (m_tb_statistics b) = 100%nat) by apply Hwf.
  assert (Hmax : m_max_statistics b = 100) by apply Hwf.
  destruct (lookup_lt_is_Some_2 (m_tb_statistics b) (Z.to_nat (m_position b))) as [e He]; [lia|].
  unfold gets, mbind, M_bind. rewrite (proj2 (Z.ltb_lt 0 _)) by lia.
  erewrite vector_index_lookup; [|lia|exact He].
  destruct (Z.ltb_spec w (age tp e)) as [Hage|Hage];
    [|destruct (Z.leb_spec (m_total_stats b) (m_max_statistics b)) as [Htm|Htm]].
  - apply (reset_well_formed (set_valid (-1) b)). apply set_valid_well_formed; [lia|done].
  - destruct (find_update_keeps tp w 0 (Z.to_nat (m_total_stats b)) b t Hwf) as (d & b' & Hb' & _ & Hf);
      [lia|lia|]. unfold mbind, M_bind, mret, M_ret in Hf.
    destruct (find_valid tp w 0 (Z.to_nat (m_total_stats b)) b t) as [[f p] s1 t1|e1 s1 t1|c]; simpl in *; try done.
    destruct (update_valid f s1 t1); simpl in *; try done. by simplify_eq.
  - destruct (find_update_keeps tp w 0 (Z.to_nat (m_position b)) b t Hwf) as (d & b' & Hb' & _ & Hf);
      [lia|lia|]. unfold mbind, M_bind, mret, M_ret in Hf.
    destruct (find_valid tp w 0 (Z.to_nat (m_position b)) b t) as [[f p] s1 t1|e1 s1 t1|c]; simpl in *; try done.
    destruct (update_valid f s1 t1) as [u s2 t2|e2 s2 t2|c]; simpl in *; try done. simplify_eq.
    destruct (Z.eqb_spec (m_valid_entry_index b') 0); [|done].
    destruct (find_update_keeps tp w (m_position b) (Z.to_nat (m_max_statistics b - m_position b)) b' t Hb')
      as (d2 & b2 & Hb2 & _ & Hf2); [lia|lia|]. unfold mbind, M_bind, mret, M_ret in Hf2.
    destruct (find_valid tp w (m_position b) _ b' t) as [[f2 p2] s2 t2|e2 s2 t2|c]; simpl in *; try done.
    destruct (update_valid f2 s2 t2) as [u2 s3 t3|e3 s3 t3|c]; simpl in *; try done. by simplify_eq.
Qed.

(** As long as the ring has not wrapped, a collection whose latest entry
    is within the sliding window returns the entries within the window, all of
    them and in order, and leaves the statistics empty. *)
Theorem collect_within_window tp w b raw t e :
  well_formed b -> 0 < m_total_stats b <= 100 ->
  ordered tp (take (Z.to_nat (m_total_stats b)) (m_tb_statistics b)) ->
  m_tb_statistics b !! Z.to_nat (m_total_stats b - 1) = Some e -> age tp e < w ->
  length (m_object_statistic_entries raw) = 100%nat ->
  let within := filter (young tp w) (take (Z.to_nat (m_total_stats b)) (m_tb_statistics b)) in
  gc_then_collect tp w raw b t =
    Ok (Z.of_nat (length within),
        set_raw_total (Z.of_nat (length within))
          (set_raw_entries (list_inserts 0 (to_raw <$> within) (m_object_statistic_entries raw)) raw))
      (mk (m_tb_statistics b) 0 0 (-1) 100) t.
Proof.
  intros Hwf Ht Ho He Ha Hraw within. destruct (gc_small tp w b t e Hwf Ht He Ha) as [Hj Hgc].
  unfold within. rewrite filter_young by done.
  set (l := take _ _) in *. set (j := old_prefix tp w l) in *.
  assert (Hlen : length l = Z.to_nat (m_total_stats b)).
  { unfold l. rewrite length_take. destruct Hwf. lia. }
  unfold gc_then_collect. erewrite bind_Ok; [|exact Hgc].
  assert (Hmax : m_max_statistics b = 100) by apply Hwf.
  rewrite (collect_stats_spec raw (set_valid (Z.of_nat j) b) t (Z.of_nat (length (drop j l)))
             (set_raw_entries (list_inserts 0 (to_raw <$> drop j l)
                (m_object_statistic_entries raw)) raw)).
  - cbn [m_max_statistics m_tb_statistics set_valid]. by rewrite Hmax.
  - apply collect_small_spec; [|done|done|simpl; lia|done].
    destruct Hwf as (H1 & H2 & H3 & H4 & H5). repeat split; try done; simpl; lia.
Qed.

(** A state of the statistics with [n] entries, the i-th recorded at time [i]. *)
Definition sample (n : Z) (position valid : Z) : t :=
  mk ((fun i => mkEntry (S754_zero false) (to_double i) i) <$> seqZ 0 100) n position valid 100.

Lemma collect_within_window_witness :
  fst <$> (match gc_then_collect 102 100 default_ObjectStatisticsRaw (sample 5 4 (-1)) O with
           | Ok a _ _ => Some a | _ => None end) = Some 2.
Proof.
  rewrite (collect_within_window 102 100 (sample 5 4 (-1)) default_ObjectStatisticsRaw O
    (mkEntry (S754_zero false) (to_double 4) 4)); [vm_compute; reflexivity|..].
  - vm_compute. intuition discriminate.
  - vm_compute. intuition discriminate.
  - apply orderedb_sound. vm_compute. reflexivity.
  - vm_compute. reflexivity.
  - vm_compute. reflexivity.
  - vm_compute. reflexivity.
Defined.

(** Once the ring has wrapped, a collection while every entry is within
    the window returns no entry at all: the first index that
    [garbage_collection] settles on is the position of the latest entry, where
    [collect_stats] stops. *)
Theorem wrapped_ring_collects_nothing tp w b raw t :
  well_formed b -> 100 < m_total_stats b -> 0 < m_position b ->
  Forall (young tp w) (m_tb_statistics b) ->
  gc_then_collect tp w raw b t =
    Ok (0, set_raw_total 0 raw) (mk (m_tb_statistics b) 0 0 (-1) 100) t.
Proof.
  intros Hwf Ht Hp HF. destruct (position_total b Hwf) as [_ Hr]; [lia|].
  assert (Hlen : length (m_tb_statistics b) = 100%nat) by apply Hwf.
  assert (Hmax : m_max_statistics b = 100) by apply Hwf.
  destruct (lookup_lt_is_Some_2 (m_tb_statistics b) (Z.to_nat (m_position b))) as [e He]; [lia|].
  destruct (lookup_lt_is_Some_2 (m_tb_statistics b) 0) as [e0 He0]; [lia|].
  rewrite Forall_lookup in HF. unfold gc_then_collect.
  erewrite bind_Ok; [|apply (gc_wrapped tp w b t e e0); try done; by eapply HF].
  rewrite (collect_stats_spec raw (set_valid (m_position b) b) t 0 raw).
  - cbn [m_max_statistics m_tb_statistics set_valid]. by rewrite Hmax.
  - unfold collect_entries, gets, mbind, M_bind.
    cbn [m_total_stats m_max_statistics m_position m_valid_entry_index set_valid].
    rewrite (proj2 (Z.ltb_lt 0 _)) by lia. rewrite Hmax, (proj2 (Z.leb_gt _ 100)) by lia.
    by rewrite Z.sub_diag.
Qed.

Lemma wrapped_ring_collects_nothing_witness :
  gc_then_collect 102 200 default_ObjectStatisticsRaw (sample 150 49 (-1)) O =
  Ok (0, set_raw_total 0 default_ObjectStatisticsRaw)
    (mk (m_tb_statistics (sample 150 49 (-1))) 0 0 (-1) 100) O.
Proof.
  apply (wrapped_ring_collects_nothing 102 200 (sample 150 49 (-1)) default_ObjectStatisticsRaw O).
  - vm_compute. intuition discriminate.
  - reflexivity.
  - reflexivity.
  - apply (bool_decide_unpack _). vm_compute. exact I.
Defined.

(** With the latest entry exactly as old as the window, or right after
    the ring wraps (101 entries), [garbage_collection] finds no first entry
    and [collect_stats] reads the entry of index -1. *)
Theorem collect_reads_before_the_ring tp w b raw t e :
  well_formed b -> m_valid_entry_index b = -1 ->
  m_tb_statistics b !! Z.to_nat (m_position b) = Some e ->
  (m_total_stats b = 1 /\ age tp e = w) \/
    (100 < m_total_stats b /\ m_position b = 0 /\ age tp e <= w) ->
  gc_then_collect tp w raw b t = Crash (UndefinedBehaviour "vector index out of range").
Proof.
  intros Hwf Hv He Hcase. assert (Hp0 : 0 <= m_position b) by (apply position_total; [done|lia]).
  destruct Hwf as (Hlen & Hmax & Htot & Hp & _). unfold gc_then_collect.
  assert (Hgc : exists d, garbage_collection tp w b t = Ok d b t).
  { unfold garbage_collection, gets, mbind, M_bind.
    rewrite (proj2 (Z.ltb_lt 0 _)) by lia. rewrite (vector_index_lookup _ _ e) by done.
    rewrite (proj2 (Z.ltb_ge w _)) by lia. rewrite Hmax.
    destruct Hcase as [[Ht Ha]|(Ht & Hp' & Ha)].
    - rewrite Ht. rewrite Ht in Hp. rewrite Hp in He. cbn in He.
      change (1 <=? 100) with true. cbv iota beta.
      rewrite find_valid_spec by (simpl; lia).
      destruct (m_tb_statistics b) as [|x l] eqn:Hl; [done|]. injection He as ->.
      change (Z.to_nat 1) with 1%nat. change (Z.to_nat 0) with 0%nat. rewrite drop_0.
      cbn [take old_prefix].
      rewrite (proj2 (Z.ltb_ge _ w)) by lia. by eexists.
    - rewrite (proj2 (Z.leb_gt _ 100)) by lia. rewrite Hp', find_valid_spec by lia.
      change (Z.to_nat 0) with 0%nat. rewrite drop_0, take_0. cbn [old_prefix].
      change (Nat.ltb 0 0) with false. cbn [update_valid]. unfold mret, M_ret. rewrite Hv.
      by eexists. }
  destruct Hgc as [d Hgc]. erewrite bind_Ok by exact Hgc. apply collect_entries_crash.
  unfold collect_entries, gets, mbind, M_bind.
  rewrite (proj2 (Z.ltb_lt 0 _)) by lia. rewrite Hmax, Hv.
  destruct Hcase as [[Ht Ha]|(Ht & Hp' & Ha)].
  - rewrite Ht. reflexivity.
  - rewrite (proj2 (Z.leb_gt _ 100)) by lia. rewrite Hp'. reflexivity.
Qed.

Lemma collect_reads_before_the_ring_witness :
  gc_then_collect 102 200 default_ObjectStatisticsRaw (sample 101 0 (-1)) O =
  Crash (UndefinedBehaviour "vector index out of range").
Proof.
  apply (collect_reads_before_the_ring 102 200 (sample 101 0 (-1)) default_ObjectStatisticsRaw O
           (mkEntry (S754_zero false) (to_double 0) 0)).
  - vm_compute. intuition discriminate.
  - vm_compute. reflexivity.
  - vm_compute. reflexivity.
  - right. vm_compute. intuition discriminate.
Defined.

(** Every operation keeps the statistics well formed: a ring of a
    hundred entries, the position that of the latest entry. *)
Theorem statistics_well_formed `{SystemClock} b t :
  well_formed b ->
  (forall empty tokens, keeps well_formed (store_stats_entry empty tokens b t)) /\
  (forall tp w, keeps well_formed (garbage_collection tp w b t)) /\
  (forall raw, keeps well_formed (collect_stats raw b t)).
Proof.
  intros Hwf. split; [|split].
  - intros. by apply store_well_formed.
  - intros. by apply gc_well_formed.
  - intros. by apply collect_well_formed.
Qed.

Lemma statistics_well_formed_witness :
  keeps well_formed (collect_stats default_ObjectStatisticsRaw default O).
Proof.
  apply (@statistics_well_formed (fun _ => 0) default O).
  vm_compute. intuition discriminate.
Defined.

End Theorems.
