(* ===== verification/TokenBucket.v ===== *)
(** * The token bucket of the rate limiter

    [TokenBucket] counts its tokens in [double]s.  A request consumes tokens,
    and waits for refills when they run out; a request larger than the
    capacity consumes it in several rounds.  The loops of the code are bounded
    by fuel: the theorems show that the fuel does not matter when the clock
    progresses, and that a bucket without capacity never serves a request. *)

From S2P Require Import Prelude MachineInt Binary64 TokenBucketStats.

Module TokenBucket.

Record t := mk {
  m_capacity : double;
  m_tokens : double;
  m_refill_period : Z;                  (* long, microseconds *)
  m_next_refill_period : Z;             (* uint64_t *)
  m_last_refill_period : Z;             (* uint64_t *)
  m_collect_statistics : bool;          (* atomic<bool> *)
  m_token_bucket_statistics : TBStats.t;
  m_sliding_window_statistics : Z;      (* uint64_t *)
}.

Definition set_capacity_field (x : double) (b : t) : t :=
  mk x (m_tokens b) (m_refill_period b) (m_next_refill_period b) (m_last_refill_period b)
    (m_collect_statistics b) (m_token_bucket_statistics b) (m_sliding_window_statistics b).
Definition set_tokens_field (x : double) (b : t) : t :=
  mk (m_capacity b) x (m_refill_period b) (m_next_refill_period b) (m_last_refill_period b)
    (m_collect_statistics b) (m_token_bucket_statistics b) (m_sliding_window_statistics b).
Definition set_refill_period (period : Z) (b : t) : t :=
  mk (m_capacity b) (m_tokens b) period (m_next_refill_period b) (m_last_refill_period b)
    (m_collect_statistics b) (m_token_bucket_statistics b) (m_sliding_window_statistics b).
Definition set_next (x : Z) (b : t) : t :=
  mk (m_capacity b) (m_tokens b) (m_refill_period b) x (m_last_refill_period b)
    (m_collect_statistics b) (m_token_bucket_statistics b) (m_sliding_window_statistics b).
Definition set_last (x : Z) (b : t) : t :=
  mk (m_capacity b) (m_tokens b) (m_refill_period b) (m_next_refill_period b) x
    (m_collect_statistics b) (m_token_bucket_statistics b) (m_sliding_window_statistics b).
Definition set_statistic_collection (collect : bool) (b : t) : t :=
  mk (m_capacity b) (m_tokens b) (m_refill_period b) (m_next_refill_period b)
    (m_last_refill_period b) collect (m_token_bucket_statistics b) (m_sliding_window_statistics b).
Definition set_stats (x : TBStats.t) (b : t) : t :=
  mk (m_capacity b) (m_tokens b) (m_refill_period b) (m_next_refill_period b)
    (m_last_refill_period b) (m_collect_statistics b) x (m_sliding_window_statistics b).

(** The constant 0.01: the double nearest to a hundredth. *)
Definition d_hundredth : double := ddiv (to_double 1) (to_double 100).

Section Clock.
Context `{SystemClock}.

Definition calc_next_refill_period (time period : Z) : Z := u64 (time + period).

(** The constructors: [m_next_refill_period] and [m_last_refill_period] are
    initialized by two readings of the clock. *)
Definition make (capacity tokens : double) (refill_period : Z) (collect_statistics : bool)
    (sliding_window : Z) {S} : M S t :=
  time ← now;
  last ← now;
  mret (mk capacity tokens refill_period (calc_next_refill_period time refill_period) (u64 last)
          collect_statistics TBStats.default sliding_window).

Definition default {S} : M S t := make (to_double 50000) (to_double 50000) 1000000 false 5000000.

Definition make_collecting (collect_statistics : bool) (sliding_window : Z) {S} : M S t :=
  make (to_double 50000) (to_double 50000) 1000000 collect_statistics sliding_window.

Definition is_time_to_refill : M t Z :=
  current_time ← now;
  next ← gets m_next_refill_period;
  period ← gets m_refill_period;
  let time_left := s64 next - current_time in
  if time_left <=? 0 then
    _ ← modify (set_next (calc_next_refill_period current_time period));
    mret time_left
  else mret time_left.

Definition set_last_refill_period : M t unit :=
  time ← now;
  modify (set_last (u64 time)).

Definition refill_operation : M t unit :=
  _ ← modify (fun b => set_tokens_field (m_capacity b) b);
  collect ← gets m_collect_statistics;
  if collect : bool then set_last_refill_period else mret tt.

(** The result is [time_left], which the caller passes by reference. *)
Definition try_refill : M t Z :=
  time_left ← is_time_to_refill;
  if time_left <=? 0 then
    _ ← refill_operation;
    mret time_left
  else mret time_left.

Definition record_out_of_tokens_stat (out_of_tokens_time : Z) : M t unit :=
  b ← gets id;
  let approximate_next_refill_period := u64 (m_last_refill_period b + m_refill_period b) in
  let normalized_empty_factor :=
    fdiv (to_float (u64 (out_of_tokens_time - m_last_refill_period b)))
         (to_float (u64 (approximate_next_refill_period - m_last_refill_period b))) in
  zoom m_token_bucket_statistics set_stats
    (if SFleb normalized_empty_factor (to_float 1)
     then TBStats.store_stats_entry normalized_empty_factor (m_tokens b)
     else TBStats.store_stats_entry (to_float 1) (m_tokens b)).

(** The duration slept while the bucket has no tokens. *)
Definition time_to_sleep (period : Z) : option Z :=
  double_to_long (dmul (to_double period) d_hundredth).

(** Not yet time for a refill: the statistics, and the sleep. *)
Definition sleep_for_refill (time_left : Z) : M t unit :=
  if 0 <? time_left then
    collect ← gets m_collect_statistics;
    _ ← (if collect : bool then
           time ← now;
           record_out_of_tokens_stat (u64 time)
         else mret tt);
    period ← gets m_refill_period;
    match time_to_sleep period with
    | Some _ => mret tt
    | None => crash_with (UndefinedBehaviour "double out of the range of long")
    end
  else mret tt.

Fixpoint wait_for_tokens (fuel : nat) (consume_tokens : double) : M t unit :=
  match fuel with
  | O => crash_with OutOfFuel
  | S fuel =>
      tokens ← gets m_tokens;
      if dgt consume_tokens tokens then
        time_left ← try_refill;
        _ ← sleep_for_refill time_left;
        wait_for_tokens fuel consume_tokens
      else mret tt
  end.

Definition consume_operation (fuel : nat) (consume_tokens : double) : M t unit :=
  _ ← wait_for_tokens fuel consume_tokens;
  modify (fun b => set_tokens_field (dsub (m_tokens b) consume_tokens) b).

Fixpoint consume_rounds (fuel inner : nat) (tokens_left iteration_tokens : double) : M t unit :=
  match fuel with
  | O => crash_with OutOfFuel
  | S fuel =>
      if dgt tokens_left d0 then
        _ ← consume_operation inner iteration_tokens;
        capacity ← gets m_capacity;
        let tokens_left := dsub tokens_left iteration_tokens in
        let iteration_tokens := if dlt tokens_left capacity then tokens_left else iteration_tokens in
        consume_rounds fuel inner tokens_left iteration_tokens
      else mret tt
  end.

Definition try_consume (fuel : nat) (consume_tokens : double) : M t unit :=
  capacity ← gets m_capacity;
  if dgt consume_tokens capacity
  then consume_rounds fuel fuel consume_tokens capacity
  else consume_operation fuel consume_tokens.

Definition run_garbage_collector : M t unit :=
  time ← now;
  window ← gets m_sliding_window_statistics;
  _ ← zoom m_token_bucket_statistics set_stats (TBStats.garbage_collection (u64 time) window);
  mret tt.

Definition try_collect_statistics (statistics_raw : ObjectStatisticsRaw) :
    M t (Z * ObjectStatisticsRaw) :=
  _ ← run_garbage_collector;
  zoom m_token_bucket_statistics set_stats (TBStats.collect_stats statistics_raw).

End Clock.

Definition normalize_tokens (throughput : double) (b : t) : double :=
  dmul throughput (ddiv (ddiv (to_double (m_refill_period b)) (to_double 1000)) (to_double 1000)).

Definition set_capacity (capacity : double) (b : t) : t :=
  set_capacity_field (normalize_tokens capacity b) b.

Definition set_token_count (tokens : double) (b : t) : t :=
  set_tokens_field (normalize_tokens tokens b) b.

Definition get_capacity (b : t) : double := m_capacity b.
Definition get_token_count (b : t) : double := m_tokens b.
Definition get_refill_period (b : t) : Z := m_refill_period b.
Definition is_statistic_collection_enabled (b : t) : bool := m_collect_statistics b.

Definition convert_seconds_to_microseconds (value : Z) : Z := value * 1000 * 1000.
Definition convert_microseconds_to_seconds (value : Z) : Z := Z.quot (Z.quot value 1000) 1000.

(** ** Abstract bucket

    A bucket of integer tokens: a request is served from the tokens at hand, or
    at a refill, which the clock allows from the instant [a_next] on. *)

Record abstract := mkAbstract {
  a_capacity : Z;
  a_tokens : Z;
  a_period : Z;
  a_next : Z;
}.

Inductive serve : abstract -> Z -> option Z -> abstract -> Prop :=
| serve_tokens a cost :
    0 <= cost <= a_tokens a ->
    serve a cost None (mkAbstract (a_capacity a) (a_tokens a - cost) (a_period a) (a_next a))
| serve_refill a cost instant :
    a_tokens a < cost <= a_capacity a -> a_next a <= instant ->
    serve a cost (Some instant)
      (mkAbstract (a_capacity a) (a_capacity a - cost) (a_period a) (instant + a_period a)).

(** A run: the total served, and the instants of the refills. *)
Inductive serves : abstract -> Z -> list Z -> abstract -> Prop :=
| serves_done a : serves a 0 [] a
| serves_step a cost o a' total instants a'' :
    serve a cost o a' -> serves a' total instants a'' ->
    serves a (cost + total) (option_list o ++ instants) a''.

(** The double bucket holds the integers of the abstract one. *)
Definition represents (b : t) (a : abstract) : Prop :=
  holds (m_capacity b) (a_capacity a) /\ holds (m_tokens b) (a_tokens a) /\
  a_tokens a <= a_capacity a /\
  m_refill_period b = a_period a /\ 0 <= a_period a < 2 ^ 53 /\
  m_next_refill_period b = a_next a /\ 0 <= a_next a < 2 ^ 63 /\
  m_collect_statistics b = false.

(** Instants at least a period apart, from a first instant on. *)
Fixpoint spaced (period from : Z) (instants : list Z) : Prop :=
  match instants with
  | [] => True
  | i :: instants => from <= i /\ spaced period (i + period) instants
  end.

(** Between the readings [n] and [n'] of the clock, a bucket moves its next refill
    no further than a period after the instants that were read. *)
Definition timely `{SystemClock} (n n' : nat) (a a' : abstract) : Prop :=
  (n <= n')%nat /\ a_period a' = a_period a /\
  forall T, (forall i, (n <= i < n')%nat -> clock_at i <= T) ->
    a_next a' <= Z.max (a_next a) (T + a_period a).

(** Requests one after the other. *)
Fixpoint consume_all `{SystemClock} (fuel : nat) (costs : list Z) : M t unit :=
  match costs with
  | [] => mret tt
  | c :: costs => _ ← try_consume fuel (to_double c); consume_all fuel costs
  end.

(** ** Well-formed buckets *)

(** The tokens never exceed the capacity. *)
Definition well_formed (b : t) : Prop :=
  dwf (m_capacity b) /\ dwf (m_tokens b) /\ dval (m_tokens b) <= dval (m_capacity b).

End TokenBucket.

Section Lemmas.
Context `{SystemClock}.
Import TokenBucket.

(** ** Invariants *)

Lemma try_refill_keeps b t : well_formed b ->
  keeps (fun b' => well_formed b' /\ m_capacity b' = m_capacity b) (try_refill b t).
Proof.
  intros Hwf. unfold try_refill, is_time_to_refill, refill_operation, set_last_refill_period,
    now, gets, modify, mret, M_ret, mbind, M_bind.
  set (left := s64 (m_next_refill_period b) - clock_at t).
  destruct (Z.leb_spec left 0) as [Hl|Hl]; simpl.
  - rewrite (proj2 (Z.leb_le left 0)) by done. simpl.
    destruct Hwf as (Hc & _ & _).
    destruct (m_collect_statistics b); (split; [split_and!; simpl; [done|done|lia]|done]).
  - by rewrite (proj2 (Z.leb_gt left 0)) by done.
Qed.

Lemma record_keeps time b t : well_formed b ->
  keeps (fun b' => well_formed b' /\ m_capacity b' = m_capacity b) (record_out_of_tokens_stat time b t).
Proof.
  intros Hwf. unfold record_out_of_tokens_stat. apply keeps_bind; [done|].
  intros x b' t' [Hwf' Hc]. eapply (keeps_zoom (fun _ => True)); [|by intros].
  case_match; unfold keeps; case_match; done.
Qed.

Lemma wait_keeps fuel c : forall b t, well_formed b ->
  keeps (fun b' => well_formed b' /\ m_capacity b' = m_capacity b) (wait_for_tokens fuel c b t).
Proof.
  induction fuel as [|fuel IH]; intros b t Hwf; [done|]. cbn [wait_for_tokens].
  apply keeps_bind; [done|]. intros tokens b0 t0 [Hwf0 Hc0].
  destruct (dgt c tokens); [|done].
  apply keeps_bind; [rewrite <- Hc0; by apply try_refill_keeps|]. intros left b1 t1 [Hwf1 Hc1].
  unfold sleep_for_refill. apply keeps_bind.
  - destruct (0 <? left); [|done]. apply keeps_bind; [done|]. intros col b2 t2 [Hwf2 Hc2].
    apply keeps_bind.
    + destruct col; [|done]. rewrite <- Hc2. apply keeps_bind; [done|].
      intros time b3 t3 [Hwf3 Hc3]. rewrite <- Hc3. by apply record_keeps.
    + intros _ b3 t3 Hb3. apply keeps_bind; [done|]. intros p b4 t4 Hb4. by case_match.
  - intros _ b2 t2 [Hwf2 Hc2]. rewrite <- Hc2. by apply IH.
Qed.

(** The loop ends with enough tokens. *)
Lemma wait_enough fuel c : forall b t b' t',
  wait_for_tokens fuel c b t = Ok tt b' t' -> dgt c (m_tokens b') = false.
Proof.
  induction fuel as [|fuel IH]; intros b t b' t'; [done|]. cbn [wait_for_tokens].
  intros (tokens & b0 & t0 & [= <- <- <-] & Hr)%bind_Ok_inv.
  destruct (dgt c (m_tokens b)) eqn:Hd; [|by injection Hr as <- <-].
  apply bind_Ok_inv in Hr as (left & b1 & t1 & _ & (u & b2 & t2 & _ & Hr)%bind_Ok_inv).
  by apply IH in Hr.
Qed.

Lemma consume_keeps fuel c b t : dwf c -> well_formed b ->
  keeps (fun b' => well_formed b' /\ m_capacity b' = m_capacity b) (consume_operation fuel c b t).
Proof.
  intros Hc Hwf. unfold consume_operation, mbind, M_bind.
  pose proof (wait_keeps fuel c b t Hwf) as Hk.
  destruct (wait_for_tokens fuel c b t) as [[] b' t'|e b' t'|cr] eqn:Hw; [|done..].
  apply wait_enough in Hw. destruct Hk as [(Hcap & Htok & Hle) Heq]. simpl.
  rewrite dgt_val in Hw by done. bools.
  destruct (dsub_range (m_tokens b') c Htok Hc Hw) as [? ?].
  split; [|done]. split_and!; simpl; [done|done|lia].
Qed.

Lemma dwf_d0 : dwf d0.
Proof. apply d0_val. Qed.

(** One round: what is left and the next share stay within bounds. *)
Definition share_ok (cap left it : double) : Prop :=
  dwf left /\ dwf it /\ dval it <= dval left /\ dval it <= dval cap.

Definition next_left (left it : double) : double := dsub left it.
Definition next_share (cap left it : double) : double :=
  if dlt (next_left left it) cap then next_left left it else it.

Lemma next_share_ok cap left it : dwf cap -> share_ok cap left it ->
  share_ok cap (next_left left it) (next_share cap left it).
Proof.
  intros Hc (Hl & Hi & Hle & Hic). destruct (dsub_range left it Hl Hi Hle) as [Hd Hr].
  fold (next_left left it) in Hd, Hr. unfold next_share. rewrite dlt_val by done.
  destruct (Z.ltb_spec (dval (next_left left it)) (dval cap)); split_and!; done || lia.
Qed.

Lemma rounds_keeps cap fuel inner : forall left it b t, share_ok cap left it ->
  well_formed b -> m_capacity b = cap ->
  keeps (fun b' => well_formed b' /\ m_capacity b' = cap) (consume_rounds fuel inner left it b t).
Proof.
  induction fuel as [|fuel IH]; intros left it b t Hs Hwf Hc; [done|].
  cbn [consume_rounds]. destruct (dgt left d0); [|done].
  apply keeps_bind; [rewrite <- Hc; apply consume_keeps; [apply Hs|done]|].
  intros [] b1 t1 [Hwf1 Hc1]. unfold gets, mbind, M_bind. rewrite Hc1.
  apply IH; [|done|done]. apply next_share_ok; [|done]. rewrite <- Hc1. apply Hwf1.
Qed.

(** ** The abstract bucket *)

Lemma serves_app a x ts a' y js a'' :
  serves a x ts a' -> serves a' y js a'' -> serves a (x + y) (ts ++ js) a''.
Proof.
  induction 1 as [|a c o a1 x ts a2 Hs _ IH]; intros Hy; [done|].
  rewrite <- Z.add_assoc, <- app_assoc. econstructor; eauto.
Qed.

Lemma serves_one a c o a' : serve a c o a' -> serves a c (option_list o) a'.
Proof.
  intros Hs. rewrite <- (Z.add_0_r c), <- (app_nil_r (option_list o)).
  econstructor; [done|constructor].
Qed.

(** What was served came from the initial tokens or from a refill. *)
Lemma serves_bound a x ts a' : serves a x ts a' -> 0 <= a_tokens a ->
  0 <= a_tokens a' /\ x + a_tokens a' <= a_tokens a + a_capacity a * Z.of_nat (length ts).
Proof.
  induction 1 as [a|a c o a1 x ts a2 Hs _ IH]; intros H0; [simpl; lia|].
  assert (Hc : a_capacity a1 = a_capacity a) by (by destruct Hs).
  assert (H1 : 0 <= a_tokens a1 /\
    c + a_tokens a1 <= a_tokens a + a_capacity a * Z.of_nat (length (option_list o))).
  { destruct Hs; simpl; lia. }
  destruct H1 as [H1 H2]. destruct (IH H1) as [H3 H4]. rewrite length_app, Nat2Z.inj_add.
  rewrite Hc in H4. lia.
Qed.

(** Refills are at least a period apart. *)
Lemma serves_spaced a x ts a' : serves a x ts a' -> spaced (a_period a) (a_next a) ts.
Proof.
  induction 1 as [a|a c o a1 x ts a2 Hs _ IH]; [done|]. by destruct Hs; simpl.
Qed.

(** Each refill moves the next one a period further, at least. *)
Lemma serves_elapsed a x ts a' : serves a x ts a' -> 0 <= a_period a ->
  a_period a * Z.of_nat (length ts) <= a_next a' - a_next a.
Proof.
  induction 1 as [a|a c o a1 x ts a2 Hs _ IH]; intros Hp; [simpl; lia|].
  rewrite length_app, Nat2Z.inj_add. destruct Hs; simpl in *; specialize (IH Hp); lia.
Qed.

(** The bytes of a span of time: those of the tokens at hand, and a capacity each
    period. *)
Lemma serves_rate n n' a x ts a' T : serves a x ts a' -> timely n n' a a' ->
  0 <= a_tokens a -> 0 <= a_capacity a -> 0 <= a_period a ->
  (forall i, (n <= i < n')%nat -> clock_at i <= T) ->
  a_period a * (x - a_tokens a) <= a_capacity a * Z.max 0 (T + a_period a - a_next a).
Proof.
  intros Hs (_ & _ & Ht) Htok Hc Hp HT. specialize (Ht T HT).
  destruct (serves_bound _ _ _ _ Hs Htok) as [Ha' Hb]. pose proof (serves_elapsed _ _ _ _ Hs Hp) as He.
  transitivity (a_capacity a * (a_period a * Z.of_nat (length ts))); [|apply Z.mul_le_mono_nonneg_l; lia].
  rewrite Z.mul_assoc, (Z.mul_comm (a_capacity a)), <- Z.mul_assoc. apply Z.mul_le_mono_nonneg_l; lia.
Qed.

Lemma timely_refl n n' a : (n <= n')%nat -> timely n n' a a.
Proof. intros. split_and!; [done..|]. intros; lia. Qed.

Lemma timely_trans n1 n2 n3 a1 a2 a3 :
  timely n1 n2 a1 a2 -> timely n2 n3 a2 a3 -> timely n1 n3 a1 a3.
Proof.
  intros (L1 & P1 & T1) (L2 & P2 & T2). split_and!; [lia|congruence|]. intros T HT.
  assert (B1 := T1 T). assert (B2 := T2 T). rewrite P1 in B2.
  assert (a_next a2 <= Z.max (a_next a1) (T + a_period a1)) by (apply B1; intros; apply HT; lia).
  assert (a_next a3 <= Z.max (a_next a2) (T + a_period a1)) by (apply B2; intros; apply HT; lia).
  lia.
Qed.

Lemma timely_wider n1 n2 n n' a a' :
  (n <= n1)%nat -> (n2 <= n')%nat -> timely n1 n2 a a' -> timely n n' a a'.
Proof.
  intros L1 L2 Ht. eapply timely_trans; [by apply timely_refl|].
  eapply timely_trans; [done|by apply timely_refl].
Qed.

(** ** Refinement: one operation of the code is one step of the abstract bucket *)

Hypothesis clock_range : forall n, 0 <= clock_at n < 2 ^ 62.

Lemma wait_refines fuel c cost : holds c cost -> forall b a t b' t', represents b a ->
  cost <= a_capacity a -> wait_for_tokens fuel c b t = Ok tt b' t' ->
  exists o a', serve a cost o a' /\ timely t t' a a' /\
    represents (set_tokens_field (dsub (m_tokens b') c) b') a'.
Proof.
  intros Hc. induction fuel as [|fuel IH]; intros b a t b' t' Hr Hle; [done|].
  assert (Hr' := Hr). destruct Hr' as (Hcap & Htok & Htc & Hper & Hpr & Hnext & Hnr & Hcol).
  assert (Hc0 := Hc). destruct Hc0 as (_ & _ & Hcr).
  cbn [wait_for_tokens]. intros (tokens & b0 & t0 & [= <- <- <-] & H0)%bind_Ok_inv.
  rewrite (holds_dgt _ _ _ _ Hc Htok) in H0.
  destruct (Z.ltb_spec (a_tokens a) cost) as [Hlt|Hge].
  - apply bind_Ok_inv in H0 as (left & b1 & t1 & Htry & (u & b2 & t2 & Hsleep & Hw)%bind_Ok_inv).
    unfold sleep_for_refill in Hsleep.
    (* the reading of the clock *)
    unfold try_refill, is_time_to_refill, refill_operation, now, gets, modify, mret, M_ret,
      mbind, M_bind in Htry.
    set (l := s64 (m_next_refill_period b) - clock_at t) in Htry.
    assert (Hl : l = a_next a - clock_at t).
    { unfold l. rewrite Hnext, s64_small; [done|]. unfold is_long, long_min, long_max. lia. }
    destruct (Z.leb_spec l 0) as [H1|H1]; simpl in Htry.
    + rewrite (proj2 (Z.leb_le l 0)) in Htry by done. simpl in Htry. rewrite Hcol in Htry.
      injection Htry as <- <- <-. rewrite (proj2 (Z.ltb_ge 0 l)) in Hsleep by done.
      injection Hsleep as <- <- <-. destruct fuel as [|fuel]; [done|].
      cbn [wait_for_tokens] in Hw. apply bind_Ok_inv in Hw as (tk & b3 & t3 & [= <- <- <-] & Hw).
      cbn [m_tokens set_tokens_field m_capacity set_next] in Hw.
      rewrite (holds_dgt _ _ _ _ Hc Hcap) in Hw. rewrite (proj2 (Z.ltb_ge _ cost)) in Hw by done.
      injection Hw as <- <-. pose proof (clock_range t).
      exists (Some (clock_at t)). eexists. split; [apply serve_refill; lia|]. split.
      { split_and!; [lia|done|]. intros T HT. specialize (HT t). simpl. lia. }
      split_and!; simpl; try done; try lia.
      * by apply holds_dsub.
      * unfold calc_next_refill_period. rewrite Hper. apply u64_small. unfold word. lia.
    + rewrite (proj2 (Z.leb_gt l 0)) in Htry by done. simpl in Htry.
      injection Htry as <- <- <-. rewrite (proj2 (Z.ltb_lt 0 l)) in Hsleep by done.
      apply bind_Ok_inv in Hsleep as (col & b3 & t3 & [= <- <- <-] & Hsleep). rewrite Hcol in Hsleep.
      apply bind_Ok_inv in Hsleep as (v & b3 & t3 & [= <- <- <-] & Hsleep).
      apply bind_Ok_inv in Hsleep as (p & b3 & t3 & [= <- <- <-] & Hsleep).
      destruct (time_to_sleep (m_refill_period b)); [|done]. injection Hsleep as <- <- <-.
      destruct (IH b a (S t) b' t') as (o & a' & Hs & Ht & Hr2); [done..|].
      exists o, a'. split; [done|]. split; [|done]. by apply (timely_wider (S t) t'); [lia..|].
  - injection H0 as <- <-. exists None. eexists. split; [apply serve_tokens; lia|].
    split; [split_and!; [lia|done|]; intros; simpl; lia|].
    split_and!; simpl; try done; try lia. by apply holds_dsub.
Qed.

Lemma consume_refines fuel c cost b a t b' t' : holds c cost -> represents b a ->
  cost <= a_capacity a -> consume_operation fuel c b t = Ok tt b' t' ->
  exists o a', serve a cost o a' /\ timely t t' a a' /\ represents b' a'.
Proof.
  intros Hc Hr Hle ([] & b1 & t1 & Hw & [= <- <-])%bind_Ok_inv. by eapply wait_refines.
Qed.

Lemma represents_range b a : represents b a ->
  0 <= a_tokens a /\ 0 <= a_capacity a /\ 0 <= a_period a.
Proof. intros ((_ & _ & ?) & (_ & _ & ?) & _ & _ & ? & _). lia. Qed.

Lemma serve_capacity a c o a' : serve a c o a' -> a_capacity a' = a_capacity a.
Proof. by destruct 1. Qed.

(** The rounds of a request larger than the capacity. *)
Lemma rounds_refine fuel inner : forall left it l i b a t b' t', holds left l -> holds it i ->
  i <= l -> i <= a_capacity a -> (l < a_capacity a -> i = l) -> represents b a ->
  consume_rounds fuel inner left it b t = Ok tt b' t' ->
  exists instants a', serves a l instants a' /\ timely t t' a a' /\ represents b' a'.
Proof.
  induction fuel as [|fuel IH]; intros left it l i b a t b' t' Hl Hi Hil Hic Hlast Hr; [done|].
  cbn [consume_rounds]. rewrite (holds_dgt _ _ _ _ Hl holds_d0).
  destruct (Z.ltb_spec 0 l) as [Hpos|Hz].
  - intros (u & b1 & t1 & Hc & (cap & b2 & t2 & [= <- <- <-] & Hw)%bind_Ok_inv)%bind_Ok_inv.
    destruct u. destruct (consume_refines _ _ _ _ _ _ _ _ Hi Hr Hic Hc) as (o & a1 & Hs & Ht1 & Hr1).
    assert (Hcap : holds (m_capacity b1) (a_capacity a))
      by (rewrite <- (serve_capacity _ _ _ _ Hs); apply Hr1).
    pose proof (holds_dsub _ _ _ _ Hl Hi Hil) as Hnl.
    cbv zeta in Hw. rewrite (holds_dlt _ _ _ _ Hnl Hcap) in Hw.
    assert (Hw' : exists instants a', serves a1 (l - i) instants a' /\ timely t1 t' a1 a' /\
      represents b' a').
    { destruct (Z.ltb_spec (l - i) (a_capacity a)) as [Hlt|Hge].
      - eapply (IH _ _ (l - i) (l - i)); try done; try lia.
        rewrite (serve_capacity _ _ _ _ Hs). lia.
      - eapply (IH _ _ (l - i) i); try done; try lia; rewrite (serve_capacity _ _ _ _ Hs); lia. }
    destruct Hw' as (instants & a' & Hss & Ht2 & Hr'). exists (option_list o ++ instants), a'.
    split; [|split; [by eapply timely_trans|done]]. replace l with (i + (l - i)) by lia. by econstructor.
  - intros [= <- <-]. exists [], a. split; [|by split; [apply timely_refl|]].
    replace l with 0 by (destruct Hl as (_ & _ & ?); lia). constructor.
Qed.

Lemma try_consume_refines fuel c cost b a t b' t' : holds c cost -> represents b a ->
  try_consume fuel c b t = Ok tt b' t' ->
  exists instants a', serves a cost instants a' /\ timely t t' a a' /\ represents b' a'.
Proof.
  intros Hc Hr (cap & b1 & t1 & [= <- <- <-] & H0)%bind_Ok_inv.
  assert (Hcap := proj1 Hr). rewrite (holds_dgt _ _ _ _ Hc Hcap) in H0.
  destruct (Z.ltb_spec (a_capacity a) cost) as [Hlt|Hge].
  - eapply (rounds_refine _ _ _ _ cost (a_capacity a)); try done; lia.
  - destruct (consume_refines _ _ _ _ _ _ _ _ Hc Hr Hge H0) as (o & a' & Hs & Ht & Hr').
    exists (option_list o), a'. split; [by apply serves_one|done].
Qed.

Lemma consume_all_refines fuel costs : forall b a t b' t',
  Forall (fun c => 0 <= c < 2 ^ 53) costs -> represents b a ->
  consume_all fuel costs b t = Ok tt b' t' ->
  exists instants a', serves a (foldr Z.add 0 costs) instants a' /\ timely t t' a a' /\
    represents b' a'.
Proof.
  induction costs as [|c costs IH]; intros b a t b' t' HF Hr.
  - intros [= <- <-]. exists [], a. split; [constructor|by split; [apply timely_refl|]].
  - apply Forall_cons_1 in HF as [Hc HF].
    intros ([] & b1 & t1 & H0 & Hw)%bind_Ok_inv.
    destruct (try_consume_refines _ _ _ _ _ _ _ _ (holds_to_double _ Hc) Hr H0)
      as (ts & a1 & Hs & Ht & Hr1).
    destruct (IH _ _ _ _ _ HF Hr1 Hw) as (js & a' & Hs' & Ht' & Hr').
    exists (ts ++ js), a'. split; [by eapply serves_app|]. split; [by eapply timely_trans|done].
Qed.

End Lemmas.

(** ** The sleep of a waiting request is a [long] *)

Lemma d_hundredth_value : exists m, TokenBucket.d_hundredth = S754_finite false m (-59) /\
  bounded prec64 emax64 m (-59) = true /\ Zpos m <= 2 ^ 59.
Proof. eexists. split; [vm_compute; reflexivity|]. split; [reflexivity|lia]. Qed.

Lemma time_to_sleep_range p : 0 <= p < 2 ^ 53 ->
  exists z, TokenBucket.time_to_sleep p = Some z /\ 0 <= z <= p.
Proof.
  intros Hp. destruct (decide (p = 0)) as [->|Hne]; [exists 0; by vm_compute|].
  destruct (to_double_finite p) as (m & e & Hd & Hb & He); [lia|].
  destruct d_hundredth_value as (mh & Hh & Hbh & Hmh).
  destruct (to_double_val p) as [Hw Hv]; [lia|].
  destruct (mul_le prec64 emax64 prec64_gt m e mh (-59) m e) as [Hf Hle]; try done.
  { change (emin prec64 emax64) with (-1074). lia. }
  { change (emin prec64 emax64) with (-1074).
    replace (2 ^ (e - -1074)) with (2 ^ 59 * 2 ^ (e + -59 - -1074))
      by (rewrite <- Z.pow_add_r by lia; f_equal; lia).
    rewrite <- Z.mul_assoc. apply Z.mul_le_mono_nonneg_l; [lia|].
    apply Z.mul_le_mono_nonneg_r; [|done]. apply Z.lt_le_incl, Z.pow_pos_nonneg; lia. }
  unfold TokenBucket.time_to_sleep, double_to_long. rewrite Hd, Hh.
  unfold dmul. rewrite dtrunc_val by done.
  rewrite Hd in Hv. cbn [val] in Hv. rewrite Hv in Hle.
  set (z := SFmul prec64 emax64 _ _) in *.
  assert (H0 : 0 <= dval z / one64 <= p).
  { pose proof (dval_nonneg z). pose proof one64_pos. split; [apply Z.div_pos; lia|].
    apply Z.div_le_upper_bound; lia. }
  exists (dval z / one64). split; [|done]. rewrite decide_True; [done|].
  unfold is_long, long_min, long_max. lia.
Qed.

Section Liveness.
Context `{SystemClock}.
Hypothesis progress : clock_progress.
Import TokenBucket.

(** Buckets whose requests can wait: no statistics, and a period of at most
    2^53 microseconds. *)
Definition waits (b : t) : Prop :=
  well_formed b /\ m_collect_statistics b = false /\ 0 <= m_refill_period b < 2 ^ 53.

Definition same_setup (b b' : t) : Prop :=
  m_capacity b' = m_capacity b /\ m_collect_statistics b' = m_collect_statistics b /\
  m_refill_period b' = m_refill_period b.

(** After enough readings, a refill is allowed; each round of the loop takes a
    reading. *)
Lemma wait_terminates n c : forall k b t, waits b -> dwf c -> dval c <= dval (m_capacity b) ->
  (forall m, (n <= m)%nat -> s64 (m_next_refill_period b) <= clock_at m) -> (n <= t + k)%nat ->
  forall fuel, (k + 2 <= fuel)%nat ->
  exists b' t', wait_for_tokens fuel c b t = Ok tt b' t' /\ waits b' /\ same_setup b b'.
Proof.
  induction k as [|k IH]; intros b t (Hwf & Hcol & Hper) Hc Hle Hn Hk fuel Hf;
    (destruct fuel as [|fuel]; [lia|]); cbn [wait_for_tokens];
    unfold gets at 1; erewrite bind_Ok by done;
    (destruct (dgt c (m_tokens b)); [|by exists b, t]);
    unfold try_refill, is_time_to_refill, refill_operation, sleep_for_refill, now, gets, modify,
      mret, M_ret, mbind, M_bind;
    set (l := s64 (m_next_refill_period b) - clock_at t);
    destruct (Z.leb_spec l 0) as [Hl|Hl].
  1, 3: simpl; rewrite (proj2 (Z.leb_le l 0)) by done; simpl; rewrite Hcol;
    rewrite (proj2 (Z.ltb_ge 0 l)) by done;
    (destruct fuel as [|fuel]; [lia|]); cbn [wait_for_tokens];
    unfold gets, mbind, M_bind; cbn [m_tokens set_tokens_field m_capacity set_next];
    rewrite dgt_val by (done || apply Hwf); rewrite (proj2 (Z.ltb_ge _ _)) by done;
    do 2 eexists; (split; [done|]); destruct Hwf as (Hcap & _ & _);
    split; [split_and!; simpl; done || lia|done].
  - specialize (Hn t ltac:(lia)). unfold l in Hl. lia.
  - simpl. rewrite (proj2 (Z.leb_gt l 0)) by done. simpl.
    rewrite (proj2 (Z.ltb_lt 0 l)) by done. rewrite Hcol.
    destruct (time_to_sleep_range _ Hper) as (z & -> & _).
    apply IH; [done|done|done|done|lia|lia].
Qed.

(** More fuel makes no difference to a wait that ends. *)
Lemma consume_fuel fuel fuel' c b t b' t' : (fuel <= fuel')%nat ->
  wait_for_tokens fuel c b t = Ok tt b' t' -> wait_for_tokens fuel' c b t = Ok tt b' t'.
Proof.
  revert fuel' b t. induction fuel as [|fuel IH]; intros fuel' b t Hle; [done|].
  destruct fuel' as [|fuel']; [lia|]. cbn [wait_for_tokens].
  intros (tk & b0 & t0 & [= <- <- <-] & H0)%bind_Ok_inv.
  unfold gets at 1. erewrite bind_Ok by done.
  destruct (dgt c (m_tokens b)); [|done].
  apply bind_Ok_inv in H0 as (l & b1 & t1 & H1 & (u & b2 & t2 & H2 & H3)%bind_Ok_inv).
  erewrite bind_Ok by exact H1. erewrite bind_Ok by exact H2. apply IH; [lia|done].
Qed.

(** The end does not depend on the fuel, when there is enough. *)
Lemma consume_terminates c b t : waits b -> dwf c -> dval c <= dval (m_capacity b) ->
  exists N b' t', waits b' /\ same_setup b b' /\
  forall fuel, (N <= fuel)%nat -> consume_operation fuel c b t = Ok tt b' t'.
Proof.
  intros Hb Hc Hle. destruct (progress (s64 (m_next_refill_period b))) as [n Hn].
  destruct (wait_terminates n c n b t Hb Hc Hle Hn ltac:(lia) (n + 2)%nat ltac:(lia))
    as (b' & t' & Hw & (Hwf & Hcol & Hper) & Hs).
  exists (n + 2)%nat, (set_tokens_field (dsub (m_tokens b') c) b'), t'.
  pose proof (wait_enough _ _ _ _ _ _ Hw) as Hd. destruct Hwf as (Hcap & Htok & Hct).
  rewrite dgt_val in Hd by done. bools.
  destruct (dsub_range (m_tokens b') c Htok Hc Hd) as [? ?].
  split; [unfold waits, well_formed; simpl; split_and!; try done; lia|]. split; [exact Hs|].
  intros fuel Hf. unfold consume_operation. by erewrite bind_Ok by exact (consume_fuel _ _ _ _ _ _ _ Hf Hw).
Qed.

Lemma rounds_terminate n : forall left it b t, share_ok (m_capacity b) left it -> waits b ->
  one64 <= dval (m_capacity b) -> dval left < 2 ^ 53 * one64 ->
  (dval it = dval left \/ dval it = dval (m_capacity b)) -> (Z.to_nat (dval left) < n)%nat ->
  exists N b' t', waits b' /\ same_setup b b' /\
  forall fuel inner, (N <= fuel)%nat -> (N <= inner)%nat ->
    consume_rounds fuel inner left it b t = Ok tt b' t'.
Proof.
  induction n as [|n IH]; intros left it b t Hs Hb Hcap Hl Hit Hn; [lia|].
  destruct (dgt left d0) eqn:Hg.
  2: { exists 1%nat, b, t. split; [done|]. split; [done|].
       intros [|fuel] inner Hf Hi; [lia|]. cbn [consume_rounds]. by rewrite Hg. }
  assert (Hs' := Hs). destruct Hs' as (Hld & Hid & Hil & Hic).
  assert (H0 : 0 < dval left).
  { rewrite dgt_val in Hg by done. bools. by destruct d0_val as [_ ?]. }
  destruct (consume_terminates it b t Hb Hid Hic) as (N & b1 & t1 & Hb1 & Hs1 & Hcons).
  assert (Hcap1 : m_capacity b1 = m_capacity b) by apply Hs1.
  pose proof (next_share_ok _ _ _ (proj1 (proj1 Hb)) Hs) as Hs2.
  assert (Hdec : dval (next_left left it) < dval left).
  { destruct Hit as [Heq|Heq].
    - unfold next_left. rewrite (dsub_exact left it d0) by (done || (destruct d0_val as [_ ->]; lia)).
      by destruct d0_val as [_ ->].
    - apply dsub_progress; [done|done|done| |done]. rewrite Heq. etransitivity; [|exact Hcap].
      by apply ulp_le_one. }
  destruct (IH (next_left left it) (next_share (m_capacity b) left it) b1 t1)
    as (N2 & b' & t' & Hb' & Hs2' & HN2).
  - by rewrite Hcap1.
  - done.
  - by rewrite Hcap1.
  - lia.
  - rewrite Hcap1. unfold next_share. destruct (dlt _ _) eqn:Hlt; [by left|].
    destruct Hit as [Heq|Heq]; [|by right].
    (* the whole rest was the share: nothing is left, which is less than the capacity *)
    exfalso. rewrite dlt_val in Hlt by (apply Hs2 || apply Hb). bools.
    unfold next_left in Hlt. rewrite (dsub_exact left it d0) in Hlt
      by (done || (destruct d0_val as [_ ->]; lia)).
    destruct d0_val as [_ Hd0]. rewrite Hd0 in Hlt. pose proof one64_pos. lia.
  - pose proof (dval_nonneg (next_left left it)). lia.
  - exists (S (N + N2)), b', t'. split; [done|].
    split; [unfold same_setup in *; intuition congruence|].
    intros [|fuel] inner Hf Hi; [lia|]. cbn [consume_rounds]. rewrite Hg.
    erewrite bind_Ok by (apply Hcons; lia). unfold gets at 1. erewrite bind_Ok by done.
    rewrite Hcap1. apply HN2; lia.
Qed.

(** A request of finite cost ends, the same with all fuel that is enough. *)
Lemma try_consume_ends c b t : waits b -> one64 <= dval (m_capacity b) -> dwf c ->
  dval c < 2 ^ 53 * one64 ->
  exists N b' t', waits b' /\ same_setup b b' /\
  forall fuel, (N <= fuel)%nat -> try_consume fuel c b t = Ok tt b' t'.
Proof.
  intros Hb Hcap Hc Hlt. unfold try_consume, gets, mbind, M_bind.
  assert (Hcw : dwf (m_capacity b)) by apply Hb.
  destruct (dgt c (m_capacity b)) eqn:Hd; rewrite dgt_val in Hd by done; bools.
  - destruct (rounds_terminate (S (Z.to_nat (dval c))) c (m_capacity b) b t)
      as (N & b' & t' & Hb' & Hs & HN); [split_and!; done || lia|done|done|done|by right|lia|].
    exists N, b', t'. auto.
  - destruct (consume_terminates c b t Hb Hc Hd) as (N & b' & t' & Hb' & Hs & HN).
    exists N, b', t'. auto.
Qed.

End Liveness.

(** ** Theorems *)

Section Theorems.
Context `{SystemClock}.
Import TokenBucket.

Lemma keeps_mono {S A} (P Q : S -> Prop) (o : Outcome S A) :
  (forall s, P s -> Q s) -> keeps P o -> keeps Q o.
Proof. destruct o; simpl; auto. Qed.

(** C10.  Serving a request that costs a finite non-negative number of tokens
    never leaves the bucket with more tokens than its capacity, or with a
    negative number of them, however the clock and the statistics behave. *)
Theorem tokens_within_capacity fuel c b t :
  dwf c -> well_formed b -> keeps well_formed (try_consume fuel c b t).
Proof.
  intros Hc Hwf. assert (Hcap := proj1 Hwf).
  apply (keeps_mono (fun b' => well_formed b' /\ m_capacity b' = m_capacity b)); [by intros ? [? _]|].
  unfold try_consume, gets, mbind, M_bind. destruct (dgt c (m_capacity b)) eqn:Hd.
  - rewrite dgt_val in Hd by done. bools. apply rounds_keeps; [|done|done].
    split_and!; done || lia.
  - by apply consume_keeps.
Qed.

(** C3.  The bucket limits the rate: on integer costs, requests served one
    after the other are a run of the abstract bucket.  What they consume came
    from the tokens at hand or from refills of at most the capacity, and
    refills are at least a period apart.  So, up to an instant [T], they consume the
    tokens at hand and the capacity at most once each period. *)
Theorem rate_is_limited fuel costs b a t b' t' :
  (forall n, 0 <= clock_at n < 2 ^ 62) ->
  Forall (fun c => 0 <= c < 2 ^ 53) costs -> represents b a ->
  consume_all fuel costs b t = Ok tt b' t' ->
  exists instants a', serves a (foldr Z.add 0 costs) instants a' /\ represents b' a' /\
    foldr Z.add 0 costs + a_tokens a' <= a_tokens a + a_capacity a * Z.of_nat (length instants) /\
    spaced (a_period a) (a_next a) instants /\
    forall T, (forall i, (t <= i < t')%nat -> clock_at i <= T) ->
      a_period a * (foldr Z.add 0 costs - a_tokens a) <=
      a_capacity a * Z.max 0 (T + a_period a - a_next a).
Proof.
  intros Hclock HF Hr Hc.
  destruct (consume_all_refines Hclock fuel costs b a t b' t' HF Hr Hc) as (ts & a' & Hs & Ht & Hr').
  destruct (represents_range _ _ Hr) as (Htok & Hcap & Hper).
  exists ts, a'. split; [done|]. split; [done|]. split_and!.
  - by apply serves_bound.
  - by eapply serves_spaced.
  - intros T HT. by eapply serves_rate.
Qed.

(** C15.  A request of finite cost below 2^53 tokens is eventually served when
    the clock progresses, the capacity is at least one token and statistics
    are not collected: some fuel is enough for both loops, and with any more the
    end is the same. *)
Theorem try_consume_terminates c b t :
  clock_progress -> waits b -> one64 <= dval (m_capacity b) ->
  dwf c -> dval c < 2 ^ 53 * one64 ->
  exists N b' t', waits b' /\
  forall fuel, (N <= fuel)%nat -> try_consume fuel c b t = Ok tt b' t'.
Proof.
  intros Hprog Hb Hcap Hc Hlt.
  destruct (try_consume_ends Hprog c b t Hb Hcap Hc Hlt) as (N & b' & t' & Hb' & _ & HN).
  by exists N, b', t'.
Qed.

(** Nothing is subtracted with an empty share. *)
Lemma dsub_zero x it : dwf x -> dwf it -> dval it = 0 ->
  dwf (dsub x it) /\ dval (dsub x it) = dval x.
Proof.
  intros Hx Hi Hi0. pose proof (dval_nonneg x). split; [apply dsub_range; done || lia|].
  apply dsub_exact; done || lia.
Qed.

(** A bucket without capacity makes no progress. *)
Lemma rounds_stuck fuel inner : forall left it b t, dwf left -> 0 < dval left ->
  dwf it -> dval it = 0 -> well_formed b -> dval (m_capacity b) = 0 ->
  consume_rounds fuel inner left it b t = Crash OutOfFuel.
Proof.
  induction fuel as [|fuel IH]; intros left it b t Hl Hl0 Hi Hi0 Hwf Hc; [done|].
  assert (Hwf' := Hwf). destruct Hwf' as (Hcap & Htok & Hct).
  cbn [consume_rounds]. rewrite dgt_val by (done || apply dwf_d0).
  destruct d0_val as [_ ->]. rewrite (proj2 (Z.ltb_lt 0 _)) by done.
  destruct inner as [|inner]; [done|].
  assert (H0 : consume_operation (S inner) it b t = Ok tt (set_tokens_field (dsub (m_tokens b) it) b) t).
  { unfold consume_operation. cbn [wait_for_tokens]. unfold gets, modify, mbind, M_bind.
    rewrite dgt_val by done. rewrite (proj2 (Z.ltb_ge _ _)); [done|].
    rewrite Hi0. apply dval_nonneg. }
  erewrite bind_Ok by exact H0. unfold gets, mbind, M_bind. cbn [m_capacity set_tokens_field].
  destruct (dsub_zero left it Hl Hi Hi0) as [Hd1 Hd2], (dsub_zero (m_tokens b) it Htok Hi Hi0) as [Hd3 Hd4].
  rewrite dlt_val by done. rewrite (proj2 (Z.ltb_ge _ _)) by lia.
  apply IH; [done|lia|done|done| |done]. split_and!; simpl; done || lia.
Qed.

(** A rate limiter without capacity (rate 0, or a refill period of 0)
    never serves a request that costs tokens: the rounds of [try_consume]
    subtract nothing from what is left, whatever the fuel. *)
Theorem no_capacity_never_serves fuel c b t :
  well_formed b -> dval (m_capacity b) = 0 -> dwf c -> 0 < dval c ->
  try_consume fuel c b t = Crash OutOfFuel.
Proof.
  intros Hwf Hc Hcw H0. unfold try_consume, gets, mbind, M_bind.
  rewrite dgt_val by (done || apply Hwf). rewrite (proj2 (Z.ltb_lt _ _)) by lia.
  apply rounds_stuck; try done. apply Hwf.
Qed.

End Theorems.

(** A clock that ticks a hundred milliseconds each reading, up to a horizon, and
    one that ticks a microsecond. *)
Definition bounded_clock : SystemClock := fun n => Z.min (Z.of_nat n * 100000) (2 ^ 61).
Definition ticking_clock : SystemClock := fun n => Z.of_nat n.

(** A bucket of ten tokens each second. *)
Definition sample_bucket : TokenBucket.t :=
  TokenBucket.mk (to_double 10) (to_double 10) 1000000 1000000 0 false TBStats.default 5000000.

Lemma tokens_within_capacity_witness :
  keeps TokenBucket.well_formed
    (@TokenBucket.try_consume ticking_clock 20 (to_double 7) sample_bucket 0%nat).
Proof.
  apply (@tokens_within_capacity ticking_clock 20 (to_double 7) sample_bucket 0%nat).
  - vm_compute. reflexivity.
  - vm_compute. intuition discriminate.
Defined.

Lemma rate_is_limited_witness : exists instants a',
  TokenBucket.serves (TokenBucket.mkAbstract 10 10 1000000 1000000) 25 instants a' /\
  25 + TokenBucket.a_tokens a' <= 10 + 10 * Z.of_nat (length instants) /\
  TokenBucket.spaced 1000000 1000000 instants /\
  1000000 * (25 - 10) <= 10 * Z.max 0 (2000000 + 1000000 - 1000000).
Proof.
  destruct (@rate_is_limited bounded_clock 40 [7; 18] sample_bucket
    (TokenBucket.mkAbstract 10 10 1000000 1000000) 0%nat
    (match @TokenBucket.consume_all bounded_clock 40 [7; 18] sample_bucket 0%nat with
     | Ok _ b' _ => b' | _ => sample_bucket end) 21%nat) as (instants & a' & Hs & _ & Hb & Hsp & HT).
  - intros n. unfold clock_at, bounded_clock. lia.
  - repeat constructor; lia.
  - vm_compute. intuition discriminate.
  - vm_compute. reflexivity.
  - exists instants, a'. split; [exact Hs|]. split; [exact Hb|]. split; [exact Hsp|].
    apply HT. intros i Hi. unfold clock_at, bounded_clock. lia.
Defined.

Lemma try_consume_terminates_witness : exists N b' t', waits b' /\
  forall fuel, (N <= fuel)%nat ->
    @TokenBucket.try_consume ticking_clock fuel (to_double 25) sample_bucket 0%nat = Ok tt b' t'.
Proof.
  apply (@try_consume_terminates ticking_clock (to_double 25) sample_bucket 0%nat).
  - intros instant. exists (Z.to_nat instant). intros m Hm. unfold clock_at, ticking_clock. lia.
  - vm_compute. intuition discriminate.
  - vm_compute. intuition discriminate.
  - vm_compute. reflexivity.
  - vm_compute. reflexivity.
Defined.

Lemma no_capacity_never_serves_witness :
  @TokenBucket.try_consume ticking_clock 1000 (to_double 1)
    (TokenBucket.set_token_count (to_double 0) (TokenBucket.set_capacity (to_double 0) sample_bucket)) 0%nat
  = Crash OutOfFuel.
Proof.
  apply (@no_capacity_never_serves ticking_clock 1000 (to_double 1)
    (TokenBucket.set_token_count (to_double 0) (TokenBucket.set_capacity (to_double 0) sample_bucket))
    0%nat).
  - vm_compute. intuition discriminate.
  - vm_compute. reflexivity.
  - vm_compute. reflexivity.
  - vm_compute. reflexivity.
Defined.
