(* ===== verification/ThreadedBucket.v ===== *)
(** * The token bucket with a refill thread

    [TokenBucketThreaded] ([token_bucket_threaded.cpp]) leaves the refills to a
    thread that sleeps for a period, fills the bucket and notifies; a consumer
    without enough tokens waits on the condition variable.  The operations are
    given first, then a system of consumers and of the refill thread: an event is
    a critical section of [m_refill_mutex], or accesses that take no lock.  The
    theorems bound what consumers get by the refills, whatever the interleaving,
    and say when a consumer that waits is served. *)

From stdpp Require Import fin_maps.
From S2P Require Import Prelude MachineInt Binary64 TokenBucketStats.

Module TokenBucketThreaded.

Record t := mk {
  m_capacity : double;
  m_tokens : double;
  m_refill_period : Z;                  (* long, microseconds *)
  m_last_refill_period : Z;             (* uint64_t *)
  m_interrupted : bool;                 (* atomic<bool> *)
  m_collect_statistics : bool;          (* atomic<bool> *)
  m_token_bucket_statistics : TBStats.t;
  m_sliding_window_statistics : Z;      (* uint64_t *)
}.

Definition set_capacity_field (x : double) (b : t) : t :=
  mk x (m_tokens b) (m_refill_period b) (m_last_refill_period b) (m_interrupted b)
    (m_collect_statistics b) (m_token_bucket_statistics b) (m_sliding_window_statistics b).
Definition set_tokens_field (x : double) (b : t) : t :=
  mk (m_capacity b) x (m_refill_period b) (m_last_refill_period b) (m_interrupted b)
    (m_collect_statistics b) (m_token_bucket_statistics b) (m_sliding_window_statistics b).
Definition set_refill_period (period : Z) (b : t) : t :=
  mk (m_capacity b) (m_tokens b) period (m_last_refill_period b) (m_interrupted b)
    (m_collect_statistics b) (m_token_bucket_statistics b) (m_sliding_window_statistics b).
Definition set_last (x : Z) (b : t) : t :=
  mk (m_capacity b) (m_tokens b) (m_refill_period b) x (m_interrupted b)
    (m_collect_statistics b) (m_token_bucket_statistics b) (m_sliding_window_statistics b).
Definition set_interrupted (value : bool) (b : t) : t :=
  mk (m_capacity b) (m_tokens b) (m_refill_period b) (m_last_refill_period b) value
    (m_collect_statistics b) (m_token_bucket_statistics b) (m_sliding_window_statistics b).
Definition set_statistic_collection (collect : bool) (b : t) : t :=
  mk (m_capacity b) (m_tokens b) (m_refill_period b) (m_last_refill_period b) (m_interrupted b)
    collect (m_token_bucket_statistics b) (m_sliding_window_statistics b).
Definition set_stats (x : TBStats.t) (b : t) : t :=
  mk (m_capacity b) (m_tokens b) (m_refill_period b) (m_last_refill_period b) (m_interrupted b)
    (m_collect_statistics b) x (m_sliding_window_statistics b).

Definition normalize_tokens (throughput : double) (b : t) : double :=
  dmul throughput (ddiv (ddiv (to_double (m_refill_period b)) (to_double 1000)) (to_double 1000)).

Definition set_capacity (capacity : double) (b : t) : t :=
  set_capacity_field (normalize_tokens capacity b) b.

Definition set_token_count (tokens : double) (b : t) : t :=
  set_tokens_field (normalize_tokens tokens b) b.

Definition get_capacity (b : t) : double := m_capacity b.
Definition get_token_count (b : t) : double := m_tokens b.
Definition get_refill_period (b : t) : Z := m_refill_period b.
Definition is_statistic_collection_enabled (b : t) : bool := m_collect_statistics b.
Definition get_interrupted (b : t) : bool := m_interrupted b.

Definition convert_seconds_to_microseconds (value : Z) : Z := value * 1000 * 1000.
Definition convert_microseconds_to_seconds (value : Z) : Z := Z.quot (Z.quot value 1000) 1000.

(** The copy is not interrupted, whatever the bucket copied is. *)
Definition copy (bucket : t) : t :=
  mk (m_capacity bucket) (m_tokens bucket) (m_refill_period bucket) (m_last_refill_period bucket)
    false (m_collect_statistics bucket) (m_token_bucket_statistics bucket)
    (m_sliding_window_statistics bucket).

Section Clock.
Context `{SystemClock}.

(** The constructors; [m_last_refill_period] is initialized by a reading of the
    clock. *)
Definition make (capacity tokens : double) (refill_period : Z) (collect_statistics : bool)
    (sliding_window : Z) {S} : M S t :=
  last ← now;
  mret (mk capacity tokens refill_period (u64 last) false collect_statistics TBStats.default
          sliding_window).

Definition make_collecting (collect_statistics : bool) (sliding_window : Z) {S} : M S t :=
  make (to_double 50000) (to_double 50000) 10000 collect_statistics sliding_window.

(** [drl_option_collect_statistics] is false. *)
Definition default {S} : M S t := make_collecting false 5000000.

Definition set_last_refill_period : M t unit :=
  time ← now;
  modify (set_last (u64 time)).

Definition refill_operation : M t unit :=
  _ ← modify (fun b => set_tokens_field (m_capacity b) b);
  collect ← gets m_collect_statistics;
  if collect : bool then set_last_refill_period else mret tt.

Definition record_out_of_tokens_stat (out_of_tokens_time : Z) : M t unit :=
  b ← gets id;
  let approximate_next_refill_period := u64 (m_last_refill_period b + m_refill_period b) in
  let normalized_empty_factor :=
    fdiv (to_float (u64 (out_of_tokens_time - m_last_refill_period b)))
         (to_float (u64 (approximate_next_refill_period - m_last_refill_period b))) in
  zoom m_token_bucket_statistics set_stats
    (if SFleb normalized_empty_factor (to_float 1)
     then TBStats.store_stats_entry normalized_empty_factor (m_tokens b)
     else TBStats.store_stats_entry (to_float 1) (m_tokens b)).

Definition run_garbage_collector : M t unit :=
  time ← now;
  window ← gets m_sliding_window_statistics;
  _ ← zoom m_token_bucket_statistics set_stats (TBStats.garbage_collection (u64 time) window);
  mret tt.

Definition try_collect_statistics (statistics_raw : ObjectStatisticsRaw) :
    M t (Z * ObjectStatisticsRaw) :=
  _ ← run_garbage_collector;
  zoom m_token_bucket_statistics set_stats (TBStats.collect_stats statistics_raw).

End Clock.

(** ** The system: consumers and the refill thread *)

(** Where a consumer is in [try_consume]: about to take the lock of
    [consume_operation], waiting on the condition variable (notified or not), or
    after a round, about to read the capacity.  [rest] is [tokens_left] in the
    rounds of a request that is larger than the capacity. *)
Inductive phase :=
| Consuming (consume_tokens : double) (rest : option double)
| Waiting (consume_tokens : double) (rest : option double) (notified : bool)
| Between (tokens_left iteration_tokens : double).

(** The refill thread: not started, at the test of its loop, asleep, ended. *)
Inductive refill_thread := not_spawned | testing | sleeping | ended.

Record system := mkSystem {
  bucket : t;
  consumers : gmap nat phase;
  refiller : refill_thread;
  started : list (nat * double);        (* the requests so far *)
  served : list (nat * double);         (* what was subtracted, for whom *)
  refills : nat;
}.

Definition initial (b : t) : system := mkSystem b ∅ not_spawned [] [] 0.

Definition set_bucket (b : t) (s : system) : system :=
  mkSystem b (consumers s) (refiller s) (started s) (served s) (refills s).
Definition set_consumers (m : gmap nat phase) (s : system) : system :=
  mkSystem (bucket s) m (refiller s) (started s) (served s) (refills s).
Definition set_refiller (r : refill_thread) (s : system) : system :=
  mkSystem (bucket s) (consumers s) r (started s) (served s) (refills s).

Definition on_bucket {A} (m : M t A) : M system A := zoom bucket set_bucket m.

Definition place (c : nat) (p : phase) (s : system) : system :=
  set_consumers (<[c := p]> (consumers s)) s.
Definition leave (c : nat) (s : system) : system := set_consumers (delete c (consumers s)) s.

(** [notify_all]. *)
Definition notify (p : phase) : phase :=
  match p with Waiting x rest _ => Waiting x rest true | _ => p end.

Inductive event :=
| StartConsume (c : nat) (consume_tokens : double) (* try_consume, up to its first round *)
| EnterConsume (c : nat)                (* consume_operation, up to the wait *)
| ReturnWait (c : nat) (timeout : bool) (* wait_for returns with its status *)
| NextRound (c : nat)                   (* the rest of a round *)
| SpuriousWake (c : nat)
| Spawn                                 (* operator() in its thread *)
| TestInterrupted                       (* the condition of the loop of the thread *)
| RefillTokens                          (* its body, after the sleep *)
| SetInterrupted (value : bool)
| SetCapacity (capacity : double)
| SetTokenCount (tokens : double)
| SetRefillPeriod (period : Z)
| SetStatisticCollection (collect : bool)
| CollectStatistics (statistics_raw : ObjectStatisticsRaw).

(** The event cannot happen in this state. *)
Definition blocked {A} : M system A := crash_with (Deadlock "event not enabled").

Section Events.
Context `{SystemClock}.

(** [while (tokens_left > 0)] *)
Definition round (c : nat) (tokens_left iteration_tokens : double) : M system unit :=
  if dgt tokens_left d0
  then modify (place c (Consuming iteration_tokens (Some tokens_left)))
  else modify (leave c).

(** After the loop of [consume_operation]. *)
Definition take (c : nat) (consume_tokens : double) (rest : option double) : M system unit :=
  _ ← modify (fun s =>
        let b := bucket s in
        mkSystem (set_tokens_field (dsub (m_tokens b) consume_tokens) b) (consumers s) (refiller s)
          (started s) (served s ++ [(c, consume_tokens)]) (refills s));
  match rest with
  | None => modify (leave c)
  | Some tokens_left => modify (place c (Between tokens_left consume_tokens))
  end.

(** The condition of the loop of [consume_operation], and its body up to the wait. *)
Definition consume_operation (c : nat) (consume_tokens : double) (rest : option double) :
    M system unit :=
  s ← gets id;
  if dgt consume_tokens (m_tokens (bucket s)) then
    _ ← (if m_collect_statistics (bucket s) then
           time ← now;
           on_bucket (record_out_of_tokens_stat (u64 time))
         else mret tt);
    modify (place c (Waiting consume_tokens rest false))
  else take c consume_tokens rest.

Definition exec (e : event) : M system unit :=
  s ← gets id;
  match e with
  | StartConsume c consume_tokens =>
      match consumers s !! c with
      | Some _ => blocked
      | None =>
          _ ← modify (fun s => mkSystem (bucket s) (consumers s) (refiller s)
                (started s ++ [(c, consume_tokens)]) (served s) (refills s));
          if dgt consume_tokens (m_capacity (bucket s))
          then round c consume_tokens (m_capacity (bucket s))
          else modify (place c (Consuming consume_tokens None))
      end
  | EnterConsume c =>
      match consumers s !! c with
      | Some (Consuming x rest) => consume_operation c x rest
      | _ => blocked
      end
  | ReturnWait c timeout =>
      match consumers s !! c with
      | Some (Waiting x rest notified) =>
          if timeout || notified then
            if timeout && m_interrupted (bucket s) then take c x rest
            else consume_operation c x rest
          else blocked
      | _ => blocked
      end
  | NextRound c =>
      match consumers s !! c with
      | Some (Between tokens_left iteration_tokens) =>
          let tokens_left := dsub tokens_left iteration_tokens in
          round c tokens_left
            (if dlt tokens_left (m_capacity (bucket s)) then tokens_left else iteration_tokens)
      | _ => blocked
      end
  | SpuriousWake c =>
      match consumers s !! c with
      | Some (Waiting x rest _) => modify (place c (Waiting x rest true))
      | _ => blocked
      end
  | Spawn =>
      match refiller s with not_spawned => modify (set_refiller testing) | _ => blocked end
  | TestInterrupted =>
      match refiller s with
      | testing => modify (set_refiller (if m_interrupted (bucket s) then ended else sleeping))
      | _ => blocked
      end
  | RefillTokens =>
      match refiller s with
      | sleeping =>
          _ ← on_bucket refill_operation;
          modify (fun s => mkSystem (bucket s) (notify <$> consumers s) testing (started s) (served s)
                             (Datatypes.S (refills s)))
      | _ => blocked
      end
  | SetInterrupted value => on_bucket (modify (set_interrupted value))
  | SetCapacity capacity => on_bucket (modify (set_capacity capacity))
  | SetTokenCount tokens => on_bucket (modify (set_token_count tokens))
  | SetRefillPeriod period => on_bucket (modify (set_refill_period period))
  | SetStatisticCollection collect => on_bucket (modify (set_statistic_collection collect))
  | CollectStatistics raw => _ ← on_bucket (try_collect_statistics raw); mret tt
  end.

Fixpoint exec_all (events : list event) : M system unit :=
  match events with
  | [] => mret tt
  | e :: events => _ ← exec e; exec_all events
  end.

End Events.

End TokenBucketThreaded.

(** ** Accounts *)

Section Accounts.
Context `{SystemClock}.
Import TokenBucketThreaded.

(** The integer a double holds. *)
Definition tokens_of (x : double) : Z := dval x / one64.

Definition total (log : list (nat * double)) : Z := foldr (fun e z => tokens_of e.2 + z) 0 log.

Definition total_of (c : nat) (log : list (nat * double)) : Z := total (filter (fun e => e.1 = c) log).

(** What a consumer has still to get. *)
Definition owed (p : phase) : Z :=
  match p with
  | Consuming x None | Waiting x None _ => tokens_of x
  | Consuming _ (Some l) | Waiting _ (Some l) _ => tokens_of l
  | Between l x => tokens_of l - tokens_of x
  end.

Definition owed_at (c : nat) (s : system) : Z :=
  match consumers s !! c with Some p => owed p | None => 0 end.

(** Integers, with rounds of the capacity and a last one of what is left. *)
Definition share (C : Z) (x : double) (rest : option double) : Prop :=
  exists i, holds x i /\ i <= C /\
  match rest with
  | None => True
  | Some l => exists z, holds l z /\ 0 < z /\ i = Z.min z C
  end.

Definition phase_ok (C : Z) (p : phase) : Prop :=
  match p with
  | Consuming x rest | Waiting x rest _ => share C x rest
  | Between l x => share C x (Some l)
  end.

(** Requests of whole tokens; the capacity and the tokens are not set, and the
    system is not interrupted. *)
Definition undisturbed (e : event) : Prop :=
  match e with
  | StartConsume _ x => exists i, holds x i
  | SetInterrupted value => value = false
  | SetCapacity _ | SetTokenCount _ => False
  | _ => True
  end.

(** The accounts of a system that began with [T] of [C] tokens. *)
Record accounted (C T : Z) (s : system) : Prop := {
  capacity_held : holds (m_capacity (bucket s)) C;
  tokens_held : exists k, holds (m_tokens (bucket s)) k /\ k <= C /\
    total (served s) + k <= T + C * Z.of_nat (refills s);
  not_interrupted : m_interrupted (bucket s) = false;
  phases_ok : map_Forall (fun _ p => phase_ok C p) (consumers s);
  consumers_settled : forall c, total_of c (served s) + owed_at c s = total_of c (started s);
}.

Lemma tokens_of_holds x z : holds x z -> tokens_of x = z.
Proof. intros (_ & Hx & _). unfold tokens_of. rewrite Hx. apply Z.div_mul. pose proof one64_pos. lia. Qed.

Lemma total_app l l' : total (l ++ l') = total l + total l'.
Proof. induction l as [|e l IH]; [done|]. simpl. rewrite IH. lia. Qed.

Lemma total_of_snoc c l c' x :
  total_of c (l ++ [(c', x)]) = total_of c l + (if decide (c' = c) then tokens_of x else 0).
Proof.
  unfold total_of. rewrite list.filter_app, total_app. f_equal.
  destruct (decide (c' = c)); [rewrite filter_cons_True by done|rewrite filter_cons_False by done];
    rewrite filter_nil; simpl; lia.
Qed.

Lemma owed_at_place c c' p s :
  owed_at c (place c' p s) = if decide (c' = c) then owed p else owed_at c s.
Proof.
  unfold owed_at, place. simpl. destruct (decide (c' = c)) as [<-|Hne];
    [by rewrite lookup_insert_eq|by rewrite lookup_insert_ne].
Qed.

Lemma owed_at_leave c c' s : owed_at c (leave c' s) = if decide (c' = c) then 0 else owed_at c s.
Proof.
  unfold owed_at, leave. simpl. destruct (decide (c' = c)) as [<-|Hne];
    [by rewrite lookup_delete_eq|by rewrite lookup_delete_ne].
Qed.

(** Changes that the accounts do not see. *)
Lemma frame_accounted C T s b r : accounted C T s ->
  m_capacity b = m_capacity (bucket s) -> m_tokens b = m_tokens (bucket s) ->
  m_interrupted b = m_interrupted (bucket s) ->
  accounted C T (mkSystem b (consumers s) r (started s) (served s) (refills s)).
Proof. intros [] Hc Ht Hi. split; simpl; rewrite ?Hc, ?Ht, ?Hi; done. Qed.

(** A consumer moves, and is owed the same. *)
Lemma place_accounted C T c p s : accounted C T s -> owed p = owed_at c s -> phase_ok C p ->
  accounted C T (place c p s).
Proof.
  intros [Hc Ht Hi Hp Hs] Ho Hok. split; [done..| |].
  - by apply map_Forall_insert_2.
  - intros c'. rewrite owed_at_place. specialize (Hs c'). simpl.
    destruct (decide (c = c')) as [<-|]; lia.
Qed.

Lemma leave_accounted C T c s : accounted C T s -> owed_at c s = 0 -> accounted C T (leave c s).
Proof.
  intros [Hc Ht Hi Hp Hs] Ho. split; [done..| |].
  - by apply map_Forall_delete.
  - intros c'. rewrite owed_at_leave. specialize (Hs c'). simpl.
    destruct (decide (c = c')) as [<-|]; lia.
Qed.

(** What a phase in [consume_operation] owes. *)
Definition due (x : double) (rest : option double) : Z :=
  match rest with None => tokens_of x | Some l => tokens_of l end.

Lemma round_accounted C T c l x z i s n s' n' : accounted C T s -> owed_at c s = z ->
  holds l z -> holds x i -> i = Z.min z C ->
  round c l x s n = Ok tt s' n' -> accounted C T s'.
Proof.
  intros Ha Ho Hl Hx Hmin. unfold round. rewrite (holds_dgt _ _ _ _ Hl holds_d0).
  destruct (Z.ltb_spec 0 z) as [Hpos|Hz]; intros [= <- <-].
  - apply place_accounted; [done| |].
    + simpl. by rewrite (tokens_of_holds _ _ Hl).
    + exists i. split_and!; [done|lia|]. by exists z.
  - apply leave_accounted; [done|]. destruct Hl as (_ & _ & ?). lia.
Qed.

Lemma take_accounted C T c x rest s n s' n' : accounted C T s -> owed_at c s = due x rest ->
  share C x rest -> dgt x (m_tokens (bucket s)) = false ->
  take c x rest s n = Ok tt s' n' -> accounted C T s'.
Proof.
  intros [Hcap (k & Hk & HkC & Hsum) Hint Hph Hset] Ho (i & Hi & HiC & Hrest) Hd.
  rewrite (holds_dgt _ _ _ _ Hi Hk) in Hd. bools. unfold take. rewrite modify_bind. simpl.
  set (s1 := mkSystem _ _ _ _ _ _).
  assert (Htot : forall c', total_of c' (served s1) =
    total_of c' (served s) + (if decide (c = c') then i else 0)).
  { intros c'. simpl. by rewrite total_of_snoc, (tokens_of_holds _ _ Hi). }
  assert (Hs1 : exists k', holds (m_tokens (bucket s1)) k' /\ k' <= C /\
    total (served s1) + k' <= T + C * Z.of_nat (refills s1)).
  { exists (k - i). split; [by apply holds_dsub|]. pose proof Hi as (_ & _ & ?).
    simpl. rewrite total_app. simpl. rewrite (tokens_of_holds _ _ Hi). lia. }
  destruct rest as [l|]; intros [= <- <-]; split; try done; simpl.
  - apply map_Forall_insert_2; [|done]. by exists i.
  - intros c'. rewrite owed_at_place, Htot. specialize (Hset c').
    destruct Hrest as (z & Hz & _). simpl in Ho |- *.
    rewrite (tokens_of_holds _ _ Hz) in *. rewrite (tokens_of_holds _ _ Hi).
    change (owed_at c' s1) with (owed_at c' s). case_decide; [subst|]; lia.
  - by apply map_Forall_delete.
  - intros c'. rewrite owed_at_leave, Htot. specialize (Hset c'). simpl in Ho.
    rewrite (tokens_of_holds _ _ Hi) in Ho.
    change (owed_at c' s1) with (owed_at c' s). case_decide; [subst|]; lia.
Qed.

(** Recording and collecting statistics leave the rest of the bucket. *)
Lemma bucket_record_frame time s n u s' n' : on_bucket (record_out_of_tokens_stat time) s n = Ok u s' n' ->
  exists st, s' = set_bucket (set_stats st (bucket s)) s.
Proof.
  intros (b & Hr & ->)%zoom_Ok_inv. unfold record_out_of_tokens_stat in Hr.
  rewrite gets_bind in Hr. apply zoom_Ok_inv in Hr as (st & _ & ->). by exists st.
Qed.

Lemma bucket_collect_frame raw s n a s' n' : on_bucket (try_collect_statistics raw) s n = Ok a s' n' ->
  exists st, s' = set_bucket (set_stats st (bucket s)) s.
Proof.
  intros (b & Hr & ->)%zoom_Ok_inv. unfold try_collect_statistics, run_garbage_collector in Hr.
  apply bind_Ok_inv in Hr as (u & b1 & n1 & Hg & (st & _ & ->)%zoom_Ok_inv).
  apply bind_Ok_inv in Hg as (time & b0 & n0 & [= <- <- <-] & Hg). rewrite gets_bind in Hg.
  apply bind_Ok_inv in Hg as (d & b2 & n2 & (st0 & _ & ->)%zoom_Ok_inv & Hg).
  injection Hg as <- <- <-. by exists st.
Qed.

(** A bucket with the fields that the accounts see. *)
Definition same_tokens (b b' : t) : Prop :=
  m_capacity b' = m_capacity b /\ m_tokens b' = m_tokens b /\ m_interrupted b' = m_interrupted b.

Lemma enter_run c x rest s n s' n' : consume_operation c x rest s n = Ok tt s' n' ->
  (dgt x (m_tokens (bucket s)) = false /\ take c x rest s n = Ok tt s' n') \/
  (dgt x (m_tokens (bucket s)) = true /\ exists b, same_tokens (bucket s) b /\
     s' = place c (Waiting x rest false) (set_bucket b s)).
Proof.
  unfold consume_operation. rewrite gets_bind. cbn [Datatypes.id].
  destruct (dgt x (m_tokens (bucket s))); [|by left].
  intros (u & s1 & n1 & Hr & [= <- <-])%bind_Ok_inv. right. split; [done|].
  destruct (m_collect_statistics (bucket s)).
  - apply bind_Ok_inv in Hr as (time & s0 & n0 & [= <- <- <-] & [st ->]%bucket_record_frame).
    exists (set_stats st (bucket s)). by split.
  - injection Hr as <- <- <-. exists (bucket s). split; [done|]. by destruct s.
Qed.

Lemma enter_accounted C T c x rest s n s' n' : accounted C T s -> owed_at c s = due x rest ->
  share C x rest -> consume_operation c x rest s n = Ok tt s' n' -> accounted C T s'.
Proof.
  intros Ha Ho Hs [[Hd Ht]|(_ & b & (Hc & Ht & Hi) & ->)]%enter_run.
  - by eapply take_accounted.
  - apply place_accounted; [by apply (frame_accounted C T s b (refiller s))| |done].
    change (owed_at c (set_bucket b s)) with (owed_at c s). rewrite Ho. by destruct rest.
Qed.

Lemma start_accounted C T c x s n s' n' : accounted C T s -> (exists i, holds x i) ->
  exec (StartConsume c x) s n = Ok tt s' n' -> accounted C T s'.
Proof.
  intros Ha [i Hx]. unfold exec. rewrite gets_bind. cbn [Datatypes.id].
  destruct (consumers s !! c) eqn:Hc; [done|]. rewrite modify_bind.
  pose proof (capacity_held _ _ _ Ha) as Hcap. rewrite (holds_dgt _ _ _ _ Hx Hcap).
  set (s1 := mkSystem _ _ _ (started s ++ _) _ _).
  (* the request is on the account, owed *)
  assert (Hnew : forall p, owed p = i -> phase_ok C p -> accounted C T (place c p s1)).
  { intros p Ho Hp. destruct Ha as [_ Ht Hi Hph Hset]. split; simpl; [done..| |].
    - by apply map_Forall_insert_2.
    - intros c'. rewrite owed_at_place, total_of_snoc, (tokens_of_holds _ _ Hx). specialize (Hset c').
      change (owed_at c' s1) with (owed_at c' s). destruct (decide (c = c')) as [<-|]; [|lia].
      unfold owed_at in Hset. rewrite Hc in Hset. lia. }
  destruct (Z.ltb_spec C i) as [Hlt|Hge].
  - unfold round. rewrite (holds_dgt _ _ _ _ Hx holds_d0). pose proof Hcap as (_ & _ & HC).
    rewrite (proj2 (Z.ltb_lt 0 i)) by lia. intros [= <- <-]. apply Hnew; [by apply tokens_of_holds|].
    exists C. split_and!; [done|lia|]. exists i. split_and!; [done|lia..].
  - intros [= <- <-]. apply Hnew; [by apply tokens_of_holds|]. by exists i.
Qed.

Lemma next_accounted C T c s n s' n' : accounted C T s ->
  exec (NextRound c) s n = Ok tt s' n' -> accounted C T s'.
Proof.
  intros Ha. unfold exec. rewrite gets_bind. cbn [Datatypes.id].
  destruct (consumers s !! c) as [[| |l x]|] eqn:Hc; [done|done| |done].
  pose proof (capacity_held _ _ _ Ha) as Hcap.
  destruct (phases_ok _ _ _ Ha c _ Hc) as (i & Hx & HiC & z & Hl & Hz & Hi).
  pose proof Hx as (_ & _ & ?). pose proof (holds_dsub _ _ _ _ Hl Hx ltac:(lia)) as Hl'.
  assert (Ho : owed_at c s = z - i).
  { unfold owed_at. rewrite Hc. simpl. by rewrite (tokens_of_holds _ _ Hl), (tokens_of_holds _ _ Hx). }
  rewrite (holds_dlt _ _ _ _ Hl' Hcap). destruct (Z.ltb_spec (z - i) C).
  - apply (round_accounted _ _ _ _ _ (z - i) (z - i)); [done..|lia].
  - apply (round_accounted _ _ _ _ _ (z - i) i); [done..|lia].
Qed.

Lemma refill_run b n u b' n' : refill_operation b n = Ok u b' n' ->
  m_capacity b' = m_capacity b /\ m_tokens b' = m_capacity b /\ m_interrupted b' = m_interrupted b.
Proof.
  unfold refill_operation. rewrite modify_bind, gets_bind. intros Hb.
  destruct (m_collect_statistics _); [|by injection Hb as <- <- <-].
  unfold set_last_refill_period in Hb. run_inv Hb. by injection Hrun as <- <- <-.
Qed.

Lemma notify_accounted C T s r : accounted C T s -> refills s = r ->
  accounted C T (mkSystem (set_tokens_field (m_capacity (bucket s)) (bucket s))
    (notify <$> consumers s) testing (started s) (served s) (Datatypes.S r)).
Proof.
  intros [Hc (k & Hk & HkC & Hsum) Hi Hp Hs] <-. split; simpl; [done| |done| |].
  - exists C. split; [done|]. pose proof Hk as (_ & _ & ?). split; lia.
  - intros c p (p' & <- & Hc')%lookup_fmap_Some. apply Hp in Hc'. by destruct p'.
  - intros c. specialize (Hs c). unfold owed_at in *. simpl. rewrite lookup_fmap.
    destruct (consumers s !! c) as [p|]; simpl; [|done]. by destruct p.
Qed.

Lemma exec_accounted C T e s n s' n' : accounted C T s -> undisturbed e ->
  exec e s n = Ok tt s' n' -> accounted C T s'.
Proof.
  intros Ha He. destruct e as [c x|c|c timeout|c|c| | | |v|v|v|p|b|raw];
    [by apply start_accounted| | |by apply next_accounted|..]; unfold exec; rewrite gets_bind;
    cbn [Datatypes.id]; [| | | | | |simpl in He; subst|done|done|..].
  - destruct (consumers s !! c) as [[x rest| |]|] eqn:Hc; [|done..].
    pose proof (phases_ok _ _ _ Ha c _ Hc) as Hp. apply enter_accounted; [done| |done].
    unfold owed_at. by rewrite Hc.
  - destruct (consumers s !! c) as [[|x rest b|]|] eqn:Hc; [done| |done..].
    destruct (timeout || b); [|done]. rewrite (not_interrupted _ _ _ Ha), andb_false_r.
    pose proof (phases_ok _ _ _ Ha c _ Hc) as Hp. apply enter_accounted; [done| |done].
    unfold owed_at. by rewrite Hc.
  - destruct (consumers s !! c) as [[|x rest b|]|] eqn:Hc; [done| |done..]. intros [= <- <-].
    apply place_accounted; [done| |exact (phases_ok _ _ _ Ha c _ Hc)].
    unfold owed_at. by rewrite Hc.
  - destruct (refiller s); [|done..]. intros [= <- <-].
    by apply (frame_accounted C T s (bucket s)).
  - destruct (refiller s); [done| |done..]. intros [= <- <-].
    by apply (frame_accounted C T s (bucket s)).
  - destruct (refiller s); [done|done| |done].
    intros (u & s1 & n1 & (b & Hb & ->)%zoom_Ok_inv & [= <- <-])%bind_Ok_inv. simpl.
    apply refill_run in Hb as (? & ? & ?).
    by apply (frame_accounted C T _ _ testing (notify_accounted C T s _ Ha eq_refl)).
  - intros [= <- <-]. apply (frame_accounted C T s); [done..|]. by rewrite (not_interrupted _ _ _ Ha).
  - intros [= <- <-]. by apply (frame_accounted C T s).
  - intros [= <- <-]. by apply (frame_accounted C T s).
  - intros (a & s1 & n1 & [st ->]%bucket_collect_frame & [= <- <-])%bind_Ok_inv.
    by apply (frame_accounted C T s).
Qed.

Lemma exec_all_accounted C T events : forall s n s' n', accounted C T s -> Forall undisturbed events ->
  exec_all events s n = Ok tt s' n' -> accounted C T s'.
Proof.
  induction events as [|e events IH]; intros s n s' n' Ha Hev; [by intros [= <- <-]|].
  apply Forall_cons_1 in Hev as [He Hev]. cbn [exec_all].
  intros ([] & s1 & n1 & H1 & H2)%bind_Ok_inv. eapply IH; [|done|exact H2].
  by eapply exec_accounted.
Qed.

Lemma initial_accounted C T b : holds (m_capacity b) C -> holds (m_tokens b) T -> T <= C ->
  m_interrupted b = false -> accounted C T (initial b).
Proof.
  intros HC HT Hle Hi. split; simpl; [done| |done|apply map_Forall_empty|done].
  exists T. split; [done|lia].
Qed.

End Accounts.

(** ** Consumers that wait *)

Section Waits.
Context `{SystemClock}.
Import TokenBucketThreaded.

(** Where a consumer is after it took its share. *)
Definition after (x : double) (rest : option double) : option phase :=
  match rest with None => None | Some l => Some (Between l x) end.

Lemma take_run c x rest s n : exists s', take c x rest s n = Ok tt s' n /\
  consumers s' !! c = after x rest /\ refiller s' = refiller s /\
  m_collect_statistics (bucket s') = m_collect_statistics (bucket s) /\
  m_capacity (bucket s') = m_capacity (bucket s) /\
  m_interrupted (bucket s') = m_interrupted (bucket s) /\
  served s' = served s ++ [(c, x)].
Proof.
  unfold take. rewrite modify_bind. destruct rest; eexists; split; [done| |done|]; simpl;
    (split; [apply lookup_insert_eq || apply lookup_delete_eq|done]).
Qed.

Lemma exec_app events events' s n s1 n1 s2 n2 : exec_all events s n = Ok tt s1 n1 ->
  exec_all events' s1 n1 = Ok tt s2 n2 -> exec_all (events ++ events') s n = Ok tt s2 n2.
Proof.
  revert s n. induction events as [|e events IH]; intros s n; [by intros [= <- <-]|].
  cbn [exec_all app]. intros ([] & s0 & n0 & H1 & H2)%bind_Ok_inv H3.
  erewrite bind_Ok by exact H1. by apply IH.
Qed.

(** A run of allowed events that ends in [P], with the consumer at [p]. *)
Definition reaches (allowed : event -> Prop) (P : system -> Prop) (c : nat) (p : option phase)
    (s : system) (n : nat) : Prop :=
  exists events s' n', Forall allowed events /\ exec_all events s n = Ok tt s' n' /\ P s' /\
    consumers s' !! c = p.

Lemma reaches_app allowed P P' c p p' s n : reaches allowed P c p s n ->
  (forall s' n', P s' -> consumers s' !! c = p -> reaches allowed P' c p' s' n') ->
  reaches allowed P' c p' s n.
Proof.
  intros (events & s1 & n1 & Hev & H1 & HP & Hc) Hnext.
  destruct (Hnext s1 n1 HP Hc) as (events' & s2 & n2 & Hev' & H2 & HP' & Hc').
  exists (events ++ events'), s2, n2. split; [by apply Forall_app|]. split; [|done].
  by eapply exec_app.
Qed.

Lemma reaches_step (allowed : event -> Prop) (P : system -> Prop) c p e s n s1 n1 :
  exec e s n = Ok tt s1 n1 -> allowed e -> reaches allowed P c p s1 n1 -> reaches allowed P c p s n.
Proof.
  intros He Ha (events & s2 & n2 & Hev & H2 & HP & Hc). exists (e :: events), s2, n2.
  split; [by constructor|]. split; [|done]. cbn [exec_all]. by erewrite bind_Ok by exact He.
Qed.

(** When each share can be taken, the rounds come to their end: what is owed
    decreases by the capacity. *)
Lemma rounds_complete C allowed (P : system -> Prop) c : 0 < C ->
  (forall s, P s -> holds (m_capacity (bucket s)) C) ->
  allowed (NextRound c) ->
  (forall s n s' n', P s -> exec (NextRound c) s n = Ok tt s' n' -> P s') ->
  (forall s n x rest, P s -> consumers s !! c = Some (Consuming x rest) -> share C x rest ->
     reaches allowed P c (after x rest) s n) ->
  forall k x rest s n, (Z.to_nat (due x rest) < k)%nat -> P s -> share C x rest ->
    reaches allowed P c (after x rest) s n -> reaches allowed P c None s n.
Proof.
  intros HC Hcap Hallowed Hnext Hserve. induction k as [|k IH]; intros x rest s n Hk HP Hs Hr; [lia|].
  destruct rest as [l|]; [|done].
  destruct Hs as (i & Hx & HiC & z & Hl & Hz & Hmin). cbn [due] in Hk.
  rewrite (tokens_of_holds _ _ Hl) in Hk. pose proof Hx as (_ & _ & Hi0).
  pose proof (holds_dsub _ _ _ _ Hl Hx ltac:(lia)) as Hl'.
  apply (reaches_app _ _ _ _ _ _ _ _ Hr). intros s1 n1 HP1 Hc1. cbn [after] in Hc1.
  assert (Hrun : exec (NextRound c) s1 n1 = round c (dsub l x)
    (if dlt (dsub l x) (m_capacity (bucket s1)) then dsub l x else x) s1 n1).
  { unfold exec. rewrite gets_bind. cbn [Datatypes.id]. by rewrite Hc1. }
  unfold round in Hrun. rewrite (holds_dgt _ _ _ _ Hl' holds_d0) in Hrun.
  destruct (Z.ltb_spec 0 (z - i)) as [Hpos|Hend].
  - eapply reaches_step; [exact Hrun|done|].
    set (x' := if dlt _ _ then _ else _) in *.
    assert (Hs' : share C x' (Some (dsub l x))).
    { unfold x'. rewrite (holds_dlt _ _ _ _ Hl' (Hcap _ HP1)). destruct (Z.ltb_spec (z - i) C).
      - exists (z - i). split_and!; [done|lia|]. exists (z - i). split_and!; [done|lia|lia].
      - exists i. split_and!; [done|lia|]. exists (z - i). split_and!; [done|lia|lia]. }
    pose proof (Hnext _ _ _ _ HP1 Hrun) as HP2.
    apply (IH x' (Some (dsub l x))); [|done|done|].
    + cbn [due]. rewrite (tokens_of_holds _ _ Hl'). lia.
    + apply Hserve; [done| |done]. simpl. apply lookup_insert_eq.
  - eapply reaches_step; [exact Hrun|done|]. exists [], (leave c s1), n1. split; [constructor|].
    split; [done|]. split; [by eapply Hnext|]. simpl. apply lookup_delete_eq.
Qed.

(** The thread refills the bucket, and no statistics are kept. *)
Definition refilling (C T : Z) (log : list (nat * double)) (s : system) : Prop :=
  accounted C T s /\ (refiller s = testing \/ refiller s = sleeping) /\
  m_collect_statistics (bucket s) = false /\ started s = log.

(** The events of a consumer that waits to be notified, and of the thread. *)
Definition own_or_refill (c : nat) (e : event) : Prop :=
  match e with
  | EnterConsume c' | NextRound c' => c' = c
  | ReturnWait c' timeout => c' = c /\ timeout = false
  | TestInterrupted | RefillTokens => True
  | _ => False
  end.

Lemma own_undisturbed c e : own_or_refill c e -> undisturbed e.
Proof. by destruct e. Qed.

Lemma next_run c s n s' n' : exec (NextRound c) s n = Ok tt s' n' ->
  bucket s' = bucket s /\ refiller s' = refiller s /\ started s' = started s.
Proof.
  unfold exec, round. rewrite gets_bind. cbn [Datatypes.id].
  destruct (consumers s !! c) as [[]|]; try done. destruct (dgt _ d0); by intros [= <- <-].
Qed.

(** The share is taken when the tokens are there. *)
Lemma enter_reaches C T log c x rest s n e : refilling C T log s -> share C x rest ->
  owed_at c s = due x rest -> own_or_refill c e -> dgt x (m_tokens (bucket s)) = false ->
  exec e s n = consume_operation c x rest s n ->
  reaches (own_or_refill c) (refilling C T log) c (after x rest) s n.
Proof.
  intros (Ha & Hr & Hcol & Hlog) Hs Ho Hown Hd He.
  unfold consume_operation in He. rewrite gets_bind in He. cbn [Datatypes.id] in He. rewrite Hd in He.
  destruct (take_run c x rest s n) as (s' & Ht & Hc & Hr' & Hcol' & _). pose proof Ht as Hlog'.
  rewrite Ht in He. eapply reaches_step; [exact He|done|].
  exists [], s', n. split; [constructor|]. split; [done|]. split; [|done].
  split_and!; [by eapply take_accounted|by rewrite Hr'|by rewrite Hcol'|].
  rewrite <- Hlog. unfold take in Hlog'. rewrite modify_bind in Hlog'.
  destruct rest; by injection Hlog' as <-.
Qed.

(** The next refill serves a consumer that waits. *)
Lemma waiting_reaches C T log c x rest b s n : refilling C T log s ->
  consumers s !! c = Some (Waiting x rest b) ->
  reaches (own_or_refill c) (refilling C T log) c (after x rest) s n.
Proof.
  intros HP Hc. assert (Hsleep : forall s, refilling C T log s -> refiller s = sleeping ->
    consumers s !! c = Some (Waiting x rest b) ->
    reaches (own_or_refill c) (refilling C T log) c (after x rest) s n).
  - clear s HP Hc. intros s (Ha & _ & Hcol & Hlog) Hr Hc.
    pose proof (phases_ok _ _ _ Ha c _ Hc) as Hshare.
    pose proof (capacity_held _ _ _ Ha) as Hcap.
    pose proof (notify_accounted C T s _ Ha eq_refl) as Ha'.
    eapply (reaches_step _ _ _ _ RefillTokens).
    + unfold exec. rewrite gets_bind. cbn [Datatypes.id]. rewrite Hr.
      unfold on_bucket, zoom, refill_operation, mbind, M_bind, modify, gets. simpl. rewrite Hcol. done.
    + done.
    + set (s1 := mkSystem _ _ _ _ _ _) in *. change (accounted C T s1) in Ha'.
      assert (Hc1 : consumers s1 !! c = Some (Waiting x rest true))
        by (simpl; by rewrite lookup_fmap, Hc).
      apply (enter_reaches C T log c x rest s1 n (ReturnWait c false)).
      * split_and!; [done|by left|done|done].
      * done.
      * unfold owed_at. by rewrite Hc1.
      * done.
      * destruct Hshare as (i & Hx & HiC & _). simpl. rewrite (holds_dgt _ _ _ _ Hx Hcap).
        by apply Z.ltb_ge.
      * unfold exec. rewrite gets_bind. cbn [Datatypes.id]. by rewrite Hc1.
  - destruct HP as (Ha & [Hr|Hr] & Hcol & Hlog); [|apply Hsleep; [|done..]; by split_and!; auto].
    eapply (reaches_step _ _ _ _ TestInterrupted);
      [unfold exec; rewrite gets_bind; cbn [Datatypes.id]; by rewrite Hr, (not_interrupted _ _ _ Ha)|done|].
    apply Hsleep; [|done..].
    split_and!; [by apply (frame_accounted C T s (bucket s))|by right|done|done].
Qed.

Lemma consuming_reaches C T log c x rest s n : refilling C T log s ->
  consumers s !! c = Some (Consuming x rest) ->
  reaches (own_or_refill c) (refilling C T log) c (after x rest) s n.
Proof.
  intros HP Hc. assert (HP' := HP). destruct HP' as (Ha & Hr & Hcol & Hlog).
  pose proof (phases_ok _ _ _ Ha c _ Hc) as Hshare.
  assert (Hrun : exec (EnterConsume c) s n = consume_operation c x rest s n).
  { unfold exec. rewrite gets_bind. cbn [Datatypes.id]. by rewrite Hc. }
  assert (Ho : owed_at c s = due x rest) by (unfold owed_at; rewrite Hc; done).
  destruct (dgt x (m_tokens (bucket s))) eqn:Hd.
  - assert (Hwait : exec (EnterConsume c) s n = Ok tt (place c (Waiting x rest false) s) n).
    { rewrite Hrun. unfold consume_operation. rewrite gets_bind. cbn [Datatypes.id].
      by rewrite Hd, Hcol. }
    eapply reaches_step; [exact Hwait|done|].
    apply (waiting_reaches _ _ _ _ _ _ false); [|simpl; apply lookup_insert_eq].
    split_and!; [|done..]. by eapply (exec_accounted C T (EnterConsume c)).
  - by apply (enter_reaches C T log c x rest s n (EnterConsume c)).
Qed.

(** From any phase of its request a consumer comes to its end, when each share
    can be taken. *)
Lemma request_completes C allowed (P : system -> Prop) c : 0 < C ->
  (forall s, P s -> holds (m_capacity (bucket s)) C) ->
  allowed (NextRound c) ->
  (forall s n s' n', P s -> exec (NextRound c) s n = Ok tt s' n' -> P s') ->
  (forall s n x rest, P s -> consumers s !! c = Some (Consuming x rest) -> share C x rest ->
     reaches allowed P c (after x rest) s n) ->
  (forall s n x rest b, P s -> consumers s !! c = Some (Waiting x rest b) -> share C x rest ->
     reaches allowed P c (after x rest) s n) ->
  forall s n p, P s -> consumers s !! c = Some p -> phase_ok C p -> reaches allowed P c None s n.
Proof.
  intros HC Hcap Hnr Hnext Hcons Hwait s n p HP Hp Hok.
  assert (Hgo : forall x rest, share C x rest -> reaches allowed P c (after x rest) s n ->
    reaches allowed P c None s n).
  { intros x rest Hs Hr. by apply (rounds_complete C allowed P c HC Hcap Hnr Hnext Hcons
      (S (Z.to_nat (due x rest))) x rest); [lia|..]. }
  destruct p as [x rest|x rest b|l x]; [by eapply Hgo; eauto|by eapply Hgo; eauto|].
  apply (Hgo x (Some l)); [done|]. by exists [], s, n.
Qed.

(** ** Interruption *)

(** The events of a consumer whose waits time out. *)
Definition own_timeout (c : nat) (e : event) : Prop :=
  match e with
  | EnterConsume c' | NextRound c' => c' = c
  | ReturnWait c' timeout => c' = c /\ timeout = true
  | _ => False
  end.

Definition interrupted (C : Z) (s : system) : Prop :=
  holds (m_capacity (bucket s)) C /\ m_interrupted (bucket s) = true /\
  m_collect_statistics (bucket s) = false.

Lemma timeout_reaches C c x rest b s n : interrupted C s ->
  consumers s !! c = Some (Waiting x rest b) ->
  reaches (own_timeout c) (interrupted C) c (after x rest) s n.
Proof.
  intros (Hcap & Hi & Hcol) Hc.
  destruct (take_run c x rest s n) as (s' & Ht & Hc' & _ & Hcol' & Hcap' & Hi' & _).
  eapply (reaches_step _ _ _ _ (ReturnWait c true)).
  - unfold exec. rewrite gets_bind. cbn [Datatypes.id]. rewrite Hc, Hi. exact Ht.
  - done.
  - exists [], s', n. split; [constructor|]. split; [done|]. split; [|done].
    unfold interrupted. by rewrite Hcap', Hi', Hcol'.
Qed.

Lemma enter_interrupted C c x rest s n : interrupted C s ->
  consumers s !! c = Some (Consuming x rest) ->
  reaches (own_timeout c) (interrupted C) c (after x rest) s n.
Proof.
  intros HP Hc. assert (HP' := HP). destruct HP' as (Hcap & Hi & Hcol).
  assert (Hrun : exec (EnterConsume c) s n = consume_operation c x rest s n).
  { unfold exec. rewrite gets_bind. cbn [Datatypes.id]. by rewrite Hc. }
  unfold consume_operation in Hrun. rewrite gets_bind in Hrun. cbn [Datatypes.id] in Hrun.
  destruct (dgt x (m_tokens (bucket s))).
  - rewrite Hcol in Hrun. eapply reaches_step; [exact Hrun|done|].
    apply (timeout_reaches _ _ _ _ false); [done|]. simpl. apply lookup_insert_eq.
  - destruct (take_run c x rest s n) as (s' & Ht & Hc' & _ & Hcol' & Hcap' & Hi' & _).
    rewrite Ht in Hrun. eapply reaches_step; [exact Hrun|done|]. exists [], s', n.
    split; [constructor|]. split; [done|]. split; [|done].
    unfold interrupted. by rewrite Hcap', Hi', Hcol'.
Qed.

End Waits.

(** ** A capacity below a share *)

Section Starving.
Context `{SystemClock}.
Import TokenBucketThreaded.

(** Consumer [c] waits for more than the capacity is now; the shares of the others
    fit in it. *)
Record starving (C : Z) (c : nat) (x : double) (rest : option double) (s : system) : Prop := {
  starving_capacity : holds (m_capacity (bucket s)) C;
  starving_share : exists i, holds x i /\ C < i;
  starving_tokens : exists k, holds (m_tokens (bucket s)) k /\ k <= C;
  starving_running : m_interrupted (bucket s) = false;
  starving_others : forall c' p, c' <> c -> consumers s !! c' = Some p -> phase_ok C p;
  starving_waits : consumers s !! c = Some (Consuming x rest) \/
                   exists notified, consumers s !! c = Some (Waiting x rest notified);
}.

Lemma starving_frame C c x rest s b r started' refills' : starving C c x rest s ->
  m_capacity b = m_capacity (bucket s) ->
  (exists k, holds (m_tokens b) k /\ k <= C) -> m_interrupted b = m_interrupted (bucket s) ->
  starving C c x rest (mkSystem b (consumers s) r started' (served s) refills').
Proof. intros [] Hc Ht Hi. split; simpl; rewrite ?Hc, ?Hi; done. Qed.

Lemma starving_place C c x rest c' p s : starving C c x rest s -> c' <> c -> phase_ok C p ->
  starving C c x rest (place c' p s).
Proof.
  intros [Hc Hs Ht Hi Ho Hw] Hne Hp. split; simpl; [done..| |].
  - intros c1 p1 Hc1 Hl. destruct (decide (c' = c1)) as [<-|].
    + rewrite lookup_insert_eq in Hl. by injection Hl as <-.
    + rewrite lookup_insert_ne in Hl by done. by eapply Ho.
  - by rewrite lookup_insert_ne.
Qed.

Lemma starving_leave C c x rest c' s : starving C c x rest s -> c' <> c ->
  starving C c x rest (leave c' s).
Proof.
  intros [Hc Hs Ht Hi Ho Hw] Hne. split; simpl; [done..| |].
  - intros c1 p1 Hc1 [_ Hl]%lookup_delete_Some. by eapply Ho.
  - by rewrite lookup_delete_ne.
Qed.

(** Its own turns: the tokens are fewer, and it waits again. *)
Lemma starving_self C c x rest s n s' n' : starving C c x rest s ->
  consume_operation c x rest s n = Ok tt s' n' -> starving C c x rest s' /\ served s' = served s.
Proof.
  intros Hs Hrun. assert (Hs' := Hs). destruct Hs' as [_ (i & Hx & Hlt) (k & Hk & Hle) _ _ _].
  apply enter_run in Hrun as [[Hd _]|(_ & b & (Hc & Ht & Hi) & ->)].
  - rewrite (holds_dgt _ _ _ _ Hx Hk) in Hd. apply Z.ltb_ge in Hd. lia.
  - split; [|done]. apply (starving_frame _ _ _ _ s b (refiller s) (started s) (refills s)) in Hs;
      [|done|by rewrite Ht; exists k|done].
    destruct Hs as [Hcap Hsh Htok Hint Ho _]. split; simpl; [done..| |].
    + intros c1 p1 Hne. rewrite lookup_insert_ne by done. by apply Ho.
    + right. exists false. apply lookup_insert_eq.
Qed.

Lemma starving_take C c x rest c' y rest' s n s' n' : starving C c x rest s -> c' <> c ->
  share C y rest' -> dgt y (m_tokens (bucket s)) = false -> take c' y rest' s n = Ok tt s' n' ->
  starving C c x rest s' /\ served s' = served s ++ [(c', y)].
Proof.
  intros Hs Hne Hsh Hd. unfold take. rewrite modify_bind. set (s1 := mkSystem _ _ _ _ _ _).
  assert (Hs1 : starving C c x rest s1).
  { destruct Hs as [Hcap Hx (k & Hk & Hle) Hi Ho Hw]. destruct Hsh as (i & Hy & _).
    rewrite (holds_dgt _ _ _ _ Hy Hk) in Hd. bools. split; simpl; [done..| |done|done|done].
    exists (k - i). split; [by apply holds_dsub|]. destruct Hy as (_ & _ & ?). lia. }
  destruct rest' as [l|]; intros [= <- <-]; (split; [|done]).
  - by apply starving_place.
  - by apply starving_leave.
Qed.

Lemma starving_enter C c x rest c' y rest' s n s' n' : starving C c x rest s -> c' <> c ->
  share C y rest' -> consume_operation c' y rest' s n = Ok tt s' n' ->
  starving C c x rest s' /\ (served s' = served s \/ served s' = served s ++ [(c', y)]).
Proof.
  intros Hs Hne Hsh [[Hd Ht]|(_ & b & (Hc & Ht & Hi) & ->)]%enter_run.
  - destruct (starving_take _ _ _ _ _ _ _ _ _ _ _ Hs Hne Hsh Hd Ht). auto.
  - split; [|by left]. apply starving_place; [|done|done].
    apply (starving_frame _ _ _ _ s b (refiller s) (started s) (refills s)); [done..| |done].
    rewrite Ht. by destruct Hs.
Qed.

Lemma starving_round C c x rest c' l y z i s n s' n' : starving C c x rest s -> c' <> c ->
  holds l z -> holds y i -> i = Z.min z C -> round c' l y s n = Ok tt s' n' ->
  starving C c x rest s' /\ served s' = served s.
Proof.
  intros Hs Hne Hl Hy Hmin. unfold round. rewrite (holds_dgt _ _ _ _ Hl holds_d0).
  destruct (Z.ltb_spec 0 z); intros [= <- <-]; (split; [|done]).
  - apply starving_place; [done..|]. exists i. split_and!; [done|lia|]. by exists z.
  - by apply starving_leave.
Qed.

Lemma starving_refill C c x rest s b r : starving C c x rest s ->
  m_capacity b = m_capacity (bucket s) /\ m_tokens b = m_capacity (bucket s) /\
    m_interrupted b = m_interrupted (bucket s) ->
  starving C c x rest
    (mkSystem b (notify <$> consumers s) testing (started s) (served s) (Datatypes.S r)).
Proof.
  intros [Hcap Hx _ Hi Ho Hw] (Hbc & Hbt & Hbi).
  split; simpl; rewrite ?Hbc, ?Hbt, ?Hbi; [done..|by exists C|done| |].
  - intros c1 p1 Hne (p2 & <- & Hc1)%lookup_fmap_Some. apply Ho in Hc1; [|done]. by destruct p2.
  - rewrite lookup_fmap. destruct Hw as [->|[b' ->]]; [by left|right; by exists true].
Qed.

Lemma starving_wake C c x rest c' y rest' b s : starving C c x rest s ->
  consumers s !! c' = Some (Waiting y rest' b) ->
  starving C c x rest (place c' (Waiting y rest' true) s).
Proof.
  intros Hs Hc. destruct (decide (c' = c)) as [->|Hne].
  - destruct Hs as [? ? ? ? Ho Hw]. destruct Hw as [Hw|[b' Hw]]; rewrite Hw in Hc; [done|].
    injection Hc as -> -> ->. split; simpl; [done..| |].
    + intros c1 p1 Hne. rewrite lookup_insert_ne by done. by apply Ho.
    + right. exists true. apply lookup_insert_eq.
  - apply starving_place; [done..|]. by destruct (starving_others _ _ _ _ _ Hs c' _ Hne Hc) as (i & ?);
      exists i.
Qed.

(** Nothing was served to [c]. *)
Definition unserved (c : nat) (s s' : system) : Prop := total_of c (served s') = total_of c (served s).

Lemma unserved_other c c' y s s' : c' <> c ->
  served s' = served s \/ served s' = served s ++ [(c', y)] -> unserved c s s'.
Proof.
  intros Hne [Heq|Heq]; unfold unserved; rewrite Heq; [done|].
  rewrite total_of_snoc. rewrite decide_False by done. lia.
Qed.

Lemma exec_starving C c x rest e s n s' n' : starving C c x rest s -> undisturbed e ->
  exec e s n = Ok tt s' n' -> starving C c x rest s' /\ unserved c s s'.
Proof.
  intros Hs He. pose proof (starving_waits _ _ _ _ _ Hs) as Hw.
  pose proof (starving_others _ _ _ _ _ Hs) as Ho. pose proof (starving_capacity _ _ _ _ _ Hs) as Hcap.
  assert (Hframe : forall b r log, m_capacity b = m_capacity (bucket s) ->
    m_tokens b = m_tokens (bucket s) -> m_interrupted b = m_interrupted (bucket s) ->
    starving C c x rest (mkSystem b (consumers s) r log (served s) (refills s))).
  { intros b r log Hc Ht Hi. apply (starving_frame _ _ _ _ s); [done..| |done].
    rewrite Ht. by destruct Hs. }
  destruct e as [c' y|c'|c' timeout|c'|c'| | | |v|v|v|p|b|raw]; unfold exec; rewrite gets_bind;
    cbn [Datatypes.id].
  - destruct (consumers s !! c') eqn:Hc; [done|]. rewrite modify_bind. destruct He as [i Hy].
    assert (c' <> c) as Hne by (intros ->; destruct Hw as [|[]]; congruence).
    set (s1 := mkSystem _ _ _ _ _ _). assert (Hs1 : starving C c x rest s1) by (by apply Hframe).
    rewrite (holds_dgt _ _ _ _ Hy Hcap). destruct (Z.ltb_spec C i).
    + intros Hr. eapply (starving_round _ _ _ _ _ _ _ i C) in Hr as [? Heq]; [|done..|lia].
      split; [done|]. apply (unserved_other c c' y); auto.
    + intros [= <- <-]. split; [|done]. apply starving_place; [done..|]. by exists i.
  - destruct (consumers s !! c') as [[y rest'| |]|] eqn:Hc; [|done..]. intros Hr.
    destruct (decide (c' = c)) as [->|Hne].
    + destruct Hw as [Hw|[b Hw]]; rewrite Hw in Hc; [|done]. injection Hc as -> ->.
      apply (starving_self C) in Hr as [? Heq]; [|done]. split; [done|]. unfold unserved. by rewrite Heq.
    + apply (starving_enter C c x rest) in Hr as [? Heq]; [|done..|exact (Ho c' _ Hne Hc)].
      split; [done|]. by apply (unserved_other c c' y).
  - destruct (consumers s !! c') as [[|y rest' b|]|] eqn:Hc; [done| |done..].
    destruct (timeout || b); [|done]. rewrite (starving_running _ _ _ _ _ Hs), andb_false_r. intros Hr.
    destruct (decide (c' = c)) as [->|Hne].
    + destruct Hw as [Hw|[b' Hw]]; rewrite Hw in Hc; [done|]. injection Hc as -> -> ->.
      apply (starving_self C) in Hr as [? Heq]; [|done]. split; [done|]. unfold unserved. by rewrite Heq.
    + apply (starving_enter C c x rest) in Hr as [? Heq]; [|done..|exact (Ho c' _ Hne Hc)].
      split; [done|]. by apply (unserved_other c c' y).
  - destruct (consumers s !! c') as [[| |l y]|] eqn:Hc; [done|done| |done].
    assert (c' <> c) as Hne by (intros ->; destruct Hw as [|[]]; congruence). intros Hr.
    destruct (Ho c' _ Hne Hc) as (i & Hy & HiC & z & Hl & Hz & Hi). pose proof Hy as (_ & _ & ?).
    pose proof (holds_dsub _ _ _ _ Hl Hy ltac:(lia)) as Hl'.
    rewrite (holds_dlt _ _ _ _ Hl' Hcap) in Hr. destruct (Z.ltb_spec (z - i) C).
    + eapply (starving_round _ _ _ _ _ _ _ (z - i) (z - i)) in Hr as [? Heq]; [|done..|lia].
      split; [done|]. apply (unserved_other c c' y); auto.
    + eapply (starving_round _ _ _ _ _ _ _ (z - i) i) in Hr as [? Heq]; [|done..|lia].
      split; [done|]. apply (unserved_other c c' y); auto.
  - destruct (consumers s !! c') as [[|y rest' b|]|] eqn:Hc; [done| |done..]. intros [= <- <-].
    split; [|done]. by eapply starving_wake.
  - destruct (refiller s); [|done..]. intros [= <- <-]. split; [by apply Hframe|done].
  - destruct (refiller s); [done| |done..]. intros [= <- <-]. split; [by apply Hframe|done].
  - destruct (refiller s); [done|done| |done].
    intros (u & s1 & n1 & (b & Hb & ->)%zoom_Ok_inv & [= <- <-])%bind_Ok_inv. simpl.
    split; [|done]. apply refill_run in Hb. by apply starving_refill.
  - intros [= <- <-]. split; [|done]. apply Hframe; [done..|]. simpl. simpl in He. subst.
    by rewrite (starving_running _ _ _ _ _ Hs).
  - done.
  - done.
  - intros [= <- <-]. split; [by apply Hframe|done].
  - intros [= <- <-]. split; [by apply Hframe|done].
  - intros (a & s1 & n1 & [st ->]%bucket_collect_frame & [= <- <-])%bind_Ok_inv.
    split; [by apply Hframe|done].
Qed.

End Starving.

(** ** Theorems *)

Section Theorems.
Context `{SystemClock}.
Import TokenBucketThreaded.

(** C28.  However consumers that ask for whole numbers of tokens and refills interleave,
    on a bucket whose capacity and tokens nobody sets and that is not interrupted, what was
    served is at most the initial tokens and a capacity for each refill, the tokens stay within
    the capacity, and each consumer is served exactly what it asked for, up to what
    it is still owed. *)
Theorem refills_bound_consumers C T b events n s n' :
  holds (m_capacity b) C -> holds (m_tokens b) T -> T <= C -> m_interrupted b = false ->
  Forall undisturbed events -> exec_all events (initial b) n = Ok tt s n' ->
  (exists k, holds (m_tokens (bucket s)) k /\ k <= C /\
     total (served s) + k <= T + C * Z.of_nat (refills s)) /\
  forall c, total_of c (served s) + owed_at c s = total_of c (started s).
Proof.
  intros HC HT Hle Hi Hev Hrun. pose proof (initial_accounted C T b HC HT Hle Hi) as Ha.
  pose proof (exec_all_accounted _ _ _ _ _ _ _ Ha Hev Hrun) as [_ Htok _ _ Hset]. done.
Qed.

(** A consumer is never stuck while the thread refills: from any state
    that such a run reaches there is a continuation, of its own events and of the
    thread's, without spurious wake-ups or timeouts, that completes its request. *)
Theorem refills_serve_consumers C T b events n s n' c p :
  holds (m_capacity b) C -> 0 < C -> holds (m_tokens b) T -> T <= C -> m_interrupted b = false ->
  Forall undisturbed events -> exec_all events (initial b) n = Ok tt s n' ->
  refiller s = testing \/ refiller s = sleeping -> m_collect_statistics (bucket s) = false ->
  consumers s !! c = Some p ->
  exists events' s' n'', Forall (own_or_refill c) events' /\
    exec_all events' s n' = Ok tt s' n'' /\ consumers s' !! c = None /\
    total_of c (served s') = total_of c (started s).
Proof.
  intros HC Hpos HT Hle Hi Hev Hrun Hr Hcol Hp.
  pose proof (exec_all_accounted _ _ _ _ _ _ _ (initial_accounted C T b HC HT Hle Hi) Hev Hrun) as Ha.
  destruct (request_completes C (own_or_refill c) (refilling C T (started s)) c Hpos) with
    (s := s) (n := n') (p := p) as (events' & s' & n'' & Hown & Hrun' & (Ha' & _ & _ & Hlog) & Hc).
  - intros s1 (Ha1 & _). apply Ha1.
  - done.
  - intros s1 n1 s2 n2 (Ha1 & Hr1 & Hcol1 & Hlog1) Hnr.
    destruct (next_run _ _ _ _ _ Hnr) as (Hb & Hr2 & Hlog2).
    split; [by eapply next_accounted|]. rewrite Hb, Hr2, Hlog2. done.
  - intros. by apply consuming_reaches.
  - intros. by eapply waiting_reaches.
  - done.
  - done.
  - exact (phases_ok _ _ _ Ha c p Hp).
  - exists events', s', n''. split_and!; [done..|].
    pose proof (consumers_settled _ _ _ Ha' c) as Hset. unfold owed_at in Hset.
    rewrite Hc, Hlog in Hset. lia.
Qed.

(** An interrupted system lets its consumers go: whatever the tokens,
    a consumer ends its request by its own events, once its waits time out. *)
Theorem interruption_releases C s n c p :
  holds (m_capacity (bucket s)) C -> 0 < C -> m_interrupted (bucket s) = true ->
  m_collect_statistics (bucket s) = false -> consumers s !! c = Some p -> phase_ok C p ->
  exists events s' n', Forall (own_timeout c) events /\ exec_all events s n = Ok tt s' n' /\
    consumers s' !! c = None.
Proof.
  intros HC Hpos Hi Hcol Hp Hok.
  destruct (request_completes C (own_timeout c) (interrupted C) c Hpos) with
    (s := s) (n := n) (p := p) as (events & s' & n' & Hown & Hrun & _ & Hc).
  - by intros s1 [? _].
  - done.
  - intros s1 n1 s2 n2 (Hc1 & Hi1 & Hcol1) Hnr. destruct (next_run _ _ _ _ _ Hnr) as (Hb & _).
    unfold interrupted. by rewrite Hb.
  - intros. by apply enter_interrupted.
  - intros. by eapply timeout_reaches.
  - done.
  - done.
  - done.
  - by exists events, s', n'.
Qed.

(** C29.  A capacity that is set below a share already asked for starves its
    consumer: as long as nothing else is set and the system is not interrupted, it
    waits, however often the bucket is refilled, and gets nothing. *)
Theorem lowered_capacity_starves C c x rest events s n s' n' :
  starving C c x rest s -> Forall undisturbed events -> exec_all events s n = Ok tt s' n' ->
  is_Some (consumers s' !! c) /\ total_of c (served s') = total_of c (served s).
Proof.
  intros Hs Hev. revert s n Hs. induction Hev as [|e events He Hev IH]; intros s n Hs Hrun.
  - injection Hrun as <- <-. split; [|done].
    destruct (starving_waits _ _ _ _ _ Hs) as [->|[b ->]]; by eexists.
  - cbn [exec_all] in Hrun. apply bind_Ok_inv in Hrun as ([] & s1 & n1 & H1 & H2).
    apply (exec_starving C c x rest) in H1 as [Hs1 Hu]; [|done..].
    destruct (IH _ _ Hs1 H2) as [Hc Ht]. split; [done|]. unfold unserved in Hu. congruence.
Qed.

Definition sample_threaded : t :=
  mk (to_double 10) (to_double 10) 10000 0 false false TBStats.default 5000000.

(** A consumer whose wait times out after the interruption takes tokens that
    are not there: the bucket ends below zero. *)
Theorem interrupted_waiter_overdraws n : exists s,
  exec_all [StartConsume 1 (to_double 10); EnterConsume 1; StartConsume 2 (to_double 4);
            EnterConsume 2; SetInterrupted true; ReturnWait 2 true] (initial sample_threaded) n =
    Ok tt s n /\ consumers s = ∅ /\ dlt (m_tokens (bucket s)) d0 = true.
Proof. eexists. split; [vm_compute; reflexivity|]. by vm_compute. Qed.

End Theorems.

(** ** Witnesses *)

Section Witnesses.
Import TokenBucketThreaded.

(** Two consumers, the second with a request larger than the capacity, and the
    thread; the second consumer waits. *)
Definition sample_run : list event :=
  [Spawn; StartConsume 1 (to_double 7); TestInterrupted; StartConsume 2 (to_double 25);
   EnterConsume 1; EnterConsume 2].

Definition frozen_clock : SystemClock := fun _ => 0.

Definition sample_waiting : system :=
  match @exec_all frozen_clock sample_run (initial sample_threaded) O with
  | Ok _ s _ => s
  | _ => initial sample_threaded
  end.

Lemma sample_run_undisturbed : Forall undisturbed sample_run.
Proof.
  unfold sample_run. repeat (constructor; [first [exact I | eexists; by apply holds_to_double]|]).
  constructor.
Qed.

Lemma sample_holds : holds (m_capacity sample_threaded) 10 /\ holds (m_tokens sample_threaded) 10.
Proof. split; by apply holds_to_double. Qed.

Lemma refills_bound_consumers_witness :
  (exists k, holds (m_tokens (bucket sample_waiting)) k /\ k <= 10 /\
     total (served sample_waiting) + k <= 10 + 10 * Z.of_nat (refills sample_waiting)) /\
  forall c, total_of c (served sample_waiting) + owed_at c sample_waiting =
            total_of c (started sample_waiting).
Proof.
  apply (@refills_bound_consumers frozen_clock 10 10 sample_threaded sample_run O sample_waiting O).
  - apply sample_holds.
  - apply sample_holds.
  - lia.
  - reflexivity.
  - apply sample_run_undisturbed.
  - vm_compute. reflexivity.
Defined.

Lemma refills_serve_consumers_witness : exists events' s' n'',
  Forall (own_or_refill 2) events' /\
  @exec_all frozen_clock events' sample_waiting O = Ok tt s' n'' /\ consumers s' !! 2%nat = None /\
  total_of 2 (served s') = total_of 2 (started sample_waiting).
Proof.
  apply (@refills_serve_consumers frozen_clock 10 10 sample_threaded sample_run O sample_waiting O 2
           (Waiting (to_double 10) (Some (to_double 25)) false)).
  - apply sample_holds.
  - lia.
  - apply sample_holds.
  - lia.
  - reflexivity.
  - apply sample_run_undisturbed.
  - vm_compute. reflexivity.
  - right. vm_compute. reflexivity.
  - vm_compute. reflexivity.
  - vm_compute. reflexivity.
Defined.

Definition sample_interrupted : system :=
  set_bucket (set_interrupted true (bucket sample_waiting)) sample_waiting.

Lemma sample_share : share 10 (to_double 10) (Some (to_double 25)).
Proof.
  exists 10. split; [by apply holds_to_double|]. split; [lia|].
  exists 25. split; [by apply holds_to_double|]. split; lia.
Qed.

Lemma interruption_releases_witness : exists events s' n',
  Forall (own_timeout 2) events /\ @exec_all frozen_clock events sample_interrupted O = Ok tt s' n' /\
  consumers s' !! 2%nat = None.
Proof.
  apply (@interruption_releases frozen_clock 10 sample_interrupted O 2
           (Waiting (to_double 10) (Some (to_double 25)) false)).
  - apply sample_holds.
  - lia.
  - reflexivity.
  - vm_compute. reflexivity.
  - vm_compute. reflexivity.
  - apply sample_share.
Defined.

(** The capacity is set to 500 tokens a second, 5 for a period, when a consumer
    waits for 10. *)
Definition lowering : list event :=
  [StartConsume 1 (to_double 10); EnterConsume 1; StartConsume 2 (to_double 10); EnterConsume 2;
   SetCapacity (to_double 500)].

Definition sample_lowered : system :=
  match @exec_all frozen_clock lowering (initial sample_threaded) O with
  | Ok _ s _ => s
  | _ => initial sample_threaded
  end.

Lemma sample_starving : starving 5 2 (to_double 10) None sample_lowered.
Proof.
  split.
  - split; [vm_compute; reflexivity|]. split; [vm_compute; reflexivity|lia].
  - exists 10. split; [by apply holds_to_double|lia].
  - exists 0. split; [|lia]. split; [vm_compute; reflexivity|]. split; [vm_compute; reflexivity|lia].
  - reflexivity.
  - assert (consumers sample_lowered = {[ 2%nat := Waiting (to_double 10) None false ]}) as ->
      by (vm_compute; reflexivity).
    by intros c p Hne [<- _]%lookup_singleton_Some.
  - right. exists false. vm_compute. reflexivity.
Qed.

Lemma lowered_capacity_starves_witness : exists s',
  is_Some (consumers s' !! 2%nat) /\ total_of 2 (served s') = total_of 2 (served sample_lowered).
Proof.
  destruct (is_Ok_inv (@exec_all frozen_clock [Spawn; TestInterrupted; RefillTokens; ReturnWait 2 false]
    sample_lowered O)) as ([] & s' & n' & Hrun); [vm_compute; reflexivity|].
  exists s'. apply (@lowered_capacity_starves frozen_clock 5 2 (to_double 10) None
    [Spawn; TestInterrupted; RefillTokens; ReturnWait 2 false] sample_lowered O s' n').
  - apply sample_starving.
  - repeat (constructor; [exact I|]). constructor.
  - exact Hrun.
Defined.

End Witnesses.
