(* ===== verification/EnforcementObjects.v ===== *)
(** * Tickets, results and enforcement objects

    A [Ticket] is what a channel hands to an enforcement object, a [Result] what
    the object fills in.  The buffers are modelled by their contents: on the
    paths of the enforcement objects each buffer has one owner.  [NoopObject]
    counts requests, [DynamicRateLimiter] makes them wait for the tokens of its
    bucket; both copy the content of the ticket to the result. *)

From S2P Require Import Prelude MachineInt Binary64 Options TokenBucketStats TokenBucket.

Module Ticket.

Record t := mk {
  m_ticket_id : Z;            (* uint64_t *)
  m_operations : Z;           (* int *)
  m_payload : Z;              (* long *)
  m_operation_type : Z;       (* int *)
  m_operation_context : Z;    (* int *)
  m_buffer_size : Z;          (* size_t *)
  m_buffer : option (list Z); (* unsigned char*, None for nullptr *)
}.

Definition default : t :=
  mk 0 0 1 (PAIO_GENERAL_.code PAIO_GENERAL_.no_op) (PAIO_GENERAL_.code PAIO_GENERAL_.no_op) 0 None.

(** The constructor without content. *)
Definition make (ticket_id total_operations payload type context : Z) : t :=
  mk ticket_id total_operations payload type context 0 None.

End Ticket.

(** [std::memcpy] of [size] bytes to a new buffer of that size. *)
Definition memcpy {S} (data : option (list Z)) (size : Z) : M S (list Z) :=
  match data with
  | Some bytes =>
      if Z.of_nat (length bytes) <? size
      then crash_with (UndefinedBehaviour "memcpy past the end of the source")
      else mret (take (Z.to_nat size) bytes)
  | None => if size =? 0 then mret [] else crash_with (UndefinedBehaviour "memcpy from nullptr")
  end.

(** The constructor with content. *)
Definition Ticket_make_content {S} (ticket_id total_operations payload type context size : Z)
    (data : option (list Z)) : M S Ticket.t :=
  bytes ← memcpy data size;
  mret (Ticket.mk ticket_id total_operations payload type context size (Some bytes)).

Inductive ResultStatus := success | error | no_result.

#[export] Instance ResultStatus_eq_dec : EqDecision ResultStatus.
Proof. solve_decision. Defined.

Module Result.

Record t := mk {
  m_ticket_id : Z;              (* uint64_t *)
  m_result_status : ResultStatus;
  m_has_content : bool;
  m_content_size : Z;           (* size_t *)
  m_content : option (list Z);  (* unsigned char*, None for nullptr *)
}.

Definition default : t := mk 0 no_result false 0 None.
Definition of_ticket (ticket_id : Z) : t := mk ticket_id no_result false 0 None.

Definition set_ticket_id (ticket_id : Z) (r : t) : t :=
  mk ticket_id (m_result_status r) (m_has_content r) (m_content_size r) (m_content r).
Definition set_result_status (status : ResultStatus) (r : t) : t :=
  mk (m_ticket_id r) status (m_has_content r) (m_content_size r) (m_content r).
Definition set_has_content (has_content : bool) (r : t) : t :=
  mk (m_ticket_id r) (m_result_status r) has_content (m_content_size r) (m_content r).

Definition set_content_size (size : Z) (r : t) : t :=
  if m_has_content r
  then mk (m_ticket_id r) (m_result_status r) (m_has_content r) size (m_content r)
  else r.

Definition set_content {S} (size : Z) (buffer : option (list Z)) (r : t) : M S t :=
  if m_has_content r then
    bytes ← memcpy buffer size;
    mret (mk (m_ticket_id r) (m_result_status r) (m_has_content r) (m_content_size r) (Some bytes))
  else mret r.

(** The copy constructor, and what a copy assignment leaves in its target. *)
Definition copy {S} (r : t) : M S t :=
  if m_has_content r then
    bytes ← memcpy (m_content r) (m_content_size r);
    mret (mk (m_ticket_id r) (m_result_status r) true (m_content_size r) (Some bytes))
  else mret (mk (m_ticket_id r) (m_result_status r) false 0 None).

End Result.

(** ** The interface of enforcement objects *)

Class EnforcementObject (O : Type) := {
  get_enforcement_object_id : O -> Z;
  obj_enforce : Ticket.t -> Result.t -> M O Result.t;
  obj_configure : Z -> list Z -> M O PStatus;
  obj_collect_statistics : ObjectStatisticsRaw -> M O (PStatus * ObjectStatisticsRaw);
}.

(** The result both objects produce: success, with a copy of the content. *)
Definition enforced (ticket : Ticket.t) (result : Result.t) : Result.t :=
  if 0 <? Ticket.m_buffer_size ticket then
    Result.mk (Result.m_ticket_id result) success true (Ticket.m_buffer_size ticket)
      (Some (take (Z.to_nat (Ticket.m_buffer_size ticket)) (default [] (Ticket.m_buffer ticket))))
  else
    Result.mk (Result.m_ticket_id result) success false (Result.m_content_size result)
      (Result.m_content result).

(** What the channels rely on: an object that returns has produced that result
    and kept its identifier, and configuring it keeps the identifier. *)
Class EnforcementObjectLaws (O : Type) `{EnforcementObject O} := {
  obj_enforce_result : forall ticket result (o o' : O) t t' result',
    obj_enforce ticket result o t = Ok result' o' t' ->
    result' = enforced ticket result /\
    get_enforcement_object_id o' = get_enforcement_object_id o;
  obj_configure_id : forall conf values (o o' : O) t t' status,
    obj_configure conf values o t = Ok status o' t' ->
    get_enforcement_object_id o' = get_enforcement_object_id o;
}.

Module NoopObject.

Record t := mk {
  m_object_id : Z;              (* long *)
  m_tag_name : string;
  m_counter : Z;                (* uint32_t *)
  m_shared : bool;
}.

Definition default : t := mk 0 "" 0 false.
Definition make (object_id : Z) : t := mk object_id "" 0 false.
Definition make_tagged (object_id : Z) (tag_name : string) (is_shared : bool) : t :=
  mk object_id tag_name 0 is_shared.

(** Under the lock when the object is shared. *)
Definition increment_counter : M t unit :=
  modify (fun o => mk (m_object_id o) (m_tag_name o) (u32 (m_counter o + 1)) (m_shared o)).

Definition obj_enforce (ticket : Ticket.t) (result : Result.t) : M t Result.t :=
  _ ← increment_counter;
  let has_content := 0 <? Ticket.m_buffer_size ticket in
  let result := Result.set_result_status success result in
  let result := Result.set_has_content has_content result in
  if has_content then
    let result := Result.set_content_size (Ticket.m_buffer_size ticket) result in
    Result.set_content (Ticket.m_buffer_size ticket) (Ticket.m_buffer ticket) result
  else mret result.

Definition obj_configure (conf : Z) (configuration_values : list Z) : M t PStatus :=
  mret PStatus_OK.

Definition obj_collect_statistics (statistics_raw : ObjectStatisticsRaw) :
    M t (PStatus * ObjectStatisticsRaw) :=
  mret (PStatus_Error, statistics_raw).

End NoopObject.

Inductive TokenBucketType := token_bucket_normal | token_bucket_threaded.

Definition drl_option_token_bucket_type : TokenBucketType := token_bucket_normal.
Definition drl_option_collect_statistics : bool := false.
Definition drl_option_gc_sliding_window : Z := 5000000.

Inductive DRLConfiguration := DRL_init | DRL_rate | DRL_refill.

Definition DRLConfiguration_code (c : DRLConfiguration) : Z :=
  match c with DRL_init => 1 | DRL_rate => 2 | DRL_refill => 4 end.

(** [static_cast<DRLConfiguration> (conf)], as the switch sees it. *)
Definition DRLConfiguration_of (conf : Z) : option DRLConfiguration :=
  if conf =? 1 then Some DRL_init else if conf =? 2 then Some DRL_rate
  else if conf =? 4 then Some DRL_refill else None.

Module DynamicRateLimiter.

Record t := mk {
  m_object_id : Z;              (* long *)
  m_collect_statistics : bool;
  m_bucket : TokenBucket.t;
  m_cost_per_request : Z;       (* uint32_t *)
  m_token_bucket_rate : double;
  m_previous_estimated_cost : Z; (* uint32_t *)
  m_convergence_factor : double; (* float 0.5, exact in double *)
}.

Definition set_bucket (b : TokenBucket.t) (o : t) : t :=
  mk (m_object_id o) (m_collect_statistics o) b (m_cost_per_request o) (m_token_bucket_rate o)
    (m_previous_estimated_cost o) (m_convergence_factor o).
Definition set_rate (r : double) (o : t) : t :=
  mk (m_object_id o) (m_collect_statistics o) (m_bucket o) (m_cost_per_request o) r
    (m_previous_estimated_cost o) (m_convergence_factor o).
Definition set_previous_cost (c : Z) (o : t) : t :=
  mk (m_object_id o) (m_collect_statistics o) (m_bucket o) (m_cost_per_request o)
    (m_token_bucket_rate o) c (m_convergence_factor o).

Definition drl_option_convergence_factor : double := ddiv (to_double 1) (to_double 2).

Section Clock.
Context `{SystemClock}.
(** Fuel of the loops of the bucket. *)
Context (fuel : nat).

Definition default {S} : M S t :=
  bucket ← TokenBucket.default;
  mret (mk 0 drl_option_collect_statistics bucket 1 d0 0 drl_option_convergence_factor).

(** The constructor; with [drl_option_token_bucket_type] normal it spawns no
    refill thread. *)
Definition make {S} (object_id : Z) (collect_statistics : bool) : M S t :=
  bucket ← TokenBucket.make_collecting collect_statistics drl_option_gc_sliding_window;
  mret (mk object_id collect_statistics bucket 1 d0 0 drl_option_convergence_factor).

Definition basic_io_cost (ticket : Ticket.t) (o : t) : double :=
  to_double (s64 (m_cost_per_request o * Ticket.m_payload ticket)).

(** The cost with the debt of the previous request; no request uses it yet. *)
Definition estimate_io_cost (ticket : Ticket.t) : M t double :=
  o ← gets id;
  let estimated_request_cost := basic_io_cost ticket o in
  let debt := to_double 1 in
  let debt := if dgt debt d0 then dmul debt (m_convergence_factor o) else debt in
  let cost := dsub estimated_request_cost debt in
  match dtrunc estimated_request_cost with
  | Some z =>
      if decide (0 <= z < 2 ^ 32) then
        _ ← modify (set_previous_cost z);
        mret cost
      else crash_with (UndefinedBehaviour "double out of the range of uint32_t")
  | None => crash_with (UndefinedBehaviour "double out of the range of uint32_t")
  end.

Definition obj_enforce (ticket : Ticket.t) (result : Result.t) : M t Result.t :=
  o ← gets id;
  _ ← zoom m_bucket set_bucket (TokenBucket.try_consume fuel (basic_io_cost ticket o));
  let has_content := 0 <? Ticket.m_buffer_size ticket in
  let result := Result.set_result_status success result in
  let result := Result.set_has_content has_content result in
  if has_content then
    let result := Result.set_content_size (Ticket.m_buffer_size ticket) result in
    Result.set_content (Ticket.m_buffer_size ticket) (Ticket.m_buffer ticket) result
  else mret result.

Definition initialize (refill_period rate : Z) (collect_statistics : bool) : M t PStatus :=
  _ ← modify (fun o =>
        let b := TokenBucket.set_refill_period refill_period (m_bucket o) in
        let b := TokenBucket.set_token_count (to_double rate) b in
        set_bucket (TokenBucket.set_capacity (to_double rate) b) o);
  mret PStatus_OK.

Definition configure_rate (rate_value : Z) : M t unit :=
  modify (fun o =>
    let tokens := TokenBucket.normalize_tokens (to_double rate_value) (m_bucket o) in
    let b := TokenBucket.set_capacity (to_double rate_value) (m_bucket o) in
    if dgt (TokenBucket.get_token_count b) tokens
    then set_bucket (TokenBucket.set_token_count (to_double rate_value) b) o
    else set_bucket b o).

(** [static_cast<long>] of the rate: undefined when it is not a [long]. *)
Definition get_token_bucket_rate : M t Z :=
  o ← gets id;
  let period := to_double (TokenBucket.get_refill_period (m_bucket o)) in
  match double_to_long (ddiv (TokenBucket.get_capacity (m_bucket o))
                          (ddiv (ddiv period (to_double 1000)) (to_double 1000))) with
  | Some rate => mret rate
  | None => crash_with (UndefinedBehaviour "double out of the range of long")
  end.

Definition configure_refill_window (window : Z) : M t unit :=
  rate ← get_token_bucket_rate;
  modify (fun o =>
    let b := TokenBucket.set_refill_period window (m_bucket o) in
    let b := TokenBucket.set_token_count (to_double rate) b in
    set_bucket (TokenBucket.set_capacity (to_double rate) b) o).

Definition obj_configure (conf : Z) (conf_values : list Z) : M t PStatus :=
  status ← (match DRLConfiguration_of conf with
            | Some DRL_init =>
                period ← vector_index conf_values 0;
                rate ← vector_index conf_values 1;
                initialize period rate false
            | Some DRL_rate =>
                rate ← vector_index conf_values 0;
                _ ← configure_rate rate;
                mret PStatus_OK
            | Some DRL_refill =>
                window ← vector_index conf_values 0;
                _ ← configure_refill_window window;
                mret PStatus_OK
            | None => mret PStatus_NotSupported
            end);
  _ ← modify (fun o => set_rate (ddiv (TokenBucket.get_capacity (m_bucket o))
                                   (to_double (TokenBucket.get_refill_period (m_bucket o)))) o);
  mret status.

Definition obj_collect_statistics (statistics_raw : ObjectStatisticsRaw) :
    M t (PStatus * ObjectStatisticsRaw) :=
  collect ← gets m_collect_statistics;
  if collect : bool then
    '(_, raw) ← zoom m_bucket set_bucket (TokenBucket.try_collect_statistics statistics_raw);
    mret (PStatus_OK, raw)
  else mret (PStatus_Error, statistics_raw).

End Clock.

End DynamicRateLimiter.

#[export] Instance Noop_object : EnforcementObject NoopObject.t := {
  get_enforcement_object_id := NoopObject.m_object_id;
  obj_enforce := NoopObject.obj_enforce;
  obj_configure := NoopObject.obj_configure;
  obj_collect_statistics := NoopObject.obj_collect_statistics;
}.

#[export] Instance DRL_object `{SystemClock} (fuel : nat) : EnforcementObject DynamicRateLimiter.t := {
  get_enforcement_object_id := DynamicRateLimiter.m_object_id;
  obj_enforce := DynamicRateLimiter.obj_enforce fuel;
  obj_configure := DynamicRateLimiter.obj_configure;
  obj_collect_statistics := DynamicRateLimiter.obj_collect_statistics;
}.

(** The [unique_ptr<EnforcementObject>] of the containers: one of the two
    classes, called through the interface. *)
Inductive AnyObject :=
| NoopPtr (o : NoopObject.t)
| DRLPtr (o : DynamicRateLimiter.t).

Definition dispatch {A} (noop_call : M NoopObject.t A) (drl_call : M DynamicRateLimiter.t A) :
    M AnyObject A :=
  fun o t =>
    match o with
    | NoopPtr o =>
        match noop_call o t with
        | Ok a o t => Ok a (NoopPtr o) t | Raise e o t => Raise e (NoopPtr o) t | Crash c => Crash c
        end
    | DRLPtr o =>
        match drl_call o t with
        | Ok a o t => Ok a (DRLPtr o) t | Raise e o t => Raise e (DRLPtr o) t | Crash c => Crash c
        end
    end.

#[export] Instance Any_object `{SystemClock} (fuel : nat) : EnforcementObject AnyObject := {
  get_enforcement_object_id o :=
    match o with
    | NoopPtr o => get_enforcement_object_id o
    | DRLPtr o => DynamicRateLimiter.m_object_id o
    end;
  obj_enforce ticket result :=
    dispatch (obj_enforce ticket result) (DynamicRateLimiter.obj_enforce fuel ticket result);
  obj_configure conf values :=
    dispatch (obj_configure conf values) (DynamicRateLimiter.obj_configure conf values);
  obj_collect_statistics raw :=
    dispatch (obj_collect_statistics raw) (DynamicRateLimiter.obj_collect_statistics raw);
}.

(** ** Lemmas *)

Lemma memcpy_Ok {S} data size (s s' : S) t t' bytes :
  memcpy data size s t = Ok bytes s' t' ->
  s' = s /\ t' = t /\ bytes = take (Z.to_nat size) (default [] data).
Proof.
  unfold memcpy. destruct data as [l|].
  - destruct (Z.of_nat (length l) <? size); [done|]. by intros [= <- <- <-].
  - destruct (Z.eqb_spec size 0); [|done]. intros [= <- <- <-]. simpl. by rewrite take_nil.
Qed.

(** The end of [obj_enforce], common to both objects. *)
Definition fill_result {S} (ticket : Ticket.t) (result : Result.t) : M S Result.t :=
  let has_content := 0 <? Ticket.m_buffer_size ticket in
  let result := Result.set_result_status success result in
  let result := Result.set_has_content has_content result in
  if has_content then
    let result := Result.set_content_size (Ticket.m_buffer_size ticket) result in
    Result.set_content (Ticket.m_buffer_size ticket) (Ticket.m_buffer ticket) result
  else mret result.

Lemma fill_result_Ok {S} ticket result (s s' : S) t t' result' :
  fill_result ticket result s t = Ok result' s' t' -> s' = s /\ t' = t /\ result' = enforced ticket result.
Proof.
  unfold fill_result, enforced. destruct (0 <? Ticket.m_buffer_size ticket) eqn:Hs.
  - unfold Result.set_content. simpl. intros (bytes & s1 & t1 & Hm & [= <- <- <-])%bind_Ok_inv.
    apply memcpy_Ok in Hm as (-> & -> & ->). done.
  - by intros [= <- <- <-].
Qed.

#[export] Instance Noop_laws : EnforcementObjectLaws NoopObject.t.
Proof.
  split.
  - intros ticket result o o' t t' result' (u & o1 & t1 & [= <- <- <-] & Hr)%bind_Ok_inv.
    by apply (fill_result_Ok ticket result) in Hr as (-> & _ & ->).
  - intros conf values o o' t t' status [= <- <- <-]. done.
Qed.

#[export] Instance DRL_laws `{SystemClock} fuel :
  @EnforcementObjectLaws DynamicRateLimiter.t (DRL_object fuel).
Proof.
  split.
  - intros ticket result o o' t t' result' (u & o1 & t1 & [= <- <- <-] &
      (v & o2 & t2 & (x & _ & ->)%zoom_Ok_inv & Hr)%bind_Ok_inv)%bind_Ok_inv.
    by apply (fill_result_Ok ticket result) in Hr as (-> & _ & ->).
  - intros conf values o o' t t' status (st & o1 & t1 & Hb & (u & o2 & t2 & [= <- <- <-] & [= <- <- <-])
      %bind_Ok_inv)%bind_Ok_inv.
    simpl. destruct (DRLConfiguration_of conf) as [[]|]; simpl in Hb.
    + apply bind_Ok_inv in Hb as (p & o2 & t2 & Hp & (r & o3 & t3 & Hr & Hi)%bind_Ok_inv).
      apply vector_index_state in Hp as [-> ->], Hr as [-> ->].
      by injection Hi as <- <- <-.
    + apply bind_Ok_inv in Hb as (p & o2 & t2 & Hp & (r & o3 & t3 & Hr & [= <- <- <-])%bind_Ok_inv).
      apply vector_index_state in Hp as [-> ->]. injection Hr as <- <-. by case_match.
    + apply bind_Ok_inv in Hb as (p & o2 & t2 & Hp & (r & o3 & t3 & Hr & [= <- <- <-])%bind_Ok_inv).
      apply vector_index_state in Hp as [-> ->].
      apply bind_Ok_inv in Hr as (rate & o4 & t4 & Hg & [= <- <- <-]).
      apply bind_Ok_inv in Hg as (x & o5 & t5 & [= <- <- <-] & Hg).
      cbv zeta in Hg. case_match; [|done]. by injection Hg as <- <- <-.
    + by injection Hb as <- <- <-.
Qed.

#[export] Instance Any_laws `{SystemClock} fuel : @EnforcementObjectLaws AnyObject (Any_object fuel).
Proof.
  split.
  - intros ticket result [o|o] o' t t' result'; simpl; unfold dispatch.
    + destruct (NoopObject.obj_enforce ticket result o t) as [r o1 t1| |] eqn:He; [|done..].
      intros [= <- <- <-].
      exact (@obj_enforce_result _ Noop_object Noop_laws ticket result o o1 t t1 r He).
    + destruct (DynamicRateLimiter.obj_enforce fuel ticket result o t) as [r o1 t1| |] eqn:He; [|done..].
      intros [= <- <- <-].
      exact (@obj_enforce_result _ (DRL_object fuel) (DRL_laws fuel) ticket result o o1 t t1 r He).
  - intros conf values [o|o] o' t t' status; simpl; unfold dispatch.
    + by intros [= <- <- <-].
    + destruct (DynamicRateLimiter.obj_configure conf values o t) as [r o1 t1| |] eqn:He; [|done..].
      intros [= <- <- <-].
      exact (@obj_configure_id _ (DRL_object fuel) (DRL_laws fuel) conf values o o1 t t1 r He).
Qed.

(** An enforcement object that returns, whichever its class, has set the
    result to success with a copy of the ticket's content, and has kept its
    identifier. *)
Theorem any_object_result `{SystemClock} fuel ticket result (o o' : AnyObject) n n' result' :
  @obj_enforce _ (Any_object fuel) ticket result o n = Ok result' o' n' ->
  result' = enforced ticket result /\
  @get_enforcement_object_id _ (Any_object fuel) o' = @get_enforcement_object_id _ (Any_object fuel) o.
Proof. apply (@obj_enforce_result _ (Any_object fuel) (Any_laws fuel)). Qed.

(** ** Rates *)

Definition one_second : Z := 1000000.

Lemma normalize_one_second rate b : 0 <= rate < 2 ^ 53 ->
  TokenBucket.m_refill_period b = one_second ->
  holds (TokenBucket.normalize_tokens (to_double rate) b) rate.
Proof.
  intros Hr Hp. unfold TokenBucket.normalize_tokens. rewrite Hp.
  assert (ddiv (ddiv (to_double one_second) (to_double 1000)) (to_double 1000) = to_double 1) as ->
    by (vm_compute; reflexivity).
  apply holds_dmul_one. by apply holds_to_double.
Qed.

Section Limiter.
Context `{SystemClock}.
Import DynamicRateLimiter.

(** The end of [obj_configure]. *)
Lemma finish_configure (m : M t PStatus) o n st o' n' : m o n = Ok st o' n' ->
  exists o'', (m ≫= fun status =>
     modify (fun o => set_rate (ddiv (TokenBucket.get_capacity (m_bucket o))
               (to_double (TokenBucket.get_refill_period (m_bucket o)))) o) ≫= fun _ => mret status) o n
    = Ok st o'' n' /\ m_bucket o'' = m_bucket o'.
Proof. intros Hm. erewrite bind_Ok by exact Hm. eexists. split; [reflexivity|done]. Qed.

Lemma dwf_set_capacity x b : TokenBucket.m_capacity (TokenBucket.set_capacity x b) =
  TokenBucket.normalize_tokens x b.
Proof. done. Qed.

(** A bucket filled to a capacity that is a finite non-negative number. *)
Lemma full_well_formed rate b :
  let b := TokenBucket.set_capacity rate (TokenBucket.set_token_count rate b) in
  dwf (TokenBucket.m_capacity b) -> TokenBucket.well_formed b.
Proof. intros b' Hw. split; [done|]. split; [exact Hw|reflexivity]. Qed.

(** ** Theorems *)

(** Initialized with a refill period of a second and an integer rate
    below 2^53, a rate limiter holds exactly that rate: its bucket is the
    abstract bucket, full, with the rate as capacity. *)
Theorem initialize_one_second rate o n :
  0 <= rate < 2 ^ 53 ->
  TokenBucket.m_collect_statistics (m_bucket o) = false ->
  0 <= TokenBucket.m_next_refill_period (m_bucket o) < 2 ^ 63 ->
  exists o', obj_configure (DRLConfiguration_code DRL_init) [one_second; rate] o n
      = Ok PStatus_OK o' n /\
    TokenBucket.represents (m_bucket o')
      (TokenBucket.mkAbstract rate rate one_second (TokenBucket.m_next_refill_period (m_bucket o))).
Proof.
  intros Hr Hcol Hnext. unfold obj_configure.
  edestruct finish_configure as (o' & Ho & Hb); [reflexivity|]. exists o'.
  split; [exact Ho|]. rewrite Hb.
  split; [by apply normalize_one_second|]. split; [by apply normalize_one_second|].
  split_and!; simpl; try done; lia.
Qed.

(** Given another rate, a limiter of a period of a second has it as capacity, and
    gives up the tokens above it. *)
Lemma rate_reconfigured rate values o a n :
  0 <= rate < 2 ^ 53 -> TokenBucket.represents (m_bucket o) a -> TokenBucket.a_period a = one_second ->
  exists o', obj_configure (DRLConfiguration_code DRL_rate) (rate :: values) o n = Ok PStatus_OK o' n /\
    m_cost_per_request o' = m_cost_per_request o /\
    TokenBucket.represents (m_bucket o')
      (TokenBucket.mkAbstract rate (Z.min (TokenBucket.a_tokens a) rate) one_second
         (TokenBucket.a_next a)).
Proof.
  intros Hrate (Hcap & Htok & Hle & Hper & Hpr & Hnext & Hnr & Hcol) Hone. rewrite Hone in Hper.
  pose proof (normalize_one_second rate (m_bucket o) Hrate Hper) as Hn.
  set (b := TokenBucket.set_capacity (to_double rate) (m_bucket o)).
  set (b' := if dgt (TokenBucket.get_token_count b)
                    (TokenBucket.normalize_tokens (to_double rate) (m_bucket o))
             then TokenBucket.set_token_count (to_double rate) b else b).
  exists (set_rate (ddiv (TokenBucket.get_capacity b') (to_double (TokenBucket.get_refill_period b')))
            (set_bucket b' o)).
  assert (Hdgt : dgt (TokenBucket.get_token_count b)
    (TokenBucket.normalize_tokens (to_double rate) (m_bucket o)) = (rate <? TokenBucket.a_tokens a))
    by exact (holds_dgt _ _ _ _ Htok Hn).
  split; [|split; [done|]].
  - unfold obj_configure, b'. cbn. unfold configure_rate, modify, mbind, M_bind, mret, M_ret. simpl.
    fold b. by destruct (dgt _ _).
  - simpl. unfold b'. rewrite Hdgt. destruct (Z.ltb_spec rate (TokenBucket.a_tokens a)).
    + rewrite Z.min_r by lia. repeat (split; [done || lia|]). done.
    + rewrite Z.min_l by lia. repeat (split; [done || lia|]). done.
Qed.

Lemma enforce_consumes_aux fuel ticket result o a n result' o' n' :
  (forall i, 0 <= clock_at i < 2 ^ 62) ->
  m_cost_per_request o = 1 -> 0 <= Ticket.m_payload ticket < 2 ^ 53 ->
  TokenBucket.represents (m_bucket o) a ->
  obj_enforce fuel ticket result o n = Ok result' o' n' ->
  exists instants a', TokenBucket.serves a (Ticket.m_payload ticket) instants a' /\
    TokenBucket.timely n n' a a' /\
    TokenBucket.represents (m_bucket o') a' /\ m_cost_per_request o' = 1.
Proof.
  intros Hclock Hcost Hp Hr (x & o1 & n1 & [= <- <- <-] & (u & o2 & n2 & Hz & Hf)%bind_Ok_inv)%bind_Ok_inv.
  apply (fill_result_Ok ticket result) in Hf as (-> & -> & _).
  apply zoom_Ok_inv in Hz as (b & Hc & ->). destruct u. cbn [id] in Hc.
  edestruct try_consume_refines as (instants & a' & Hs & Ht & Hr');
    [exact Hclock| |exact Hr|exact Hc|by exists instants, a'].
  unfold basic_io_cost. rewrite Hcost, Z.mul_1_l, s64_small; [by apply holds_to_double|].
  unfold is_long, long_min, long_max. lia.
Qed.

(** A ticket that a rate limiter enforces consumes its payload: the
    bucket takes a run of the abstract bucket that serves it. *)
Theorem enforce_consumes_payload fuel ticket result o a n result' o' n' :
  (forall i, 0 <= clock_at i < 2 ^ 62) ->
  m_cost_per_request o = 1 -> 0 <= Ticket.m_payload ticket < 2 ^ 53 ->
  TokenBucket.represents (m_bucket o) a ->
  obj_enforce fuel ticket result o n = Ok result' o' n' ->
  exists instants a', TokenBucket.serves a (Ticket.m_payload ticket) instants a' /\
    TokenBucket.represents (m_bucket o') a'.
Proof.
  intros Hclock Hcost Hp Hr He.
  destruct (enforce_consumes_aux fuel ticket result o a n result' o' n' Hclock Hcost Hp Hr He)
    as (instants & a' & Hs & _ & Hr' & _). by exists instants, a'.
Qed.

(** Configuring a rate limiter never leaves more tokens than the capacity,
    when the new capacity is finite and not negative. *)
Theorem configure_within_capacity conf values o n st o' n' :
  TokenBucket.well_formed (m_bucket o) ->
  obj_configure conf values o n = Ok st o' n' ->
  dwf (TokenBucket.m_capacity (m_bucket o')) ->
  TokenBucket.well_formed (m_bucket o').
Proof.
  intros Hwf (s1 & o1 & n1 & Hb & (u & o2 & n2 & [= <- <- <-] & [= <- <- <-])%bind_Ok_inv)%bind_Ok_inv.
  cbn [m_bucket set_rate]. intros Hw.
  destruct (DRLConfiguration_of conf) as [[]|]; simpl in Hb.
  - apply bind_Ok_inv in Hb as (p & o2 & n2 & Hp & (r & o3 & n3 & Hr & Hi)%bind_Ok_inv).
    apply vector_index_state in Hp as [-> ->], Hr as [-> ->].
    injection Hi as <- <- <-. by apply full_well_formed.
  - apply bind_Ok_inv in Hb as (r & o2 & n2 & Hp & (u & o3 & n3 & Hr & [= <- <- <-])%bind_Ok_inv).
    apply vector_index_state in Hp as [-> ->]. injection Hr as <- <-.
    cbn [m_bucket] in *. destruct Hwf as (Hc & Ht & Hle).
    set (tokens := TokenBucket.normalize_tokens (to_double r) (m_bucket o)) in *.
    change (TokenBucket.get_token_count (TokenBucket.set_capacity (to_double r) (m_bucket o)))
      with (TokenBucket.m_tokens (m_bucket o)) in *.
    destruct (dgt (TokenBucket.m_tokens (m_bucket o)) tokens) eqn:Hg; cbn [m_bucket set_bucket] in *.
    + split; [done|]. split; [exact Hw|reflexivity].
    + change (dwf tokens) in Hw. rewrite dgt_val in Hg by done. bools. by split.
  - apply bind_Ok_inv in Hb as (p & o2 & n2 & Hp & (r & o3 & n3 & Hr & [= <- <- <-])%bind_Ok_inv).
    apply vector_index_state in Hp as [-> ->].
    apply bind_Ok_inv in Hr as (rate & o4 & n4 & _ & [= <- <- <-]). by apply full_well_formed.
  - by injection Hb as <- <- <-.
Qed.

(** A configuration of a rate limiter: an unknown code is not supported
    and leaves the bucket alone; a known one without values reads past the end
    of the vector. *)
Theorem configure_without_values conf o n :
  match DRLConfiguration_of conf with
  | Some _ => obj_configure conf [] o n = Crash (UndefinedBehaviour "vector index out of range")
  | None => exists o', obj_configure conf [] o n = Ok PStatus_NotSupported o' n /\
      m_bucket o' = m_bucket o
  end.
Proof.
  destruct (DRLConfiguration_of conf) as [[]|] eqn:Hc; unfold obj_configure; rewrite Hc; [done..|].
  by apply finish_configure.
Qed.

End Limiter.

(** A rate limiter with the bucket of ten tokens each second. *)
Definition sample_limiter : DynamicRateLimiter.t :=
  DynamicRateLimiter.mk 1 false sample_bucket 1 d0 0 DynamicRateLimiter.drl_option_convergence_factor.

(** A negative payload (an operation size of 2^63 or more, or a negative
    number of operations) adds tokens: the bucket ends with more than its
    capacity. *)
Theorem negative_payload_overfills :
  match @DynamicRateLimiter.obj_enforce ticking_clock 10 (Ticket.make 0 (-1) (-1000) 0 0)
          Result.default sample_limiter O with
  | Ok _ o _ => dgt (TokenBucket.m_tokens (DynamicRateLimiter.m_bucket o))
                    (TokenBucket.m_capacity (DynamicRateLimiter.m_bucket o)) = true
  | _ => False
  end.
Proof. vm_compute. reflexivity. Qed.

Definition sample_ticket : Ticket.t := Ticket.mk 0 1 7 0 0 2 (Some [65; 66; 67]).

Lemma any_object_result_witness :
  Result.mk 0 success true 2 (Some [65; 66]) = enforced sample_ticket Result.default /\ 5 = 5.
Proof.
  apply (@any_object_result ticking_clock 10%nat sample_ticket Result.default
    (NoopPtr (NoopObject.make 5)) (NoopPtr (NoopObject.mk 5 "" 1 false)) O O).
  reflexivity.
Defined.

Lemma initialize_one_second_witness : exists o',
  @DynamicRateLimiter.obj_configure 1 [one_second; 500] sample_limiter O = Ok PStatus_OK o' O /\
  TokenBucket.represents (DynamicRateLimiter.m_bucket o')
    (TokenBucket.mkAbstract 500 500 one_second 1000000).
Proof.
  apply (initialize_one_second 500 sample_limiter O); vm_compute; intuition discriminate.
Defined.

Lemma enforce_consumes_payload_witness : exists instants a',
  TokenBucket.serves (TokenBucket.mkAbstract 10 10 1000000 1000000) 7 instants a' /\
  TokenBucket.represents (TokenBucket.set_tokens_field (to_double 3) sample_bucket) a'.
Proof.
  apply (@enforce_consumes_payload bounded_clock 10%nat sample_ticket Result.default sample_limiter
    (TokenBucket.mkAbstract 10 10 1000000 1000000) O (enforced sample_ticket Result.default)
    (DynamicRateLimiter.set_bucket (TokenBucket.set_tokens_field (to_double 3) sample_bucket)
       sample_limiter) O).
  - intros i. unfold clock_at, bounded_clock. lia.
  - reflexivity.
  - vm_compute. intuition discriminate.
  - vm_compute. intuition discriminate.
  - vm_compute. reflexivity.
Defined.

Lemma configure_within_capacity_witness :
  TokenBucket.well_formed (TokenBucket.set_token_count (to_double 4)
    (TokenBucket.set_capacity (to_double 4) sample_bucket)).
Proof.
  refine (configure_within_capacity 2 [4] sample_limiter O PStatus_OK
    (DynamicRateLimiter.set_rate _ (DynamicRateLimiter.set_bucket
       (TokenBucket.set_token_count (to_double 4)
          (TokenBucket.set_capacity (to_double 4) sample_bucket)) sample_limiter)) O _ _ _).
  - vm_compute. intuition discriminate.
  - vm_compute. reflexivity.
  - vm_compute. reflexivity.
Defined.
