(* ===== verification/Buffers.v ===== *)
(** * The buffers that results and tickets own

    [EnforcementObjects] models the buffer of a result or of a ticket by its
    contents.  Here the objects are in a store, their buffers are blocks of a heap
    that [new[]] and [delete[]] manage, and the constructors, the assignments and
    the destructors are those of the classes.  For results, ownership is proved and
    with it that they behave as the values of [EnforcementObjects]; for tickets, the
    same without the assignment operator, which is proved to free a block twice. *)

From S2P Require Import Prelude MachineInt Options EnforcementObjects.

Definition freed_block : crash := UndefinedBehaviour "access to a freed block".

(** The bytes of a block before anything is written there. *)
Class RawMemory := raw_byte : nat -> nat -> Z.

(** What a class that owns a buffer has: its pointer, and the object as a value,
    its buffer replaced by its contents. *)
Class Owner (T V : Type) := {
  pointer_of : T -> option nat;
  with_contents : option (list Z) -> T -> V;
}.

(** ** The store *)

(** The blocks of the heap, the next one, and the objects by their names. *)
Record store (T : Type) := mkStore {
  blocks : gmap nat (list Z);
  next_block : nat;
  objects : gmap nat T;
}.
Arguments mkStore {_} _ _ _.
Arguments blocks {_} _.
Arguments next_block {_} _.
Arguments objects {_} _.

Section Store.
Context `{RawMemory} {T : Type}.

Definition set_blocks (bs : gmap nat (list Z)) (s : store T) : store T :=
  mkStore bs (next_block s) (objects s).
Definition set_objects_ (os : gmap nat T) (s : store T) : store T :=
  mkStore (blocks s) (next_block s) os.

Definition new_array (size : Z) : M (store T) nat := fun s n =>
  Ok (next_block s)
    (mkStore (<[next_block s := raw_byte (next_block s) <$> seq 0 (Z.to_nat size)]> (blocks s))
       (S (next_block s)) (objects s)) n.

Definition delete_array (pointer : option nat) : M (store T) unit :=
  match pointer with
  | None => mret tt
  | Some b =>
      s ← gets id;
      match blocks s !! b with
      | Some _ => modify (fun s => set_blocks (delete b (blocks s)) s)
      | None => crash_with freed_block
      end
  end.

(** The source of a copy: a buffer of the caller, or a block. *)
Inductive Source := from_caller (bytes : option (list Z)) | from_block (pointer : option nat).

Definition read_source (source : Source) (size : Z) : M (store T) (list Z) :=
  match source with
  | from_caller bytes => memcpy bytes size
  | from_block None => memcpy None size
  | from_block (Some b) =>
      s ← gets id;
      match blocks s !! b with
      | Some bytes => memcpy (Some bytes) size
      | None => crash_with freed_block
      end
  end.

Definition copy_to (b : nat) (source : Source) (size : Z) : M (store T) unit :=
  bytes ← read_source source size;
  s ← gets id;
  match blocks s !! b with
  | Some old =>
      if Z.of_nat (length old) <? size
      then crash_with (UndefinedBehaviour "memcpy past the end of the destination")
      else modify (set_blocks (<[b := bytes ++ drop (Z.to_nat size) old]> (blocks s)))
  | None => crash_with freed_block
  end.

(** An object by its name, within its lifetime. *)
Definition object (x : nat) : M (store T) T :=
  s ← gets id;
  match objects s !! x with
  | Some o => mret o
  | None => crash_with (UndefinedBehaviour "object out of its lifetime")
  end.

Definition construct (x : nat) (o : T) : M (store T) unit :=
  s ← gets id;
  match objects s !! x with
  | Some _ => crash_with (UndefinedBehaviour "storage of a live object")
  | None => modify (set_objects_ (<[x := o]> (objects s)))
  end.

(** The members of an object that is in its lifetime. *)
Definition update (x : nat) (o : T) : M (store T) unit :=
  modify (fun s => set_objects_ (<[x := o]> (objects s)) s).

Definition finish (x : nat) : M (store T) unit :=
  modify (fun s => set_objects_ (delete x (objects s)) s).

End Store.

(** ** Results *)

Module ResultObject.

Record t := mk {
  m_ticket_id : Z;              (* uint64_t *)
  m_result_status : ResultStatus;
  m_has_content : bool;
  m_content_size : Z;           (* size_t *)
  m_content : option nat;       (* unsigned char*, None for nullptr *)
}.

Definition default : t := mk 0 no_result false 0 None.

Definition set_content_field (content : option nat) (r : t) : t :=
  mk (m_ticket_id r) (m_result_status r) (m_has_content r) (m_content_size r) content.

#[global] Instance result_owner : Owner t Result.t := {
  pointer_of := m_content;
  with_contents contents r :=
    Result.mk (m_ticket_id r) (m_result_status r) (m_has_content r) (m_content_size r) contents;
}.

Section Calls.
Context `{RawMemory}.

Definition construct_default (x : nat) : M (store t) unit := construct x default.

Definition construct_id (x : nat) (ticket_id : Z) : M (store t) unit :=
  construct x (mk ticket_id no_result false 0 None).

Definition construct_status (x : nat) (ticket_id : Z) (status : ResultStatus) : M (store t) unit :=
  construct x (mk ticket_id status false 0 None).

Definition construct_content (x : nat) (ticket_id : Z) (status : ResultStatus) (has_content : bool)
    (content_size : Z) (buffer : option (list Z)) : M (store t) unit :=
  content ← new_array content_size;
  _ ← copy_to content (from_caller buffer) content_size;
  construct x (mk ticket_id status has_content content_size (Some content)).

Definition copy_construct (x y : nat) : M (store t) unit :=
  result ← object y;
  if m_has_content result then
    content ← new_array (m_content_size result);
    _ ← copy_to content (from_block (m_content result)) (m_content_size result);
    construct x (mk (m_ticket_id result) (m_result_status result) (m_has_content result)
                   (m_content_size result) (Some content))
  else construct x (mk (m_ticket_id result) (m_result_status result) (m_has_content result) 0 None).

Definition move_construct (x y : nat) : M (store t) unit :=
  result ← object y;
  if m_has_content result then
    _ ← construct x (mk (m_ticket_id result) (m_result_status result) (m_has_content result)
                       (m_content_size result) (m_content result));
    update y (mk 0 no_result false 0 None)
  else construct x (mk (m_ticket_id result) (m_result_status result) (m_has_content result) 0 None).

Definition copy_assign (x y : nat) : M (store t) unit :=
  this ← object x;
  result ← object y;
  if bool_decide (x = y) then mret tt
  else if m_has_content result then
    _ ← delete_array (m_content this);
    content ← new_array (m_content_size result);
    _ ← copy_to content (from_block (m_content result)) (m_content_size result);
    update x (mk (m_ticket_id result) (m_result_status result) (m_has_content result)
                (m_content_size result) (Some content))
  else update x (mk (m_ticket_id result) (m_result_status result) (m_has_content result) 0 None).

Definition move_assign (x y : nat) : M (store t) unit :=
  this ← object x;
  result ← object y;
  if bool_decide (x = y) then mret tt
  else
    _ ← (if m_has_content result then
           _ ← delete_array (m_content this);
           update x (mk (m_ticket_id result) (m_result_status result) (m_has_content result)
                       (m_content_size result) (m_content result))
         else update x (mk (m_ticket_id result) (m_result_status result) (m_has_content result) 0 None));
    update y (mk 0 no_result false 0 None).

Definition destroy (x : nat) : M (store t) unit :=
  this ← object x;
  _ ← delete_array (m_content this);
  finish x.

Definition set_ticket_id (x : nat) (ticket_id : Z) : M (store t) unit :=
  this ← object x;
  update x (mk ticket_id (m_result_status this) (m_has_content this) (m_content_size this) (m_content this)).

Definition set_result_status (x : nat) (status : ResultStatus) : M (store t) unit :=
  this ← object x;
  update x (mk (m_ticket_id this) status (m_has_content this) (m_content_size this) (m_content this)).

Definition set_has_content (x : nat) (has_content : bool) : M (store t) unit :=
  this ← object x;
  update x (mk (m_ticket_id this) (m_result_status this) has_content (m_content_size this) (m_content this)).

Definition set_content_size (x : nat) (size : Z) : M (store t) unit :=
  this ← object x;
  if m_has_content this then
    update x (mk (m_ticket_id this) (m_result_status this) (m_has_content this) size (m_content this))
  else mret tt.

Definition set_content (x : nat) (size : Z) (buffer : option (list Z)) : M (store t) unit :=
  this ← object x;
  if m_has_content this then
    content ← new_array size;
    _ ← update x (set_content_field (Some content) this);
    copy_to content (from_caller buffer) size
  else mret tt.

End Calls.

End ResultObject.

(** ** Tickets *)

Module TicketObject.

Record t := mk {
  m_ticket_id : Z;            (* uint64_t *)
  m_operations : Z;           (* int *)
  m_payload : Z;              (* long *)
  m_operation_type : Z;       (* int *)
  m_operation_context : Z;    (* int *)
  m_buffer_size : Z;          (* size_t *)
  m_buffer : option nat;      (* unsigned char*, None for nullptr *)
}.

Definition default : t :=
  mk 0 0 1 (PAIO_GENERAL_.code PAIO_GENERAL_.no_op) (PAIO_GENERAL_.code PAIO_GENERAL_.no_op) 0 None.

Definition set_buffer (buffer : option nat) (ticket : t) : t :=
  mk (m_ticket_id ticket) (m_operations ticket) (m_payload ticket) (m_operation_type ticket)
    (m_operation_context ticket) (m_buffer_size ticket) buffer.

#[global] Instance ticket_owner : Owner t Ticket.t := {
  pointer_of := m_buffer;
  with_contents contents ticket :=
    Ticket.mk (m_ticket_id ticket) (m_operations ticket) (m_payload ticket) (m_operation_type ticket)
      (m_operation_context ticket) (m_buffer_size ticket) contents;
}.

Section Calls.
Context `{RawMemory}.

Definition construct_default (x : nat) : M (store t) unit := construct x default.

Definition construct_plain (x : nat) (ticket_id total_operations payload type context : Z) :
    M (store t) unit :=
  construct x (mk ticket_id total_operations payload type context 0 None).

Definition construct_content (x : nat) (ticket_id total_operations payload type context size : Z)
    (data : option (list Z)) : M (store t) unit :=
  buffer ← new_array size;
  _ ← copy_to buffer (from_caller data) size;
  construct x (mk ticket_id total_operations payload type context size (Some buffer)).

Definition copy_construct (x y : nat) : M (store t) unit :=
  ticket ← object y;
  buffer ← new_array (m_buffer_size ticket);
  _ ← copy_to buffer (from_block (m_buffer ticket)) (m_buffer_size ticket);
  construct x (set_buffer (Some buffer) ticket).

(** The new block is dropped: the last assignment takes the pointer of the source,
    which [std::move] of a const object does not clear. *)
Definition copy_assign (x y : nat) : M (store t) unit :=
  this ← object x;
  ticket ← object y;
  if bool_decide (x = y) then mret tt
  else
    _ ← delete_array (m_buffer this);
    buffer ← new_array (m_buffer_size ticket);
    _ ← update x (set_buffer (Some buffer) ticket);
    update x (set_buffer (m_buffer ticket) ticket).

Definition destroy (x : nat) : M (store t) unit :=
  this ← object x;
  _ ← delete_array (m_buffer this);
  finish x.

End Calls.

End TicketObject.

(** ** Programs, on the store and on values *)

Inductive result_call :=
| ConstructResult (x : nat)
| ConstructResultId (x : nat) (ticket_id : Z)
| ConstructResultStatus (x : nat) (ticket_id : Z) (status : ResultStatus)
| ConstructResultContent (x : nat) (ticket_id : Z) (status : ResultStatus) (has_content : bool)
    (content_size : Z) (buffer : option (list Z))
| CopyConstructResult (x y : nat)
| MoveConstructResult (x y : nat)
| CopyAssignResult (x y : nat)
| MoveAssignResult (x y : nat)
| DestroyResult (x : nat)
| SetTicketId (x : nat) (ticket_id : Z)
| SetResultStatus (x : nat) (status : ResultStatus)
| SetHasContent (x : nat) (has_content : bool)
| SetContentSize (x : nat) (size : Z)
| SetContent (x : nat) (size : Z) (buffer : option (list Z)).

(** Without the assignment operator. *)
Inductive ticket_call :=
| ConstructTicket (x : nat)
| ConstructTicketPlain (x : nat) (ticket_id total_operations payload type context : Z)
| ConstructTicketContent (x : nat) (ticket_id total_operations payload type context size : Z)
    (data : option (list Z))
| CopyConstructTicket (x y : nat)
| DestroyTicket (x : nat).

Section Programs.
Context `{RawMemory}.

Definition run_result (call : result_call) : M (store ResultObject.t) unit :=
  match call with
  | ConstructResult x => ResultObject.construct_default x
  | ConstructResultId x id => ResultObject.construct_id x id
  | ConstructResultStatus x id status => ResultObject.construct_status x id status
  | ConstructResultContent x id status has size buffer =>
      ResultObject.construct_content x id status has size buffer
  | CopyConstructResult x y => ResultObject.copy_construct x y
  | MoveConstructResult x y => ResultObject.move_construct x y
  | CopyAssignResult x y => ResultObject.copy_assign x y
  | MoveAssignResult x y => ResultObject.move_assign x y
  | DestroyResult x => ResultObject.destroy x
  | SetTicketId x id => ResultObject.set_ticket_id x id
  | SetResultStatus x status => ResultObject.set_result_status x status
  | SetHasContent x has => ResultObject.set_has_content x has
  | SetContentSize x size => ResultObject.set_content_size x size
  | SetContent x size buffer => ResultObject.set_content x size buffer
  end.

Definition run_ticket (call : ticket_call) : M (store TicketObject.t) unit :=
  match call with
  | ConstructTicket x => TicketObject.construct_default x
  | ConstructTicketPlain x id ops payload type context =>
      TicketObject.construct_plain x id ops payload type context
  | ConstructTicketContent x id ops payload type context size data =>
      TicketObject.construct_content x id ops payload type context size data
  | CopyConstructTicket x y => TicketObject.copy_construct x y
  | DestroyTicket x => TicketObject.destroy x
  end.

End Programs.

(** Calls one after the other. *)
Fixpoint run_each {C S} (run : C -> M S unit) (calls : list C) : M S unit :=
  match calls with
  | [] => mret tt
  | call :: calls => _ ← run call; run_each run calls
  end.

(** On values there are no blocks: each name has a value of its own. *)
Section Values.
Context {V : Type}.

Definition value (x : nat) : M (gmap nat V) V :=
  vs ← gets id;
  match vs !! x with
  | Some v => mret v
  | None => crash_with (UndefinedBehaviour "object out of its lifetime")
  end.

Definition construct_value (x : nat) (v : V) : M (gmap nat V) unit :=
  vs ← gets id;
  match vs !! x with
  | Some _ => crash_with (UndefinedBehaviour "storage of a live object")
  | None => modify (insert x v)
  end.

Definition update_value (x : nat) (v : V) : M (gmap nat V) unit := modify (insert x v).
Definition finish_value (x : nat) : M (gmap nat V) unit := _ ← value x; modify (delete x).

End Values.

(** What is left of a result without content, and of one that was moved from. *)
Definition without_content (r : Result.t) : Result.t :=
  Result.mk (Result.m_ticket_id r) (Result.m_result_status r) false 0 None.

Definition run_result_value (call : result_call) : M (gmap nat Result.t) unit :=
  match call with
  | ConstructResult x => construct_value x Result.default
  | ConstructResultId x id => construct_value x (Result.of_ticket id)
  | ConstructResultStatus x id status => construct_value x (Result.mk id status false 0 None)
  | ConstructResultContent x id status has size buffer =>
      bytes ← memcpy buffer size;
      construct_value x (Result.mk id status has size (Some bytes))
  | CopyConstructResult x y =>
      r ← value y; copied ← Result.copy r; construct_value x copied
  | MoveConstructResult x y =>
      r ← value y;
      if Result.m_has_content r
      then _ ← construct_value x r; update_value y Result.default
      else construct_value x (without_content r)
  | CopyAssignResult x y =>
      _ ← value x; r ← value y;
      if bool_decide (x = y) then mret tt else copied ← Result.copy r; update_value x copied
  | MoveAssignResult x y =>
      _ ← value x; r ← value y;
      if bool_decide (x = y) then mret tt
      else
        _ ← update_value x (if Result.m_has_content r then r else without_content r);
        update_value y Result.default
  | DestroyResult x => finish_value x
  | SetTicketId x id => r ← value x; update_value x (Result.set_ticket_id id r)
  | SetResultStatus x status => r ← value x; update_value x (Result.set_result_status status r)
  | SetHasContent x has => r ← value x; update_value x (Result.set_has_content has r)
  | SetContentSize x size => r ← value x; update_value x (Result.set_content_size size r)
  | SetContent x size buffer =>
      r ← value x; changed ← Result.set_content size buffer r; update_value x changed
  end.

Definition run_ticket_value (call : ticket_call) : M (gmap nat Ticket.t) unit :=
  match call with
  | ConstructTicket x => construct_value x Ticket.default
  | ConstructTicketPlain x id ops payload type context =>
      construct_value x (Ticket.make id ops payload type context)
  | ConstructTicketContent x id ops payload type context size data =>
      ticket ← Ticket_make_content id ops payload type context size data;
      construct_value x ticket
  | CopyConstructTicket x y =>
      ticket ← value y;
      copied ← Ticket_make_content (Ticket.m_ticket_id ticket) (Ticket.m_operations ticket)
                 (Ticket.m_payload ticket) (Ticket.m_operation_type ticket)
                 (Ticket.m_operation_context ticket) (Ticket.m_buffer_size ticket)
                 (Ticket.m_buffer ticket);
      construct_value x copied
  | DestroyTicket x => finish_value x
  end.

(** ** Ownership *)

Section Ownership.
Context `{RawMemory} {T V : Type} `{Owner T V}.

Record owned (s : store T) : Prop := {
  owned_live : forall x o b, objects s !! x = Some o -> pointer_of o = Some b -> is_Some (blocks s !! b);
  owned_once : forall x y o o' b, objects s !! x = Some o -> objects s !! y = Some o' ->
    pointer_of o = Some b -> pointer_of o' = Some b -> x = y;
  owned_next : forall b, is_Some (blocks s !! b) -> (b < next_block s)%nat;
}.

Definition value_in (bs : gmap nat (list Z)) (o : T) : V :=
  with_contents (pointer_of o ≫= fun b => bs !! b) o.

Definition values (s : store T) : gmap nat V := value_in (blocks s) <$> objects s.

(** The pointer that an object under a name has, when there is one. *)
Definition pointer_at (s : store T) (x : nat) : option nat := objects s !! x ≫= pointer_of.

(** A block that no object owns any more: nothing will free it. *)
Definition orphan (s : store T) (b : nat) : Prop :=
  is_Some (blocks s !! b) /\ forall x, pointer_at s x <> Some b.

Definition drops (dropped : list nat) (s s' : store T) : Prop :=
  forall b, orphan s' b <-> orphan s b \/ b ∈ dropped.

(** A computation on the store is one on the values, keeps ownership and drops
    the given blocks. *)
Definition simulates (m : M (store T) unit) (m' : M (gmap nat V) unit)
    (dropped : store T -> list nat) : Prop :=
  forall s n, owned s ->
  match m s n with
  | Ok _ s' n' => owned s' /\ m' (values s) n = Ok tt (values s') n' /\ drops (dropped s) s s'
  | Raise _ _ _ => False
  | Crash c => m' (values s) n = Crash c
  end.

(** Another object under a name, blocks changed that the other objects do not
    own. *)
Lemma replace_object s x o bs nx : owned s ->
  (forall y o' b, y <> x -> objects s !! y = Some o' -> pointer_of o' = Some b -> bs !! b = blocks s !! b) ->
  (forall b, pointer_of o = Some b -> is_Some (bs !! b) /\
     forall y o', y <> x -> objects s !! y = Some o' -> pointer_of o' <> Some b) ->
  (forall b, is_Some (bs !! b) -> (b < nx)%nat) ->
  owned (mkStore bs nx (<[x := o]> (objects s))) /\
  values (mkStore bs nx (<[x := o]> (objects s))) = <[x := value_in bs o]> (values s).
Proof.
  intros Ho Hframe Hnew Hnx. split.
  - constructor; simpl.
    + intros y o' b [[<- <-]|[Hne Hy]]%lookup_insert_Some Hb; [by apply Hnew|].
      rewrite (Hframe y o' b); [by eapply owned_live|done..].
    + intros y z o1 o2 b [[<- <-]|[Hy Hl]]%lookup_insert_Some [[<- <-]|[Hz Hl']]%lookup_insert_Some H1 H2.
      * done.
      * by destruct (proj2 (Hnew b H1) z o2 ltac:(congruence) Hl' H2).
      * by destruct (proj2 (Hnew b H2) y o1 ltac:(congruence) Hl H1).
      * by eapply (owned_once s Ho).
    + exact Hnx.
  - unfold values. cbn [blocks objects]. apply map_eq. intros y. rewrite lookup_fmap.
    destruct (decide (y = x)) as [->|Hne]; [by rewrite !lookup_insert_eq|].
    rewrite !lookup_insert_ne by done. rewrite lookup_fmap.
    destruct (objects s !! y) as [o'|] eqn:Hy; [|done]. cbn. f_equal. unfold value_in.
    destruct (pointer_of o') as [b|] eqn:Hb; [|done]. cbn. f_equal. by eapply Hframe.
Qed.

(** The blocks without the one a pointer leads to. *)
Definition without (pointer : option nat) (bs : gmap nat (list Z)) : gmap nat (list Z) :=
  match pointer with Some b => delete b bs | None => bs end.

Lemma others_differ s x y o b : owned s -> objects s !! y = Some o -> pointer_of o = Some b ->
  y <> x -> pointer_at s x <> Some b.
Proof.
  intros Ho Hy Hb Hne Hx. unfold pointer_at in Hx. destruct (objects s !! x) as [o'|] eqn:Hl; [|done].
  apply Hne. by eapply (owned_once s Ho).
Qed.

Lemma without_ne s x y o b dead : owned s -> objects s !! y = Some o -> pointer_of o = Some b ->
  y <> x -> dead = None \/ dead = pointer_at s x -> without dead (blocks s) !! b = blocks s !! b.
Proof.
  intros Ho Hy Hb Hne [->| ->]; [done|]. unfold without.
  destruct (pointer_at s x) as [b'|] eqn:Hx; [|done]. apply lookup_delete_ne. intros ->.
  by eapply others_differ.
Qed.

Lemma without_some (s : store T) dead b : is_Some (without dead (blocks s) !! b) -> is_Some (blocks s !! b).
Proof.
  destruct dead as [b'|]; [|done]. simpl. intros [y [_ Hy]%lookup_delete_Some]. eauto.
Qed.

Lemma pointer_live s x b : owned s -> pointer_at s x = Some b -> is_Some (blocks s !! b).
Proof.
  unfold pointer_at. intros Ho Hx. destruct (objects s !! x) as [o|] eqn:Hl; [|done].
  by eapply (owned_live s Ho).
Qed.

Lemma pointer_once s x y b : owned s -> pointer_at s x = Some b -> pointer_at s y = Some b -> x = y.
Proof.
  unfold pointer_at. intros Ho Hx Hy. destruct (objects s !! x) as [o|] eqn:Hl; [|done].
  destruct (objects s !! y) as [o'|] eqn:Hl'; [|done]. by eapply (owned_once s Ho).
Qed.

Lemma pointer_insert bs nx (os : gmap nat T) x o z :
  pointer_at (mkStore bs nx (<[x := o]> os)) z =
  if decide (z = x) then pointer_of o else os !! z ≫= pointer_of.
Proof.
  unfold pointer_at. cbn [objects]. case_decide as Hz; [by subst; rewrite lookup_insert_eq|].
  by rewrite lookup_insert_ne.
Qed.

Lemma drops_refl s : drops [] s s.
Proof. intros b. split; [by left|]. by intros [?|?%not_elem_of_nil]. Qed.

Lemma drops_trans d1 d2 s1 s2 s3 : drops d1 s1 s2 -> drops d2 s2 s3 -> drops (d1 ++ d2) s1 s3.
Proof. intros H1 H2 b. rewrite (H2 b), (H1 b), elem_of_app. tauto. Qed.

(** An object whose block is freed or dropped, for a new one or for none. *)
Lemma replaced_drops s x o dead bs nx : owned s -> dead = None \/ dead = pointer_at s x ->
  (forall b, (b < next_block s)%nat -> bs !! b = without dead (blocks s) !! b) ->
  (forall b, pointer_of o = Some b -> b = next_block s) ->
  (forall b, is_Some (bs !! b) -> (b < next_block s)%nat \/ pointer_of o = Some b) ->
  drops (match dead with None => option_list (pointer_at s x) | Some _ => [] end) s
    (mkStore bs nx (<[x := o]> (objects s))).
Proof.
  intros Ho Hdead Hbs Hp Hnew b.
  assert (Hzx : forall z, z <> x -> pointer_at (mkStore bs nx (<[x := o]> (objects s))) z = pointer_at s z).
  { intros z Hz. rewrite pointer_insert. by case_decide. }
  assert (Hx : pointer_at (mkStore bs nx (<[x := o]> (objects s))) x = pointer_of o).
  { rewrite pointer_insert. by case_decide. }
  split.
  - intros [Hb Hz]. cbn [blocks] in Hb. destruct (Hnew b Hb) as [Hlt|Ho']; [|by destruct (Hz x); rewrite Hx].
    rewrite Hbs in Hb by done. pose proof (without_some _ _ _ Hb) as Hs.
    destruct (decide (pointer_at s x = Some b)) as [Hpx|Hpx].
    + right. destruct Hdead as [->| ->]; [rewrite Hpx; apply list_elem_of_here|].
      exfalso. rewrite Hpx in Hb. cbn in Hb. rewrite lookup_delete_eq in Hb. by destruct Hb.
    + left. split; [done|]. intros z. destruct (decide (z = x)) as [->|Hne]; [done|]. by rewrite <- Hzx.
  - assert (Hlive : is_Some (blocks s !! b) -> dead <> Some b ->
      is_Some (bs !! b) /\ pointer_at (mkStore bs nx (<[x := o]> (objects s))) x <> Some b).
    { intros Hs Hd. pose proof (owned_next s Ho b Hs) as Hlt. split.
      - rewrite Hbs by done. destruct dead as [d|]; [|done]. cbn. rewrite lookup_delete_ne; [done|congruence].
      - rewrite Hx. intros Hb%Hp. lia. }
    intros [[Hs Hz]|Hin].
    + destruct (Hlive Hs) as [Hb Hbx]; [destruct Hdead as [->| ->]; done|]. split; [done|].
      intros z. destruct (decide (z = x)) as [->|Hne]; [done|]. by rewrite Hzx.
    + destruct dead as [d|]; [by apply not_elem_of_nil in Hin|].
      destruct (pointer_at s x) as [b'|] eqn:Hpx; [|by apply not_elem_of_nil in Hin].
      apply list_elem_of_singleton in Hin as ->.
      destruct (Hlive (pointer_live s x b' Ho Hpx)) as [Hb Hbx]; [done|]. split; [done|].
      intros z. destruct (decide (z = x)) as [->|Hne]; [done|]. rewrite Hzx by done.
      intros Hz. by destruct (Hne (pointer_once s z x b' Ho Hz Hpx)).
Qed.

(** An object with a new block, its old one freed or dropped. *)
Lemma fresh_object s x o dead bytes : owned s -> pointer_of o = Some (next_block s) ->
  dead = None \/ dead = pointer_at s x ->
  let s' := mkStore (<[next_block s := bytes]> (without dead (blocks s))) (S (next_block s))
              (<[x := o]> (objects s)) in
  owned s' /\ values s' = <[x := with_contents (Some bytes) o]> (values s) /\
  drops (match dead with None => option_list (pointer_at s x) | Some _ => [] end) s s'.
Proof.
  intros Ho Hp Hdead s'. subst s'.
  destruct (replace_object s x o (<[next_block s := bytes]> (without dead (blocks s)))
    (S (next_block s)) Ho) as [Ho' Hv].
  - intros y o' b Hne Hy Hb. assert (Hb' := owned_next s Ho b (owned_live s Ho _ _ _ Hy Hb)).
    rewrite lookup_insert_ne by lia. by eapply without_ne.
  - intros b Hb. rewrite Hp in Hb. injection Hb as <-.
    split; [rewrite lookup_insert_eq; eauto|]. intros y o' _ Hy Hb'.
    assert (Hlt := owned_next s Ho _ (owned_live s Ho _ _ _ Hy Hb')). lia.
  - intros b Hb. destruct (decide (b = next_block s)) as [->|Hne]; [lia|].
    rewrite lookup_insert_ne in Hb by done. apply without_some, (owned_next s Ho) in Hb. lia.
  - split; [exact Ho'|]. split.
    { rewrite Hv. f_equal. unfold value_in. rewrite Hp. cbn. by rewrite lookup_insert_eq. }
    apply replaced_drops; [done|done| |congruence|].
    + intros b Hb. rewrite lookup_insert_ne by lia. done.
    + intros b Hb. rewrite Hp. destruct (decide (b = next_block s)) as [->|Hne]; [by right|left].
      rewrite lookup_insert_ne in Hb by done. apply without_some, (owned_next s Ho) in Hb. lia.
Qed.

(** An object without a block, or with the one that it had. *)
Lemma same_blocks s x o : owned s -> pointer_of o = None \/ pointer_of o = pointer_at s x ->
  let s' := mkStore (blocks s) (next_block s) (<[x := o]> (objects s)) in
  owned s' /\ values s' = <[x := value_in (blocks s) o]> (values s) /\
  drops (match pointer_of o with None => option_list (pointer_at s x) | Some _ => [] end) s s'.
Proof.
  intros Ho Hp s'. rewrite (assoc and). split.
  2: { destruct (pointer_of o) as [b|] eqn:Hb.
       - destruct Hp as [Hp|Hp]; [done|]. intros c. unfold orphan. cbn [blocks s']. rewrite elem_of_nil.
         assert (Hz : forall z, pointer_at s' z = pointer_at s z).
         { intros z. unfold s'. rewrite pointer_insert. case_decide; [by subst; rewrite Hb|done]. }
         setoid_rewrite Hz. tauto.
       - apply (replaced_drops s x o None); [done|by left|done|congruence|].
         intros c Hc. left. by apply (owned_next s Ho). }
  apply replace_object; [done|done| |by apply owned_next].
  intros b Hb. destruct Hp as [Hp|Hp]; [congruence|]. rewrite Hp in Hb.
  split.
  - unfold pointer_at in Hb. destruct (objects s !! x) as [o'|] eqn:Hx; [|done].
    by eapply (owned_live s Ho x o' b).
  - intros y o' Hne Hy Hy'. by eapply others_differ.
Qed.

(** The end of a lifetime, its block freed. *)
Lemma finished_object s x : owned s ->
  let s' := mkStore (without (pointer_at s x) (blocks s)) (next_block s) (delete x (objects s)) in
  owned s' /\ values s' = delete x (values s) /\ drops [] s s'.
Proof.
  intros Ho s'. rewrite (assoc and). split.
  2: { intros b. rewrite elem_of_nil. unfold orphan. cbn [blocks s'].
       assert (Hx : pointer_at s' x = None) by (unfold pointer_at; cbn; by rewrite lookup_delete_eq).
       assert (Hz : forall z, z <> x -> pointer_at s' z = pointer_at s z).
       { intros z Hne. unfold pointer_at. cbn. by rewrite lookup_delete_ne. }
       split; [intros [Hb Ha]; left; split; [by eapply without_some|]|intros [[Hb Ha]|[]]; split].
       - intros z. destruct (decide (z = x)) as [->|Hne]; [|by rewrite <- Hz].
         intros Hp. rewrite Hp in Hb. cbn in Hb. rewrite lookup_delete_eq in Hb. by destruct Hb.
       - destruct (pointer_at s x) as [d|] eqn:Hp; [|done]. cbn. rewrite lookup_delete_ne; [done|].
         intros ->. by apply (Ha x).
       - intros z. destruct (decide (z = x)) as [->|Hne]; [by rewrite Hx|by rewrite Hz]. }
  subst s'. split; [constructor; cbn [objects blocks next_block]|].
  - intros y o b [Hne Hy]%lookup_delete_Some Hb.
    erewrite without_ne by (done || eauto). by eapply owned_live.
  - intros y z o o' b [_ Hy]%lookup_delete_Some [_ Hz]%lookup_delete_Some. by apply (owned_once s Ho).
  - intros b Hb%without_some. by apply owned_next.
  - unfold values. cbn [objects blocks]. apply map_eq. intros y. rewrite lookup_fmap.
    destruct (decide (y = x)) as [->|Hne]; [by rewrite !lookup_delete_eq|].
    rewrite !lookup_delete_ne by done. rewrite lookup_fmap.
    destruct (objects s !! y) as [o|] eqn:Hy; [|done]. cbn. f_equal. unfold value_in.
    destruct (pointer_of o) as [b|] eqn:Hb; [|done]. cbn. f_equal. eapply without_ne; eauto.
Qed.

(** ** The calls on blocks *)

Definition copied (data : option (list Z)) (size : Z) : list Z + crash :=
  match memcpy (S := unit) data size tt O with
  | Ok bytes _ _ => inl bytes
  | Crash c => inr c
  | Raise _ _ _ => inr OutOfFuel
  end.

Lemma memcpy_copied {S} data size (s : S) n :
  memcpy data size s n = match copied data size with inl bytes => Ok bytes s n | inr c => Crash c end.
Proof. unfold copied, memcpy. destruct data; [|by destruct (_ =? _)]. by destruct (_ <? _). Qed.

Lemma copied_length data size bytes : copied data size = inl bytes -> length bytes = Z.to_nat size.
Proof.
  unfold copied, memcpy. destruct data as [l|].
  - destruct (Z.ltb_spec (Z.of_nat (length l)) size); [done|]. intros [= <-]. rewrite length_take. lia.
  - destruct (Z.eqb_spec size 0) as [->|]; [|done]. by intros [= <-].
Qed.

Definition data_of (source : Source) (bs : gmap nat (list Z)) : option (list Z) :=
  match source with from_caller bytes => bytes | from_block pointer => pointer ≫= fun b => bs !! b end.

Definition readable (source : Source) (s : store T) : Prop :=
  match source with
  | from_block (Some b) => is_Some (blocks s !! b) /\ (b < next_block s)%nat
  | _ => True
  end.

(** A new block with a copy of the source. *)
Lemma filled {B} source size (k : nat -> M (store T) B) s n : readable source s ->
  (new_array size ≫= fun b => copy_to b source size ≫= fun _ => k b) s n =
  match copied (data_of source (blocks s)) size with
  | inl bytes => k (next_block s)
      (mkStore (<[next_block s := bytes]> (blocks s)) (S (next_block s)) (objects s)) n
  | inr c => Crash c
  end.
Proof.
  intros Hr. unfold new_array at 1, mbind at 1, M_bind at 1. cbn [next_block blocks objects].
  set (raw := raw_byte (next_block s) <$> seq 0 (Z.to_nat size)).
  set (s1 := mkStore (<[next_block s := raw]> (blocks s)) (S (next_block s)) (objects s)).
  assert (Hraw : length raw = Z.to_nat size) by (unfold raw; by rewrite length_fmap, length_seq).
  assert (Hread : read_source source size s1 n =
    match copied (data_of source (blocks s)) size with inl bytes => Ok bytes s1 n | inr c => Crash c end).
  { destruct source as [bytes|[b|]]; cbn [read_source data_of mbind option_bind]; [apply memcpy_copied| |apply memcpy_copied].
    destruct Hr as [[bytes Hb] Hlt]. rewrite gets_bind. unfold id, s1. cbn [blocks].
    rewrite lookup_insert_ne by lia. rewrite Hb. apply memcpy_copied. }
  destruct (copied _ size) as [bytes|c] eqn:Hc.
  - rewrite (bind_Ok _ _ s1 n tt (mkStore (<[next_block s := bytes]> (blocks s)) (S (next_block s))
      (objects s)) n); [done|].
    apply copied_length in Hc. unfold copy_to. rewrite (bind_Ok _ _ _ _ _ _ _ Hread), gets_bind.
    unfold id. change (blocks s1) with (<[next_block s := raw]> (blocks s)).
    rewrite lookup_insert_eq, Hraw. rewrite (proj2 (Z.ltb_ge _ _)) by lia.
    rewrite drop_ge, app_nil_r by lia. unfold modify, set_blocks, s1. cbn. by rewrite insert_insert_eq.
  - apply bind_Crash. unfold copy_to. by apply bind_Crash.
Qed.

(** ** The calls on objects *)

Definition lifetime : crash := UndefinedBehaviour "object out of its lifetime".
Definition occupied : crash := UndefinedBehaviour "storage of a live object".

Lemma object_bind {B} x (k : T -> M (store T) B) s n :
  (object x ≫= k) s n = match objects s !! x with Some o => k o s n | None => Crash lifetime end.
Proof.
  unfold object. unfold mbind at 1, M_bind at 1. rewrite gets_bind. unfold id.
  by destruct (objects s !! x).
Qed.

Lemma value_bind {B} x (k : V -> M (gmap nat V) B) (s : store T) n :
  (value x ≫= k) (values s) n =
  match objects s !! x with
  | Some o => k (value_in (blocks s) o) (values s) n
  | None => Crash lifetime
  end.
Proof.
  unfold value. unfold mbind at 1, M_bind at 1. rewrite gets_bind. unfold id, values.
  rewrite lookup_fmap. by destruct (objects s !! x).
Qed.

Lemma construct_run x o (s : store T) n :
  construct x o s n =
  match objects s !! x with
  | Some _ => Crash occupied
  | None => Ok tt (mkStore (blocks s) (next_block s) (<[x := o]> (objects s))) n
  end.
Proof. unfold construct. rewrite gets_bind. unfold id. by destruct (objects s !! x). Qed.

Lemma construct_value_run x v (s : store T) n :
  construct_value x v (values s) n =
  match objects s !! x with
  | Some _ => Crash occupied
  | None => Ok tt (<[x := v]> (values s)) n
  end.
Proof.
  unfold construct_value. rewrite gets_bind. unfold id, values. rewrite lookup_fmap.
  by destruct (objects s !! x).
Qed.

Lemma delete_run x o (s : store T) n : owned s -> objects s !! x = Some o ->
  delete_array (pointer_of o) s n =
  Ok tt (mkStore (without (pointer_at s x) (blocks s)) (next_block s) (objects s)) n.
Proof.
  intros Ho Hx. unfold pointer_at. rewrite Hx. cbn. destruct (pointer_of o) as [b|] eqn:Hb; [|by destruct s].
  cbn. rewrite gets_bind. unfold id. by destruct (owned_live s Ho x o b Hx Hb) as [bytes ->].
Qed.

Lemma readable_own s x o : owned s -> objects s !! x = Some o -> readable (from_block (pointer_of o)) s.
Proof.
  intros Ho Hx. simpl. destruct (pointer_of o) as [b|] eqn:Hb; [|done].
  pose proof (owned_live s Ho x o b Hx Hb). split; [done|]. by apply owned_next.
Qed.

(** *** The calls that all classes have *)

Lemma construct_simulates x o v : pointer_of o = None -> with_contents None o = v ->
  simulates (construct x o) (construct_value x v) (fun _ => []).
Proof.
  intros Hp Hv s n Ho. rewrite construct_run. destruct (objects s !! x) as [o'|] eqn:Hx.
  - by rewrite construct_value_run, Hx.
  - destruct (same_blocks s x o Ho (or_introl Hp)) as (Ho' & Hvs & Hd). split; [done|].
    rewrite construct_value_run, Hx, Hvs. rewrite Hp in Hd. unfold pointer_at in Hd. rewrite Hx in Hd.
    split; [|exact Hd]. unfold value_in. rewrite Hp. cbn. by rewrite Hv.
Qed.

(** A constructor that copies a buffer. *)
Lemma construct_filled x source size (o : nat -> T) s n : owned s -> readable source s ->
  (forall b, pointer_of (o b) = Some b) ->
  match (new_array size ≫= fun b => copy_to b source size ≫= fun _ => construct x (o b)) s n with
  | Ok _ s' n' => owned s' /\ exists bytes, copied (data_of source (blocks s)) size = inl bytes /\
      objects s !! x = None /\ n' = n /\
      values s' = <[x := with_contents (Some bytes) (o (next_block s))]> (values s) /\ drops [] s s'
  | Raise _ _ _ => False
  | Crash c => copied (data_of source (blocks s)) size = inr c \/
      (exists bytes, copied (data_of source (blocks s)) size = inl bytes) /\
      is_Some (objects s !! x) /\ c = occupied
  end.
Proof.
  intros Ho Hr Hp. rewrite (filled source size (fun b => construct x (o b)) s n Hr).
  destruct (copied _ size) as [bytes|c]; [|by left]. rewrite construct_run. cbn [objects].
  destruct (objects s !! x) as [o'|] eqn:Hx; [right; eauto|].
  destruct (fresh_object s x (o (next_block s)) None bytes Ho (Hp _) (or_introl eq_refl)) as (Ho' & Hv & Hd).
  split; [exact Ho'|]. exists bytes. unfold pointer_at in Hd. rewrite Hx in Hd. by rewrite <- Hv.
Qed.

Lemma finish_simulates x :
  simulates (object x ≫= fun o => delete_array (pointer_of o) ≫= fun _ => finish x) (finish_value x) (fun _ => []).
Proof.
  intros s n Ho. rewrite object_bind. unfold finish_value.
  rewrite value_bind. destruct (objects s !! x) as [o|] eqn:Hx; [|done].
  rewrite (bind_Ok _ _ _ _ _ _ _ (delete_run x o s n Ho Hx)). unfold finish, modify.
  destruct (finished_object s x Ho) as (Ho' & Hv & Hd). split; [exact Ho'|]. unfold set_objects_. cbn.
  split; [by rewrite <- Hv|exact Hd].
Qed.

(** A member that is not the buffer. *)
Lemma update_simulates x (f : T -> T) (g : V -> V) :
  (forall o, pointer_of (f o) = pointer_of o) ->
  (forall contents o, with_contents contents (f o) = g (with_contents contents o)) ->
  simulates (object x ≫= fun o => update x (f o)) (value x ≫= fun v => update_value x (g v))
    (fun _ => []).
Proof.
  intros Hp Hg s n Ho. rewrite object_bind, value_bind.
  destruct (objects s !! x) as [o|] eqn:Hx; [|done]. unfold update, update_value, modify.
  destruct (same_blocks s x (f o) Ho) as (Ho' & Hv & Hd).
  { right. unfold pointer_at. rewrite Hx. by rewrite Hp. }
  split; [exact Ho'|]. unfold set_objects_. rewrite Hv.
  split; [f_equal; f_equal; unfold value_in; by rewrite Hp, Hg|].
  revert Hd. unfold pointer_at. rewrite Hx, Hp. cbn. by destruct (pointer_of o).
Qed.

(** The block of [y] goes to [x], and the one of [x], when it has one, is freed. *)
Lemma moved s x y r o cleared dead : owned s -> x <> y -> objects s !! y = Some r ->
  pointer_of o = pointer_of r -> pointer_of cleared = None -> dead = pointer_at s x ->
  let s' := mkStore (without dead (blocks s)) (next_block s) (<[y := cleared]> (<[x := o]> (objects s))) in
  owned s' /\
  values s' = <[y := with_contents None cleared]>
    (<[x := with_contents (pointer_of r ≫= fun b => blocks s !! b) o]> (values s)) /\
  drops [] s s'.
Proof.
  intros Ho Hxy Hy Hp Hc Hdead s'. rewrite (assoc and). split.
  2: { intros b. rewrite elem_of_nil. unfold orphan. cbn [blocks s']. subst dead.
       assert (Hpy : pointer_at s' y = None) by (unfold s'; rewrite pointer_insert; by case_decide).
       assert (Hpx : pointer_at s' x = pointer_at s y).
       { unfold s'. rewrite pointer_insert. case_decide; [done|]. rewrite lookup_insert_eq. cbn.
         unfold pointer_at. by rewrite Hy. }
       assert (Hz : forall z, z <> x -> z <> y -> pointer_at s' z = pointer_at s z).
       { intros z Hzx Hzy. unfold s'. rewrite pointer_insert. case_decide; [done|].
         by rewrite lookup_insert_ne. }
       split; [intros [Hb Ha]; left; split; [by eapply without_some|]|intros [[Hb Ha]|[]]; split].
       - intros z. destruct (decide (z = x)) as [->|Hzx].
         { intros Hd. rewrite Hd in Hb. cbn in Hb. rewrite lookup_delete_eq in Hb. by destruct Hb. }
         destruct (decide (z = y)) as [->|Hzy]; [by rewrite <- Hpx|by rewrite <- Hz].
       - destruct (pointer_at s x) as [d|] eqn:Hd; [|done]. cbn. rewrite lookup_delete_ne; [done|].
         intros ->. by apply (Ha x).
       - intros z. destruct (decide (z = y)) as [->|Hzy]; [by rewrite Hpy|].
         destruct (decide (z = x)) as [->|Hzx]; [by rewrite Hpx|by rewrite Hz]. }
  assert (Hdead0 : dead = None \/ dead = pointer_at s x) by (by right). clear Hdead. rename Hdead0 into Hdead.
  subst s'. rewrite !(insert_insert_ne _ y x) by done.
  destruct (same_blocks s y cleared Ho (or_introl Hc)) as (Ha & Hva & _).
  set (sa := mkStore (blocks s) (next_block s) (<[y := cleared]> (objects s))) in *.
  assert (Hdead' : dead = None \/ dead = pointer_at sa x).
  { destruct Hdead as [->| ->]; [by left|right]. unfold pointer_at, sa. cbn [objects].
    by rewrite lookup_insert_ne. }
  destruct (replace_object sa x o (without dead (blocks s)) (next_block s) Ha) as [Ho' Hv].
  - intros z o' b Hne Hz Hb. by eapply (without_ne sa).
  - intros b Hb. rewrite Hp in Hb. split.
    + rewrite (without_ne s x y r b dead) by (done || congruence). by eapply (owned_live s Ho).
    + intros z o' Hne Hz Hb'. unfold sa in Hz. cbn [objects] in Hz.
      apply lookup_insert_Some in Hz as [[<- <-]|[Hyz Hz]]; [congruence|].
      apply Hyz. by eapply (owned_once s Ho).
  - intros b Hb%without_some. by apply (owned_next s Ho).
  - split; [exact Ho'|]. cbn [objects next_block sa] in Hv. rewrite Hv, Hva. f_equal; [|f_equal].
    + unfold value_in. rewrite Hp. destruct (pointer_of r) as [b|] eqn:Hb; [|done]. cbn. f_equal.
      apply (without_ne s x y r b dead); done || congruence.
    + unfold value_in. by rewrite Hc.
Qed.

End Ownership.

(** ** Results behave as values *)

(** The ends of the run of the goal. *)
Ltac run_cases s n :=
  match goal with |- match ?m s n with _ => _ end => destruct (m s n) as [u s' n'|e s' n'|c] end.

Section Results.
Context `{RawMemory}.
Import ResultObject.

Lemma construct_content_simulates x id status has size buffer :
  simulates (construct_content x id status has size buffer)
    (run_result_value (ConstructResultContent x id status has size buffer)) (fun _ => []).
Proof.
  intros s n Ho. unfold construct_content.
  pose proof (construct_filled x (from_caller buffer) size (fun b => mk id status has size (Some b)) s n
    Ho I (fun _ => eq_refl)) as Hf.
  cbv beta in Hf. run_cases s n; [|done|]; cbn [run_result_value data_of] in *.
  - destruct Hf as (Ho' & bytes & Hb & Hx & -> & Hv & Hd). split; [exact Ho'|]. split; [|exact Hd].
    unfold mbind, M_bind. rewrite memcpy_copied, Hb, construct_value_run, Hx. by rewrite Hv.
  - unfold mbind, M_bind. rewrite memcpy_copied. destruct Hf as [->|([bytes ->] & [o Hx] & ->)]; [done|].
    by rewrite construct_value_run, Hx.
Qed.

(** The value of a result, member by member. *)
Lemma value_has bs (r : t) : Result.m_has_content (value_in bs r) = m_has_content r.
Proof. done. Qed.

(** The blocks that a call leaves without an owner. *)
Definition dropped_by (call : result_call) (s : store t) : list nat :=
  match call with
  | CopyAssignResult x y =>
      if bool_decide (x = y) then []
      else match objects s !! y with
           | Some r => if m_has_content r then [] else option_list (pointer_at s x)
           | None => []
           end
  | MoveAssignResult x y =>
      if bool_decide (x = y) then []
      else match objects s !! y with
           | Some r => if m_has_content r then []
                       else option_list (pointer_at s x) ++ option_list (pointer_at s y)
           | None => []
           end
  | SetContent x _ _ =>
      match objects s !! x with
      | Some r => if m_has_content r then option_list (pointer_at s x) else []
      | None => []
      end
  | _ => []
  end.

(** What a copy of a result is. *)
Definition copy_with (contents : option (list Z)) (r : t) : Result.t :=
  Result.mk (m_ticket_id r) (m_result_status r) true (m_content_size r) contents.

Lemma copy_value bs (r : t) {S B} (k : Result.t -> M S B) (s : S) n :
  (Result.copy (value_in bs r) ≫= k) s n =
  if m_has_content r then
    match copied (data_of (from_block (m_content r)) bs) (m_content_size r) with
    | inl bytes => k (copy_with (Some bytes) r) s n
    | inr c => Crash c
    end
  else k (without_content (value_in bs r)) s n.
Proof.
  unfold Result.copy. rewrite value_has. destruct (m_has_content r); [|done].
  unfold mbind, M_bind. rewrite memcpy_copied.
  by destruct (copied _ _).
Qed.

Lemma copy_construct_simulates x y :
  simulates (copy_construct x y) (run_result_value (CopyConstructResult x y))
    (dropped_by (CopyConstructResult x y)).
Proof.
  intros s n Ho. unfold copy_construct. rewrite object_bind. cbn [run_result_value]. rewrite value_bind.
  destruct (objects s !! y) as [r|] eqn:Hy; [|done]. rewrite copy_value.
  destruct (m_has_content r) eqn:Hhas.
  - pose proof (construct_filled x (from_block (m_content r)) (m_content_size r)
      (fun b => mk (m_ticket_id r) (m_result_status r) true (m_content_size r) (Some b)) s n
      Ho (readable_own s y r Ho Hy) (fun _ => eq_refl)) as Hf.
    cbv beta in Hf. run_cases s n; [|done|].
    + destruct Hf as (Ho' & bytes & Hb & Hx & -> & Hv & Hd). split; [exact Ho'|]. split; [|exact Hd].
      by rewrite Hb, construct_value_run, Hx, Hv.
    + destruct Hf as [->|([bytes ->] & [o Hx] & ->)]; [done|]. by rewrite construct_value_run, Hx.
  - by apply construct_simulates.
Qed.

Lemma move_construct_simulates x y :
  simulates (move_construct x y) (run_result_value (MoveConstructResult x y))
    (dropped_by (MoveConstructResult x y)).
Proof.
  intros s n Ho. unfold move_construct. rewrite object_bind. cbn [run_result_value]. rewrite value_bind.
  destruct (objects s !! y) as [r|] eqn:Hy; [|done]. rewrite value_has.
  destruct (m_has_content r) eqn:Hhas; [|by apply construct_simulates].
  unfold mbind, M_bind. rewrite construct_run, construct_value_run.
  destruct (objects s !! x) as [o|] eqn:Hx; [done|]. unfold update, update_value, modify, set_objects_.
  cbn [blocks next_block objects].
  destruct (moved s x y r (mk (m_ticket_id r) (m_result_status r) true (m_content_size r) (m_content r))
    (mk 0 no_result false 0 None) None Ho) as (Ho' & Hv & Hd);
    [congruence|done|done|done|unfold pointer_at; by rewrite Hx|].
  split; [exact Ho'|]. split; [|exact Hd]. cbn [without] in Hv. rewrite Hv. f_equal. f_equal. f_equal. unfold value_in. cbn.
  by rewrite Hhas.
Qed.

Lemma copy_assign_simulates x y :
  simulates (copy_assign x y) (run_result_value (CopyAssignResult x y))
    (dropped_by (CopyAssignResult x y)).
Proof.
  intros s n Ho. unfold copy_assign. rewrite object_bind. cbn [run_result_value]. rewrite value_bind.
  destruct (objects s !! x) as [o|] eqn:Hx; [|done]. rewrite object_bind, value_bind.
  destruct (objects s !! y) as [r|] eqn:Hy; [|done].
  case_bool_decide as Hxy.
  { split; [done|]. split; [done|]. cbn [dropped_by]. rewrite bool_decide_eq_true_2 by done. apply drops_refl. }
  cbn [dropped_by]. rewrite bool_decide_eq_false_2, Hy by done. rewrite copy_value.
  destruct (m_has_content r) eqn:Hhas.
  - rewrite (bind_Ok _ _ _ _ _ _ _ (delete_run x o s n Ho Hx)).
    set (sd := mkStore (without (pointer_at s x) (blocks s)) (next_block s) (objects s)).
    assert (Hr : readable (from_block (m_content r)) sd /\
      data_of (from_block (m_content r)) (blocks sd) = data_of (from_block (m_content r)) (blocks s)).
    { pose proof (readable_own s y r Ho Hy) as Hr. cbn in Hr |- *.
      destruct (m_content r) as [b|] eqn:Hb; [|done]. unfold sd. cbn [blocks next_block mbind option_bind].
      rewrite (without_ne s x y r b (pointer_at s x)); [done|done|done|exact Hb|congruence|by right]. }
    destruct Hr as [Hr Hdata].
    rewrite (filled _ _ (fun b => update x (mk (m_ticket_id r) (m_result_status r) true
      (m_content_size r) (Some b))) sd n Hr), Hdata.
    destruct (copied _ _) as [bytes|c]; [|done]. unfold update, update_value, modify, set_objects_, sd.
    cbn [blocks next_block objects].
    destruct (fresh_object s x (mk (m_ticket_id r) (m_result_status r) true (m_content_size r)
      (Some (next_block s))) (pointer_at s x) bytes Ho eq_refl (or_intror eq_refl)) as (Ho' & Hv & Hd).
    split; [exact Ho'|]. split; [by rewrite Hv|]. by destruct (pointer_at s x).
  - unfold update, update_value, modify, set_objects_.
    destruct (same_blocks s x (mk (m_ticket_id r) (m_result_status r) false 0 None) Ho (or_introl eq_refl))
      as (Ho' & Hv & Hd). split; [exact Ho'|]. split; [by rewrite Hv|exact Hd].
Qed.

Lemma move_assign_simulates x y :
  simulates (move_assign x y) (run_result_value (MoveAssignResult x y))
    (dropped_by (MoveAssignResult x y)).
Proof.
  intros s n Ho. unfold move_assign. rewrite object_bind. cbn [run_result_value]. rewrite value_bind.
  destruct (objects s !! x) as [o|] eqn:Hx; [|done]. rewrite object_bind, value_bind.
  destruct (objects s !! y) as [r|] eqn:Hy; [|done].
  case_bool_decide as Hxy.
  { split; [done|]. split; [done|]. cbn [dropped_by]. rewrite bool_decide_eq_true_2 by done. apply drops_refl. }
  cbn [dropped_by]. rewrite bool_decide_eq_false_2, Hy by done. rewrite value_has. destruct (m_has_content r) eqn:Hhas.
  - pose proof (delete_run x o s n Ho Hx) as Hd. change (pointer_of o) with (m_content o) in Hd.
    unfold mbind, M_bind. rewrite Hd. unfold update, update_value, modify, set_objects_. cbn [blocks next_block objects].
    destruct (moved s x y r (mk (m_ticket_id r) (m_result_status r) true (m_content_size r) (m_content r))
      (mk 0 no_result false 0 None) (pointer_at s x) Ho Hxy Hy eq_refl eq_refl eq_refl)
      as (Ho' & Hv & Hdrop).
    split; [exact Ho'|]. split; [|exact Hdrop]. rewrite Hv. f_equal. f_equal. f_equal. unfold value_in. cbn. by rewrite Hhas.
  - unfold update, update_value, modify, set_objects_, mbind, M_bind. cbn [blocks next_block objects].
    destruct (same_blocks s x (mk (m_ticket_id r) (m_result_status r) false 0 None) Ho (or_introl eq_refl))
      as (Ho1 & Hv1 & Hd1).
    destruct (same_blocks _ y (mk 0 no_result false 0 None) Ho1 (or_introl eq_refl)) as (Ho2 & Hv2 & Hd2).
    split; [exact Ho2|]. cbn [blocks next_block objects] in Hv2. split; [by rewrite Hv2, Hv1|].
    pose proof (drops_trans _ _ _ _ _ Hd1 Hd2) as Hd. cbn [pointer_of result_owner m_content] in Hd.
    rewrite pointer_insert in Hd. by case_decide.
Qed.

(** The member first, or the copy first. *)
Lemma update_copy_swap x (f : nat -> t) buffer size (s : store t) n :
  (new_array size ≫= fun b => update x (f b) ≫= fun _ => copy_to b (from_caller buffer) size) s n =
  (new_array size ≫= fun b => copy_to b (from_caller buffer) size ≫= fun _ => update x (f b)) s n.
Proof.
  unfold new_array, update, copy_to, mbind, M_bind, modify, gets, id. cbn [read_source].
  rewrite !memcpy_copied. destruct (copied _ _); [|done]. cbn [blocks set_objects_].
  destruct (_ !! next_block s); [|done]. by destruct (_ <? _).
Qed.

Lemma set_content_simulates x size buffer :
  simulates (set_content x size buffer) (run_result_value (SetContent x size buffer))
    (dropped_by (SetContent x size buffer)).
Proof.
  intros s n Ho. unfold set_content. rewrite object_bind. cbn [run_result_value]. rewrite value_bind.
  destruct (objects s !! x) as [o|] eqn:Hx; [|done]. unfold Result.set_content. rewrite value_has.
  destruct (m_has_content o) eqn:Hhas.
  - rewrite update_copy_swap.
    rewrite (filled (from_caller buffer) size (fun b => update x (set_content_field (Some b) o)) s n I).
    unfold mbind, M_bind. rewrite memcpy_copied. cbn [data_of].
    destruct (copied _ _) as [bytes|c]; [|done]. unfold update, update_value, modify, set_objects_.
    cbn [blocks next_block objects].
    destruct (fresh_object s x (set_content_field (Some (next_block s)) o) None bytes Ho eq_refl
      (or_introl eq_refl)) as (Ho' & Hv & Hd). split; [exact Ho'|]. cbn [without] in Hv. rewrite Hv.
    split; [cbn; by rewrite Hhas|]. cbn [dropped_by]. by rewrite Hx, Hhas.
  - split; [done|]. cbn [dropped_by]. rewrite Hx, Hhas. split; [|apply drops_refl]. rewrite ret_bind. unfold update_value, modify. f_equal. unfold values.
    by rewrite <- fmap_insert, insert_id.
Qed.

Lemma set_content_size_simulates x size :
  simulates (set_content_size x size) (run_result_value (SetContentSize x size))
    (dropped_by (SetContentSize x size)).
Proof.
  intros s n Ho. unfold set_content_size. rewrite object_bind. cbn [run_result_value]. rewrite value_bind.
  destruct (objects s !! x) as [o|] eqn:Hx; [|done]. unfold Result.set_content_size. rewrite value_has.
  destruct (m_has_content o) eqn:Hhas; unfold update, update_value, modify, set_objects_.
  - destruct (same_blocks s x (mk (m_ticket_id o) (m_result_status o) true size (m_content o)) Ho)
      as (Ho' & Hv & Hd); [right; unfold pointer_at; by rewrite Hx|].
    split; [exact Ho'|]. split; [by rewrite Hv|].
    revert Hd. unfold pointer_at. rewrite Hx. cbn. by destruct (m_content o).
  - split; [done|]. split; [|apply drops_refl]. f_equal. unfold values. by rewrite <- fmap_insert, insert_id.
Qed.

Lemma result_simulates call :
  simulates (run_result call) (run_result_value call) (dropped_by call).
Proof.
  destruct call; cbn [run_result].
  - by apply construct_simulates.
  - by apply construct_simulates.
  - by apply construct_simulates.
  - apply construct_content_simulates.
  - apply copy_construct_simulates.
  - apply move_construct_simulates.
  - apply copy_assign_simulates.
  - apply move_assign_simulates.
  - exact (finish_simulates x).
  - by apply (update_simulates x (fun r => mk ticket_id (m_result_status r) (m_has_content r)
      (m_content_size r) (m_content r))).
  - by apply (update_simulates x (fun r => mk (m_ticket_id r) status (m_has_content r)
      (m_content_size r) (m_content r))).
  - by apply (update_simulates x (fun r => mk (m_ticket_id r) (m_result_status r) has_content
      (m_content_size r) (m_content r))).
  - apply set_content_size_simulates.
  - apply set_content_simulates.
Qed.

End Results.

(** ** Tickets, without the assignment *)

Section Tickets.
Context `{RawMemory}.
Import TicketObject.

Lemma ticket_simulates call : simulates (run_ticket call) (run_ticket_value call) (fun _ => []).
Proof.
  destruct call; cbn [run_ticket].
  - by apply construct_simulates.
  - by apply construct_simulates.
  - intros s n Ho. unfold construct_content.
    pose proof (construct_filled x (from_caller data) size
      (fun b => mk ticket_id total_operations payload type context size (Some b)) s n Ho I
      (fun _ => eq_refl)) as Hf.
    cbv beta in Hf. run_cases s n; [|done|]; cbn [run_ticket_value data_of] in *;
      unfold Ticket_make_content, mbind, M_bind; rewrite memcpy_copied.
    + destruct Hf as (Ho' & bytes & Hb & Hx & -> & Hv & Hd). split; [exact Ho'|]. split; [|exact Hd].
      rewrite Hb. unfold mret, M_ret. by rewrite construct_value_run, Hx, Hv.
    + destruct Hf as [->|([bytes ->] & [o Hx] & ->)]; [done|]. unfold mret, M_ret.
      by rewrite construct_value_run, Hx.
  - intros s n Ho. unfold copy_construct. rewrite object_bind. cbn [run_ticket_value]. rewrite value_bind.
    destruct (objects s !! y) as [r|] eqn:Hy; [|done].
    pose proof (construct_filled x (from_block (m_buffer r)) (m_buffer_size r)
      (fun b => set_buffer (Some b) r) s n Ho (readable_own s y r Ho Hy) (fun _ => eq_refl)) as Hf.
    cbv beta in Hf. run_cases s n; [|done|];
      unfold Ticket_make_content, mbind, M_bind; rewrite memcpy_copied;
      change (Ticket.m_buffer (value_in (blocks s) r)) with (data_of (from_block (m_buffer r)) (blocks s));
      change (Ticket.m_buffer_size (value_in (blocks s) r)) with (m_buffer_size r).
    + destruct Hf as (Ho' & bytes & Hb & Hx & -> & Hv & Hd). split; [exact Ho'|]. split; [|exact Hd].
      rewrite Hb. unfold mret, M_ret. by rewrite construct_value_run, Hx, Hv.
    + destruct Hf as [->|([bytes ->] & [o Hx] & ->)]; [done|]. unfold mret, M_ret.
      by rewrite construct_value_run, Hx.
  - exact (finish_simulates x).
Qed.

End Tickets.

(** ** Programs *)

Definition empty_store {T} : store T := mkStore ∅ O ∅.

Section Sequences.
Context `{RawMemory} {T V : Type} `{Owner T V}.

Lemma empty_owned : owned (empty_store (T := T)).
Proof. constructor; simpl; intros *; rewrite ?lookup_empty; done || by intros []. Qed.

Lemma values_empty : values (empty_store (T := T)) = ∅.
Proof. unfold values. cbn. apply fmap_empty. Qed.

Lemma each_simulates {C} (run : C -> M (store T) unit) (run' : C -> M (gmap nat V) unit) dropped calls :
  (forall call, simulates (run call) (run' call) (dropped call)) -> forall s n, owned s ->
  keeps owned (run_each run calls s n) /\
  outcome_map values (run_each run calls s n) = run_each run' calls (values s) n.
Proof.
  intros Hsim. induction calls as [|call calls IH]; intros s n Ho; [done|].
  cbn [run_each]. pose proof (Hsim call s n Ho) as Hc. unfold mbind, M_bind.
  destruct (run call s n) as [[] s' n'|e s' n'|c]; [|done|by rewrite Hc].
  destruct Hc as (Ho' & -> & _). by apply IH.
Qed.

(** A program on values has no block to find freed. *)
Lemma values_unfreed {C} (run' : C -> M (gmap nat V) unit) calls :
  (forall call vs n, run' call vs n <> Crash freed_block) -> forall vs n,
  run_each run' calls vs n <> Crash freed_block.
Proof.
  intros Hrun. induction calls as [|call calls IH]; intros vs n; [done|]. cbn [run_each].
  pose proof (Hrun call vs n) as Hc. unfold mbind, M_bind.
  destruct (run' call vs n); [apply IH|done|congruence].
Qed.

Lemma unfreed {C} (run : C -> M (store T) unit) (run' : C -> M (gmap nat V) unit) dropped calls s n :
  (forall call, simulates (run call) (run' call) (dropped call)) ->
  (forall call vs n, run' call vs n <> Crash freed_block) -> owned s ->
  run_each run calls s n <> Crash freed_block.
Proof.
  intros Hsim Hrun Ho Hc. destruct (each_simulates run run' dropped calls Hsim s n Ho) as [_ Hv].
  rewrite Hc in Hv. by apply (values_unfreed run' calls Hrun (values s) n).
Qed.

End Sequences.

Lemma copied_unfreed data size : copied data size <> inr freed_block.
Proof. unfold copied, memcpy. destruct data; [by destruct (_ <? _)|by destruct (_ =? _)]. Qed.

Section ValueCrashes.
Context {V : Type}.

Lemma construct_value_unfreed x (v : V) vs n : construct_value x v vs n <> Crash freed_block.
Proof. unfold construct_value. rewrite gets_bind. by destruct (id vs !! x). Qed.

Lemma value_unfreed {B} x (k : V -> M (gmap nat V) B) vs n :
  (forall v, k v vs n <> Crash freed_block) -> (value x ≫= k) vs n <> Crash freed_block.
Proof.
  intros Hk. unfold value. unfold mbind at 1, M_bind at 1. rewrite gets_bind. unfold id.
  destruct (vs !! x); [apply Hk|done].
Qed.

Lemma memcpy_unfreed {B} data size (k : list Z -> M (gmap nat V) B) vs n :
  (forall bytes, k bytes vs n <> Crash freed_block) -> (memcpy data size ≫= k) vs n <> Crash freed_block.
Proof.
  intros Hk. unfold mbind, M_bind. rewrite memcpy_copied. pose proof (copied_unfreed data size).
  destruct (copied data size); [apply Hk|congruence].
Qed.

Lemma copy_unfreed {B} r (k : Result.t -> M (gmap nat V) B) vs n :
  (forall r', k r' vs n <> Crash freed_block) -> (Result.copy r ≫= k) vs n <> Crash freed_block.
Proof.
  intros Hk. unfold Result.copy. destruct (Result.m_has_content r); [|apply Hk].
  unfold mbind, M_bind. rewrite memcpy_copied. pose proof (copied_unfreed (Result.m_content r) (Result.m_content_size r)).
  destruct (copied _ _); [apply Hk|congruence].
Qed.

Lemma set_content_unfreed {B} size buffer r (k : Result.t -> M (gmap nat V) B) vs n :
  (forall r', k r' vs n <> Crash freed_block) ->
  (Result.set_content size buffer r ≫= k) vs n <> Crash freed_block.
Proof.
  intros Hk. unfold Result.set_content. destruct (Result.m_has_content r); [|apply Hk].
  unfold mbind, M_bind. rewrite memcpy_copied. pose proof (copied_unfreed buffer size).
  destruct (copied _ _); [apply Hk|congruence].
Qed.

End ValueCrashes.

Create HintDb unfreed.
#[export] Hint Resolve construct_value_unfreed value_unfreed memcpy_unfreed copy_unfreed
  set_content_unfreed : unfreed.

Lemma result_value_unfreed call vs n : run_result_value call vs n <> Crash freed_block.
Proof.
  destruct call; cbn [run_result_value]; auto with unfreed; apply value_unfreed; intros r; try done.
  - destruct (Result.m_has_content r); [|auto with unfreed].
    pose proof (construct_value_unfreed x r vs n). unfold mbind, M_bind.
    destruct (construct_value x r vs n); [done|done|congruence].
  - apply value_unfreed. intros r'. case_bool_decide; [done|]. by apply copy_unfreed.
  - apply value_unfreed. intros r'. by case_bool_decide.
Qed.

Lemma ticket_value_unfreed call vs n : run_ticket_value call vs n <> Crash freed_block.
Proof.
  destruct call; cbn [run_ticket_value]; auto with unfreed.
  - unfold Ticket_make_content. unfold mbind, M_bind. rewrite memcpy_copied.
    pose proof (copied_unfreed data size). destruct (copied _ _); [apply construct_value_unfreed|congruence].
  - apply value_unfreed. intros r. unfold Ticket_make_content, mbind, M_bind. rewrite memcpy_copied.
    pose proof (copied_unfreed (Ticket.m_buffer r) (Ticket.m_buffer_size r)).
    destruct (copied _ _); [apply construct_value_unfreed|congruence].
  - by apply value_unfreed.
Qed.

(** ** Theorems *)

Section Theorems.
Context `{RawMemory}.

(** The blocks that a program leaves without an owner, along its run. *)
Fixpoint dropped_along (calls : list result_call) (s : store ResultObject.t) (n : nat) : list nat :=
  match calls with
  | [] => []
  | call :: calls =>
      dropped_by call s ++
      match run_result call s n with
      | Ok _ s' n' => dropped_along calls s' n'
      | _ => []
      end
  end.

Lemma each_drops calls : forall s n u s' n', owned s ->
  run_each run_result calls s n = Ok u s' n' -> drops (dropped_along calls s n) s s'.
Proof.
  induction calls as [|call calls IH]; intros s n u s' n' Ho Hrun.
  - injection Hrun as <- <- <-. apply drops_refl.
  - cbn [run_each dropped_along] in *. pose proof (result_simulates call s n Ho) as Hc.
    unfold mbind, M_bind in Hrun. destruct (run_result call s n) as [[] s1 n1|e s1 n1|c]; [|done..].
    destruct Hc as (Ho1 & _ & Hd). eapply drops_trans; [exact Hd|]. by eapply IH.
Qed.

(** C31.  Results behave as values: whatever constructors, assignments, setters and
    destructors run, in any order, each result owns its block alone, no block is
    read or freed after it was freed, and the objects are, as values, what the same
    program leaves on values that share nothing. *)
Theorem results_are_values calls s n : owned s ->
  keeps owned (run_each run_result calls s n) /\
  run_each run_result calls s n <> Crash freed_block /\
  outcome_map values (run_each run_result calls s n) = run_each run_result_value calls (values s) n.
Proof.
  intros Ho.
  destruct (each_simulates run_result run_result_value dropped_by calls result_simulates s n Ho).
  split; [done|]. split; [|done].
  by eapply unfreed; [apply result_simulates|apply result_value_unfreed|].
Qed.

(** What results leak: after a program, the blocks that no result owns, which
    nothing can free, are exactly those dropped on the way: by the assignments from a
    result without content and by [set_content] over a content. *)
Theorem results_leak calls s' n n' :
  run_each run_result calls empty_store n = Ok tt s' n' ->
  forall b, is_Some (blocks s' !! b) /\ (forall x, pointer_at s' x <> Some b) <->
    b ∈ dropped_along calls empty_store n.
Proof.
  intros Hrun b. rewrite (each_drops calls _ _ _ _ _ empty_owned Hrun b).
  split; [|by right]. intros [[[? ?] _]|?]; done.
Qed.

(** Tickets behave as values without the assignment operator. *)
Theorem tickets_are_values calls s n : owned s ->
  keeps owned (run_each run_ticket calls s n) /\
  run_each run_ticket calls s n <> Crash freed_block /\
  outcome_map values (run_each run_ticket calls s n) = run_each run_ticket_value calls (values s) n.
Proof.
  intros Ho.
  destruct (each_simulates run_ticket run_ticket_value (fun _ _ => []) calls ticket_simulates s n Ho).
  split; [done|]. split; [|done].
  by eapply unfreed; [apply ticket_simulates|apply ticket_value_unfreed|].
Qed.

(** The destructor of a ticket with a buffer, and of two with the same one. *)
Lemma destroy_run x o b s n : objects s !! x = Some o -> TicketObject.m_buffer o = Some b ->
  TicketObject.destroy x s n =
  match blocks s !! b with
  | Some _ => Ok tt (mkStore (delete b (blocks s)) (next_block s) (delete x (objects s))) n
  | None => Crash freed_block
  end.
Proof.
  intros Hx Hb. unfold TicketObject.destroy. rewrite object_bind, Hx, Hb. cbn [delete_array].
  unfold mbind, M_bind, gets, id. by destruct (blocks s !! b).
Qed.

Lemma shared_freed_twice x y o ticket b s n : x <> y ->
  objects s !! x = Some o -> TicketObject.m_buffer o = Some b ->
  objects s !! y = Some ticket -> TicketObject.m_buffer ticket = Some b -> is_Some (blocks s !! b) ->
  run_each run_ticket [DestroyTicket x; DestroyTicket y] s n = Crash freed_block.
Proof.
  intros Hxy Hx Hb Hy Hb' [bytes Hl]. cbn [run_each run_ticket].
  rewrite (bind_Ok _ _ s n tt (mkStore (delete b (blocks s)) (next_block s) (delete x (objects s))) n)
    by (rewrite (destroy_run x o b) by done; by rewrite Hl).
  apply bind_Crash. rewrite (destroy_run y ticket b); [|cbn; by rewrite lookup_delete_ne|done].
  cbn. by rewrite lookup_delete_eq.
Qed.

(** C32.  The assignment operator of tickets: both share the buffer of the source, the
    block made for the target has no owner, and once one is destroyed the
    destructor of the other frees the buffer again. *)
Theorem assigned_ticket_freed_twice x y o ticket b s n :
  owned s -> x <> y -> objects s !! x = Some o -> objects s !! y = Some ticket ->
  TicketObject.m_buffer ticket = Some b ->
  exists s', TicketObject.copy_assign x y s n = Ok tt s' n /\
    orphan s' (next_block s) /\
    run_each run_ticket [DestroyTicket x; DestroyTicket y] s' n = Crash freed_block /\
    run_each run_ticket [DestroyTicket y; DestroyTicket x] s' n = Crash freed_block.
Proof.
  intros Ho Hxy Hx Hy Hb. unfold TicketObject.copy_assign. rewrite object_bind, Hx, object_bind, Hy.
  rewrite bool_decide_eq_false_2 by done. pose proof (delete_run x o s n Ho Hx) as Hd.
  change (pointer_of o) with (TicketObject.m_buffer o) in Hd. rewrite (bind_Ok _ _ _ _ _ _ _ Hd).
  eexists. split; [reflexivity|]. unfold update, modify, set_objects_. cbn [blocks next_block objects].
  set (s' := mkStore _ _ _).
  assert (Hlive : is_Some (blocks s' !! b)).
  { pose proof (owned_live s Ho y ticket b Hy Hb) as Hlive. unfold s'. cbn [blocks].
    rewrite lookup_insert_ne by (pose proof (owned_next s Ho b Hlive); lia).
    rewrite (without_ne s x y ticket b) by (done || congruence || by right). exact Hlive. }
  assert (Hx' : exists o', objects s' !! x = Some o' /\ TicketObject.m_buffer o' = Some b).
  { eexists. split; [unfold s'; cbn [objects]; apply lookup_insert_eq|]. exact Hb. }
  assert (Hy' : objects s' !! y = Some ticket).
  { unfold s'. cbn [objects]. by rewrite !lookup_insert_ne. }
  destruct Hx' as (o' & Hx' & Hb'). split; [|split].
  - split; [unfold s'; cbn [blocks]; rewrite lookup_insert_eq; eauto|].
    intros z Hz. unfold pointer_at in Hz. destruct (decide (z = x)) as [->|Hne].
    + rewrite Hx' in Hz. cbn in Hz. rewrite Hb' in Hz. injection Hz as ->.
      pose proof (owned_next s Ho _ (owned_live s Ho y ticket _ Hy Hb)). lia.
    + unfold s' in Hz. cbn [objects] in Hz. rewrite !lookup_insert_ne in Hz by done.
      pose proof (owned_next s Ho _ (pointer_live s z _ Ho Hz)). lia.
  - by apply (shared_freed_twice x y o' ticket b).
  - by apply (shared_freed_twice y x ticket o' b).
Qed.

End Theorems.

(** ** Witnesses *)

Definition zeroed : RawMemory := fun _ _ => 0.

(** A result with content, a copy whose content is changed, and a result that takes
    the content of the first and is then assigned one without content. *)
Definition sample_results : list result_call :=
  [ConstructResultContent 0 1 success true 2 (Some [7; 8]); CopyConstructResult 1 0;
   SetContent 1 3 (Some [4; 5; 6]); ConstructResult 2; MoveAssignResult 2 0;
   ConstructResultId 3 9; CopyAssignResult 2 3; DestroyResult 0; DestroyResult 1; DestroyResult 2;
   DestroyResult 3].

Lemma results_are_values_witness :
  @run_each _ _ (@run_result zeroed) sample_results empty_store O <> Crash freed_block /\
  outcome_map values (@run_each _ _ (@run_result zeroed) sample_results empty_store O) =
    run_each run_result_value sample_results (values empty_store) O.
Proof. exact (proj2 (@results_are_values zeroed sample_results empty_store O empty_owned)). Defined.

Lemma results_leak_witness : exists s' n',
  @run_each _ _ (@run_result zeroed) sample_results empty_store O = Ok tt s' n' /\
  forall b, is_Some (blocks s' !! b) /\ (forall x, pointer_at s' x <> Some b) <-> b ∈ [1; 0]%nat.
Proof.
  destruct (is_Ok_inv (@run_each _ _ (@run_result zeroed) sample_results empty_store O))
    as ([] & s' & n' & Hrun); [vm_compute; reflexivity|].
  exists s', n'. split; [exact Hrun|]. exact (@results_leak zeroed sample_results s' O n' Hrun).
Defined.

Definition sample_tickets : list ticket_call :=
  [ConstructTicketContent 0 1 1 2 0 0 2 (Some [7; 8]); CopyConstructTicket 1 0;
   ConstructTicketContent 2 2 1 3 0 0 3 (Some [1; 2; 3])].

Lemma tickets_are_values_witness :
  @run_each _ _ (@run_ticket zeroed) sample_tickets empty_store O <> Crash freed_block /\
  outcome_map values (@run_each _ _ (@run_ticket zeroed) sample_tickets empty_store O) =
    run_each run_ticket_value sample_tickets (values empty_store) O.
Proof. exact (proj2 (@tickets_are_values zeroed sample_tickets empty_store O empty_owned)). Defined.

Definition ticket_store : store TicketObject.t :=
  match @run_each _ _ (@run_ticket zeroed) sample_tickets empty_store O with
  | Ok _ s _ => s
  | _ => empty_store
  end.

Lemma ticket_store_owned : owned ticket_store.
Proof.
  pose proof (proj1 (each_simulates (@run_ticket zeroed) run_ticket_value (fun _ _ => []) sample_tickets
    (@ticket_simulates zeroed) empty_store O empty_owned)) as Hk.
  unfold ticket_store. destruct (run_each _ _ _ _); [exact Hk|apply empty_owned..].
Qed.

Lemma assigned_ticket_freed_twice_witness : exists s',
  @TicketObject.copy_assign zeroed 0 2 ticket_store O = Ok tt s' O /\
  @run_each _ _ (@run_ticket zeroed) [DestroyTicket 0; DestroyTicket 2] s' O = Crash freed_block.
Proof.
  destruct (@assigned_ticket_freed_twice zeroed 0 2 (TicketObject.mk 1 1 2 0 0 2 (Some 0%nat))
    (TicketObject.mk 2 1 3 0 0 3 (Some 2%nat)) 2 ticket_store O ticket_store_owned)
    as (s' & Hrun & _ & Hfree & _); [done|reflexivity..|].
  exists s'. split; [exact Hrun|exact Hfree].
Defined.
