(* ===== verification/ChannelStatistics.v ===== *)
(** * Statistics of a channel

    [ChannelStatistics] keeps a total and a windowed counter for each code of
    the context domain.  A collection turns the sums into the metric (a counter,
    or a throughput over the elapsed time) and starts a new window.
    [EnforcementObjectStatistics], which nothing uses yet, is at the end of the
    definitions. *)

From S2P Require Import Prelude MachineInt Binary64 Options.

Record ChannelStatsRaw := mkChannelStatsRaw {
  stats_raw_channel_id : Z;           (* long *)
  m_overall_metric_value : double;
  m_windowed_metric_value : double;
}.

Definition default_ChannelStatsRaw : ChannelStatsRaw :=
  mkChannelStatsRaw (-1) (to_double (-1)) (to_double (-1)).

Module ChannelStatistics.

Record t := mk {
  m_stats_identifier : string;
  m_collection_metric : StatisticMetric;
  m_classifier_type : ClassifierType;
  m_stats_size : Z;                   (* int *)
  m_total_counter : list Z;           (* vector<uint64_t> *)
  m_windowed_counter : list Z;        (* vector<uint64_t> *)
  m_overall_metric : double;
  m_last_window_metric : double;
  m_start_collection_time : Z;        (* uint64_t *)
  m_end_collection_time : Z;          (* uint64_t *)
  m_last_collection_time : Z;         (* uint64_t *)
}.

Definition set_counters (total windowed : list Z) (s : t) : t :=
  mk (m_stats_identifier s) (m_collection_metric s) (m_classifier_type s) (m_stats_size s)
    total windowed (m_overall_metric s) (m_last_window_metric s)
    (m_start_collection_time s) (m_end_collection_time s) (m_last_collection_time s).
Definition set_metrics (overall window : double) (s : t) : t :=
  mk (m_stats_identifier s) (m_collection_metric s) (m_classifier_type s) (m_stats_size s)
    (m_total_counter s) (m_windowed_counter s) overall window
    (m_start_collection_time s) (m_end_collection_time s) (m_last_collection_time s).
Definition set_times (start finish last : Z) (s : t) : t :=
  mk (m_stats_identifier s) (m_collection_metric s) (m_classifier_type s) (m_stats_size s)
    (m_total_counter s) (m_windowed_counter s) (m_overall_metric s) (m_last_window_metric s)
    start finish last.

(** The constructor. *)
Definition make (identifier : string) (metric : StatisticMetric) (type : ClassifierType) : t :=
  mk identifier metric type 0 [] [] (to_double (-1)) (to_double (-1)) 0 0 0.

(** The copy constructor copies the settings, not the counters. *)
Definition copy (stats : t) : t :=
  mk (m_stats_identifier stats) (m_collection_metric stats) (m_classifier_type stats)
    (m_stats_size stats) [] [] (to_double (-1)) (to_double (-1)) 0 0 0.

Definition size_of (context_type : ContextType) : Z :=
  match context_type with
  | LSM_KVS_SIMPLE => lsm_kvs_simple_size
  | LSM_KVS_DETAILED => lsm_kvs_detailed_size
  | POSIX => posix_size
  | POSIX_META => posix_meta_size
  | KVS => kvs_size
  | PAIO_GENERAL => paio_general_size
  end.

Definition record_start_collection_time (time : Z) : M t unit :=
  modify (fun s => set_times time (m_end_collection_time s) (m_last_collection_time s) s).
Definition record_last_collection_time (time : Z) : M t unit :=
  modify (fun s => set_times (m_start_collection_time s) (m_end_collection_time s) time s).
Definition record_end_collection_time (time : Z) : M t unit :=
  modify (fun s => set_times (m_start_collection_time s) time (m_last_collection_time s) s).

Definition reset_windowed_counters : M t unit :=
  modify (fun s => set_counters (m_total_counter s) ((fun _ => 0) <$> m_windowed_counter s) s).

Definition update_entry (operation value : Z) : M t unit :=
  s ← gets id;
  if m_stats_size s =? 0 then crash_with (UndefinedBehaviour "remainder by zero")
  else
    let position := Z.rem operation (m_stats_size s) in
    total ← vector_index (m_total_counter s) position;
    windowed ← vector_index (m_windowed_counter s) position;
    modify (set_counters
      (<[Z.to_nat position := u64 (total + value)]> (m_total_counter s))
      (<[Z.to_nat position := u64 (windowed + value)]> (m_windowed_counter s))).

Definition update_statistic_entry (operation_type operation_context value : Z) : M t unit :=
  type ← gets m_classifier_type;
  match type with
  | ClassifierType_operation_context => update_entry operation_context value
  | ClassifierType_operation_type => update_entry operation_type value
  end.

(** [std::accumulate] of unsigned integers in a [double]. *)
Definition accumulate (l : list Z) : double := foldl (fun sum x => dadd sum (to_double x)) d0 l.

Definition metric_value (metric : StatisticMetric) (sum elapsed_time_in_seconds : double) : double :=
  match metric with
  | throughput => ddiv sum elapsed_time_in_seconds
  | counter => sum
  end.

Definition aggregate_total_counter (elapsed_time_in_seconds : double) : M t double :=
  s ← gets id;
  let metric := metric_value (m_collection_metric s) (accumulate (m_total_counter s))
                  elapsed_time_in_seconds in
  _ ← modify (fun s => set_metrics metric (m_last_window_metric s) s);
  mret metric.

Definition aggregate_windowed_counter (elapsed_time_in_seconds : double) : M t double :=
  s ← gets id;
  let metric := metric_value (m_collection_metric s) (accumulate (m_windowed_counter s))
                  elapsed_time_in_seconds in
  _ ← modify (fun s => set_metrics (m_overall_metric s) metric s);
  mret metric.

Definition calculate_statistic_metric (entry_bytes : Z) (elapsed_time_in_seconds : double) (s : t) :
    double :=
  match m_collection_metric s with
  | throughput =>
      if entry_bytes =? 0 then to_double entry_bytes
      else ddiv (to_double entry_bytes) elapsed_time_in_seconds
  | counter => to_double entry_bytes
  end.

Definition calculate_entry_total_counter (position : Z) (elapsed_time_in_seconds : double) :
    M t double :=
  s ← gets id;
  entry_value ← vector_index (m_total_counter s) position;
  mret (calculate_statistic_metric entry_value elapsed_time_in_seconds s).

Definition calculate_entry_windowed_counter (position : Z) (elapsed_time_in_seconds : double) :
    M t double :=
  s ← gets id;
  entry_value ← vector_index (m_windowed_counter s) position;
  mret (calculate_statistic_metric entry_value elapsed_time_in_seconds s).

(** Microseconds to seconds. *)
Definition in_seconds (microseconds : Z) : double :=
  ddiv (ddiv (to_double microseconds) (to_double 1000)) (to_double 1000).

Definition elapsed_time_since_last_collection (now : Z) : M t Z :=
  s ← gets id;
  if m_last_collection_time s <? now then mret (u64 (now - m_last_collection_time s))
  else crash_with (AssertionFailed "now > m_last_collection_time").

Definition elapsed_time_since_last_collection_in_seconds (now : Z) : M t double :=
  elapsed ← elapsed_time_since_last_collection now;
  mret (in_seconds elapsed).

Definition get_execution_time (s : t) : Z :=
  u64 (m_end_collection_time s - m_start_collection_time s).
Definition get_execution_time_in_seconds (s : t) : double := in_seconds (get_execution_time s).

Definition create_operation_entry (operation : Z) : M t unit :=
  s ← gets id;
  if m_stats_size s =? 0 then crash_with (UndefinedBehaviour "remainder by zero")
  else
    let position := Z.rem operation (m_stats_size s) in
    _ ← vector_index (m_total_counter s) position;
    _ ← vector_index (m_windowed_counter s) position;
    modify (set_counters (<[Z.to_nat position := 0]> (m_total_counter s))
              (<[Z.to_nat position := 0]> (m_windowed_counter s))).

Section Clock.
Context `{SystemClock}.

(** [static_cast<uint64_t>] of a reading. *)
Definition now_u64 : M t Z := time ← now; mret (u64 time).

Definition initialize (context_type : ContextType) : M t unit :=
  _ ← modify (fun s =>
        let n := Z.to_nat (size_of context_type) in
        mk (m_stats_identifier s) (m_collection_metric s) (m_classifier_type s)
          (size_of context_type)
          (m_total_counter s ++ replicate n 0) (m_windowed_counter s ++ replicate n 0)
          (m_overall_metric s) (m_last_window_metric s)
          (m_start_collection_time s) (m_end_collection_time s) (m_last_collection_time s));
  time ← now_u64;
  _ ← record_start_collection_time time;
  record_last_collection_time time.

Definition get_elapsed_time : M t Z :=
  time ← now_u64;
  s ← gets id;
  mret (u64 (time - m_start_collection_time s)).

Definition get_elapsed_time_in_seconds : M t double :=
  elapsed ← get_elapsed_time;
  mret (in_seconds elapsed).

Definition collect (channel_stats_raw : ChannelStatsRaw) : M t ChannelStatsRaw :=
  time ← now_u64;
  elapsed ← get_elapsed_time_in_seconds;
  overall ← aggregate_total_counter elapsed;
  elapsed ← elapsed_time_since_last_collection_in_seconds time;
  windowed ← aggregate_windowed_counter elapsed;
  _ ← record_last_collection_time time;
  _ ← record_end_collection_time time;
  _ ← reset_windowed_counters;
  mret (mkChannelStatsRaw (stats_raw_channel_id channel_stats_raw) overall windowed).

Definition collect_single_entry (channel_stats_raw : ChannelStatsRaw) (operation : Z) :
    M t ChannelStatsRaw :=
  time ← now_u64;
  elapsed ← elapsed_time_since_last_collection_in_seconds time;
  s ← gets id;
  if m_stats_size s =? 0 then crash_with (UndefinedBehaviour "remainder by zero")
  else
    let position := Z.rem operation (m_stats_size s) in
    overall ← calculate_entry_total_counter position elapsed;
    windowed ← calculate_entry_windowed_counter position elapsed;
    mret (mkChannelStatsRaw (stats_raw_channel_id channel_stats_raw) overall windowed).

(** The metrics of the entries from [i] on, [n] of them. *)
Fixpoint windowed_entries (i : Z) (n : nat) (elapsed : double) (entries : list double) :
    M t (list double) :=
  match n with
  | O => mret entries
  | S n =>
      x ← calculate_entry_windowed_counter i elapsed;
      windowed_entries (i + 1) n elapsed (entries ++ [x])
  end.

Definition collect_detailed_windowed_entries (detailed_stat_entries : list double) :
    M t (list double) :=
  time ← now_u64;
  elapsed ← elapsed_time_since_last_collection_in_seconds time;
  s ← gets id;
  entries ← windowed_entries 0 (Z.to_nat (m_stats_size s)) elapsed detailed_stat_entries;
  _ ← record_last_collection_time time;
  _ ← reset_windowed_counters;
  mret entries.

(** [terminate], without the string it returns. *)
Definition terminate : M t unit :=
  time ← now_u64;
  _ ← record_end_collection_time time;
  s ← gets id;
  _ ← aggregate_total_counter (get_execution_time_in_seconds s);
  mret tt.

(** ** Runs *)

Inductive call :=
| Update (operation_type operation_context value : Z)
| Collect
| CollectDetailed
| CollectEntry (operation : Z).

Definition run (c : call) : M t unit :=
  match c with
  | Update operation_type operation_context value =>
      update_statistic_entry operation_type operation_context value
  | Collect => _ ← collect default_ChannelStatsRaw; mret tt
  | CollectDetailed => _ ← collect_detailed_windowed_entries []; mret tt
  | CollectEntry operation => _ ← collect_single_entry default_ChannelStatsRaw operation; mret tt
  end.

Fixpoint run_all (calls : list call) : M t unit :=
  match calls with
  | [] => mret tt
  | c :: calls => _ ← run c; run_all calls
  end.

End Clock.

(** ** Accounting *)

(** The value a call adds to the entry of a position. *)
Definition added (type : ClassifierType) (size : Z) (position : nat) (c : call) : Z :=
  match c with
  | Update operation_type operation_context value =>
      let operation := match type with
                       | ClassifierType_operation_context => operation_context
                       | ClassifierType_operation_type => operation_type
                       end in
      if decide (Z.rem operation size = Z.of_nat position) then value else 0
  | _ => 0
  end.

Definition total_added type size position (calls : list call) : Z :=
  foldl (fun acc c => acc + added type size position c) 0 calls.

Definition starts_window (c : call) : bool :=
  match c with Collect | CollectDetailed => true | _ => false end.

Definition window_added type size position (calls : list call) : Z :=
  foldl (fun acc c => if starts_window c then 0 else acc + added type size position c) 0 calls.

Definition well_formed (s : t) : Prop :=
  0 < m_stats_size s /\
  length (m_total_counter s) = Z.to_nat (m_stats_size s) /\
  length (m_windowed_counter s) = Z.to_nat (m_stats_size s) /\
  Forall (word 64) (m_total_counter s) /\ Forall (word 64) (m_windowed_counter s).

End ChannelStatistics.

Module EnforcementObjectStatistics.

Inductive ObjectStatisticMetric := counter | throughput.

Definition ObjectStatisticMetric_code (metric : ObjectStatisticMetric) : Z :=
  match metric with counter => 1 | throughput => 2 end.

Record t := mk {
  m_stats_identifier : string;
  m_collection_metric : ObjectStatisticMetric;
}.

Definition default : t := mk "" counter.
Definition make (identifier : string) (metric : ObjectStatisticMetric) : t := mk identifier metric.
Definition get_stats_identifier (s : t) : string := m_stats_identifier s.
Definition get_collection_metric (s : t) : ObjectStatisticMetric := m_collection_metric s.

End EnforcementObjectStatistics.

Section Lemmas.
Context `{SystemClock}.
Import ChannelStatistics.

Lemma u64_add a b : u64 (u64 a + b) = u64 (a + b).
Proof. unfold u64. dlia. Qed.

(** The counters hold these sums, modulo 2^64. *)
Definition accounts (s : t) (A W : nat -> Z) : Prop :=
  forall p, (p < Z.to_nat (m_stats_size s))%nat ->
    m_total_counter s !! p = Some (u64 (A p)) /\ m_windowed_counter s !! p = Some (u64 (W p)).

Definition same_settings (s s' : t) : Prop :=
  m_stats_size s' = m_stats_size s /\ m_classifier_type s' = m_classifier_type s /\
  m_collection_metric s' = m_collection_metric s.

Lemma vector_index_Ok {S A} (v : list A) i (s s' : S) t t' x :
  vector_index v i s t = Ok x s' t' ->
  s' = s /\ t' = t /\ 0 <= i /\ v !! Z.to_nat i = Some x.
Proof.
  unfold vector_index. destruct (decide (0 <= i)); [|done].
  destruct (v !! Z.to_nat i); [|done]. by intros [= <- <- <-].
Qed.

Lemma update_entry_accounts s operation value A W n s' n' :
  accounts s A W -> update_entry operation value s n = Ok tt s' n' ->
  let f := fun (g : nat -> Z) p =>
    g p + if decide (Z.rem operation (m_stats_size s) = Z.of_nat p) then value else 0 in
  same_settings s s' /\ accounts s' (f A) (f W).
Proof.
  intros Hacc (x & s1 & n1 & [= <- <- <-] & Hu)%bind_Ok_inv. cbn [id] in Hu.
  destruct (m_stats_size s =? 0); [done|].
  apply bind_Ok_inv in Hu as (tot & s1 & n1 & (-> & -> & Hp & Ht)%vector_index_Ok &
    (win & s2 & n2 & (-> & -> & _ & Hw)%vector_index_Ok & [= <- <-])%bind_Ok_inv).
  set (q := Z.rem operation (m_stats_size s)) in *. split; [done|].
  intros p Hlt. cbn [m_total_counter m_windowed_counter set_counters m_stats_size] in *.
  destruct (Hacc p Hlt) as [HA HW]. destruct (decide (q = Z.of_nat p)) as [Heq|Hne].
  - rewrite Heq, Nat2Z.id in *. simplify_eq.
    rewrite !list_lookup_insert_eq by (by eapply lookup_lt_Some). by rewrite !u64_add.
  - rewrite !list_lookup_insert_ne by lia. by rewrite !Z.add_0_r.
Qed.

(** Calls that do not touch the counters, and those that start a window. *)
Definition same_counters (s s' : t) : Prop :=
  same_settings s s' /\ m_total_counter s' = m_total_counter s /\
  m_windowed_counter s' = m_windowed_counter s.

Definition new_window (s s' : t) : Prop :=
  same_settings s s' /\ m_total_counter s' = m_total_counter s /\
  m_windowed_counter s' = (fun _ => 0) <$> m_windowed_counter s.

Lemma elapsed_Ok time s n x s' n' :
  elapsed_time_since_last_collection_in_seconds time s n = Ok x s' n' ->
  s' = s /\ n' = n /\ m_last_collection_time s < time /\
  x = in_seconds (u64 (time - m_last_collection_time s)).
Proof.
  intros (e & s1 & n1 & (y & s2 & n2 & [= <- <- <-] & He)%bind_Ok_inv & [= <- <- <-])%bind_Ok_inv.
  cbn [id] in He. destruct (Z.ltb_spec (m_last_collection_time s) time); [|done].
  by injection He as <- <- <-.
Qed.

Lemma entry_Ok i elapsed s n x s' n' :
  calculate_entry_windowed_counter i elapsed s n = Ok x s' n' -> s' = s /\ n' = n.
Proof.
  intros (y & s1 & n1 & [= <- <- <-] & (e & s2 & n2 & [-> ->]%vector_index_state & [= <- <- <-])
    %bind_Ok_inv)%bind_Ok_inv. done.
Qed.

Lemma entry_total_Ok i elapsed s n x s' n' :
  calculate_entry_total_counter i elapsed s n = Ok x s' n' -> s' = s /\ n' = n.
Proof.
  intros (y & s1 & n1 & [= <- <- <-] & (e & s2 & n2 & [-> ->]%vector_index_state & [= <- <- <-])
    %bind_Ok_inv)%bind_Ok_inv. done.
Qed.

Lemma windowed_entries_Ok k : forall i elapsed es s n x s' n',
  windowed_entries i k elapsed es s n = Ok x s' n' -> s' = s /\ n' = n.
Proof.
  induction k as [|k IH]; intros i elapsed es s n x s' n'; [by intros [= <- <- <-]|].
  intros (y & s1 & n1 & [-> ->]%entry_Ok & Hw)%bind_Ok_inv. by apply IH in Hw.
Qed.

Lemma windowed_entries_length k : forall i elapsed es s n x s' n',
  windowed_entries i k elapsed es s n = Ok x s' n' -> length x = (length es + k)%nat.
Proof.
  induction k as [|k IH]; intros i elapsed es s n x s' n'; [intros [= <- <- <-]; lia|].
  intros (y & s1 & n1 & _ & Hw)%bind_Ok_inv. apply IH in Hw. rewrite Hw, length_app. simpl. lia.
Qed.

Lemma detailed_entries_length es s n x s' n' :
  collect_detailed_windowed_entries es s n = Ok x s' n' ->
  length x = (length es + Z.to_nat (m_stats_size s))%nat.
Proof.
  intros (time & s1 & n1 & (y & s2 & n2 & [= <- <- <-] & [= <- <- <-])%bind_Ok_inv & Hc)%bind_Ok_inv.
  apply bind_Ok_inv in Hc as (el & s1 & n1 & (-> & -> & _)%elapsed_Ok & (y & s2 & n2 & [= <- <- <-] & Hc)%bind_Ok_inv).
  apply bind_Ok_inv in Hc as (e & s3 & n3 & Hw%windowed_entries_length & Hc).
  apply bind_Ok_inv in Hc as ([] & s4 & n4 & _ & Hc). by apply bind_Ok_inv in Hc as ([] & s5 & n5 & _ & [= <- _ _]).
Qed.

Lemma collect_Ok raw s n raw' s' n' : collect raw s n = Ok raw' s' n' ->
  new_window s s' /\
  m_overall_metric_value raw' =
    metric_value (m_collection_metric s) (accumulate (m_total_counter s))
      (in_seconds (u64 (u64 (clock_at (S n)) - m_start_collection_time s))) /\
  m_windowed_metric_value raw' =
    metric_value (m_collection_metric s) (accumulate (m_windowed_counter s))
      (in_seconds (u64 (u64 (clock_at n) - m_last_collection_time s))).
Proof.
  intros (time & s1 & n1 & (x & s2 & n2 & [= <- <- <-] & [= <- <- <-])%bind_Ok_inv & Hc)%bind_Ok_inv.
  apply bind_Ok_inv in Hc as (el & s1 & n1 & He & (o & s2 & n2 & Ho & (e2 & s3 & n3 &
    (-> & -> & _ & ->)%elapsed_Ok & (w & s4 & n4 & Hw & [= <- <- <-])%bind_Ok_inv)%bind_Ok_inv)%bind_Ok_inv).
  injection He as <- <- <-. injection Ho as <- <- <-. injection Hw as <- <- <-.
  split; [|done]. by split.
Qed.

Lemma run_accounts c s n s' n' A W : run c s n = Ok tt s' n' -> accounts s A W ->
  same_settings s s' /\
  accounts s' (fun p => A p + added (m_classifier_type s) (m_stats_size s) p c)
    (fun p => if starts_window c then 0
              else W p + added (m_classifier_type s) (m_stats_size s) p c).
Proof.
  intros Hrun Hacc.
  assert (Hsame : same_counters s s' -> starts_window c = false ->
    (forall p, added (m_classifier_type s) (m_stats_size s) p c = 0) ->
    same_settings s s' /\
    accounts s' (fun p => A p + added (m_classifier_type s) (m_stats_size s) p c)
      (fun p => if starts_window c then 0 else W p + added (m_classifier_type s) (m_stats_size s) p c)).
  { intros (Hs & Ht & Hw) -> H0. split; [done|]. intros p Hp. rewrite H0, !Z.add_0_r, Ht, Hw.
    apply Hacc. by rewrite <- (proj1 Hs). }
  assert (Hnew : new_window s s' -> starts_window c = true ->
    (forall p, added (m_classifier_type s) (m_stats_size s) p c = 0) ->
    same_settings s s' /\
    accounts s' (fun p => A p + added (m_classifier_type s) (m_stats_size s) p c)
      (fun p => if starts_window c then 0 else W p + added (m_classifier_type s) (m_stats_size s) p c)).
  { intros (Hs & Ht & Hw) -> H0. split; [done|]. intros p Hp. rewrite H0, !Z.add_0_r, Ht, Hw.
    rewrite (proj1 Hs) in Hp. destruct (Hacc p Hp) as [HA HW].
    split; [done|]. by rewrite list_lookup_fmap, HW. }
  destruct c as [ty ctx value| | |operation]; simpl in Hrun.
  - apply bind_Ok_inv in Hrun as (type & s1 & n1 & [= <- <- <-] & Hu).
    destruct (m_classifier_type s) eqn:Hty;
      (eapply update_entry_accounts in Hu; [|exact Hacc]); destruct Hu as [Hs Hu]; (split; [done|]);
      exact Hu.
  - apply bind_Ok_inv in Hrun as (raw & s1 & n1 & [Hc _]%collect_Ok & [= <- <-]). by apply Hnew.
  - apply bind_Ok_inv in Hrun as (es & s1 & n1 & Hc & [= <- <-]). apply Hnew; [|done|done].
    apply bind_Ok_inv in Hc as (time & s2 & n2 & (x & s3 & n3 & [= <- <- <-] & [= <- <- <-])%bind_Ok_inv & Hc).
    apply bind_Ok_inv in Hc as (el & s2 & n2 & (-> & -> & _)%elapsed_Ok & (y & s3 & n3 & [= <- <- <-] & Hc)%bind_Ok_inv).
    apply bind_Ok_inv in Hc as (e & s2 & n2 & [-> ->]%windowed_entries_Ok & [= <- <- <-]). by split.
  - apply bind_Ok_inv in Hrun as (raw & s1 & n1 & Hc & [= <- <-]). apply Hsame; [|done|done].
    apply bind_Ok_inv in Hc as (time & s2 & n2 & (x & s3 & n3 & [= <- <- <-] & [= <- <- <-])%bind_Ok_inv & Hc).
    apply bind_Ok_inv in Hc as (el & s2 & n2 & (-> & -> & _)%elapsed_Ok & (y & s3 & n3 & [= <- <- <-] & Hc)%bind_Ok_inv).
    cbn [id] in Hc. destruct (m_stats_size s =? 0); [done|].
    apply bind_Ok_inv in Hc as (o & s2 & n2 & [-> ->]%entry_total_Ok & (w & s3 & n3 & [-> ->]%entry_Ok & [= <- <- <-])%bind_Ok_inv).
    by split.
Qed.

Lemma run_all_accounts calls : forall s n s' n' A W, run_all calls s n = Ok tt s' n' ->
  accounts s A W -> same_settings s s' /\
  accounts s'
    (fun p => foldl (fun acc c => acc + added (m_classifier_type s) (m_stats_size s) p c) (A p) calls)
    (fun p => foldl (fun acc c => if starts_window c then 0
                                  else acc + added (m_classifier_type s) (m_stats_size s) p c) (W p) calls).
Proof.
  induction calls as [|c calls IH]; intros s n s' n' A W; [by intros [= <- <-]|].
  intros ([] & s1 & n1 & Hc & Hr)%bind_Ok_inv Hacc.
  destruct (run_accounts _ _ _ _ _ _ _ Hc Hacc) as [Hs Hacc1].
  destruct (IH _ _ _ _ _ _ Hr Hacc1) as [Hs' Hacc2].
  destruct Hs as (Hz & Hty & Hm). rewrite Hz, Hty in Hacc2.
  split; [|exact Hacc2]. destruct Hs' as (? & ? & ?). split_and!; congruence.
Qed.

End Lemmas.

(** ** Theorems *)

Lemma accumulate_from l : forall acc z, holds acc z -> Forall (fun x => 0 <= x) l ->
  z + foldr Z.add 0 l < 2 ^ 53 ->
  holds (foldl (fun sum x => dadd sum (to_double x)) acc l) (z + foldr Z.add 0 l).
Proof.
  induction l as [|x l IH]; intros acc z Hz HF Hlt; simpl in *; [by rewrite Z.add_0_r|].
  apply Forall_cons_1 in HF as [Hx HF].
  assert (H0 : 0 <= foldr Z.add 0 l).
  { clear -HF. induction HF; simpl; lia. }
  assert (Hz0 : 0 <= z) by apply Hz.
  rewrite Z.add_assoc. apply IH; [|done|lia].
  apply holds_dadd; [done|apply holds_to_double; lia|lia].
Qed.

(** After any sequence of updates and collections that runs to its end,
    each entry of the total counter holds the sum of the values recorded for
    its code, and each entry of the windowed counter the sum of those recorded
    since the last collection, modulo 2^64. *)
Theorem counters_account `{SystemClock} calls s n s' n' :
  let zeros := replicate (Z.to_nat (ChannelStatistics.m_stats_size s)) 0 in
  ChannelStatistics.m_total_counter s = zeros -> ChannelStatistics.m_windowed_counter s = zeros ->
  ChannelStatistics.run_all calls s n = Ok tt s' n' ->
  accounts s'
    (fun p => ChannelStatistics.total_added (ChannelStatistics.m_classifier_type s)
                (ChannelStatistics.m_stats_size s) p calls)
    (fun p => ChannelStatistics.window_added (ChannelStatistics.m_classifier_type s)
                (ChannelStatistics.m_stats_size s) p calls).
Proof.
  intros zeros Ht Hw Hr.
  apply (run_all_accounts calls s n s' n' (fun _ => 0) (fun _ => 0) Hr).
  intros p Hp. rewrite Ht, Hw. unfold zeros. by rewrite lookup_replicate_2.
Qed.

(** With the counter metric, a collection reports the exact sums of the
    totals and of the window while they are below 2^53, and starts an empty
    window. *)
Theorem collect_counter_exact `{SystemClock} raw s n raw' s' n' :
  ChannelStatistics.m_collection_metric s = counter ->
  Forall (fun x => 0 <= x) (ChannelStatistics.m_total_counter s) ->
  Forall (fun x => 0 <= x) (ChannelStatistics.m_windowed_counter s) ->
  foldr Z.add 0 (ChannelStatistics.m_total_counter s) < 2 ^ 53 ->
  foldr Z.add 0 (ChannelStatistics.m_windowed_counter s) < 2 ^ 53 ->
  ChannelStatistics.collect raw s n = Ok raw' s' n' ->
  holds (m_overall_metric_value raw') (foldr Z.add 0 (ChannelStatistics.m_total_counter s)) /\
  holds (m_windowed_metric_value raw') (foldr Z.add 0 (ChannelStatistics.m_windowed_counter s)) /\
  Forall (fun x => x = 0) (ChannelStatistics.m_windowed_counter s') /\
  ChannelStatistics.m_total_counter s' = ChannelStatistics.m_total_counter s.
Proof.
  intros Hm Ht Hw Hts Hws ((Hs & Htc & Hwc) & Ho & Hwm)%collect_Ok.
  rewrite Ho, Hwm, Hm, Htc, Hwc. cbn [ChannelStatistics.metric_value].
  split; [by apply (accumulate_from _ d0 0); [apply holds_d0|..]|].
  split; [by apply (accumulate_from _ d0 0); [apply holds_d0|..]|].
  split; [|done]. apply Forall_fmap, Forall_true. done.
Qed.

(** A collection within the microsecond of the previous one, or after the
    clock went back, fails the assertion on the elapsed time. *)
Theorem collect_asserts_progress `{SystemClock} raw s n :
  u64 (clock_at n) <= ChannelStatistics.m_last_collection_time s ->
  ChannelStatistics.collect raw s n = Crash (AssertionFailed "now > m_last_collection_time").
Proof.
  intros Hle. unfold ChannelStatistics.collect. erewrite bind_Ok by reflexivity.
  erewrite bind_Ok by reflexivity. erewrite bind_Ok
    by (unfold ChannelStatistics.aggregate_total_counter, gets, modify, mbind, M_bind; reflexivity). apply bind_Crash.
  unfold ChannelStatistics.elapsed_time_since_last_collection_in_seconds. apply bind_Crash.
  unfold ChannelStatistics.elapsed_time_since_last_collection. erewrite bind_Ok by reflexivity.
  cbn [id]. rewrite (proj2 (Z.ltb_ge _ _)); [done|].
  by cbn [ChannelStatistics.m_last_collection_time ChannelStatistics.set_metrics].
Qed.

(** An operation code wraps around the size of the domain; a negative
    one that is not a multiple of it indexes the counters before their start. *)
Theorem update_entry_total s operation value n :
  ChannelStatistics.well_formed s ->
  (0 <= operation ->
    exists s', ChannelStatistics.update_entry operation value s n = Ok tt s' n /\
      ChannelStatistics.well_formed s') /\
  (operation < 0 -> Z.rem operation (ChannelStatistics.m_stats_size s) <> 0 ->
    ChannelStatistics.update_entry operation value s n =
      Crash (UndefinedBehaviour "vector index out of range")).
Proof.
  intros (H0 & Ht & Hw & HFt & HFw). unfold ChannelStatistics.update_entry.
  erewrite bind_Ok by reflexivity. cbn [id].
  destruct (Z.eqb_spec (ChannelStatistics.m_stats_size s) 0); [lia|]. cbv zeta.
  set (q := Z.rem operation (ChannelStatistics.m_stats_size s)). split.
  - intros Hop. assert (Hq : 0 <= q < ChannelStatistics.m_stats_size s) by (apply Z.rem_bound_pos; lia).
    destruct (lookup_lt_is_Some_2 (ChannelStatistics.m_total_counter s) (Z.to_nat q)) as [x Hx]; [lia|].
    destruct (lookup_lt_is_Some_2 (ChannelStatistics.m_windowed_counter s) (Z.to_nat q)) as [y Hy]; [lia|].
    assert (Hi : forall (v : list Z) (z : Z), v !! Z.to_nat q = Some z -> vector_index v q s n = Ok z s n).
    { intros v z Hz. unfold vector_index. rewrite decide_True by lia. by rewrite Hz. }
    erewrite bind_Ok by exact (Hi _ _ Hx). erewrite bind_Ok by exact (Hi _ _ Hy).
    eexists. split; [reflexivity|]. split_and!; simpl; rewrite ?length_insert; try done;
      apply Forall_insert; done || apply u64_word.
  - intros Hop Hne. apply bind_Crash. unfold vector_index. rewrite decide_False; [done|].
    intros Hq. apply Hne. apply Z.le_antisymm; [|exact Hq].
    apply Z.rem_nonpos; lia.
Qed.

(** The statistics that a channel is made with keep the size of the default context,
    whatever they count. *)
Lemma default_statistics_size `{SystemClock} calls identifier metric type n0 n1 n2 n3 s0 s :
  ChannelStatistics.initialize option_default_context_type
    (ChannelStatistics.make identifier metric type) n0 = Ok tt s0 n1 ->
  ChannelStatistics.run_all calls s0 n2 = Ok tt s n3 ->
  ChannelStatistics.m_stats_size s = paio_general_size.
Proof.
  intros Hinit Hrun. injection Hinit as <- _.
  refine (proj1 (proj1 (run_all_accounts calls _ _ _ _ (fun _ => 0) (fun _ => 0) Hrun _))).
  intros p Hp. change (p < 5)%nat in Hp. do 5 (destruct p as [|p]; [done|]). lia.
Qed.

(** A clock that ticks a second each reading. *)
Definition seconds_clock : SystemClock := fun n => Z.of_nat n * 1000000.

Definition sample_statistics : ChannelStatistics.t :=
  ChannelStatistics.mk "sample" counter ClassifierType_operation_context 5
    (replicate 5 0) (replicate 5 0) d0 d0 0 0 0.

Definition sample_calls : list ChannelStatistics.call :=
  [ChannelStatistics.Update 0 3 10; ChannelStatistics.Collect; ChannelStatistics.Update 0 3 7;
   ChannelStatistics.Update 0 8 1].

(** What the calls make of it. *)
Definition sample_outcome : ChannelStatistics.t :=
  Eval vm_compute in
  match @ChannelStatistics.run_all seconds_clock sample_calls sample_statistics 1%nat with
  | Ok _ s _ => s
  | _ => sample_statistics
  end.

Lemma counters_account_witness :
  ChannelStatistics.m_total_counter sample_outcome !! 3%nat = Some 18 /\
  ChannelStatistics.m_windowed_counter sample_outcome !! 3%nat = Some 8.
Proof.
  destruct (@counters_account seconds_clock sample_calls sample_statistics 1%nat sample_outcome 3%nat
    eq_refl eq_refl ltac:(vm_compute; reflexivity) 3%nat ltac:(vm_compute; lia)) as [Ht Hw].
  split; [rewrite Ht|rewrite Hw]; vm_compute; reflexivity.
Defined.

Lemma collect_counter_exact_witness :
  Forall (fun x => x = 0) [0; 0; 0; 0; 0].
Proof.
  apply (@collect_counter_exact seconds_clock default_ChannelStatsRaw
    (ChannelStatistics.set_counters [1; 2; 3; 4; 5] [0; 1; 0; 2; 0] sample_statistics) 1%nat
    (match @ChannelStatistics.collect seconds_clock default_ChannelStatsRaw
        (ChannelStatistics.set_counters [1; 2; 3; 4; 5] [0; 1; 0; 2; 0] sample_statistics) 1%nat with
     | Ok r _ _ => r | _ => default_ChannelStatsRaw end)
    (match @ChannelStatistics.collect seconds_clock default_ChannelStatsRaw
        (ChannelStatistics.set_counters [1; 2; 3; 4; 5] [0; 1; 0; 2; 0] sample_statistics) 1%nat with
     | Ok _ s _ => s | _ => sample_statistics end) 3%nat).
  - reflexivity.
  - repeat constructor; lia.
  - repeat constructor; lia.
  - reflexivity.
  - reflexivity.
  - vm_compute. reflexivity.
Defined.

Lemma collect_asserts_progress_witness :
  @ChannelStatistics.collect seconds_clock default_ChannelStatsRaw sample_statistics 0%nat =
  Crash (AssertionFailed "now > m_last_collection_time").
Proof. apply collect_asserts_progress. vm_compute. discriminate. Defined.

Lemma update_entry_total_witness :
  ChannelStatistics.update_entry (-1) 10 sample_statistics O =
  Crash (UndefinedBehaviour "vector index out of range").
Proof.
  apply (update_entry_total sample_statistics (-1) 10 O).
  - split_and!; [reflexivity|reflexivity|reflexivity| |];
      repeat (constructor; [split; [lia|reflexivity]|]); constructor.
  - lia.
  - vm_compute. discriminate.
Defined.
