(* ===== verification/Channel.v ===== *)
(** * Channels

    A channel ([channel_default.cpp]) receives the requests of a workflow.  Its
    [SubmissionQueue] ([submission_queue.cpp]) holds the enforcement objects,
    each under a differentiation token, and applies to a ticket the object its
    classifiers hash to, or the no-match object.  In fast-path mode the caller
    runs the object itself; in queueing mode it enqueues the ticket, a worker
    runs the object, and the caller picks the result in the [CompletionQueue]
    ([completion_queue.cpp]).  This file follows one caller at a time; several
    callers at once are the subject of [Queueing.v]. *)

From S2P Require Import Prelude MachineInt Binary64 Options.
From S2P Require Import Differentiation TokenBucketStats TokenBucket EnforcementObjects ChannelStatistics.

(** [static_cast<diff_token_t> (-1)]: no token. *)
Definition invalid_token : Z := 2 ^ 32 - 1.

(** The first link of an identifier in a vector of pairs, or [invalid_token]. *)
Fixpoint find_link (linkers : list (Z * Z)) (id : Z) : Z :=
  match linkers with
  | [] => invalid_token
  | (first, second) :: linkers => if first =? id then second else find_link linkers id
  end.

Module CompletionQueue.

Record t := mk { m_queue : list Result.t }.

Definition empty : t := mk [].

Definition get_size (q : t) : Z := s32 (Z.of_nat (length (m_queue q))).

(** [push (std::move (result))] of a [const Result&]: the queue gets a copy. *)
Definition enqueue (result : Result.t) : M t unit :=
  copied ← Result.copy result;
  modify (fun q => mk (m_queue q ++ [copied])).

(** With nobody else running: on an empty queue the caller waits, and on a
    result that is not its own it turns in the loop, for good. *)
Definition dequeue (ticket_id : Z) : M t Result.t :=
  q ← gets id;
  match m_queue q with
  | [] => crash_with (Deadlock "CompletionQueue::dequeue: the queue stays empty")
  | front :: queue =>
      if ticket_id =? Result.m_ticket_id front then
        result ← Result.copy front;
        _ ← modify (fun _ => mk queue);
        mret result
      else crash_with (Deadlock "CompletionQueue::dequeue: the front is another ticket's")
  end.

End CompletionQueue.

Module SubmissionQueue.

Record t := mk {
  m_queue : list Ticket.t;
  m_completion_queue : CompletionQueue.t;
  m_is_running : bool;
  m_enf_objects : list (Z * AnyObject);       (* vector<pair<uint32_t, unique_ptr>> *)
  m_no_match_object : AnyObject;
  m_diff_builder : ObjectHashingDifferentiation.t;
}.

Definition set_queue (queue : list Ticket.t) (q : t) : t :=
  mk queue (m_completion_queue q) (m_is_running q) (m_enf_objects q) (m_no_match_object q)
    (m_diff_builder q).
Definition set_completion_queue (c : CompletionQueue.t) (q : t) : t :=
  mk (m_queue q) c (m_is_running q) (m_enf_objects q) (m_no_match_object q) (m_diff_builder q).
Definition set_running (b : bool) (q : t) : t :=
  mk (m_queue q) (m_completion_queue q) b (m_enf_objects q) (m_no_match_object q)
    (m_diff_builder q).
Definition set_objects (objects : list (Z * AnyObject)) (q : t) : t :=
  mk (m_queue q) (m_completion_queue q) (m_is_running q) objects (m_no_match_object q)
    (m_diff_builder q).
Definition set_no_match (o : AnyObject) (q : t) : t :=
  mk (m_queue q) (m_completion_queue q) (m_is_running q) (m_enf_objects q) o (m_diff_builder q).
Definition set_builder (b : ObjectHashingDifferentiation.t) (q : t) : t :=
  mk (m_queue q) (m_completion_queue q) (m_is_running q) (m_enf_objects q) (m_no_match_object q) b.

Definition define_object_differentiation (operation_type operation_context : bool) (q : t) : t :=
  set_builder (ObjectHashingDifferentiation.bind_builder
    (ObjectHashingDifferentiation.set_classifiers operation_type operation_context
       (m_diff_builder q))) q.

(** The constructors: the completion queue is the channel's. *)
Definition make : t :=
  define_object_differentiation
    option_default_enforcement_object_differentiation_operation_type
    option_default_enforcement_object_differentiation_operation_context
    (mk [] CompletionQueue.empty true []
       (NoopPtr (NoopObject.make_tagged (-1) "no_match" true))
       (ObjectHashingDifferentiation.with_scheme option_default_hashing_algorithm)).

Definition get_size (q : t) : Z := s32 (Z.of_nat (length (m_queue q))).

Definition enqueue (ticket : Ticket.t) (q : t) : t := set_queue (m_queue q ++ [ticket]) q.

Definition stop_worker (q : t) : t := set_running false q.

Definition build_object_token (operation_type operation_context : Z) : M t Z :=
  q ← gets id;
  ObjectHashingDifferentiation.build_differentiation_token (m_diff_builder q)
    operation_type operation_context.

(** The object under a token: its place in the vector stands for the pointer. *)
Fixpoint select_in (token : Z) (objects : list (Z * AnyObject)) : option nat :=
  match objects with
  | [] => None
  | (first, _) :: objects => if first =? token then Some O else S <$> select_in token objects
  end.

Definition select_enforcement_object (token : Z) (q : t) : option nat :=
  select_in token (m_enf_objects q).

(** A call on the object behind a pointer. *)
Definition call_object {A} (pointer : nat) (m : M AnyObject A) : M t A := fun q n =>
  match m_enf_objects q !! pointer with
  | Some (token, o) =>
      zoom (fun _ => o)
        (fun o q => set_objects (<[pointer := (token, o)]> (m_enf_objects q)) q) m q n
  | None => Crash (UndefinedBehaviour "dangling EnforcementObject pointer")
  end.

Definition create_enforcement_object (token : Z) (object : AnyObject) : M t PStatus :=
  q ← gets id;
  match select_enforcement_object token q with
  | Some _ => mret PStatus_Error
  | None =>
      _ ← modify (fun q => set_objects (m_enf_objects q ++ [(token, object)]) q);
      mret PStatus_OK
  end.

Section Clock.
Context `{SystemClock}.
(** Fuel of the loops of the token buckets. *)
Context (fuel : nat).

Definition enforce_mechanism (ticket : Ticket.t) (result : Result.t) : M t Result.t :=
  object_token ← build_object_token (u32 (Ticket.m_operation_type ticket))
                   (u32 (Ticket.m_operation_context ticket));
  q ← gets id;
  match select_enforcement_object object_token q with
  | Some pointer => call_object pointer (obj_enforce (EnforcementObject := Any_object fuel) ticket result)
  | None => zoom m_no_match_object set_no_match
              (obj_enforce (EnforcementObject := Any_object fuel) ticket result)
  end.

Definition enqueue_fast_path (ticket : Ticket.t) (result : Result.t) : M t Result.t :=
  enforce_mechanism ticket result.

(** An iteration of a worker.  On an empty queue it waits; it leaves on a
    timeout once the queue is stopped, and otherwise waits for a ticket that,
    with nobody else running, does not come. *)
Definition dequeue : M t bool :=
  q ← gets id;
  match m_queue q with
  | [] =>
      if m_is_running q
      then crash_with (Deadlock "SubmissionQueue::dequeue: the queue stays empty")
      else mret false
  | ticket :: queue =>
      _ ← modify (set_queue queue);
      result ← enforce_mechanism ticket (Result.of_ticket (Ticket.m_ticket_id ticket));
      _ ← zoom m_completion_queue set_completion_queue (CompletionQueue.enqueue result);
      mret true
  end.

Definition configure_enforcement_object (token config : Z) (configurations : list Z) :
    M t PStatus :=
  q ← gets id;
  match select_enforcement_object token q with
  | None => mret PStatus_Error
  | Some pointer => call_object pointer
      (obj_configure (EnforcementObject := Any_object fuel) config configurations)
  end.

Definition collect_enforcement_object_statistics (token : Z) (statistics_raw : ObjectStatisticsRaw) :
    M t (PStatus * ObjectStatisticsRaw) :=
  q ← gets id;
  match select_enforcement_object token q with
  | None => zoom m_no_match_object set_no_match
      (obj_collect_statistics (EnforcementObject := Any_object fuel) statistics_raw)
  | Some pointer => call_object pointer
      (obj_collect_statistics (EnforcementObject := Any_object fuel) statistics_raw)
  end.

End Clock.

End SubmissionQueue.

(** [static_cast<EnforcementObjectType> (...)], as the switch sees it. *)
Definition EnforcementObjectType_of (code : Z) : option EnforcementObjectType :=
  if code =? 1 then Some drl else if code =? 0 then Some noop else None.

Module ChannelDefault.

Record t := mk {
  m_channel_id : Z;                                    (* uint32_t *)
  m_submission_queue : SubmissionQueue.t;
  m_use_fast_path : bool;
  m_ticket_id : Z;                                     (* atomic<uint64_t> *)
  m_object_id_to_token_linkers : list (Z * Z);         (* vector<pair<long, diff_token_t>> *)
  m_collect_channel_statistics : bool;
  m_collect_object_statistics : bool;
  m_channel_statistics : ChannelStatistics.t;
  m_worker_pool : Z;                                   (* the number of its threads *)
}.

Definition m_parallelism_level : Z := option_default_channel_thread_pool_size.

Definition set_submission_queue (q : SubmissionQueue.t) (c : t) : t :=
  mk (m_channel_id c) q (m_use_fast_path c) (m_ticket_id c) (m_object_id_to_token_linkers c)
    (m_collect_channel_statistics c) (m_collect_object_statistics c) (m_channel_statistics c)
    (m_worker_pool c).
Definition set_ticket (ticket_id : Z) (c : t) : t :=
  mk (m_channel_id c) (m_submission_queue c) (m_use_fast_path c) ticket_id
    (m_object_id_to_token_linkers c) (m_collect_channel_statistics c)
    (m_collect_object_statistics c) (m_channel_statistics c) (m_worker_pool c).
Definition set_linkers (linkers : list (Z * Z)) (c : t) : t :=
  mk (m_channel_id c) (m_submission_queue c) (m_use_fast_path c) (m_ticket_id c) linkers
    (m_collect_channel_statistics c) (m_collect_object_statistics c) (m_channel_statistics c)
    (m_worker_pool c).
Definition set_statistics (s : ChannelStatistics.t) (c : t) : t :=
  mk (m_channel_id c) (m_submission_queue c) (m_use_fast_path c) (m_ticket_id c)
    (m_object_id_to_token_linkers c) (m_collect_channel_statistics c)
    (m_collect_object_statistics c) s (m_worker_pool c).
Definition set_workers (n : Z) (c : t) : t :=
  mk (m_channel_id c) (m_submission_queue c) (m_use_fast_path c) (m_ticket_id c)
    (m_object_id_to_token_linkers c) (m_collect_channel_statistics c)
    (m_collect_object_statistics c) (m_channel_statistics c) n.

Definition on_queue {A} (m : M SubmissionQueue.t A) : M t A :=
  zoom m_submission_queue set_submission_queue m.
Definition on_statistics {A} (m : M ChannelStatistics.t A) : M t A :=
  zoom m_channel_statistics set_statistics m.

(** The post-increment of an atomic. *)
Definition gen_ticket_id : M t Z :=
  id ← gets m_ticket_id;
  _ ← modify (set_ticket (u64 (id + 1)));
  mret id.

Definition build_ticket (request_context : Context) (buffer : option (list Z)) (size : Z) :
    M t Ticket.t :=
  if (0 <? size) && bool_decide (buffer <> None) then
    ticket_id ← gen_ticket_id;
    Ticket_make_content ticket_id (m_total_operations request_context)
      (s64 (u64 (m_operation_size request_context * m_total_operations request_context)))
      (m_operation_type request_context) (m_operation_context request_context) size buffer
  else
    let operation_size := if m_operation_size request_context =? 0 then 1
                          else m_operation_size request_context in
    ticket_id ← gen_ticket_id;
    mret (Ticket.make ticket_id (m_total_operations request_context)
            (s64 (u64 (operation_size * m_total_operations request_context)))
            (m_operation_type request_context) (m_operation_context request_context)).

Definition create_new_enforcement_object_linker (object_id object_token : Z) : M t unit :=
  modify (fun c => set_linkers (m_object_id_to_token_linkers c ++ [(object_id, object_token)]) c).

Definition get_enforcement_object_diff_token (object_id : Z) (c : t) : Z :=
  find_link (m_object_id_to_token_linkers c) object_id.

Definition build_object_differentiation_token (operation_type operation_context : Z) : M t Z :=
  on_queue (SubmissionQueue.build_object_token operation_type operation_context).

Definition define_object_differentiation (operation_type operation_context : bool) (c : t) : t :=
  set_submission_queue (SubmissionQueue.define_object_differentiation operation_type
    operation_context (m_submission_queue c)) c.

Definition start_workers (c : t) : t := set_workers (m_worker_pool c + m_parallelism_level) c.

(** The workers leave at their next timeout. *)
Definition join_workers (c : t) : t :=
  set_submission_queue (SubmissionQueue.stop_worker (m_submission_queue c)) c.

Section Clock.
Context `{SystemClock}.
(** Fuel of the loops of the token buckets. *)
Context (fuel : nat).

Definition construct (c : t) : M unit t :=
  let c := if m_use_fast_path c then c else start_workers c in
  if m_collect_channel_statistics c then fun u n =>
    match ChannelStatistics.initialize option_default_context_type (m_channel_statistics c) n with
    | Ok _ s n => Ok (set_statistics s c) u n
    | Raise e _ n => Raise e u n
    | Crash x => Crash x
    end
  else mret c.

Definition stats_member : ChannelStatistics.t :=
  ChannelStatistics.make "channel-stats" option_default_statistic_metric
    option_default_statistic_classifier.

(** The constructors. *)
Definition make_default : M unit t :=
  construct (mk 0 SubmissionQueue.make (bool_decide (option_default_channel_mode = fast_path)) 0 []
    option_default_channel_statistic_collection option_default_object_statistic_collection
    stats_member 0).

Definition make (channel_id : Z)
    (use_fast_path collect_channel_statistics collect_object_statistics : bool) : M unit t :=
  construct (mk channel_id SubmissionQueue.make use_fast_path 0 []
    collect_channel_statistics collect_object_statistics stats_member 0).

(** The destructor. *)
Definition destroy : M t unit :=
  c ← gets id;
  _ ← (if m_use_fast_path c then mret tt else modify join_workers);
  if m_collect_channel_statistics c then on_statistics ChannelStatistics.terminate else mret tt.

Definition channel_enforce (context : Context) (buffer : option (list Z)) (buffer_size : Z)
    (result : Result.t) : M t Result.t :=
  ticket ← build_ticket context buffer buffer_size;
  let result := Result.set_ticket_id (Ticket.m_ticket_id ticket) result in
  c ← gets id;
  result ← (if m_use_fast_path c then
              on_queue (SubmissionQueue.enqueue_fast_path fuel ticket result)
            else
              _ ← on_queue (modify (SubmissionQueue.enqueue ticket));
              (* the turn of a worker *)
              _ ← on_queue (SubmissionQueue.dequeue fuel);
              on_queue (zoom SubmissionQueue.m_completion_queue SubmissionQueue.set_completion_queue
                (CompletionQueue.dequeue (Ticket.m_ticket_id ticket))));
  _ ← (if m_collect_channel_statistics c then
         let operation_size :=
           if bool_decide (option_default_statistic_metric = counter) && (m_operation_size context =? 0)
           then 1 else m_operation_size context in
         on_statistics (ChannelStatistics.update_statistic_entry (m_operation_type context)
           (m_operation_context context) (u64 (m_total_operations context * operation_size)))
       else mret tt);
  mret result.

Definition create_enforcement_object (enforcement_object_id : Z)
    (differentiation_pair : ObjectDifferentiationPair) (object_type : Z)
    (configurations : list Z) : M t PStatus :=
  hash_value ← build_object_differentiation_token (pair_operation_type differentiation_pair)
                 (pair_operation_context differentiation_pair);
  status ← (match EnforcementObjectType_of object_type with
            | Some drl =>
                c ← gets id;
                object ← DynamicRateLimiter.make enforcement_object_id (m_collect_object_statistics c);
                on_queue (SubmissionQueue.create_enforcement_object hash_value (DRLPtr object))
            | Some noop =>
                on_queue (SubmissionQueue.create_enforcement_object hash_value
                  (NoopPtr (NoopObject.make enforcement_object_id)))
            | None => mret PStatus_NotSupported
            end);
  if is_ok status then
    _ ← create_new_enforcement_object_linker enforcement_object_id hash_value;
    match configurations, EnforcementObjectType_of object_type with
    | _ :: _, Some drl =>
        on_queue (SubmissionQueue.configure_enforcement_object fuel hash_value
          (DRLConfiguration_code DRL_init) configurations)
    | _, _ => mret status
    end
  else mret status.

Definition configure_enforcement_object (enforcement_object_id config : Z)
    (configurations : list Z) : M t PStatus :=
  object_token ← gets (get_enforcement_object_diff_token enforcement_object_id);
  if object_token =? invalid_token then mret PStatus_Error
  else on_queue (SubmissionQueue.configure_enforcement_object fuel object_token config configurations).

Definition collect_object_statistics (enforcement_object_id : Z)
    (statistics_raw : ObjectStatisticsRaw) : M t (PStatus * ObjectStatisticsRaw) :=
  c ← gets id;
  if m_collect_object_statistics c then
    let object_token := get_enforcement_object_diff_token enforcement_object_id c in
    if object_token =? invalid_token then mret (PStatus_Error, statistics_raw)
    else on_queue (SubmissionQueue.collect_enforcement_object_statistics fuel object_token
                     statistics_raw)
  else mret (PStatus_Error, statistics_raw).

Definition collect_general_statistics (general_stats : ChannelStatsRaw) :
    M t (PStatus * ChannelStatsRaw) :=
  c ← gets id;
  if m_collect_channel_statistics c then
    stats ← on_statistics (ChannelStatistics.collect general_stats);
    mret (PStatus_OK, stats)
  else mret (PStatus_Error, general_stats).

Definition collect_detailed_statistics (detailed_stat_entries : list double) :
    M t (PStatus * list double) :=
  c ← gets id;
  if m_collect_channel_statistics c then
    entries ← on_statistics
      (ChannelStatistics.collect_detailed_windowed_entries detailed_stat_entries);
    mret (PStatus_OK, entries)
  else mret (PStatus_Error, detailed_stat_entries).

Definition collect_statistic_entry (stats : ChannelStatsRaw) (operation : Z) :
    M t (PStatus * ChannelStatsRaw) :=
  c ← gets id;
  if m_collect_channel_statistics c then
    stats ← on_statistics (ChannelStatistics.collect_single_entry stats operation);
    mret (PStatus_OK, stats)
  else mret (PStatus_Error, stats).

End Clock.

End ChannelDefault.

(** ** The abstract view of a submission queue

    A queue promises a finite map from tokens to enforcement objects. *)

Definition view (q : SubmissionQueue.t) : gmap Z AnyObject :=
  list_to_map (SubmissionQueue.m_enf_objects q).

Lemma select_in_Some token objects i : SubmissionQueue.select_in token objects = Some i ->
  exists o, objects !! i = Some (token, o) /\
    (list_to_map objects : gmap Z AnyObject) !! token = Some o.
Proof.
  revert i. induction objects as [|[tok o] objects IH]; intros i; [done|]. simpl.
  destruct (Z.eqb_spec tok token) as [->|Hne].
  - intros [= <-]. exists o. by rewrite lookup_insert_eq.
  - destruct (SubmissionQueue.select_in token objects) as [j|]; [|done]. intros [= <-].
    destruct (IH j eq_refl) as (o' & Hj & Hm). exists o'. by rewrite lookup_insert_ne.
Qed.

Lemma select_in_None token objects : SubmissionQueue.select_in token objects = None ->
  (token ∉ objects.*1) /\ (list_to_map objects : gmap Z AnyObject) !! token = None.
Proof.
  induction objects as [|[tok o] objects IH]; simpl.
  - intros _. split; [apply not_elem_of_nil|done].
  - destruct (Z.eqb_spec tok token) as [->|Hne]; [done|].
    destruct (SubmissionQueue.select_in token objects); [done|]. intros _.
    destruct IH as [Hin Hm]; [done|]. split; [|by rewrite lookup_insert_ne].
    intros [Heq|?]%elem_of_cons; [by apply Hne|done].
Qed.

Lemma list_to_map_update token o o' objects i :
  SubmissionQueue.select_in token objects = Some i ->
  objects !! i = Some (token, o) ->
  (list_to_map (<[i := (token, o')]> objects) : gmap Z AnyObject) =
  <[token := o']> (list_to_map objects).
Proof.
  revert i. induction objects as [|[tok ob] objects IH]; intros i; [done|]. simpl.
  destruct (Z.eqb_spec tok token) as [->|Hne].
  - intros [= <-] _. simpl. by rewrite insert_insert_eq.
  - destruct (SubmissionQueue.select_in token objects) as [j|] eqn:Hj; [|done].
    intros [= <-] Hl. simpl in *. rewrite (IH j) by done. by rewrite insert_insert_ne.
Qed.

Lemma tokens_update token o o' (objects : list (Z * AnyObject)) i :
  objects !! i = Some (token, o) -> (<[i := (token, o')]> objects).*1 = objects.*1.
Proof.
  intros Hi. rewrite list_fmap_insert. apply list_insert_id. by rewrite list_lookup_fmap, Hi.
Qed.

Lemma list_to_map_append token o (objects : list (Z * AnyObject)) : token ∉ objects.*1 ->
  (list_to_map (objects ++ [(token, o)]) : gmap Z AnyObject) =
  <[token := o]> (list_to_map objects).
Proof.
  induction objects as [|[tok ob] objects IH]; [done|]. simpl. intros Hin.
  apply not_elem_of_cons in Hin as [? ?]. rewrite IH by done. by rewrite insert_insert_ne.
Qed.

Lemma call_object_Ok {A} i (m : M AnyObject A) q n a q' n' :
  SubmissionQueue.call_object i m q n = Ok a q' n' ->
  exists token o o', SubmissionQueue.m_enf_objects q !! i = Some (token, o) /\
    m o n = Ok a o' n' /\
    q' = SubmissionQueue.set_objects (<[i := (token, o')]> (SubmissionQueue.m_enf_objects q)) q.
Proof.
  unfold SubmissionQueue.call_object. destruct (_ !! i) as [[token o]|]; [|done].
  intros (o' & Hm & ->)%zoom_Ok_inv. eauto 6.
Qed.

(** The queue apart from its objects. *)
Definition same_frame (q q' : SubmissionQueue.t) : Prop :=
  SubmissionQueue.m_queue q' = SubmissionQueue.m_queue q /\
  SubmissionQueue.m_completion_queue q' = SubmissionQueue.m_completion_queue q /\
  SubmissionQueue.m_is_running q' = SubmissionQueue.m_is_running q /\
  SubmissionQueue.m_diff_builder q' = SubmissionQueue.m_diff_builder q /\
  (SubmissionQueue.m_enf_objects q').*1 = (SubmissionQueue.m_enf_objects q).*1.

(** The abstract call: on the object under the token if there is one, or else on
    the no-match object. *)
Definition abstract_call {A} (m : M AnyObject A) (missing : M AnyObject A) (token : Z)
    (q : SubmissionQueue.t) (n : nat) (a : A) (q' : SubmissionQueue.t) (n' : nat) : Prop :=
  match view q !! token with
  | Some o => exists o', m o n = Ok a o' n' /\ view q' = <[token := o']> (view q) /\
      SubmissionQueue.m_no_match_object q' = SubmissionQueue.m_no_match_object q
  | None => view q' = view q /\
      missing (SubmissionQueue.m_no_match_object q) n =
        Ok a (SubmissionQueue.m_no_match_object q') n'
  end.

Lemma call_refines {A} (m missing : M AnyObject A) token q n a q' n' :
  (match SubmissionQueue.select_enforcement_object token q with
   | Some pointer => SubmissionQueue.call_object pointer m
   | None => zoom SubmissionQueue.m_no_match_object SubmissionQueue.set_no_match missing
   end) q n = Ok a q' n' ->
  abstract_call m missing token q n a q' n' /\ same_frame q q'.
Proof.
  unfold SubmissionQueue.select_enforcement_object, abstract_call, view.
  destruct (SubmissionQueue.select_in _ _) as [i|] eqn:Hs.
  - apply select_in_Some in Hs as Ho. destruct Ho as (o & Hi & ->).
    intros (tok & o1 & o' & Hi' & Hm & ->)%call_object_Ok.
    rewrite Hi in Hi'. injection Hi' as <- <-. split.
    + exists o'. split_and!; [done| |done]. simpl. by eapply list_to_map_update.
    + repeat (split; [done|]). simpl. by eapply tokens_update.
  - apply select_in_None in Hs as [_ ->]. intros (o' & Hm & ->)%zoom_Ok_inv. by repeat split.
Qed.

(** A call on the object under a token that leaves it as [o']. *)
Lemma call_returns token q o o' : view q !! token = Some o -> exists i q',
  SubmissionQueue.select_enforcement_object token q = Some i /\
  view q' = <[token := o']> (view q) /\ same_frame q q' /\
  forall A (m : M AnyObject A) n a n', m o n = Ok a o' n' ->
    SubmissionQueue.call_object i m q n = Ok a q' n'.
Proof.
  intros Hv. unfold SubmissionQueue.select_enforcement_object, view in *.
  destruct (SubmissionQueue.select_in token (SubmissionQueue.m_enf_objects q)) as [i|] eqn:Hs.
  - destruct (select_in_Some _ _ _ Hs) as (o1 & Hi & Hv1). rewrite Hv in Hv1. injection Hv1 as <-.
    exists i, (SubmissionQueue.set_objects (<[i := (token, o')]> (SubmissionQueue.m_enf_objects q)) q).
    split; [done|]. split; [simpl; by eapply list_to_map_update|]. split.
    + repeat (split; [done|]). simpl. by eapply tokens_update.
    + intros A m n a n' Hm. unfold SubmissionQueue.call_object. rewrite Hi.
      exact (zoom_Ok _ (fun object q => SubmissionQueue.set_objects
        (<[i := (token, object)]> (SubmissionQueue.m_enf_objects q)) q) m q n a o' n' Hm).
  - apply select_in_None in Hs as [_ Hs]. by rewrite Hs in Hv.
Qed.

Section Queue.
Context `{SystemClock} (fuel : nat).
Import SubmissionQueue.

(** The token a ticket hashes to. *)
Definition token_of_ticket (q : t) (ticket : Ticket.t) (n : nat) (token : Z) : Prop :=
  build_object_token (u32 (Ticket.m_operation_type ticket))
    (u32 (Ticket.m_operation_context ticket)) q n = Ok token q n.

Lemma build_object_token_state type context q n token q' n' :
  build_object_token type context q n = Ok token q' n' -> q' = q /\ n' = n.
Proof.
  unfold build_object_token. rewrite gets_bind.
  unfold ObjectHashingDifferentiation.build_differentiation_token.
  destruct (ObjectHashingDifferentiation.m_func_build_token _); [|done].
  unfold hash_value. cases_goal; try done. by intros [= <- <- <-].
Qed.

Lemma enforce_mechanism_aux ticket result q n result' q' n' :
  enforce_mechanism fuel ticket result q n = Ok result' q' n' ->
  exists token, token_of_ticket q ticket n token /\
    abstract_call (obj_enforce (EnforcementObject := Any_object fuel) ticket result)
      (obj_enforce (EnforcementObject := Any_object fuel) ticket result) token q n result' q' n' /\
    same_frame q q'.
Proof.
  unfold enforce_mechanism. intros (token & q1 & n1 & Ht & Hr)%bind_Ok_inv.
  apply build_object_token_state in Ht as Hst. destruct Hst as [-> ->].
  exists token. split; [done|]. rewrite gets_bind in Hr. by apply call_refines in Hr.
Qed.

End Queue.

(** ** Creating an object *)

(** The object a creation adds, initialized when it comes with configurations. *)
Definition new_object `{SystemClock} (id : Z) (kind : EnforcementObjectType) (collect : bool)
    (configurations : list Z) : M unit AnyObject :=
  match kind with
  | noop => mret (NoopPtr (NoopObject.make id))
  | drl =>
      object ← DynamicRateLimiter.make id collect;
      match configurations with
      | [] => mret (DRLPtr object)
      | _ => fun u n =>
          match DynamicRateLimiter.obj_configure (DRLConfiguration_code DRL_init) configurations
                  object n with
          | Ok _ o n => Ok (DRLPtr o) u n
          | Raise e _ n => Raise e u n
          | Crash x => Crash x
          end
      end
  end.

Definition add_object (id token : Z) (o : AnyObject) (c : ChannelDefault.t) : ChannelDefault.t :=
  let q := ChannelDefault.m_submission_queue c in
  ChannelDefault.set_linkers (ChannelDefault.m_object_id_to_token_linkers c ++ [(id, token)])
    (ChannelDefault.set_submission_queue
       (SubmissionQueue.set_objects (SubmissionQueue.m_enf_objects q ++ [(token, o)]) q) c).

Section Creation.
Context `{SystemClock} (fuel : nat).
Import ChannelDefault.

Lemma limiter_made id collect n : exists o n',
  (forall S (s : S), DynamicRateLimiter.make id collect s n = Ok o s n') /\
  DynamicRateLimiter.m_object_id o = id.
Proof. do 2 eexists. split; [reflexivity|done]. Qed.

Lemma limiter_init_short conf o n : (length conf < 2)%nat ->
  DynamicRateLimiter.obj_configure 1 conf o n =
  Crash (UndefinedBehaviour "vector index out of range").
Proof. destruct conf as [|p [|r conf]]; [done|done|]. simpl. lia. Qed.

Lemma limiter_init conf o n : (2 <= length conf)%nat -> exists o',
  DynamicRateLimiter.obj_configure 1 conf o n = Ok PStatus_OK o' n /\
  DynamicRateLimiter.m_object_id o' = DynamicRateLimiter.m_object_id o.
Proof. destruct conf as [|p [|r conf]]; simpl; [lia..|]. eexists. by split. Qed.

(** What a creation adds: an object of the given identifier, unless a rate
    limiter is given one value only. *)
Lemma new_object_outcome id kind collect conf n :
  if bool_decide (kind = drl /\ length conf = 1%nat)
  then new_object id kind collect conf tt n = Crash (UndefinedBehaviour "vector index out of range")
  else exists o n', new_object id kind collect conf tt n = Ok o tt n' /\
    get_enforcement_object_id (EnforcementObject := Any_object fuel) o = id.
Proof.
  destruct kind; [|rewrite bool_decide_eq_false_2 by (by intros [? _]);
    by exists (NoopPtr (NoopObject.make id)), n].
  destruct (limiter_made id collect n) as (o & n' & Ho & Hid). unfold new_object.
  rewrite (bind_Ok _ _ _ _ _ _ _ (Ho unit tt)). unfold DRLConfiguration_code.
  case_bool_decide as Hb.
  - destruct Hb as [_ Hb]. destruct conf; [done|]. rewrite limiter_init_short; [done|lia].
  - destruct conf as [|p conf]; [by exists (DRLPtr o), n'|].
    destruct (limiter_init (p :: conf) o n') as (o' & -> & Hid').
    { destruct conf; [by destruct Hb|simpl; lia]. }
    exists (DRLPtr o'), n'. split; [done|]. simpl. congruence.
Qed.

Lemma select_last token o objects : SubmissionQueue.select_in token objects = None ->
  SubmissionQueue.select_in token (objects ++ [(token, o)]) = Some (length objects).
Proof.
  induction objects as [|[tok ob] objects IH]; simpl; [by rewrite Z.eqb_refl|].
  destruct (tok =? token); [done|].
  destruct (SubmissionQueue.select_in token objects); [done|]. intros _. by rewrite IH.
Qed.

(** A call on the object just added. *)
Lemma call_last {A} (m : M AnyObject A) token o q n :
  SubmissionQueue.call_object (length (SubmissionQueue.m_enf_objects q)) m
    (SubmissionQueue.set_objects (SubmissionQueue.m_enf_objects q ++ [(token, o)]) q) n =
  match m o n with
  | Ok a o' n' => Ok a (SubmissionQueue.set_objects
                    (SubmissionQueue.m_enf_objects q ++ [(token, o')]) q) n'
  | Raise e o' n' => Raise e (SubmissionQueue.set_objects
                    (SubmissionQueue.m_enf_objects q ++ [(token, o')]) q) n'
  | Crash x => Crash x
  end.
Proof.
  unfold SubmissionQueue.call_object. simpl.
  rewrite lookup_app_r, Nat.sub_diag by lia. simpl. unfold zoom. simpl.
  destruct (m o n); [| |done]; rewrite insert_app_r_alt, Nat.sub_diag by lia; done.
Qed.

(** The creation in the submission queue. *)
Lemma queue_create token o c n :
  on_queue (SubmissionQueue.create_enforcement_object token o) c n =
  match SubmissionQueue.select_enforcement_object token (m_submission_queue c) with
  | Some _ => Ok PStatus_Error c n
  | None => let q := m_submission_queue c in Ok PStatus_OK (set_submission_queue
      (SubmissionQueue.set_objects (SubmissionQueue.m_enf_objects q ++ [(token, o)]) q) c) n
  end.
Proof.
  unfold on_queue, zoom, SubmissionQueue.create_enforcement_object. rewrite gets_bind. cbn [Datatypes.id].
  destruct (SubmissionQueue.select_enforcement_object _ _); [by destruct c|done].
Qed.

Lemma create_object_aux id pair type conf c n token :
  build_object_differentiation_token (pair_operation_type pair) (pair_operation_context pair) c n
    = Ok token c n ->
  match EnforcementObjectType_of type with
  | None => create_enforcement_object fuel id pair type conf c n = Ok PStatus_NotSupported c n
  | Some kind =>
      match SubmissionQueue.select_enforcement_object token (m_submission_queue c) with
      | Some _ => exists n', create_enforcement_object fuel id pair type conf c n =
          Ok PStatus_Error c n'
      | None =>
          match new_object id kind (m_collect_object_statistics c) conf tt n with
          | Ok o _ n' => create_enforcement_object fuel id pair type conf c n =
              Ok PStatus_OK (add_object id token o c) n'
          | Raise _ _ _ => False
          | Crash x => create_enforcement_object fuel id pair type conf c n = Crash x
          end
      end
  end.
Proof.
  intros Ht. unfold create_enforcement_object. rewrite (bind_Ok _ _ _ _ _ _ _ Ht).
  destruct (EnforcementObjectType_of type) as [[]|]; [| |done].
  2: { pose proof (queue_create token (NoopPtr (NoopObject.make id)) c n) as Hq.
       destruct (SubmissionQueue.select_enforcement_object _ _).
       - exists n. by rewrite (bind_Ok _ _ _ _ _ _ _ Hq).
       - simpl. rewrite (bind_Ok _ _ _ _ _ _ _ Hq). by destruct conf. }
  destruct (limiter_made id (m_collect_object_statistics c) n) as (o & n' & Ho & _).
  pose proof (queue_create token (DRLPtr o) c n') as Hq.
  assert (Hb : forall r, on_queue (SubmissionQueue.create_enforcement_object token (DRLPtr o)) c n'
    = r -> (gets Datatypes.id ≫= fun c => DynamicRateLimiter.make id (m_collect_object_statistics c) ≫=
       fun object => on_queue (SubmissionQueue.create_enforcement_object token (DRLPtr object))) c n
    = r) by (intros r <-; by rewrite gets_bind; cbn [Datatypes.id]; rewrite (bind_Ok _ _ _ _ _ _ _ (Ho _ c))).
  apply Hb in Hq. clear Hb.
  unfold SubmissionQueue.select_enforcement_object in *.
  destruct (SubmissionQueue.select_in _ _) as [i|] eqn:Hsel; [exists n'; by rewrite (bind_Ok _ _ _ _ _ _ _ Hq)|].
  unfold new_object. rewrite (bind_Ok _ _ _ _ _ _ _ (Ho _ tt)), (bind_Ok _ _ _ _ _ _ _ Hq).
  change (is_ok PStatus_OK) with true. cbv iota. unfold create_new_enforcement_object_linker.
  rewrite modify_bind.
  destruct conf as [|p conf]; [done|]. unfold on_queue, zoom.
  unfold SubmissionQueue.configure_enforcement_object. rewrite gets_bind.
  unfold Datatypes.id, SubmissionQueue.select_enforcement_object.
  cbn [m_submission_queue set_linkers set_submission_queue SubmissionQueue.m_enf_objects
    SubmissionQueue.set_objects].
  rewrite select_last by done. rewrite call_last. simpl obj_configure. unfold dispatch.
  unfold DRLConfiguration_code.
  destruct conf as [|r conf]; [rewrite limiter_init_short; [done|simpl; lia]|].
  destruct (limiter_init (p :: r :: conf) o n') as (o' & -> & _); [simpl; lia|done].
Qed.

End Creation.

(** ** The invariant of a channel *)

(** A builder bound to the function of its classifiers, which fills the 32-bit
    token. *)
Definition bound (b : ObjectHashingDifferentiation.t) : Prop :=
  ObjectHashingDifferentiation.bind_builder b = b /\
  ObjectHashingDifferentiation.m_token_builder b = MurmurHash_x86_32.

(** The token such a builder gives to two classifiers. *)
Definition object_token (b : ObjectHashingDifferentiation.t) (type context : Z) : Z :=
  token_of (selected false (ObjectHashingDifferentiation.m_use_operation_type b)
    (ObjectHashingDifferentiation.m_use_operation_context b) 0 type context).

(** The links of a channel list the tokens of its objects, in order and without
    repetition, and its builder can always be called. *)
Definition channel_well_formed (c : ChannelDefault.t) : Prop :=
  let q := ChannelDefault.m_submission_queue c in
  bound (SubmissionQueue.m_diff_builder q) /\
  (ChannelDefault.m_object_id_to_token_linkers c).*2 = (SubmissionQueue.m_enf_objects q).*1 /\
  NoDup (SubmissionQueue.m_enf_objects q).*1 /\
  word 64 (ChannelDefault.m_ticket_id c).

(** The calls on a channel. *)
Inductive channel_call :=
| Enforce (context : Context) (buffer : option (list Z)) (buffer_size : Z) (result : Result.t)
| CreateObject (id : Z) (diff_pair : ObjectDifferentiationPair) (type : Z) (configurations : list Z)
| ConfigureObject (id config : Z) (configurations : list Z)
| CollectObject (id : Z) (statistics_raw : ObjectStatisticsRaw)
| CollectGeneral (general_stats : ChannelStatsRaw)
| CollectDetailed (entries : list double)
| CollectEntry (stats : ChannelStatsRaw) (operation : Z)
| DefineDifferentiation (operation_type operation_context : bool).

Section Invariant.
Context `{SystemClock} (fuel : nat).

Definition run_channel (call : channel_call) : M ChannelDefault.t unit :=
  match call with
  | Enforce context buffer size result =>
      _ ← ChannelDefault.channel_enforce fuel context buffer size result; mret tt
  | CreateObject id diff_pair type configurations =>
      _ ← ChannelDefault.create_enforcement_object fuel id diff_pair type configurations; mret tt
  | ConfigureObject id config configurations =>
      _ ← ChannelDefault.configure_enforcement_object fuel id config configurations; mret tt
  | CollectObject id raw => _ ← ChannelDefault.collect_object_statistics fuel id raw; mret tt
  | CollectGeneral stats => _ ← ChannelDefault.collect_general_statistics stats; mret tt
  | CollectDetailed entries => _ ← ChannelDefault.collect_detailed_statistics entries; mret tt
  | CollectEntry stats operation => _ ← ChannelDefault.collect_statistic_entry stats operation; mret tt
  | DefineDifferentiation operation_type operation_context =>
      modify (ChannelDefault.define_object_differentiation operation_type operation_context)
  end.

(** What the calls on existing objects leave of a queue and of a channel. *)
Definition queue_frame (q q' : SubmissionQueue.t) : Prop :=
  SubmissionQueue.m_diff_builder q' = SubmissionQueue.m_diff_builder q /\
  (SubmissionQueue.m_enf_objects q').*1 = (SubmissionQueue.m_enf_objects q).*1.

Definition channel_frame (c c' : ChannelDefault.t) : Prop :=
  queue_frame (ChannelDefault.m_submission_queue c) (ChannelDefault.m_submission_queue c') /\
  ChannelDefault.m_object_id_to_token_linkers c' = ChannelDefault.m_object_id_to_token_linkers c /\
  (word 64 (ChannelDefault.m_ticket_id c) -> word 64 (ChannelDefault.m_ticket_id c')) /\
  ChannelDefault.m_channel_id c' = ChannelDefault.m_channel_id c.

Lemma channel_frame_refl c : channel_frame c c.
Proof. by (split; [split|split; [|split]]). Qed.

Lemma channel_frame_well_formed c c' :
  channel_frame c c' -> channel_well_formed c ->
  channel_well_formed c' /\ ChannelDefault.m_channel_id c' = ChannelDefault.m_channel_id c.
Proof.
  intros ([Hb Ht] & Hl & Hw & Hch) (Hbound & Hlink & Hnd & Hid).
  unfold channel_well_formed. rewrite Hb, Ht, Hl. split; [tauto|done].
Qed.

Lemma keeps_ret {S A} (P : S -> Prop) (a : A) s n : P s -> keeps P (mret (M := M S) a s n).
Proof. done. Qed.

Lemma queue_frame_trans q1 q2 q3 : queue_frame q1 q2 -> queue_frame q2 q3 -> queue_frame q1 q3.
Proof. intros [? ?] [? ?]. split; congruence. Qed.

Lemma channel_frame_trans c1 c2 c3 :
  channel_frame c1 c2 -> channel_frame c2 c3 -> channel_frame c1 c3.
Proof.
  intros (? & ? & ? & ?) (? & ? & ? & ?).
  split; [by eapply queue_frame_trans|split; [congruence|split; [auto|congruence]]].
Qed.

(** Frames along a sequence. *)
Lemma frame_bind {S A B} (R : S -> S -> Prop) (m : M S A) (f : A -> M S B) s n :
  (forall s1 s2 s3, R s1 s2 -> R s2 s3 -> R s1 s3) ->
  keeps (R s) (m s n) -> (forall a s' n', keeps (R s') (f a s' n')) ->
  keeps (R s) ((m ≫= f) s n).
Proof.
  intros Htrans Hm Hf. apply keeps_bind; [done|]. intros a s' n' Hr.
  specialize (Hf a s' n'). destruct (f a s' n'); simpl in *; eauto.
Qed.

Lemma call_frame {A} (m missing : M AnyObject A) token q n :
  keeps (queue_frame q)
    ((match SubmissionQueue.select_enforcement_object token q with
      | Some pointer => SubmissionQueue.call_object pointer m
      | None => zoom SubmissionQueue.m_no_match_object SubmissionQueue.set_no_match missing
      end) q n).
Proof.
  destruct (SubmissionQueue.select_enforcement_object _ _).
  - unfold SubmissionQueue.call_object. destruct (_ !! _) as [[tok o]|] eqn:Hl; [|done].
    eapply keeps_zoom with (PT := fun _ => True); [by destruct (m o n)|].
    intros o' _. split; [done|]. simpl. by eapply tokens_update.
  - eapply keeps_zoom with (PT := fun _ => True); [by destruct (missing _ n)|done].
Qed.

Lemma build_object_token_frame type context q n :
  keeps (queue_frame q) (SubmissionQueue.build_object_token type context q n).
Proof.
  destruct (SubmissionQueue.build_object_token type context q n) eqn:He; [|..]; simpl; [| |done].
  - by apply build_object_token_state in He as [-> ->].
  - revert He. unfold SubmissionQueue.build_object_token. rewrite gets_bind.
    unfold ObjectHashingDifferentiation.build_differentiation_token, hash_value.
    cases_goal; try done. by intros [= <- <- <-].
Qed.

Lemma enforce_mechanism_frame ticket result q n :
  keeps (queue_frame q) (SubmissionQueue.enforce_mechanism fuel ticket result q n).
Proof.
  apply frame_bind; [exact queue_frame_trans|apply build_object_token_frame|].
  intros token q' n'. rewrite gets_bind. apply call_frame.
Qed.

Lemma configure_frame token config values q n :
  keeps (queue_frame q)
    (SubmissionQueue.configure_enforcement_object fuel token config values q n).
Proof.
  unfold SubmissionQueue.configure_enforcement_object. rewrite gets_bind. unfold Datatypes.id.
  destruct (SubmissionQueue.select_enforcement_object token q) eqn:Hs; [|by apply keeps_ret].
  pose proof (call_frame (obj_configure (EnforcementObject := Any_object fuel) config values)
    (obj_configure (EnforcementObject := Any_object fuel) config values) token q n) as Hc.
  by rewrite Hs in Hc.
Qed.

Lemma collect_frame token raw q n :
  keeps (queue_frame q)
    (SubmissionQueue.collect_enforcement_object_statistics fuel token raw q n).
Proof.
  unfold SubmissionQueue.collect_enforcement_object_statistics. rewrite gets_bind.
  unfold Datatypes.id.
  pose proof (call_frame (obj_collect_statistics (EnforcementObject := Any_object fuel) raw)
    (obj_collect_statistics (EnforcementObject := Any_object fuel) raw) token q n) as Hc.
  by destruct (SubmissionQueue.select_enforcement_object token q).
Qed.

Lemma on_queue_frame {A} (m : M SubmissionQueue.t A) c n :
  keeps (queue_frame (ChannelDefault.m_submission_queue c)) (m (ChannelDefault.m_submission_queue c) n) ->
  keeps (channel_frame c) (ChannelDefault.on_queue m c n).
Proof. intros Hm. eapply keeps_zoom; [exact Hm|]. intros q Hq. by (split; [|split; [|split]]). Qed.

Lemma on_statistics_frame {A} (m : M ChannelStatistics.t A) c n :
  keeps (channel_frame c) (ChannelDefault.on_statistics m c n).
Proof.
  eapply keeps_zoom with (PT := fun _ => True); [by destruct (m _ n)|]. by (split; [split|split; [|split]]).
Qed.

Lemma worker_frame q n : keeps (queue_frame q) (SubmissionQueue.dequeue fuel q n).
Proof.
  unfold SubmissionQueue.dequeue. rewrite gets_bind. unfold Datatypes.id.
  destruct (SubmissionQueue.m_queue q) as [|ticket queue]; [by destruct (SubmissionQueue.m_is_running q)|].
  apply frame_bind; [exact queue_frame_trans|done|]. intros _ q1 n1.
  apply frame_bind; [exact queue_frame_trans|apply enforce_mechanism_frame|]. intros result q2 n2.
  apply frame_bind; [exact queue_frame_trans| |by intros; apply keeps_ret].
  eapply keeps_zoom with (PT := fun _ => True); [by destruct (CompletionQueue.enqueue _ _ _)|done].
Qed.

Lemma build_ticket_frame context buffer size c n :
  keeps (channel_frame c) (ChannelDefault.build_ticket context buffer size c n).
Proof.
  assert (Hgen : forall c n, keeps (channel_frame c) (ChannelDefault.gen_ticket_id c n)).
  { intros c' n'. split; [done|]. split; [done|]. split; [|done]. intros _. apply u64_word. }
  unfold ChannelDefault.build_ticket. destruct (_ && _).
  - apply frame_bind; [exact channel_frame_trans|apply Hgen|]. intros ticket_id c1 n1.
    apply frame_bind; [exact channel_frame_trans| |intros; apply keeps_ret, channel_frame_refl].
    unfold memcpy. destruct buffer as [l|].
    + destruct (Z.of_nat (length l) <? size); [done|apply channel_frame_refl].
    + destruct (size =? 0); [apply channel_frame_refl|done].
  - apply frame_bind; [exact channel_frame_trans|apply Hgen|]. intros ticket_id c1 n1. apply keeps_ret, channel_frame_refl.
Qed.

Lemma channel_enforce_frame context buffer size result c n :
  keeps (channel_frame c) (ChannelDefault.channel_enforce fuel context buffer size result c n).
Proof.
  unfold ChannelDefault.channel_enforce.
  apply frame_bind; [exact channel_frame_trans|apply build_ticket_frame|]. intros ticket c1 n1.
  cbv zeta. rewrite gets_bind. unfold Datatypes.id.
  apply frame_bind; [exact channel_frame_trans| |].
  - destruct (ChannelDefault.m_use_fast_path c1).
    + apply on_queue_frame, enforce_mechanism_frame.
    + apply frame_bind; [exact channel_frame_trans|by apply on_queue_frame|]. intros _ c2 n2.
      apply frame_bind; [exact channel_frame_trans|apply on_queue_frame, worker_frame|].
      intros _ c3 n3. apply on_queue_frame.
      eapply keeps_zoom with (PT := fun _ => True); [by destruct (CompletionQueue.dequeue _ _ _)|done].
  - intros r c2 n2. apply frame_bind; [exact channel_frame_trans| |].
    + destruct (ChannelDefault.m_collect_channel_statistics c1);
        [apply on_statistics_frame|apply keeps_ret, channel_frame_refl].
    + intros _ c3 n3. apply keeps_ret, channel_frame_refl.
Qed.

(** A bound builder gives the hash of the classifiers in use. *)
Lemma bound_token type context q n : bound (SubmissionQueue.m_diff_builder q) ->
  SubmissionQueue.build_object_token type context q n =
  Ok (object_token (SubmissionQueue.m_diff_builder q) type context) q n.
Proof.
  intros [Hf Hm]. unfold SubmissionQueue.build_object_token. rewrite gets_bind. unfold Datatypes.id.
  set (b := SubmissionQueue.m_diff_builder q) in *.
  pose proof (object_token_message_aux b (ObjectHashingDifferentiation.m_use_operation_type b)
    (ObjectHashingDifferentiation.m_use_operation_context b) type context q n) as Ht.
  assert (Hb : ObjectHashingDifferentiation.bind_builder
      (ObjectHashingDifferentiation.set_classifiers
         (ObjectHashingDifferentiation.m_use_operation_type b)
         (ObjectHashingDifferentiation.m_use_operation_context b) b) = b)
    by (etransitivity; [|exact Hf]; by destruct b).
  rewrite Hb, Hm in Ht. exact Ht.
Qed.

Lemma bound_define operation_type operation_context b : bound b ->
  bound (ObjectHashingDifferentiation.bind_builder
    (ObjectHashingDifferentiation.set_classifiers operation_type operation_context b)).
Proof. by intros [_ Hm]. Qed.

Lemma add_object_well_formed id token o c : channel_well_formed c ->
  SubmissionQueue.select_enforcement_object token (ChannelDefault.m_submission_queue c) = None ->
  channel_well_formed (add_object id token o c).
Proof.
  intros (Hb & Hl & Hnd & Hid) [Hnew _]%select_in_None.
  split; [done|]. simpl. rewrite !fmap_app. simpl. split; [by rewrite Hl|]. split; [|done].
  apply list.NoDup_app. split_and!; [done| |apply NoDup_singleton].
  intros x Hx ->%list_elem_of_singleton. done.
Qed.

Lemma bound_pair diff_pair c n :
  let b := SubmissionQueue.m_diff_builder (ChannelDefault.m_submission_queue c) in
  bound b ->
  ChannelDefault.build_object_differentiation_token (pair_operation_type diff_pair)
    (pair_operation_context diff_pair) c n =
  Ok (object_token b (pair_operation_type diff_pair) (pair_operation_context diff_pair)) c n.
Proof.
  intros b Hb. unfold ChannelDefault.build_object_differentiation_token, ChannelDefault.on_queue.
  rewrite (zoom_Ok _ _ _ _ _ _ _ _ (bound_token _ _ _ n Hb)). by destruct c.
Qed.

Lemma create_well_formed id diff_pair type conf c n : channel_well_formed c ->
  keeps (fun c' => channel_well_formed c' /\
           ChannelDefault.m_channel_id c' = ChannelDefault.m_channel_id c)
    (ChannelDefault.create_enforcement_object fuel id diff_pair type conf c n).
Proof.
  intros Hwf.
  pose proof (bound_pair diff_pair c n (proj1 Hwf)) as Hc.
  apply (create_object_aux fuel id diff_pair type conf) in Hc.
  destruct (EnforcementObjectType_of type); [|by rewrite Hc].
  destruct (SubmissionQueue.select_enforcement_object _ _) eqn:Hs; [by destruct Hc as [? ->]|].
  destruct (new_object _ _ _ _ _ _); [|done|by rewrite Hc].
  rewrite Hc. split; [by apply add_object_well_formed|done].
Qed.

Lemma run_channel_well_formed call c n :
  channel_well_formed c ->
  keeps (fun c' => channel_well_formed c' /\
           ChannelDefault.m_channel_id c' = ChannelDefault.m_channel_id c) (run_channel call c n).
Proof.
  intros Hwf.
  assert (Hframe : forall A (m : M ChannelDefault.t A), keeps (channel_frame c) (m c n) ->
    keeps (fun c' => channel_well_formed c' /\
             ChannelDefault.m_channel_id c' = ChannelDefault.m_channel_id c) ((m ≫= fun _ => mret tt) c n)).
  { intros A m Hm. unfold mbind, M_bind.
    destruct (m c n); simpl in *; [by eapply channel_frame_well_formed..|done]. }
  destruct call; cbn [run_channel].
  - apply Hframe, channel_enforce_frame.
  - apply keeps_bind; [by apply create_well_formed|auto].
  - apply Hframe. unfold ChannelDefault.configure_enforcement_object. rewrite gets_bind.
    destruct (_ =? _); [apply keeps_ret, channel_frame_refl|].
    apply on_queue_frame, configure_frame.
  - apply Hframe. unfold ChannelDefault.collect_object_statistics. rewrite gets_bind.
    unfold Datatypes.id. destruct (ChannelDefault.m_collect_object_statistics c);
      [|apply keeps_ret, channel_frame_refl].
    cbv zeta. destruct (_ =? _); [apply keeps_ret, channel_frame_refl|].
    apply on_queue_frame, collect_frame.
  - apply Hframe. unfold ChannelDefault.collect_general_statistics. rewrite gets_bind.
    unfold Datatypes.id. destruct (ChannelDefault.m_collect_channel_statistics c);
      [|apply keeps_ret, channel_frame_refl].
    apply frame_bind; [exact channel_frame_trans|apply on_statistics_frame|].
    intros. apply keeps_ret, channel_frame_refl.
  - apply Hframe. unfold ChannelDefault.collect_detailed_statistics. rewrite gets_bind.
    unfold Datatypes.id. destruct (ChannelDefault.m_collect_channel_statistics c);
      [|apply keeps_ret, channel_frame_refl].
    apply frame_bind; [exact channel_frame_trans|apply on_statistics_frame|].
    intros. apply keeps_ret, channel_frame_refl.
  - apply Hframe. unfold ChannelDefault.collect_statistic_entry. rewrite gets_bind.
    unfold Datatypes.id. destruct (ChannelDefault.m_collect_channel_statistics c);
      [|apply keeps_ret, channel_frame_refl].
    apply frame_bind; [exact channel_frame_trans|apply on_statistics_frame|].
    intros. apply keeps_ret, channel_frame_refl.
  - destruct Hwf as (Hb & Hl & Hnd & Hid). split; [|done].
    split; [by apply bound_define|done].
Qed.

End Invariant.

(** ** Tickets *)

(** The ticket of a request, unless the content is shorter than its size. *)
Definition ticket_of (context : Context) (buffer : option (list Z)) (size id : Z) :
    option Ticket.t :=
  let ticket := Ticket.mk id (m_total_operations context) in
  let payload operation_size := s64 (u64 (operation_size * m_total_operations context)) in
  match buffer with
  | Some bytes =>
      if 0 <? size then
        if Z.of_nat (length bytes) <? size then None
        else Some (ticket (payload (m_operation_size context)) (m_operation_type context)
                     (m_operation_context context) size (Some (take (Z.to_nat size) bytes)))
      else Some (ticket (payload (if m_operation_size context =? 0 then 1
                                  else m_operation_size context))
                   (m_operation_type context) (m_operation_context context) 0 None)
  | None => Some (ticket (payload (if m_operation_size context =? 0 then 1
                                   else m_operation_size context))
                    (m_operation_type context) (m_operation_context context) 0 None)
  end.

Lemma build_ticket_outcome context buffer size c n :
  ChannelDefault.build_ticket context buffer size c n =
  match ticket_of context buffer size (ChannelDefault.m_ticket_id c) with
  | Some ticket => Ok ticket
      (ChannelDefault.set_ticket (u64 (ChannelDefault.m_ticket_id c + 1)) c) n
  | None => Crash (UndefinedBehaviour "memcpy past the end of the source")
  end.
Proof.
  unfold ChannelDefault.build_ticket, ticket_of. destruct buffer as [bytes|].
  - rewrite bool_decide_eq_true_2, andb_true_r by done. destruct (0 <? size); [|done].
    unfold ChannelDefault.gen_ticket_id, Ticket_make_content, memcpy, mbind, M_bind, gets, modify.
    by destruct (Z.of_nat (length bytes) <? size).
  - rewrite bool_decide_eq_false_2, andb_false_r by auto. done.
Qed.

(** The content of the ticket is as long as it says. *)
Lemma ticket_of_content context buffer size id ticket :
  ticket_of context buffer size id = Some ticket ->
  Z.of_nat (length (default [] (Ticket.m_buffer ticket))) = Ticket.m_buffer_size ticket /\
  Ticket.m_ticket_id ticket = id.
Proof.
  unfold ticket_of. destruct buffer as [bytes|]; [|by intros [= <-]].
  destruct (Z.ltb_spec 0 size); [|by intros [= <-]].
  destruct (Z.ltb_spec (Z.of_nat (length bytes)) size); [done|].
  intros [= <-]. simpl. rewrite length_take. split; [lia|done].
Qed.

Lemma payload_exact size operations : 0 <= size -> 0 <= operations -> size * operations < 2 ^ 63 ->
  s64 (u64 (size * operations)) = size * operations.
Proof.
  intros. rewrite u64_small by (unfold word; nia). apply s64_small.
  unfold is_long, long_min, long_max. nia.
Qed.

(** ** Queueing and the fast path *)

Definition with_mode (fast : bool) (c : ChannelDefault.t) : ChannelDefault.t :=
  ChannelDefault.mk (ChannelDefault.m_channel_id c) (ChannelDefault.m_submission_queue c) fast
    (ChannelDefault.m_ticket_id c) (ChannelDefault.m_object_id_to_token_linkers c)
    (ChannelDefault.m_collect_channel_statistics c) (ChannelDefault.m_collect_object_statistics c)
    (ChannelDefault.m_channel_statistics c) (ChannelDefault.m_worker_pool c).

(** Nothing is queued. *)
Definition idle (q : SubmissionQueue.t) : Prop :=
  SubmissionQueue.m_queue q = [] /\ SubmissionQueue.m_completion_queue q = CompletionQueue.empty.

Lemma copy_enforced {S} ticket id (s : S) n :
  Z.of_nat (length (default [] (Ticket.m_buffer ticket))) = Ticket.m_buffer_size ticket ->
  Result.copy (enforced ticket (Result.of_ticket id)) s n =
  Ok (enforced ticket (Result.of_ticket id)) s n.
Proof.
  intros Hlen. unfold enforced. destruct (Z.ltb_spec 0 (Ticket.m_buffer_size ticket)); [|done].
  unfold Result.copy, memcpy. cbn [Result.m_has_content Result.m_content Result.m_content_size
    Result.m_ticket_id Result.m_result_status].
  assert ((Z.of_nat (length (take (Z.to_nat (Ticket.m_buffer_size ticket))
    (default [] (Ticket.m_buffer ticket)))) <? Ticket.m_buffer_size ticket) = false) as ->
    by (rewrite length_take; apply Z.ltb_ge; lia).
  rewrite ret_bind. by rewrite take_take, Nat.min_id.
Qed.

Section Queueing.
Context `{SystemClock} (fuel : nat).

Lemma abstract_call_enforced ticket result token q n result' q' n' :
  abstract_call (obj_enforce (EnforcementObject := Any_object fuel) ticket result)
    (obj_enforce (EnforcementObject := Any_object fuel) ticket result) token q n result' q' n' ->
  result' = enforced ticket result.
Proof.
  unfold abstract_call. destruct (view q !! token).
  - intros (o' & Ho & _). by apply (obj_enforce_result (EnforcementObjectLaws := Any_laws fuel)) in Ho as [? _].
  - intros (_ & Ho). by apply (obj_enforce_result (EnforcementObjectLaws := Any_laws fuel)) in Ho as [? _].
Qed.

(** A ticket that goes round an idle queue. *)
Lemma worker_turn ticket id q n :
  idle q -> Ticket.m_ticket_id ticket = id ->
  Z.of_nat (length (default [] (Ticket.m_buffer ticket))) = Ticket.m_buffer_size ticket ->
  (modify (SubmissionQueue.enqueue ticket) ≫= fun _ =>
   SubmissionQueue.dequeue fuel ≫= fun _ =>
   zoom SubmissionQueue.m_completion_queue SubmissionQueue.set_completion_queue
     (CompletionQueue.dequeue id)) q n =
  SubmissionQueue.enforce_mechanism fuel ticket (Result.of_ticket id) q n.
Proof.
  intros [Hq Hc] Hid Hlen. rewrite modify_bind.
  assert (Hturn : SubmissionQueue.set_queue [] (SubmissionQueue.enqueue ticket q) = q).
  { destruct q. simpl in *. by subst. }
  unfold SubmissionQueue.dequeue at 1. unfold SubmissionQueue.enqueue at 1. rewrite Hq. simpl app.
  unfold mbind at 1, M_bind at 1. rewrite gets_bind. unfold Datatypes.id. cbn [SubmissionQueue.m_queue
    SubmissionQueue.set_queue]. rewrite modify_bind. rewrite Hid.
  change (SubmissionQueue.set_queue [] (SubmissionQueue.set_queue [ticket] q)) with
    (SubmissionQueue.set_queue [] q).
  assert (SubmissionQueue.set_queue [] q = q) as -> by (destruct q; simpl in *; by subst).
  unfold mbind at 1, M_bind at 1.
  destruct (SubmissionQueue.enforce_mechanism _ _ _ _ _) as [r q1 n1| |] eqn:He; [|done..].
  apply enforce_mechanism_aux in He as (token & _ & Hcall & _ & Hc1 & _).
  apply abstract_call_enforced in Hcall as ->. rewrite Hc in Hc1.
  unfold mbind at 1, M_bind at 1. unfold zoom at 1. rewrite Hc1.
  unfold CompletionQueue.enqueue. rewrite (bind_Ok _ _ _ _ _ _ _ (copy_enforced _ _ _ _ Hlen)).
  unfold mret at 1, M_ret at 1. unfold modify at 1. cbn [CompletionQueue.m_queue app].
  unfold zoom, CompletionQueue.dequeue. rewrite gets_bind. unfold Datatypes.id.
  cbn [SubmissionQueue.m_completion_queue SubmissionQueue.set_completion_queue
    CompletionQueue.m_queue CompletionQueue.empty app].
  assert ((id =? Result.m_ticket_id (enforced ticket (Result.of_ticket id))) = true) as ->.
  { unfold enforced. destruct (0 <? _); apply Z.eqb_refl. }
  rewrite (bind_Ok _ _ _ _ _ _ _ (copy_enforced _ _ _ _ Hlen)). rewrite modify_bind.
  unfold mret, M_ret. f_equal. destruct q1. simpl in *. by subst.
Qed.

Lemma queue_turn ticket id c n :
  idle (ChannelDefault.m_submission_queue c) -> Ticket.m_ticket_id ticket = id ->
  Z.of_nat (length (default [] (Ticket.m_buffer ticket))) = Ticket.m_buffer_size ticket ->
  (ChannelDefault.on_queue (modify (SubmissionQueue.enqueue ticket)) ≫= fun _ =>
   ChannelDefault.on_queue (SubmissionQueue.dequeue fuel) ≫= fun _ =>
   ChannelDefault.on_queue (zoom SubmissionQueue.m_completion_queue
     SubmissionQueue.set_completion_queue (CompletionQueue.dequeue id))) c n =
  ChannelDefault.on_queue
    (SubmissionQueue.enforce_mechanism fuel ticket (Result.of_ticket id)) c n.
Proof.
  intros Hidle Hid Hlen. pose proof (worker_turn ticket id _ n Hidle Hid Hlen) as Hw.
  rewrite modify_bind in Hw.
  set (c1 := ChannelDefault.set_submission_queue
    (SubmissionQueue.enqueue ticket (ChannelDefault.m_submission_queue c)) c).
  rewrite (bind_Ok _ _ _ _ tt c1 n) by done. unfold ChannelDefault.on_queue.
  rewrite zoom_bind by done. unfold zoom at 1 3.
  change (ChannelDefault.m_submission_queue c1) with
    (SubmissionQueue.enqueue ticket (ChannelDefault.m_submission_queue c)).
  rewrite Hw. by destruct (SubmissionQueue.enforce_mechanism _ _ _ _ _).
Qed.

Lemma on_queue_mode {A} (m : M SubmissionQueue.t A) b c n :
  ChannelDefault.on_queue m (with_mode b c) n =
  outcome_map (with_mode b) (ChannelDefault.on_queue m c n).
Proof. unfold ChannelDefault.on_queue, zoom. simpl. by destruct (m _ n). Qed.

Lemma on_statistics_mode {A} (m : M ChannelStatistics.t A) b c n :
  ChannelDefault.on_statistics m (with_mode b c) n =
  outcome_map (with_mode b) (ChannelDefault.on_statistics m c n).
Proof. unfold ChannelDefault.on_statistics, zoom. simpl. by destruct (m _ n). Qed.

Lemma modes_bind {A B} (fast slow : M ChannelDefault.t A) (k k' : A -> M ChannelDefault.t B) b c n :
  fast (with_mode b c) n = outcome_map (with_mode b) (slow c n) ->
  (forall a c n, k' a (with_mode b c) n = outcome_map (with_mode b) (k a c n)) ->
  (fast ≫= k') (with_mode b c) n = outcome_map (with_mode b) ((slow ≫= k) c n).
Proof. intros Hm Hk. unfold mbind, M_bind. rewrite Hm. by destruct (slow c n); simpl. Qed.

Lemma channel_enforce_modes context buffer size result c n :
  ChannelDefault.m_use_fast_path c = false -> idle (ChannelDefault.m_submission_queue c) ->
  ChannelDefault.channel_enforce fuel context buffer size Result.default (with_mode true c) n =
  outcome_map (with_mode true)
    (ChannelDefault.channel_enforce fuel context buffer size result c n).
Proof.
  intros Hslow Hidle. unfold ChannelDefault.channel_enforce. cbv zeta.
  pose proof (build_ticket_outcome context buffer size c n) as Hb.
  pose proof (build_ticket_outcome context buffer size (with_mode true c) n) as Hb'.
  cbn [with_mode ChannelDefault.m_ticket_id] in Hb'.
  destruct (ticket_of _ _ _ _) as [ticket|] eqn:Ht;
    [|by rewrite (bind_Crash _ _ _ _ _ Hb), (bind_Crash _ _ _ _ _ Hb')].
  apply ticket_of_content in Ht as [Hlen Hid].
  rewrite (bind_Ok _ _ _ _ _ _ _ Hb), (bind_Ok _ _ _ _ _ _ _ Hb'). rewrite !gets_bind.
  unfold Datatypes.id. set (c1 := ChannelDefault.set_ticket _ c).
  change (ChannelDefault.set_ticket _ (with_mode true c)) with (with_mode true c1).
  cbn [ChannelDefault.m_use_fast_path with_mode ChannelDefault.m_collect_channel_statistics].
  change (ChannelDefault.m_use_fast_path c1) with (ChannelDefault.m_use_fast_path c). rewrite Hslow.
  apply modes_bind.
  - rewrite (queue_turn ticket _ c1 n Hidle eq_refl Hlen). apply on_queue_mode.
  - intros r c2 n2. apply modes_bind; [|done].
    destruct (ChannelDefault.m_collect_channel_statistics c1); [apply on_statistics_mode|done].
Qed.

End Queueing.

Fixpoint run_channel_calls `{SystemClock} (fuel : nat) (calls : list channel_call) :
    M ChannelDefault.t unit :=
  match calls with
  | [] => mret tt
  | call :: calls => _ ← run_channel fuel call; run_channel_calls fuel calls
  end.

Lemma make_channel `{SystemClock} channel_id fast stats objects u n c u' n' :
  ChannelDefault.make channel_id fast stats objects u n = Ok c u' n' ->
  ChannelDefault.m_channel_id c = channel_id /\ ChannelDefault.m_use_fast_path c = fast /\
  ChannelDefault.m_submission_queue c = SubmissionQueue.make /\
  ChannelDefault.m_object_id_to_token_linkers c = [] /\ ChannelDefault.m_ticket_id c = 0.
Proof.
  unfold ChannelDefault.make, ChannelDefault.construct. destruct fast, stats; simpl;
    intros Hm; try (injection Hm as <- <- <-); by repeat split.
Qed.

Lemma run_channel_calls_well_formed `{SystemClock} fuel calls : forall c n,
  channel_well_formed c -> keeps channel_well_formed (run_channel_calls fuel calls c n).
Proof.
  induction calls as [|call calls IH]; intros c n Hc; [done|]. simpl.
  apply keeps_bind; [|auto].
  pose proof (run_channel_well_formed fuel call c n Hc) as Hk.
  destruct (run_channel fuel call c n); simpl in *; tauto.
Qed.

(** ** Theorems *)

Section Theorems.
Context `{SystemClock} (fuel : nat).

(** C7.  The enforcement of a ticket: its classifiers, hashed, select an
    object; that object, or the no-match object when the token has none, does
    the enforcement, the other objects are left alone, and the result is
    a success with the content of the ticket. *)
Theorem enforce_mechanism_refines ticket result q n result' q' n' :
  bound (SubmissionQueue.m_diff_builder q) ->
  SubmissionQueue.enforce_mechanism fuel ticket result q n = Ok result' q' n' ->
  let token := object_token (SubmissionQueue.m_diff_builder q)
    (u32 (Ticket.m_operation_type ticket)) (u32 (Ticket.m_operation_context ticket)) in
  let call := obj_enforce (EnforcementObject := Any_object fuel) ticket result in
  result' = enforced ticket result /\ abstract_call call call token q n result' q' n' /\
  same_frame q q'.
Proof.
  intros Hb (token & Ht & Hcall & Hframe)%enforce_mechanism_aux.
  unfold token_of_ticket in Ht. rewrite bound_token in Ht by done. injection Ht as <-.
  split; [by eapply abstract_call_enforced|done].
Qed.

(** A new channel, and what any sequence of calls makes of it: the links
    list the tokens of the objects in order, no token is used twice and
    the token builder can always be called. *)
Theorem channel_invariant calls channel_id fast stats objects n c u n' :
  ChannelDefault.make channel_id fast stats objects tt n = Ok c u n' ->
  keeps channel_well_formed (run_channel_calls fuel calls c n').
Proof.
  intros (_ & _ & Hq & Hl & Hid)%make_channel. apply run_channel_calls_well_formed.
  split_and!; rewrite ?Hq, ?Hl, ?Hid; [by split|done|constructor|done..].
Qed.

(** The creation of an object, on every branch: an unknown type is not
    supported, a token in use is an error and changes nothing, a rate limiter
    with a single value reads past the vector, and otherwise the object,
    with its identifier, is added under its token and linked. *)
Theorem create_enforcement_object_outcome id diff_pair type conf c n :
  channel_well_formed c ->
  let q := ChannelDefault.m_submission_queue c in
  let token := object_token (SubmissionQueue.m_diff_builder q)
    (pair_operation_type diff_pair) (pair_operation_context diff_pair) in
  let create := ChannelDefault.create_enforcement_object fuel id diff_pair type conf in
  match EnforcementObjectType_of type with
  | None => create c n = Ok PStatus_NotSupported c n
  | Some kind =>
      match view q !! token with
      | Some _ => exists n', create c n = Ok PStatus_Error c n'
      | None =>
          if bool_decide (kind = drl /\ length conf = 1%nat)
          then create c n = Crash (UndefinedBehaviour "vector index out of range")
          else exists o n', create c n = Ok PStatus_OK (add_object id token o c) n' /\
            new_object id kind (ChannelDefault.m_collect_object_statistics c) conf tt n = Ok o tt n' /\
            get_enforcement_object_id (EnforcementObject := Any_object fuel) o = id /\
            view (ChannelDefault.m_submission_queue (add_object id token o c)) =
              <[token := o]> (view q)
      end
  end.
Proof.
  intros Hwf q token create.
  pose proof (create_object_aux fuel id diff_pair type conf c n token
    (bound_pair diff_pair c n (proj1 Hwf))) as Hc.
  destruct (EnforcementObjectType_of type) as [kind|]; [|done]. unfold view.
  destruct (SubmissionQueue.select_enforcement_object _ _) as [i|] eqn:Hs.
  - apply select_in_Some in Hs as (o & _ & Hm). fold q in Hm. by rewrite Hm.
  - apply select_in_None in Hs as [Hin Hm]. fold q in Hin, Hm. rewrite Hm.
    pose proof (new_object_outcome fuel id kind (ChannelDefault.m_collect_object_statistics c) conf n)
      as Hnew.
    case_bool_decide; [by rewrite Hnew in Hc|]. destruct Hnew as (o & n' & Ho & Hid).
    rewrite Ho in Hc. exists o, n'. split_and!; [done..|]. by apply list_to_map_append.
Qed.

(** An identifier stands for its first link.  A new object takes its
    identifier only if no earlier object has it: a second object with the same
    identifier is never reached by a configuration, which goes to the first. *)
Theorem links_after_creation id token o c id' :
  ChannelDefault.get_enforcement_object_diff_token id' (add_object id token o c) =
  if decide (id' = id /\ id ∉ (ChannelDefault.m_object_id_to_token_linkers c).*1)
  then token else ChannelDefault.get_enforcement_object_diff_token id' c.
Proof.
  unfold ChannelDefault.get_enforcement_object_diff_token. simpl.
  induction (ChannelDefault.m_object_id_to_token_linkers c) as [|[i tok] linkers IH]; simpl.
  - destruct (Z.eqb_spec id id') as [->|]; case_decide as Hd; try done; exfalso.
    + apply Hd. split; [done|apply not_elem_of_nil].
    + by destruct Hd.
  - rewrite IH. clear IH. destruct (Z.eqb_spec i id') as [->|Hne].
    + case_decide as Hd; [|done]. destruct Hd as [<- Hd]. exfalso. apply Hd, list_elem_of_here.
    + case_decide as Hd; case_decide as Hd'; [done| | |done]; exfalso.
      * destruct Hd as [-> Hd]. apply Hd'. split; [done|]. by apply not_elem_of_cons.
      * destruct Hd' as [-> [_ Hd']%not_elem_of_cons]. by apply Hd.
Qed.

(** A configuration goes to the object of the first link, and to no
    other; an identifier without a link is an error. *)
Theorem configure_by_identifier id config values c n status c' n' :
  ChannelDefault.configure_enforcement_object fuel id config values c n = Ok status c' n' ->
  let token := ChannelDefault.get_enforcement_object_diff_token id c in
  if decide (token = invalid_token) then status = PStatus_Error /\ c' = c /\ n' = n
  else abstract_call (obj_configure (EnforcementObject := Any_object fuel) config values)
         (mret PStatus_Error) token (ChannelDefault.m_submission_queue c) n status
         (ChannelDefault.m_submission_queue c') n' /\
       c' = ChannelDefault.set_submission_queue (ChannelDefault.m_submission_queue c') c.
Proof.
  unfold ChannelDefault.configure_enforcement_object. rewrite gets_bind. cbv zeta.
  set (token := ChannelDefault.get_enforcement_object_diff_token id c).
  destruct (Z.eqb_spec token invalid_token); case_decide; [by intros [= <- <- <-]|done..|].
  intros (q' & Hq & ->)%zoom_Ok_inv. split; [|done]. simpl.
  unfold SubmissionQueue.configure_enforcement_object in Hq. rewrite gets_bind in Hq.
  unfold Datatypes.id in Hq.
  set (q := ChannelDefault.m_submission_queue c) in *.
  pose proof (call_refines (obj_configure (EnforcementObject := Any_object fuel) config values)
    (mret PStatus_Error) token q n status q' n') as Hr.
  destruct (SubmissionQueue.select_enforcement_object token q); [by apply Hr|].
  apply Hr. injection Hq as <- <- <-. unfold zoom, mret, M_ret. f_equal. by destruct q.
Qed.

(** A request on the fast path: the ticket takes the next identifier and
    the payload of the context (size times operations, exact when it is below
    2^63), the result is the enforcement of that ticket. *)
Theorem channel_enforce_fast_path context buffer size result c n result' c' n' :
  ChannelDefault.m_use_fast_path c = true ->
  ChannelDefault.channel_enforce fuel context buffer size result c n = Ok result' c' n' ->
  exists ticket, ticket_of context buffer size (ChannelDefault.m_ticket_id c) = Some ticket /\
    result' = enforced ticket (Result.set_ticket_id (ChannelDefault.m_ticket_id c) result) /\
    ChannelDefault.m_ticket_id c' = u64 (ChannelDefault.m_ticket_id c + 1) /\
    (0 < m_operation_size context -> 0 <= m_total_operations context ->
     m_operation_size context * m_total_operations context < 2 ^ 63 ->
     Ticket.m_payload ticket = m_operation_size context * m_total_operations context).
Proof.
  intros Hfast Hrun. unfold ChannelDefault.channel_enforce in Hrun. cbv zeta in Hrun.
  apply bind_Ok_inv in Hrun as (ticket & c1 & n1 & Hb & Hrun).
  rewrite build_ticket_outcome in Hb. destruct (ticket_of _ _ _ _) as [tk|] eqn:Ht; [|done].
  injection Hb as -> <- <-. apply ticket_of_content in Ht as Hc. destruct Hc as [_ Hid].
  rewrite gets_bind in Hrun. unfold Datatypes.id in Hrun. set (c1 := ChannelDefault.set_ticket _ c) in *.
  change (ChannelDefault.m_use_fast_path c1) with (ChannelDefault.m_use_fast_path c) in Hrun.
  rewrite Hfast in Hrun. apply bind_Ok_inv in Hrun as (r & c2 & n2 & Hq & Hrun).
  apply zoom_Ok_inv in Hq as (q' & (token & _ & Hcall & _)%enforce_mechanism_aux & ->).
  apply abstract_call_enforced in Hcall as ->. rewrite Hid in Hrun.
  apply bind_Ok_inv in Hrun as (u & c3 & n3 & Hs & [= <- <- <-]).
  exists ticket. split_and!; [done|done| |].
  - destruct (ChannelDefault.m_collect_channel_statistics c1); [|by injection Hs as _ <- _].
    by apply zoom_Ok_inv in Hs as (s & _ & ->).
  - intros Hsz Hops Hlt. rewrite <- (payload_exact _ _ (Z.lt_le_incl _ _ Hsz) Hops Hlt).
    revert Ht. unfold ticket_of. rewrite (proj2 (Z.eqb_neq _ 0)) by lia.
    destruct buffer as [bytes|]; [|by intros [= <-]]. destruct (0 <? size); [|by intros [= <-]].
    destruct (_ <? size); [done|]. by intros [= <-].
Qed.

(** C13.  Queueing and the fast path agree: with nothing queued, a request that
    goes through the queues and a worker has the outcome of the fast path
    with a new result, the state of the channel included. *)
Theorem queueing_equals_fast_path context buffer size result c n :
  ChannelDefault.m_use_fast_path c = false -> idle (ChannelDefault.m_submission_queue c) ->
  ChannelDefault.channel_enforce fuel context buffer size Result.default (with_mode true c) n =
  outcome_map (with_mode true)
    (ChannelDefault.channel_enforce fuel context buffer size result c n).
Proof. apply channel_enforce_modes. Qed.

End Theorems.

(** A channel of two objects. *)
Definition sample_channel : ChannelDefault.t :=
  add_object 7 12 (NoopPtr (NoopObject.make 7))
    (add_object 5 (object_token (SubmissionQueue.m_diff_builder SubmissionQueue.make) 0 0)
       (NoopPtr (NoopObject.make 5))
       (ChannelDefault.mk 1 SubmissionQueue.make true 0 [] false false ChannelDefault.stats_member 0)).

Definition sample_queue : SubmissionQueue.t := ChannelDefault.m_submission_queue sample_channel.

Definition sample_queue_after : SubmissionQueue.t :=
  SubmissionQueue.set_objects
    (<[O := (object_token (SubmissionQueue.m_diff_builder SubmissionQueue.make) 0 0,
             NoopPtr (NoopObject.mk 5 "" 1 false))]> (SubmissionQueue.m_enf_objects sample_queue))
    sample_queue.

Lemma enforce_mechanism_refines_witness :
  enforced sample_ticket Result.default = enforced sample_ticket Result.default /\
  abstract_call
    (obj_enforce (EnforcementObject := @Any_object bounded_clock 3) sample_ticket Result.default)
    (obj_enforce (EnforcementObject := @Any_object bounded_clock 3) sample_ticket Result.default)
    (object_token (SubmissionQueue.m_diff_builder sample_queue) 0 0) sample_queue O
    (enforced sample_ticket Result.default) sample_queue_after O /\
  same_frame sample_queue sample_queue_after.
Proof.
  apply (@enforce_mechanism_refines bounded_clock 3 sample_ticket Result.default sample_queue O
    (enforced sample_ticket Result.default) sample_queue_after O).
  - split; reflexivity.
  - reflexivity.
Defined.

Lemma sample_channel_well_formed : channel_well_formed sample_channel.
Proof.
  split; [by split|]. split; [done|]. split; [apply distinct_sound; vm_compute; reflexivity|done].
Defined.

Lemma channel_invariant_witness :
  let calls := [CreateObject 5 (mkPair 0 0) 0 []; Enforce default_Context None 0 Result.default;
                DefineDifferentiation true true; CreateObject 6 (mkPair 1 6) 0 []] in
  let c := ChannelDefault.mk 1 SubmissionQueue.make true 0 [] false false ChannelDefault.stats_member 0 in
  (exists u c' n, @run_channel_calls bounded_clock 3 calls c O = Ok u c' n) /\
  keeps channel_well_formed (@run_channel_calls bounded_clock 3 calls c O).
Proof.
  intros calls c. split; [apply is_Ok_inv; vm_compute; reflexivity|].
  apply (@channel_invariant bounded_clock 3 calls 1 true false false O c tt O). reflexivity.
Defined.

Lemma create_enforcement_object_outcome_witness :
  exists n', @ChannelDefault.create_enforcement_object bounded_clock 3 9 (mkPair 0 0) 1 [1000000; 500]
    sample_channel O = Ok PStatus_Error sample_channel n'.
Proof.
  exact (@create_enforcement_object_outcome bounded_clock 3 9 (mkPair 0 0) 1 [1000000; 500]
    sample_channel O sample_channel_well_formed).
Defined.

Lemma configure_by_identifier_witness :
  abstract_call (obj_configure (EnforcementObject := @Any_object bounded_clock 3) 2 [100])
    (mret PStatus_Error) 12 sample_queue O PStatus_OK sample_queue O /\
  sample_channel = ChannelDefault.set_submission_queue sample_queue sample_channel.
Proof.
  exact (@configure_by_identifier bounded_clock 3 7 2 [100] sample_channel O PStatus_OK
    sample_channel O eq_refl).
Defined.

Definition sample_context : Context := mkContext 1 0 0 10 3.

Lemma channel_enforce_fast_path_witness : exists c' n ticket,
  @ChannelDefault.channel_enforce bounded_clock 3 sample_context None 0 Result.default sample_channel O
    = Ok (enforced ticket (Result.of_ticket 0)) c' n /\
  ticket_of sample_context None 0 0 = Some ticket /\ ChannelDefault.m_ticket_id c' = 1 /\
  Ticket.m_payload ticket = 30.
Proof.
  destruct (is_Ok_inv (@ChannelDefault.channel_enforce bounded_clock 3 sample_context None 0
    Result.default sample_channel O)) as (r & c' & n & Hrun); [vm_compute; reflexivity|].
  destruct (@channel_enforce_fast_path bounded_clock 3 sample_context None 0 Result.default
    sample_channel O r c' n eq_refl Hrun) as (ticket & Ht & -> & Hid & Hp).
  exists c', n, ticket. split; [exact Hrun|]. split; [exact Ht|]. split; [exact Hid|].
  apply Hp; vm_compute; [reflexivity|discriminate|reflexivity].
Defined.

Lemma queueing_equals_fast_path_witness :
  let c := with_mode false sample_channel in
  @ChannelDefault.channel_enforce bounded_clock 3 sample_context (Some [1; 2; 3]) 2 Result.default
    (with_mode true c) O =
  outcome_map (with_mode true) (@ChannelDefault.channel_enforce bounded_clock 3 sample_context
    (Some [1; 2; 3]) 2 Result.default c O) /\
  exists r c' n, @ChannelDefault.channel_enforce bounded_clock 3 sample_context (Some [1; 2; 3]) 2
    Result.default c O = Ok r c' n.
Proof.
  intros c. split; [|apply is_Ok_inv; vm_compute; reflexivity].
  apply (@queueing_equals_fast_path bounded_clock 3 sample_context (Some [1; 2; 3]) 2 Result.default
    c O); [reflexivity|split; reflexivity].
Defined.
