(* ===== verification/Core.v ===== *)
(** * The core of the stage

    [Core] ([core.cpp]) keeps the channels of the stage under their
    differentiation tokens, the links from channel identifiers to tokens and
    the housekeeping table.  A request goes to the channel its classifiers hash
    to; the housekeeping rules create channels and enforcement objects; the
    enforcement rules and the statistics reach them by identifier. *)

From S2P Require Import Prelude MachineInt Binary64 Options Differentiation.
From S2P Require Import Rules TokenBucketStats TokenBucket EnforcementObjects ChannelStatistics Channel.

Module Core.

Record t := mk {
  m_channels : gmap Z ChannelDefault.t;               (* by diff_token_t *)
  m_channel_id_to_token_linkers : list (Z * Z);       (* vector<pair<long, diff_token_t>> *)
  m_channel_diff_builder : ChannelHashingDifferentiation.t;
  m_housekeeping_table : HousekeepingTable.t;
  m_define_default_object_differentiation : bool;
}.

Definition set_channels (channels : gmap Z ChannelDefault.t) (c : t) : t :=
  mk channels (m_channel_id_to_token_linkers c) (m_channel_diff_builder c)
    (m_housekeeping_table c) (m_define_default_object_differentiation c).
Definition set_linkers (linkers : list (Z * Z)) (c : t) : t :=
  mk (m_channels c) linkers (m_channel_diff_builder c) (m_housekeeping_table c)
    (m_define_default_object_differentiation c).
Definition set_builder (b : ChannelHashingDifferentiation.t) (c : t) : t :=
  mk (m_channels c) (m_channel_id_to_token_linkers c) b (m_housekeeping_table c)
    (m_define_default_object_differentiation c).
Definition set_table (table : HousekeepingTable.t) (c : t) : t :=
  mk (m_channels c) (m_channel_id_to_token_linkers c) (m_channel_diff_builder c) table
    (m_define_default_object_differentiation c).

(** An operation on the table, with the status it returns. *)
Definition on_table (f : HousekeepingTable.t -> PStatus * HousekeepingTable.t) : M t PStatus :=
  state (fun c => let '(status, table) := f (m_housekeeping_table c) in (status, set_table table c)).

(** A call on the channel behind a pointer, that is, under a token. *)
Definition call_channel {A} (token : Z) (m : M ChannelDefault.t A) : M t A := fun c n =>
  match m_channels c !! token with
  | Some channel =>
      zoom (fun _ => channel) (fun channel c => set_channels (<[token := channel]> (m_channels c)) c)
        m c n
  | None => Crash (UndefinedBehaviour "dangling ChannelDefault pointer")
  end.

Definition define_channel_differentiation (workflow operation_type operation_context : bool) (c : t) : t :=
  set_builder (ChannelHashingDifferentiation.bind_builder
    (ChannelHashingDifferentiation.set_classifiers workflow operation_type operation_context
       (m_channel_diff_builder c))) c.

(** The default constructor. *)
Definition make_default : t :=
  define_channel_differentiation option_default_channel_differentiation_workflow
    option_default_channel_differentiation_operation_type
    option_default_channel_differentiation_operation_context
    (mk ∅ [] (ChannelHashingDifferentiation.with_scheme option_default_hashing_algorithm)
       HousekeepingTable.empty option_define_default_object_differentiation_on_create_channel).

Definition set_default_object_differentiation (value : bool) (c : t) : t :=
  mk (m_channels c) (m_channel_id_to_token_linkers c) (m_channel_diff_builder c)
    (m_housekeeping_table c) value.

(** The pointer to a channel: its token, or nothing for [nullptr]. *)
Definition select_channel (channel_token : Z) (c : t) : option Z :=
  if bool_decide (is_Some (m_channels c !! channel_token)) then Some channel_token else None.

Definition does_channel_token_exist (channel_token : Z) (c : t) : bool :=
  bool_decide (is_Some (m_channels c !! channel_token)).

Definition does_channel_id_exist (channel_id : Z) (c : t) : bool :=
  existsb (fun element => fst element =? channel_id) (m_channel_id_to_token_linkers c).

Definition get_channel_diff_token (channel_id : Z) (c : t) : Z :=
  find_link (m_channel_id_to_token_linkers c) channel_id.

Definition create_new_channel_linker (channel_id channel_token : Z) : M t unit :=
  modify (fun c => set_linkers (m_channel_id_to_token_linkers c ++ [(channel_id, channel_token)]) c).

Definition get_total_channels (c : t) : Z :=
  s32 (Z.of_nat (length (m_channel_id_to_token_linkers c))).

Definition get_channels_identifiers (c : t) (channels_ids : list Z) : list Z :=
  channels_ids ++ (m_channel_id_to_token_linkers c).*1.

Definition define_enforcement_object_differentiation_with_channel_token (channel_token : Z)
    (operation_type operation_context : bool) : M t PStatus :=
  channel_ptr ← gets (select_channel channel_token);
  match channel_ptr with
  | Some ptr =>
      _ ← call_channel ptr
            (modify (ChannelDefault.define_object_differentiation operation_type operation_context));
      mret PStatus_OK
  | None => mret PStatus_Error
  end.

Definition define_enforcement_object_differentiation (channel_id : Z)
    (operation_type operation_context : bool) : M t PStatus :=
  channel_token ← gets (get_channel_diff_token channel_id);
  if channel_token =? invalid_token then mret PStatus_Error
  else define_enforcement_object_differentiation_with_channel_token channel_token
         operation_type operation_context.

Definition insert_housekeeping_rule_fields (rule_id : Z) (operation : HousekeepingOperation)
    (channel_id enforcement_object_id : Z) (properties : list Z) : M t PStatus :=
  on_table (HousekeepingTable.insert_housekeeping_rule_fields rule_id operation channel_id
              enforcement_object_id properties).

Definition insert_housekeeping_rule (rule : HousekeepingRule.t) : M t PStatus :=
  on_table (HousekeepingTable.insert_housekeeping_rule rule).

Section Clock.
Context `{SystemClock}.
(** Fuel of the loops of the token buckets. *)
Context (fuel : nat).

(** [make_unique<ChannelDefault> (...)], whose first argument narrows to
    [uint32_t]. *)
Definition new_channel (channel_id : Z) : M t ChannelDefault.t :=
  zoom (fun _ => tt) (fun _ c => c)
    (ChannelDefault.make (u32 channel_id) (bool_decide (option_default_channel_mode = fast_path))
       option_default_channel_statistic_collection option_default_object_statistic_collection).

(** [emplace] in a map keeps the old value of a key in use. *)
Definition emplace_channel (channel_token : Z) (channel : ChannelDefault.t) : M t bool :=
  state (fun c =>
    match m_channels c !! channel_token with
    | Some _ => (false, c)
    | None => (true, set_channels (<[channel_token := channel]> (m_channels c)) c)
    end).

Definition create_channel (channel_id : Z)
    (channel_differentiation_tuple : ChannelDifferentiationTuple) : M t PStatus :=
  c ← gets id;
  channel_token ← ChannelHashingDifferentiation.build_differentiation_token_tuple
                    (m_channel_diff_builder c) channel_differentiation_tuple;
  if negb (does_channel_token_exist channel_token c) && negb (does_channel_id_exist channel_id c)
  then
    channel ← new_channel channel_id;
    inserted ← emplace_channel channel_token channel;
    if inserted : bool then
      _ ← create_new_channel_linker channel_id channel_token;
      _ ← (if m_define_default_object_differentiation c then
             call_channel channel_token (modify (ChannelDefault.define_object_differentiation
               option_default_enforcement_object_differentiation_operation_type
               option_default_enforcement_object_differentiation_operation_context))
           else mret tt);
      mret PStatus_OK
    else mret PStatus_Error
  else mret PStatus_Error.

Definition create_enforcement_object (channel_id enforcement_object_id : Z)
    (differentiation_pair : ObjectDifferentiationPair) (object_type : Z)
    (configurations : list Z) : M t PStatus :=
  c ← gets id;
  let channel_token := get_channel_diff_token channel_id c in
  if channel_token =? invalid_token then mret PStatus_Error
  else
    match select_channel channel_token c with
    | Some ptr => call_channel ptr (ChannelDefault.create_enforcement_object fuel
        enforcement_object_id differentiation_pair object_type configurations)
    | None => mret PStatus_Error
    end.

Definition enforce_request (request_context : Context) (buffer : option (list Z))
    (buffer_size : Z) (result : Result.t) : M t Result.t :=
  c ← gets id;
  channel_token ← ChannelHashingDifferentiation.build_differentiation_token
                    (m_channel_diff_builder c) (u32 (m_workflow_id request_context))
                    (u32 (m_operation_type request_context))
                    (u32 (m_operation_context request_context));
  match select_channel channel_token c with
  | Some ptr =>
      call_channel ptr (ChannelDefault.channel_enforce fuel request_context buffer buffer_size result)
  | None => mret result
  end.

(** A pass of the loop of the parameterized constructor, whose statuses are
    only logged. *)
Definition create_default_channel (i : Z) (create_default_objects : bool) : M t unit :=
  status ← create_channel i
             (mkTuple (u32 i) (u32 (PAIO_GENERAL_.code PAIO_GENERAL_.no_op))
                (u32 (PAIO_GENERAL_.code PAIO_GENERAL_.no_op)));
  if create_default_objects && is_ok status then
    _ ← create_enforcement_object i 0
          (mkPair (u32 (PAIO_GENERAL_.code PAIO_GENERAL_.no_op))
             (u32 (PAIO_GENERAL_.code PAIO_GENERAL_.no_op)))
          (EnforcementObjectType_code noop) [];
    mret tt
  else mret tt.

(** The passes from [i] on, [n] of them. *)
Fixpoint create_default_channels (i : Z) (n : nat) (create_default_objects : bool) : M t unit :=
  match n with
  | O => mret tt
  | S n =>
      _ ← create_default_channel i create_default_objects;
      if i =? int_max then crash_with (UndefinedBehaviour "int overflow")
      else create_default_channels (i + 1) n create_default_objects
  end.

(** The parameterized constructor, as a computation that builds on the default one. *)
Definition make (channels : Z) (create_default_channels_ create_default_objects : bool) : M t unit :=
  _ ← modify (fun _ => make_default);
  if create_default_channels_ then
    create_default_channels 1 (Z.to_nat channels) create_default_objects
  else mret tt.

Definition employ_create_channel (rule : HousekeepingRule.t) : M t PStatus :=
  workflow ← HousekeepingRule.get_property_at_index rule 1;
  operation_type ← HousekeepingRule.get_property_at_index rule 2;
  operation_context ← HousekeepingRule.get_property_at_index rule 3;
  create_channel (HousekeepingRule.m_channel_id rule)
    (mkTuple (u32 workflow) (u32 operation_type) (u32 operation_context)).

Definition employ_create_object (rule : HousekeepingRule.t) : M t PStatus :=
  (* a first component of -1 is only logged *)
  '(_, enforcement_object_configurations) ←
    HousekeepingRule.get_properties_at_range rule 4
      (HousekeepingRule.get_properties_size rule - 1) [];
  operation_type ← HousekeepingRule.get_property_at_index rule 1;
  operation_context ← HousekeepingRule.get_property_at_index rule 2;
  object_type ← HousekeepingRule.get_property_at_index rule 3;
  create_enforcement_object (HousekeepingRule.m_channel_id rule)
    (HousekeepingRule.m_enforcement_object_id rule)
    (mkPair (u32 operation_type) (u32 operation_context)) (s32 object_type)
    enforcement_object_configurations.

Definition execute_housekeeping_rule (rule_id : Z) : M t PStatus :=
  table ← gets m_housekeeping_table;
  let '(status, rule) :=
    HousekeepingTable.select_housekeeping_rule rule_id HousekeepingRule.default table in
  status ← (if is_ok status then
              if negb (HousekeepingRule.m_enforced rule) then
                match HousekeepingRule.m_rule_type rule with
                | hsk_create_channel => employ_create_channel rule
                | hsk_create_object => employ_create_object rule
                | _ => throw (LogicError "HousekeepingOperation type not supported")
                end
              else mret PStatus_Enforced
            else mret status);
  if is_ok status then
    _ ← on_table (HousekeepingTable.mark_housekeeping_rule_as_enforced rule_id);
    mret status
  else mret status.

(** The pass over the table from a position of its iterator: [order] lists the
    identifiers left, in the order of the hash table. *)
Fixpoint execute_from (order : list Z) (status : PStatus) : M t PStatus :=
  match order with
  | [] => mret status
  | rule_id :: order =>
      table ← gets m_housekeeping_table;
      match HousekeepingTable.m_housekeeping_rules table !! rule_id with
      | None => crash_with (UndefinedBehaviour "dangling iterator")
      | Some rule =>
          if negb (HousekeepingRule.m_enforced rule) then
            status ← execute_housekeeping_rule rule_id;
            if is_error status then mret PStatus_Error else execute_from order status
          else execute_from order status
      end
  end.

(** [order] is the order in which the hash table lists its rules. *)
Definition execute_housekeeping_rules (order : list Z) : M t PStatus :=
  execute_from order PStatus_Error.

Definition employ_enforcement_rule (channel_id enforcement_object_id enforcement_rule_type : Z)
    (configurations : list Z) : M t PStatus :=
  c ← gets id;
  let channel_token := get_channel_diff_token channel_id c in
  if channel_token =? invalid_token then mret PStatus_Error
  else
    match select_channel channel_token c with
    | Some ptr => call_channel ptr (ChannelDefault.configure_enforcement_object fuel
        enforcement_object_id enforcement_rule_type configurations)
    | None => mret PStatus_Error
    end.

Definition collect_enforcement_object_statistics (channel_id enforcement_object_id : Z)
    (object_stats_raw : ObjectStatisticsRaw) : M t (PStatus * ObjectStatisticsRaw) :=
  c ← gets id;
  let channel_token := get_channel_diff_token channel_id c in
  if channel_token =? invalid_token then mret (PStatus_Error, object_stats_raw)
  else
    match select_channel channel_token c with
    | Some ptr => call_channel ptr (ChannelDefault.collect_object_statistics fuel
        enforcement_object_id
        (mkObjectStatisticsRaw channel_id enforcement_object_id (stats_total object_stats_raw)
           (m_object_statistic_entries object_stats_raw)))
    | None => mret (PStatus_Error, object_stats_raw)
    end.

Definition collect_channel_statistics (channel_id : Z) (channel_stats : ChannelStatsRaw) :
    M t (PStatus * ChannelStatsRaw) :=
  c ← gets id;
  let channel_token := get_channel_diff_token channel_id c in
  if channel_token =? invalid_token then mret (PStatus_Error, channel_stats)
  else
    match select_channel channel_token c with
    | Some ptr => call_channel ptr (ChannelDefault.collect_general_statistics
        (mkChannelStatsRaw channel_id (m_overall_metric_value channel_stats)
           (m_windowed_metric_value channel_stats)))
    | None => mret (PStatus_Error, channel_stats)
    end.

Definition collect_channel_statistics_detailed (channel_id : Z)
    (detailed_stat_entries : list double) : M t (PStatus * list double) :=
  c ← gets id;
  let channel_token := get_channel_diff_token channel_id c in
  if channel_token =? invalid_token then mret (PStatus_Error, detailed_stat_entries)
  else
    match select_channel channel_token c with
    | Some ptr => call_channel ptr (ChannelDefault.collect_detailed_statistics detailed_stat_entries)
    | None => mret (PStatus_Error, detailed_stat_entries)
    end.

End Clock.

End Core.

(** ** The invariant of the core *)

(** A builder bound to the function of its classifiers, which fills the 32-bit
    token, and the token it gives. *)
Definition channel_bound (b : ChannelHashingDifferentiation.t) : Prop :=
  ChannelHashingDifferentiation.bind_builder b = b /\
  ChannelHashingDifferentiation.m_token_builder b = MurmurHash_x86_32.

Definition channel_token (b : ChannelHashingDifferentiation.t) (workflow type context : Z) : Z :=
  token_of (selected (ChannelHashingDifferentiation.m_use_workflow b)
    (ChannelHashingDifferentiation.m_use_operation_type b)
    (ChannelHashingDifferentiation.m_use_operation_context b) workflow type context).

Definition tuple_token (b : ChannelHashingDifferentiation.t) (tuple : ChannelDifferentiationTuple) : Z :=
  channel_token b (m_workflow_identifier tuple) (tuple_operation_type tuple)
    (tuple_operation_context tuple).

(** Identifiers and tokens are not repeated, the links list the channels, and
    each leads to a well-formed channel that carries the identifier. *)
Definition core_well_formed (c : Core.t) : Prop :=
  let linkers := Core.m_channel_id_to_token_linkers c in
  channel_bound (Core.m_channel_diff_builder c) /\
  NoDup linkers.*1 /\ NoDup linkers.*2 /\
  (forall token, is_Some (Core.m_channels c !! token) <-> token ∈ linkers.*2) /\
  (forall id token, (id, token) ∈ linkers -> exists channel,
     Core.m_channels c !! token = Some channel /\
     ChannelDefault.m_channel_id channel = u32 id /\ channel_well_formed channel).

(** The calls on the core. *)
Inductive core_call :=
| DefineObjectDifferentiation (channel_id : Z) (operation_type operation_context : bool)
| CreateChannel (channel_id : Z) (tuple : ChannelDifferentiationTuple)
| CreateEnforcementObject (channel_id id : Z) (diff_pair : ObjectDifferentiationPair) (type : Z)
    (configurations : list Z)
| EnforceRequest (context : Context) (buffer : option (list Z)) (buffer_size : Z) (result : Result.t)
| InsertHousekeepingRule (rule : HousekeepingRule.t)
| ExecuteHousekeepingRule (rule_id : Z)
| ExecuteHousekeepingRules (order : list Z)
| EmployEnforcementRule (channel_id id type : Z) (configurations : list Z)
| CollectObjectStatistics (channel_id id : Z) (raw : ObjectStatisticsRaw)
| CollectChannelStatistics (channel_id : Z) (stats : ChannelStatsRaw)
| CollectChannelStatisticsDetailed (channel_id : Z) (entries : list double)
| SetDefaultObjectDifferentiation (value : bool).

Lemma find_link_In linkers id : find_link linkers id = invalid_token \/
  (id, find_link linkers id) ∈ linkers.
Proof.
  induction linkers as [|[i tok] linkers IH]; simpl; [by left|].
  destruct (Z.eqb_spec i id) as [->|]; [right; by left|].
  destruct IH as [->|IH]; [by left|right; by right].
Qed.

Lemma find_link_NoDup linkers id token : NoDup linkers.*1 -> (id, token) ∈ linkers ->
  find_link linkers id = token.
Proof.
  induction linkers as [|[i tok] linkers IH]; simpl; intros Hnd Hin; [by apply not_elem_of_nil in Hin|].
  apply list.NoDup_cons in Hnd as [Hi Hnd].
  apply elem_of_cons in Hin as [[= -> ->]|Hin]; [by rewrite Z.eqb_refl|].
  destruct (Z.eqb_spec i id) as [->|]; [|by apply IH].
  exfalso. apply Hi. by apply (list_elem_of_fmap_2 fst) in Hin.
Qed.

Lemma find_link_absent linkers id : id ∉ linkers.*1 -> find_link linkers id = invalid_token.
Proof.
  induction linkers as [|[i tok] linkers IH]; simpl; [done|].
  intros [Hne Hin]%not_elem_of_cons. rewrite (proj2 (Z.eqb_neq i id)) by done. by apply IH.
Qed.

Lemma does_channel_id_exist_spec id c : Core.does_channel_id_exist id c =
  bool_decide (id ∈ (Core.m_channel_id_to_token_linkers c).*1).
Proof.
  unfold Core.does_channel_id_exist.
  induction (Core.m_channel_id_to_token_linkers c) as [|[i tok] linkers IH]; simpl.
  - done.
  - rewrite IH. destruct (Z.eqb_spec i id) as [->|Hne]; simpl; symmetry.
    + apply bool_decide_eq_true_2, list_elem_of_here.
    + apply bool_decide_ext. rewrite elem_of_cons. split; [|auto]. intros [?|?]; [congruence|done].
Qed.

Section Invariant.
Context `{SystemClock} (fuel : nat).

Definition run_core (call : core_call) : M Core.t unit :=
  match call with
  | DefineObjectDifferentiation channel_id operation_type operation_context =>
      _ ← Core.define_enforcement_object_differentiation channel_id operation_type
            operation_context; mret tt
  | CreateChannel channel_id tuple => _ ← Core.create_channel channel_id tuple; mret tt
  | CreateEnforcementObject channel_id id diff_pair type configurations =>
      _ ← Core.create_enforcement_object fuel channel_id id diff_pair type configurations; mret tt
  | EnforceRequest context buffer size result =>
      _ ← Core.enforce_request fuel context buffer size result; mret tt
  | InsertHousekeepingRule rule => _ ← Core.insert_housekeeping_rule rule; mret tt
  | ExecuteHousekeepingRule rule_id => _ ← Core.execute_housekeeping_rule fuel rule_id; mret tt
  | ExecuteHousekeepingRules order => _ ← Core.execute_housekeeping_rules fuel order; mret tt
  | EmployEnforcementRule channel_id id type configurations =>
      _ ← Core.employ_enforcement_rule fuel channel_id id type configurations; mret tt
  | CollectObjectStatistics channel_id id raw =>
      _ ← Core.collect_enforcement_object_statistics fuel channel_id id raw; mret tt
  | CollectChannelStatistics channel_id stats =>
      _ ← Core.collect_channel_statistics channel_id stats; mret tt
  | CollectChannelStatisticsDetailed channel_id entries =>
      _ ← Core.collect_channel_statistics_detailed channel_id entries; mret tt
  | SetDefaultObjectDifferentiation value => modify (Core.set_default_object_differentiation value)
  end.

Fixpoint run_core_calls (calls : list core_call) : M Core.t unit :=
  match calls with
  | [] => mret tt
  | call :: calls => _ ← run_core call; run_core_calls calls
  end.

Lemma keeps_unit {S A} (P : S -> Prop) (m : M S A) s n :
  keeps P ((m ≫= fun _ => mret tt) s n) <-> keeps P (m s n).
Proof. unfold mbind, M_bind. by destruct (m s n). Qed.

(** A channel replaced by one of the same identifier. *)
Lemma replace_channel_well_formed c token channel channel' : core_well_formed c ->
  Core.m_channels c !! token = Some channel -> channel_well_formed channel' ->
  ChannelDefault.m_channel_id channel' = ChannelDefault.m_channel_id channel ->
  core_well_formed (Core.set_channels (<[token := channel']> (Core.m_channels c)) c).
Proof.
  intros (Hb & Hids & Htoks & Hdom & Hlinks) Hch Hwf Hid.
  split; [done|]. split; [done|]. split; [done|]. simpl. split.
  - intros tok. rewrite <- Hdom. rewrite lookup_insert_is_Some. split; [|intros; destruct (decide (token = tok)); auto].
    intros [<-|[_ ?]]; [by eexists|done].
  - intros id tok Hin. destruct (Hlinks _ _ Hin) as (ch & Hl & Hi & Hw).
    destruct (decide (token = tok)) as [<-|Hne].
    + rewrite lookup_insert_eq. exists channel'. split_and!; [done|congruence|done].
    + rewrite lookup_insert_ne by done. by exists ch.
Qed.

Lemma call_channel_well_formed {A} (m : M ChannelDefault.t A) token c n :
  (forall channel, channel_well_formed channel ->
     keeps (fun channel' => channel_well_formed channel' /\
              ChannelDefault.m_channel_id channel' = ChannelDefault.m_channel_id channel)
       (m channel n)) ->
  core_well_formed c -> keeps core_well_formed (Core.call_channel token m c n).
Proof.
  intros Hm Hc. unfold Core.call_channel. destruct (Core.m_channels c !! token) as [ch|] eqn:Hl; [|done].
  assert (Hw : channel_well_formed ch).
  { destruct Hc as (_ & _ & _ & Hdom & Hlinks).
    assert (Hin : token ∈ (Core.m_channel_id_to_token_linkers c).*2) by (apply Hdom; by eexists).
    apply list_elem_of_fmap in Hin as ([id tok] & -> & Hin).
    destruct (Hlinks _ _ Hin) as (ch' & Hl' & _ & Hw). simpl in Hl. congruence. }
  eapply keeps_zoom; [by apply Hm|]. simpl. intros ch' [Hw' Hid'].
  by eapply replace_channel_well_formed.
Qed.

(** ** Creating a channel *)

Lemma bound_channel_token {S} b workflow type context (s : S) n : channel_bound b ->
  ChannelHashingDifferentiation.build_differentiation_token b workflow type context s n =
  Ok (channel_token b workflow type context) s n.
Proof.
  intros [Hf Hm].
  pose proof (channel_token_message_aux b (ChannelHashingDifferentiation.m_use_workflow b)
    (ChannelHashingDifferentiation.m_use_operation_type b)
    (ChannelHashingDifferentiation.m_use_operation_context b) workflow type context s n) as Ht.
  assert (Hb : ChannelHashingDifferentiation.bind_builder
      (ChannelHashingDifferentiation.set_classifiers
         (ChannelHashingDifferentiation.m_use_workflow b)
         (ChannelHashingDifferentiation.m_use_operation_type b)
         (ChannelHashingDifferentiation.m_use_operation_context b) b) = b)
    by (etransitivity; [|exact Hf]; by destruct b).
  rewrite Hb, Hm in Ht. exact Ht.
Qed.

Lemma bound_tuple_token {S} b tuple (s : S) n : channel_bound b ->
  ChannelHashingDifferentiation.build_differentiation_token_tuple b tuple s n =
  Ok (tuple_token b tuple) s n.
Proof. apply bound_channel_token. Qed.

(** A channel without objects. *)
Definition fresh_channel (id : Z) (channel : ChannelDefault.t) : Prop :=
  ChannelDefault.m_channel_id channel = u32 id /\ ChannelDefault.m_use_fast_path channel = true /\
  SubmissionQueue.m_enf_objects (ChannelDefault.m_submission_queue channel) = [] /\
  channel_well_formed channel.

Lemma make_channel_well_formed channel :
  ChannelDefault.m_submission_queue channel = SubmissionQueue.make ->
  ChannelDefault.m_object_id_to_token_linkers channel = [] ->
  ChannelDefault.m_ticket_id channel = 0 -> channel_well_formed channel.
Proof.
  intros Hq Hl Ht. unfold channel_well_formed. rewrite Hq, Hl, Ht.
  split; [by split|]. split; [done|]. split; [constructor|done].
Qed.

Lemma new_channel_outcome id c n : exists channel n',
  Core.new_channel id c n = Ok channel c n' /\ fresh_channel id channel.
Proof.
  unfold Core.new_channel, zoom.
  destruct (ChannelDefault.make _ _ _ _ _ _) as [ch u n'| |] eqn:Hm; [|done..].
  exists ch, n'. split; [done|]. apply make_channel in Hm as (Hid & Hfast & Hq & Hl & Ht).
  split; [done|]. split; [by rewrite Hfast|]. split; [by rewrite Hq|].
  by apply make_channel_well_formed.
Qed.

Definition add_channel (id token : Z) (channel : ChannelDefault.t) (c : Core.t) : Core.t :=
  Core.set_linkers (Core.m_channel_id_to_token_linkers c ++ [(id, token)])
    (Core.set_channels (<[token := channel]> (Core.m_channels c)) c).

Lemma create_channel_aux id tuple c n : core_well_formed c ->
  let token := tuple_token (Core.m_channel_diff_builder c) tuple in
  if bool_decide (is_Some (Core.m_channels c !! token) \/
                  id ∈ (Core.m_channel_id_to_token_linkers c).*1)
  then Core.create_channel id tuple c n = Ok PStatus_Error c n
  else exists channel n', Core.create_channel id tuple c n =
      Ok PStatus_OK (add_channel id token channel c) n' /\ fresh_channel id channel.
Proof.
  intros Hc token. unfold Core.create_channel. rewrite gets_bind. unfold Datatypes.id.
  rewrite (bind_Ok _ _ _ _ _ _ _ (bound_tuple_token _ tuple c n (proj1 Hc))). fold token.
  rewrite does_channel_id_exist_spec. unfold Core.does_channel_token_exist.
  destruct (decide (is_Some (Core.m_channels c !! token) \/
    id ∈ (Core.m_channel_id_to_token_linkers c).*1)) as [Hd|Hd].
  { rewrite (bool_decide_eq_true_2 _ Hd).
    destruct Hd as [Hd|Hd]; rewrite (bool_decide_eq_true_2 _ Hd); [done|by rewrite andb_false_r]. }
  rewrite (bool_decide_eq_false_2 _ Hd), !bool_decide_eq_false_2 by tauto. cbn [negb andb].
  destruct (new_channel_outcome id c n) as (ch & n' & Hnew & Hfresh).
  rewrite (bind_Ok _ _ _ _ _ _ _ Hnew). unfold Core.emplace_channel.
  assert (Hnone : Core.m_channels c !! token = None)
    by (apply eq_None_not_Some; tauto).
  unfold mbind at 1, M_bind at 1. unfold state. rewrite Hnone.
  unfold Core.create_new_channel_linker. rewrite modify_bind.
  set (c1 := Core.set_linkers _ _).
  destruct (Core.m_define_default_object_differentiation c); [|by exists ch, n'].
  set (ch' := ChannelDefault.define_object_differentiation false false ch).
  exists ch', n'. split.
  - rewrite (bind_Ok _ _ _ _ tt (add_channel id token ch' c) n'); [done|].
    unfold Core.call_channel. replace (Core.m_channels c1 !! token) with (Some ch)
      by (symmetry; apply lookup_insert_eq).
    unfold zoom, modify, add_channel, c1, Core.set_channels, Core.set_linkers. simpl.
    by rewrite insert_insert_eq.
  - destruct Hfresh as (Hid & Hfast & Hobj & (Hb & Hrest)). split; [done|]. split; [done|].
    split; [done|]. split; [by apply bound_define|done].
Qed.

Lemma add_channel_well_formed id token channel c : core_well_formed c ->
  ~ (is_Some (Core.m_channels c !! token) \/ id ∈ (Core.m_channel_id_to_token_linkers c).*1) ->
  fresh_channel id channel -> core_well_formed (add_channel id token channel c).
Proof.
  intros (Hb & Hids & Htoks & Hdom & Hlinks) Hnew (Hid & _ & _ & Hwf).
  assert (Htok : token ∉ (Core.m_channel_id_to_token_linkers c).*2) by (rewrite <- Hdom; tauto).
  split; [done|]. simpl. rewrite !fmap_app. simpl. split_and!.
  - apply list.NoDup_app. split_and!; [done| |apply NoDup_singleton].
    intros x Hx ->%list_elem_of_singleton. tauto.
  - apply list.NoDup_app. split_and!; [done| |apply NoDup_singleton].
    intros x Hx ->%list_elem_of_singleton. tauto.
  - intros tok. rewrite lookup_insert_is_Some, elem_of_app, list_elem_of_singleton, <- Hdom.
    destruct (decide (token = tok)) as [<-|Hne].
    + split; [by right|by left].
    + split; [intros [?|[_ ?]]; [done|by left]|intros [?|?]; [by right|done]].
  - intros i tok [Hin|[= -> ->]%list_elem_of_singleton]%elem_of_app.
    + destruct (Hlinks _ _ Hin) as (ch & Hl & Hi & Hw). exists ch. split; [|done].
      rewrite lookup_insert_ne; [done|]. intros <-. apply Htok.
      by apply (list_elem_of_fmap_2 snd) in Hin.
    + exists channel. by rewrite lookup_insert_eq.
Qed.

Lemma create_channel_well_formed id tuple c n :
  core_well_formed c -> keeps core_well_formed (Core.create_channel id tuple c n).
Proof.
  intros Hc. pose proof (create_channel_aux id tuple c n Hc) as Ha. cbv zeta in Ha.
  case_bool_decide as Hd; [by rewrite Ha|]. destruct Ha as (ch & n' & -> & Hfresh).
  by apply add_channel_well_formed.
Qed.

(** ** Calls by identifier *)

(** What the calls that name a channel do. *)
Definition by_identifier {A} (channel_id : Z) (missing : A) (m : M ChannelDefault.t A) : M Core.t A :=
  fun c n =>
    let token := Core.get_channel_diff_token channel_id c in
    if token =? invalid_token then Ok missing c n
    else match Core.select_channel token c with
         | Some ptr => Core.call_channel ptr m c n
         | None => Ok missing c n
         end.

Definition preserves {A} (m : M ChannelDefault.t A) : Prop :=
  forall channel n, channel_well_formed channel ->
    keeps (fun channel' => channel_well_formed channel' /\
             ChannelDefault.m_channel_id channel' = ChannelDefault.m_channel_id channel)
      (m channel n).

Lemma preserves_call {A} (m : M ChannelDefault.t A) call :
  (forall c n, run_channel fuel call c n = (m ≫= fun _ => mret tt) c n) -> preserves m.
Proof.
  intros Hm channel n Hwf. apply keeps_unit. rewrite <- Hm. by apply run_channel_well_formed.
Qed.

Lemma by_identifier_well_formed {A} channel_id (missing : A) m c n : preserves m ->
  core_well_formed c -> keeps core_well_formed (by_identifier channel_id missing m c n).
Proof.
  intros Hm Hc. unfold by_identifier. cbv zeta. destruct (_ =? _); [done|].
  destruct (Core.select_channel _ _); [|done].
  apply call_channel_well_formed; [|done]. intros. by apply Hm.
Qed.

(** Follow the test of the token and the pointer. *)
Ltac follow_identifier :=
  unfold by_identifier; rewrite gets_bind; cbv zeta; unfold Datatypes.id;
  destruct (_ =? _); [done|]; by destruct (Core.select_channel _ _).

Lemma create_object_by_identifier channel_id id diff_pair type conf c n :
  Core.create_enforcement_object fuel channel_id id diff_pair type conf c n =
  by_identifier channel_id PStatus_Error
    (ChannelDefault.create_enforcement_object fuel id diff_pair type conf) c n.
Proof. unfold Core.create_enforcement_object. follow_identifier. Qed.

Lemma employ_by_identifier channel_id id type conf c n :
  Core.employ_enforcement_rule fuel channel_id id type conf c n =
  by_identifier channel_id PStatus_Error
    (ChannelDefault.configure_enforcement_object fuel id type conf) c n.
Proof. unfold Core.employ_enforcement_rule. follow_identifier. Qed.

Lemma collect_object_by_identifier channel_id id raw c n :
  Core.collect_enforcement_object_statistics fuel channel_id id raw c n =
  by_identifier channel_id (PStatus_Error, raw)
    (ChannelDefault.collect_object_statistics fuel id
       (mkObjectStatisticsRaw channel_id id (stats_total raw) (m_object_statistic_entries raw))) c n.
Proof. unfold Core.collect_enforcement_object_statistics. follow_identifier. Qed.

Lemma collect_channel_by_identifier channel_id stats c n :
  Core.collect_channel_statistics channel_id stats c n =
  by_identifier channel_id (PStatus_Error, stats)
    (ChannelDefault.collect_general_statistics
       (mkChannelStatsRaw channel_id (m_overall_metric_value stats) (m_windowed_metric_value stats)))
    c n.
Proof. unfold Core.collect_channel_statistics. follow_identifier. Qed.

Lemma collect_detailed_by_identifier channel_id entries c n :
  Core.collect_channel_statistics_detailed channel_id entries c n =
  by_identifier channel_id (PStatus_Error, entries)
    (ChannelDefault.collect_detailed_statistics entries) c n.
Proof. unfold Core.collect_channel_statistics_detailed. follow_identifier. Qed.

Lemma create_object_well_formed channel_id id diff_pair type conf c n : core_well_formed c ->
  keeps core_well_formed
    (Core.create_enforcement_object fuel channel_id id diff_pair type conf c n).
Proof.
  rewrite create_object_by_identifier. apply by_identifier_well_formed.
  by apply (preserves_call _ (CreateObject id diff_pair type conf)).
Qed.

(** ** Housekeeping rules *)

Lemma set_table_well_formed table c : core_well_formed c -> core_well_formed (Core.set_table table c).
Proof. done. Qed.

Lemma on_table_well_formed f c n :
  core_well_formed c -> keeps core_well_formed (Core.on_table f c n).
Proof.
  intros Hc. unfold Core.on_table, state. destruct (f (Core.m_housekeeping_table c)) as [st table].
  by apply set_table_well_formed.
Qed.

Lemma vector_at_keeps {S A} (P : S -> Prop) (v : list A) i s n :
  P s -> keeps P (vector_at v i s n).
Proof. intros Hp. unfold vector_at. destruct (decide _); [|done]. by destruct (v !! _). Qed.

Lemma get_property_keeps {S} (P : S -> Prop) rule i s n :
  P s -> keeps P (HousekeepingRule.get_property_at_index rule i s n).
Proof.
  intros Hp. unfold HousekeepingRule.get_property_at_index. destruct (_ =? _); [done|].
  destruct (_ >=? _); [by apply vector_at_keeps|done].
Qed.

Lemma get_range_keeps {S} (P : S -> Prop) rule b e sel s n :
  P s -> keeps P (HousekeepingRule.get_properties_at_range rule b e sel s n).
Proof.
  intros Hp. unfold HousekeepingRule.get_properties_at_range. destruct (_ || _); [done|].
  cbv zeta. destruct (_ && _); [|done]. apply keeps_bind; [|done].
  generalize (Z.to_nat (e - b + 1)) as k. intros k. revert b sel s n Hp.
  induction k as [|k IH]; intros b sel s n Hp; [done|]. simpl.
  apply keeps_bind; [by apply vector_at_keeps|]. intros. by apply IH.
Qed.

Lemma execute_rule_well_formed rule_id c n : core_well_formed c ->
  keeps core_well_formed (Core.execute_housekeeping_rule fuel rule_id c n).
Proof.
  intros Hc. unfold Core.execute_housekeeping_rule. rewrite gets_bind.
  destruct (HousekeepingTable.select_housekeeping_rule _ _ _) as [st rule].
  apply keeps_bind.
  - destruct (is_ok st); [|done]. destruct (negb _); [|done].
    destruct (HousekeepingRule.m_rule_type rule); try done.
    + unfold Core.employ_create_channel.
      do 3 (apply keeps_bind; [by apply get_property_keeps|intros]).
      by apply create_channel_well_formed.
    + unfold Core.employ_create_object.
      apply keeps_bind; [by apply get_range_keeps|intros [? ?]; intros].
      do 3 (apply keeps_bind; [by apply get_property_keeps|intros]).
      by apply create_object_well_formed.
  - intros status c' n' Hc'. destruct (is_ok status); [|done].
    apply keeps_bind; [by apply on_table_well_formed|done].
Qed.

Lemma execute_from_well_formed order : forall status c n, core_well_formed c ->
  keeps core_well_formed (Core.execute_from fuel order status c n).
Proof.
  induction order as [|rule_id order IH]; intros status c n Hc; [done|]. simpl.
  rewrite gets_bind. destruct (_ !! rule_id) as [rule|]; [|done].
  destruct (negb _); [|by apply IH].
  apply keeps_bind; [by apply execute_rule_well_formed|]. intros st c' n' Hc'.
  destruct (is_error st); [done|by apply IH].
Qed.

Lemma enforce_request_well_formed context buffer size result c n : core_well_formed c ->
  keeps core_well_formed (Core.enforce_request fuel context buffer size result c n).
Proof.
  intros Hc. unfold Core.enforce_request. rewrite gets_bind. unfold Datatypes.id.
  rewrite (bind_Ok _ _ _ _ _ _ _ (bound_channel_token _ _ _ _ c n (proj1 Hc))).
  destruct (Core.select_channel _ c); [|done]. apply call_channel_well_formed; [|done].
  intros ch Hch. by apply (preserves_call _ (Enforce context buffer size result)).
Qed.

Lemma run_core_well_formed call c n :
  core_well_formed c -> keeps core_well_formed (run_core call c n).
Proof.
  intros Hc. destruct call; cbn [run_core]; try apply keeps_unit.
  - unfold Core.define_enforcement_object_differentiation. rewrite gets_bind.
    destruct (_ =? _); [done|].
    unfold Core.define_enforcement_object_differentiation_with_channel_token. rewrite gets_bind.
    destruct (Core.select_channel _ c); [|done].
    apply keeps_bind; [|done]. apply call_channel_well_formed; [|done]. intros ch Hch.
    by apply (run_channel_well_formed fuel (DefineDifferentiation operation_type operation_context)).
  - by apply create_channel_well_formed.
  - by apply create_object_well_formed.
  - by apply enforce_request_well_formed.
  - by apply on_table_well_formed.
  - by apply execute_rule_well_formed.
  - by apply execute_from_well_formed.
  - rewrite employ_by_identifier. apply by_identifier_well_formed; [|done].
    by apply (preserves_call _ (ConfigureObject id type configurations)).
  - rewrite collect_object_by_identifier. apply by_identifier_well_formed; [|done].
    eapply (preserves_call _ (CollectObject id _)). reflexivity.
  - rewrite collect_channel_by_identifier. apply by_identifier_well_formed; [|done].
    eapply (preserves_call _ (CollectGeneral _)). reflexivity.
  - rewrite collect_detailed_by_identifier. apply by_identifier_well_formed; [|done].
    by apply (preserves_call _ (CollectDetailed entries)).
  - done.
Qed.

Lemma run_core_calls_well_formed calls : forall c n,
  core_well_formed c -> keeps core_well_formed (run_core_calls calls c n).
Proof.
  induction calls as [|call calls IH]; intros c n Hc; [done|]. simpl.
  apply keeps_bind; [by apply run_core_well_formed|auto].
Qed.

Lemma default_core_well_formed : core_well_formed Core.make_default.
Proof.
  split; [by split|]. split; [constructor|]. split; [constructor|]. split.
  - intros token. simpl. rewrite lookup_empty, elem_of_nil. split; [by intros [? [=]]|done].
  - intros id token Hin. by apply not_elem_of_nil in Hin.
Qed.

End Invariant.

(** ** The default channels *)

#[local] Opaque token_of.

Section Defaults.
Context `{SystemClock} (fuel : nat).

Lemma create_default_channel_well_formed i objects c n : core_well_formed c ->
  keeps core_well_formed (Core.create_default_channel fuel i objects c n).
Proof.
  intros Hc. apply keeps_bind; [by apply create_channel_well_formed|]. intros st c' n' Hc'.
  destruct (_ && _); [|done]. apply keeps_bind; [by apply create_object_well_formed|done].
Qed.

Lemma create_default_channels_well_formed k : forall i objects c n, core_well_formed c ->
  keeps core_well_formed (Core.create_default_channels fuel i k objects c n).
Proof.
  induction k as [|k IH]; intros i objects c n Hc; [done|]. simpl.
  apply keeps_bind; [by apply create_default_channel_well_formed|]. intros _ c' n' Hc'.
  destruct (_ =? _); [done|by apply IH].
Qed.

(** With the default options, the token of a tuple depends on its context only. *)
Lemma default_token c tuple :
  Core.m_channel_diff_builder c = Core.m_channel_diff_builder Core.make_default ->
  tuple_token (Core.m_channel_diff_builder c) tuple = token_of [tuple_operation_context tuple].
Proof. by intros ->. Qed.

Definition default_builder (c : Core.t) : Prop :=
  Core.m_channel_diff_builder c = Core.m_channel_diff_builder Core.make_default.

(** Once there is a channel for that token, the other passes change nothing. *)
Lemma default_channels_stop k : forall i objects c n, core_well_formed c -> default_builder c ->
  is_Some (Core.m_channels c !! token_of [0]) -> 0 <= i -> i + Z.of_nat k <= int_max ->
  Core.create_default_channels fuel i k objects c n = Ok tt c n.
Proof.
  induction k as [|k IH]; intros i objects c n Hc Hb Htok Hi Hk; [done|]. simpl.
  rewrite (bind_Ok _ _ _ _ tt c n).
  - rewrite (proj2 (Z.eqb_neq i int_max)) by lia. apply IH; (done || lia).
  - unfold Core.create_default_channel. rewrite (bind_Ok _ _ _ _ PStatus_Error c n).
    + by rewrite andb_false_r.
    + pose proof (create_channel_aux i (mkTuple (u32 i) 0 0) c n Hc) as Ha. cbv zeta in Ha.
      rewrite default_token in Ha by done. cbn [tuple_operation_context] in Ha.
      rewrite bool_decide_eq_true_2 in Ha by (by left). exact Ha.
Qed.

End Defaults.

(** ** Employing rules *)

Section Rules.
Context `{SystemClock} (fuel : nat).

(** The n-th property of a rule, -1 when it is missing. *)
Definition property (rule : HousekeepingRule.t) (i : nat) : Z :=
  default (-1) (HousekeepingRule.m_properties rule !! i).

(** The operation a rule asks for. *)
Definition employ (rule : HousekeepingRule.t) : M Core.t PStatus :=
  match HousekeepingRule.m_rule_type rule with
  | hsk_create_channel =>
      Core.create_channel (HousekeepingRule.m_channel_id rule)
        (mkTuple (u32 (property rule 1)) (u32 (property rule 2)) (u32 (property rule 3)))
  | hsk_create_object =>
      Core.create_enforcement_object fuel (HousekeepingRule.m_channel_id rule)
        (HousekeepingRule.m_enforcement_object_id rule)
        (mkPair (u32 (property rule 1)) (u32 (property rule 2))) (s32 (property rule 3))
        (drop 4 (HousekeepingRule.m_properties rule))
  | _ => throw (LogicError "HousekeepingOperation type not supported")
  end.

Lemma property_read {S} rule (i : nat) (s : S) n :
  Z.of_nat (length (HousekeepingRule.m_properties rule)) <= int_max -> Z.of_nat i < int_max ->
  HousekeepingRule.get_property_at_index rule (Z.of_nat i) s n = Ok (property rule i) s n.
Proof.
  intros Hl Hi. rewrite get_property_at_index_aux by (done || unfold int_min; lia).
  rewrite (proj2 (Z.ltb_ge _ _)) by lia. by rewrite Nat2Z.id.
Qed.

(** The properties from the fifth on. *)
Lemma configurations_read {S} rule (s : S) n :
  Z.of_nat (length (HousekeepingRule.m_properties rule)) <= int_max ->
  exists count, HousekeepingRule.get_properties_at_range rule 4
    (HousekeepingRule.get_properties_size rule - 1) [] s n =
    Ok (count, drop 4 (HousekeepingRule.m_properties rule)) s n.
Proof.
  intros Hl. unfold HousekeepingRule.get_properties_size.
  rewrite s32_small by (unfold is_int, int_min; lia).
  set (props := HousekeepingRule.m_properties rule) in *.
  destruct (decide (length props = O)) as [H0|H0].
  - exists (-1). unfold HousekeepingRule.get_properties_at_range. fold props. rewrite H0.
    change (4 =? int_max) with false. change (Z.of_nat 0 - 1 =? int_max) with false. simpl.
    by destruct props.
  - rewrite get_properties_at_range_aux by (done || unfold int_max in *; lia). fold props.
    destruct (Z.leb_spec 4 (Z.of_nat (length props) - 1)) as [H4|H4]; cbn [andb].
    + rewrite (proj2 (Z.ltb_lt _ _)) by lia. eexists. do 2 f_equal.
      rewrite take_ge; [done|]. rewrite length_drop. lia.
    + exists (-1). by rewrite drop_ge by lia.
Qed.

Lemma execute_rule_aux rule_id rule c n :
  HousekeepingTable.m_housekeeping_rules (Core.m_housekeeping_table c) !! rule_id = Some rule ->
  HousekeepingRule.m_enforced rule = false ->
  Z.of_nat (length (HousekeepingRule.m_properties rule)) <= int_max ->
  Core.execute_housekeeping_rule fuel rule_id c n =
  (status ← employ rule;
   if is_ok status then
     _ ← Core.on_table (HousekeepingTable.mark_housekeeping_rule_as_enforced rule_id);
     mret status
   else mret status) c n.
Proof.
  intros Hr He Hl. unfold Core.execute_housekeeping_rule. rewrite gets_bind.
  unfold HousekeepingTable.select_housekeeping_rule. rewrite Hr.
  change (is_ok PStatus_OK) with true. cbv iota. rewrite He. cbn [negb].
  unfold employ, mbind, M_bind.
  destruct (HousekeepingRule.m_rule_type rule); try done.
  - unfold Core.employ_create_channel. change 1 with (Z.of_nat 1). change 2 with (Z.of_nat 2).
    change 3 with (Z.of_nat 3).
    by rewrite (bind_Ok _ _ _ _ _ _ _ (property_read rule 1 c n Hl eq_refl)),
      (bind_Ok _ _ _ _ _ _ _ (property_read rule 2 c n Hl eq_refl)),
      (bind_Ok _ _ _ _ _ _ _ (property_read rule 3 c n Hl eq_refl)).
  - unfold Core.employ_create_object.
    destruct (configurations_read rule c n Hl) as [count Hc].
    rewrite (bind_Ok _ _ _ _ _ _ _ Hc). change 1 with (Z.of_nat 1). change 2 with (Z.of_nat 2).
    change 3 with (Z.of_nat 3).
    by rewrite (bind_Ok _ _ _ _ _ _ _ (property_read rule 1 c n Hl eq_refl)),
      (bind_Ok _ _ _ _ _ _ _ (property_read rule 2 c n Hl eq_refl)),
      (bind_Ok _ _ _ _ _ _ _ (property_read rule 3 c n Hl eq_refl)).
Qed.

End Rules.

(** ** The table only grows *)

(** Rules stay in the table as they are, or get enforced. *)
Definition grows (c c' : Core.t) : Prop :=
  forall id r, HousekeepingTable.m_housekeeping_rules (Core.m_housekeeping_table c) !! id = Some r ->
  exists r', HousekeepingTable.m_housekeeping_rules (Core.m_housekeeping_table c') !! id = Some r' /\
    (r' = r \/ r' = HousekeepingRule.set_enforced true r).

Section Growth.
Context `{SystemClock} (fuel : nat).

Lemma grows_same c c' : Core.m_housekeeping_table c' = Core.m_housekeeping_table c -> grows c c'.
Proof. intros Heq id r Hr. exists r. rewrite Heq. auto. Qed.

Lemma grows_trans c1 c2 c3 : grows c1 c2 -> grows c2 c3 -> grows c1 c3.
Proof.
  intros H12 H23 id r Hr. destruct (H12 id r Hr) as (r2 & Hr2 & He2).
  destruct (H23 id r2 Hr2) as (r3 & Hr3 & He3). exists r3. split; [done|].
  destruct He2 as [->| ->], He3 as [->| ->]; auto.
Qed.

Lemma keeps_grows_ret {A} (a : A) c n : keeps (grows c) (mret (M := M Core.t) a c n).
Proof. by apply keeps_ret, grows_same. Qed.

Lemma call_channel_grows {A} token (m : M ChannelDefault.t A) c n :
  keeps (grows c) (Core.call_channel token m c n).
Proof.
  unfold Core.call_channel. destruct (Core.m_channels c !! token) as [ch|]; [|done].
  eapply keeps_zoom with (PT := fun _ => True); [by destruct (m ch n)|].
  intros. by apply grows_same.
Qed.

Lemma by_identifier_grows {A} id (missing : A) m c n : keeps (grows c) (by_identifier id missing m c n).
Proof.
  unfold by_identifier. cbv zeta. destruct (_ =? _); [by apply grows_same|].
  destruct (Core.select_channel _ c); [apply call_channel_grows|by apply grows_same].
Qed.

Lemma insert_grows rule c n : keeps (grows c) (Core.insert_housekeeping_rule rule c n).
Proof.
  unfold Core.insert_housekeeping_rule, Core.on_table, state,
    HousekeepingTable.insert_housekeeping_rule, HousekeepingTable.emplace.
  destruct (_ !! HousekeepingRule.m_rule_id rule) eqn:Hl; [by apply grows_same|].
  intros id r Hr. exists r. split; [|by left]. simpl. rewrite lookup_insert_ne; [done|]. congruence.
Qed.

Lemma mark_grows rule_id c n :
  keeps (grows c) (Core.on_table (HousekeepingTable.mark_housekeeping_rule_as_enforced rule_id) c n).
Proof.
  unfold Core.on_table, state, HousekeepingTable.mark_housekeeping_rule_as_enforced.
  destruct (_ !! rule_id) as [r0|] eqn:Hl; [|by apply grows_same].
  destruct (negb _); [|by apply grows_same].
  intros id r Hr. simpl. destruct (decide (rule_id = id)) as [<-|Hne].
  - rewrite lookup_insert_eq. eexists. split; [done|]. right. congruence.
  - rewrite lookup_insert_ne by done. eauto.
Qed.

Lemma create_channel_grows id tuple c n : core_well_formed c ->
  keeps (grows c) (Core.create_channel id tuple c n).
Proof.
  intros Hc. pose proof (create_channel_aux id tuple c n Hc) as Ha. cbv zeta in Ha.
  case_bool_decide; [rewrite Ha; by apply grows_same|]. destruct Ha as (ch & n' & -> & _).
  by apply grows_same.
Qed.

Lemma keeps_and {S A} (P Q : S -> Prop) (o : Outcome S A) :
  keeps P o -> keeps Q o -> keeps (fun s => P s /\ Q s) o.
Proof. by destruct o; simpl. Qed.

(** What an execution of a rule leaves of a well-formed core. *)
Lemma execute_rule_grows rule_id c n : core_well_formed c ->
  keeps (grows c) (Core.execute_housekeeping_rule fuel rule_id c n).
Proof.
  intros Hc. unfold Core.execute_housekeeping_rule. rewrite gets_bind.
  destruct (HousekeepingTable.select_housekeeping_rule _ _ _) as [st rule].
  apply frame_bind; [exact grows_trans| |].
  - destruct (is_ok st); [|apply keeps_grows_ret]. destruct (negb _); [|apply keeps_grows_ret].
    assert (Hself : forall c', c' = c -> grows c c') by (intros ? ->; by apply grows_same).
    destruct (HousekeepingRule.m_rule_type rule); try by apply grows_same.
    + unfold Core.employ_create_channel.
      do 3 (apply (keeps_bind_stronger (fun c' => c' = c));
        [by apply get_property_keeps|exact Hself|intros ? ? ? ->]).
      by apply create_channel_grows.
    + unfold Core.employ_create_object.
      apply (keeps_bind_stronger (fun c' => c' = c));
        [by apply get_range_keeps|exact Hself|intros [? ?] ? ? ->].
      do 3 (apply (keeps_bind_stronger (fun c' => c' = c));
        [by apply get_property_keeps|exact Hself|intros ? ? ? ->]).
      rewrite create_object_by_identifier. apply by_identifier_grows.
  - intros status c' n'. destruct (is_ok status); [|apply keeps_grows_ret].
    apply frame_bind; [exact grows_trans|apply mark_grows|]. intros. apply keeps_grows_ret.
Qed.

Lemma execute_from_grows order : forall status c n, core_well_formed c ->
  keeps (grows c) (Core.execute_from fuel order status c n).
Proof.
  induction order as [|rule_id order IH]; intros status c n Hc; [apply keeps_grows_ret|].
  cbn [Core.execute_from]. rewrite gets_bind. destruct (_ !! rule_id) as [rule|]; [|done].
  destruct (negb _); [|by apply IH].
  apply (keeps_bind_stronger (fun c' => core_well_formed c' /\ grows c c')).
  - apply keeps_and; [by apply execute_rule_well_formed|by apply execute_rule_grows].
  - tauto.
  - intros st c' n' [Hc' Hg]. destruct (is_error st); [by apply keeps_ret|].
    pose proof (IH st c' n' Hc') as Hk.
    destruct (Core.execute_from _ _ _ _ _); simpl in *; eauto using grows_trans.
Qed.

Lemma enforce_request_grows context buffer size result c n : core_well_formed c ->
  keeps (grows c) (Core.enforce_request fuel context buffer size result c n).
Proof.
  intros Hc. unfold Core.enforce_request. rewrite gets_bind. unfold Datatypes.id.
  rewrite (bind_Ok _ _ _ _ _ _ _ (bound_channel_token _ _ _ _ c n (proj1 Hc))).
  destruct (Core.select_channel _ c); [apply call_channel_grows|apply keeps_grows_ret].
Qed.

Lemma run_core_grows call c n :
  core_well_formed c -> keeps (grows c) (run_core fuel call c n).
Proof.
  intros Hc. destruct call; cbn [run_core]; try apply keeps_unit.
  - unfold Core.define_enforcement_object_differentiation. rewrite gets_bind.
    destruct (_ =? _); [apply keeps_grows_ret|].
    unfold Core.define_enforcement_object_differentiation_with_channel_token. rewrite gets_bind.
    destruct (Core.select_channel _ c); [|apply keeps_grows_ret].
    apply frame_bind; [exact grows_trans|apply call_channel_grows|]. intros. apply keeps_grows_ret.
  - by apply create_channel_grows.
  - rewrite create_object_by_identifier. apply by_identifier_grows.
  - by apply enforce_request_grows.
  - apply insert_grows.
  - by apply execute_rule_grows.
  - by apply execute_from_grows.
  - rewrite employ_by_identifier. apply by_identifier_grows.
  - rewrite collect_object_by_identifier. apply by_identifier_grows.
  - rewrite collect_channel_by_identifier. apply by_identifier_grows.
  - rewrite collect_detailed_by_identifier. apply by_identifier_grows.
  - by apply grows_same.
Qed.

Lemma run_core_calls_grows calls : forall c n, core_well_formed c ->
  keeps (fun c' => core_well_formed c' /\ grows c c') (run_core_calls fuel calls c n).
Proof.
  induction calls as [|call calls IH]; intros c n Hc; [by split; [|apply grows_same]|].
  cbn [run_core_calls].
  apply (keeps_bind_stronger (fun c' => core_well_formed c' /\ grows c c')); [|done|].
  - apply keeps_and; [by apply run_core_well_formed|by apply run_core_grows].
  - intros _ c' n' [Hc' Hg]. pose proof (IH c' n' Hc') as Hk.
    destruct (run_core_calls _ _ _ _); simpl in *; intuition eauto using grows_trans.
Qed.

End Growth.

(** ** Executing rules *)

Section Execution.
Context `{SystemClock} (fuel : nat).

Definition rules_of (c : Core.t) : gmap Z HousekeepingRule.t :=
  HousekeepingTable.m_housekeeping_rules (Core.m_housekeeping_table c).

Definition enforced_rule (id : Z) (c : Core.t) : Prop :=
  exists r, rules_of c !! id = Some r /\ HousekeepingRule.m_enforced r = true.

(** A rule that asks for an object of an unknown type. *)
Definition unsupported (r : HousekeepingRule.t) : Prop :=
  HousekeepingRule.m_rule_type r = hsk_create_object /\
  EnforcementObjectType_of (s32 (property r 3)) = None.

(** These rules are in the table, with no more properties than an [int] counts. *)
Definition listed (order : list Z) (c : Core.t) : Prop :=
  Forall (fun id => exists r, rules_of c !! id = Some r /\
    Z.of_nat (length (HousekeepingRule.m_properties r)) <= int_max) order.

Definition settled (id : Z) (c : Core.t) : Prop :=
  exists r, rules_of c !! id = Some r /\ (HousekeepingRule.m_enforced r = true \/ unsupported r).

Lemma grows_enforced id c c' : grows c c' -> enforced_rule id c -> enforced_rule id c'.
Proof.
  intros Hg (r & Hr & He). destruct (Hg id r Hr) as (r' & Hr' & [->| ->]); eexists; by split.
Qed.

Lemma grows_settled id c c' : grows c c' -> settled id c -> settled id c'.
Proof.
  intros Hg (r & Hr & He). destruct (Hg id r Hr) as (r' & Hr' & [->| ->]); eexists; split; eauto.
Qed.

Lemma grows_listed order c c' : grows c c' -> listed order c -> listed order c'.
Proof.
  intros Hg Hl. eapply Forall_impl; [|exact Hl]. intros id (r & Hr & Hs).
  destruct (Hg id r Hr) as (r' & Hr' & [->| ->]); eexists; by split.
Qed.

Lemma execute_enforced id c n : enforced_rule id c ->
  Core.execute_housekeeping_rule fuel id c n = Ok PStatus_Enforced c n.
Proof.
  intros (r & Hr & He). unfold Core.execute_housekeeping_rule. rewrite gets_bind.
  unfold HousekeepingTable.select_housekeeping_rule. unfold rules_of in Hr. rewrite Hr.
  change (is_ok PStatus_OK) with true. cbv iota. by rewrite He.
Qed.

(** A status of OK means that the rule is now enforced. *)
Lemma execute_OK_enforced id c n c' n' : core_well_formed c ->
  Core.execute_housekeeping_rule fuel id c n = Ok PStatus_OK c' n' -> enforced_rule id c'.
Proof.
  intros Hc Hrun. pose proof (execute_rule_grows fuel id c n Hc) as Hg. rewrite Hrun in Hg.
  simpl in Hg. unfold Core.execute_housekeeping_rule in Hrun. rewrite gets_bind in Hrun.
  unfold HousekeepingTable.select_housekeeping_rule in Hrun.
  destruct (HousekeepingTable.m_housekeeping_rules _ !! id) as [r0|] eqn:Hr0; [|done].
  destruct (Hg id r0 Hr0) as (r' & Hr' & _).
  apply bind_Ok_inv in Hrun as (st & c1 & n1 & _ & Hrun).
  destruct (is_ok st) eqn:Hok; [|by injection Hrun as -> <- <-].
  apply bind_Ok_inv in Hrun as (st1 & c2 & n2 & Hm & [= -> <- <-]).
  unfold Core.on_table, state, HousekeepingTable.mark_housekeeping_rule_as_enforced in Hm.
  destruct (HousekeepingTable.m_housekeeping_rules (Core.m_housekeeping_table c1) !! id)
    as [r1|] eqn:Hr1; [destruct (HousekeepingRule.m_enforced r1) eqn:He|].
  - injection Hm as _ <- _. exists r1. by split.
  - injection Hm as _ <- _. exists (HousekeepingRule.set_enforced true r1).
    split; [apply lookup_insert_eq|done].
  - injection Hm as _ <- _. simpl in Hr'. congruence.
Qed.

Lemma create_object_status channel_id id diff_pair type conf c n st c' n' : core_well_formed c ->
  Core.create_enforcement_object fuel channel_id id diff_pair type conf c n = Ok st c' n' ->
  is_ok st = false -> is_error st = false -> EnforcementObjectType_of type = None.
Proof.
  intros Hc Hrun Hok Herr. rewrite create_object_by_identifier in Hrun.
  unfold by_identifier in Hrun. cbv zeta in Hrun.
  destruct (_ =? _); [by injection Hrun as <- <- <-|].
  destruct (Core.select_channel _ c) as [ptr|]; [|by injection Hrun as <- <- <-].
  unfold Core.call_channel in Hrun. destruct (Core.m_channels c !! ptr) as [ch|] eqn:Hch; [|done].
  apply zoom_Ok_inv in Hrun as (ch' & Hrun & _).
  assert (Hw : channel_well_formed ch).
  { destruct Hc as (_ & _ & _ & Hdom & Hlinks).
    assert (Hin : ptr ∈ (Core.m_channel_id_to_token_linkers c).*2) by (apply Hdom; by eexists).
    apply list_elem_of_fmap in Hin as ([i tok] & -> & Hin).
    destruct (Hlinks _ _ Hin) as (ch2 & Hl & _ & Hw). simpl in Hch. congruence. }
  pose proof (create_object_aux fuel id diff_pair type conf ch n _ (bound_pair diff_pair ch n (proj1 Hw)))
    as Ha. destruct (EnforcementObjectType_of type); [|done].
  destruct (SubmissionQueue.select_enforcement_object _ _); [destruct Ha as [? Ha]; rewrite Ha in Hrun; by injection Hrun as <- _ _|].
  destruct (new_object _ _ _ _ _ _); [|done|congruence].
  rewrite Ha in Hrun. injection Hrun as <- _ _. done.
Qed.

(** A pass over the table that ends without an error has settled its rules. *)
Lemma execute_from_settles order : forall status c n st c' n', core_well_formed c ->
  listed order c -> Core.execute_from fuel order status c n = Ok st c' n' ->
  st = PStatus_Error \/ Forall (fun id => settled id c') order.
Proof.
  induction order as [|id order IH]; intros status c n st c' n' Hc Hl Hrun; [by right|].
  apply Forall_cons_1 in Hl as [(r & Hr & Hs) Hl].
  cbn [Core.execute_from] in Hrun. rewrite gets_bind in Hrun. unfold rules_of in Hr.
  rewrite Hr in Hrun. destruct (HousekeepingRule.m_enforced r) eqn:He; cbn [negb] in Hrun.
  - pose proof (execute_from_grows fuel order status c n Hc) as Hg. rewrite Hrun in Hg.
    apply IH in Hrun as [->|Hrest]; [by left| |done|done].
    right. constructor; [|done]. eapply grows_settled; [exact Hg|]. exists r. auto.
  - pose proof (execute_rule_well_formed fuel id c n Hc) as Hc1.
    pose proof (execute_rule_grows fuel id c n Hc) as Hg1.
    apply bind_Ok_inv in Hrun as (st1 & c1 & n1 & Hx & Hrun). rewrite Hx in Hc1, Hg1.
    simpl in Hc1, Hg1. destruct (is_error st1) eqn:Herr; [left; by injection Hrun as <- _ _|].
    pose proof (execute_from_grows fuel order st1 c1 n1 Hc1) as Hg. rewrite Hrun in Hg.
    apply IH in Hrun as [->|Hrest]; [by left| |done|by eapply grows_listed].
    right. constructor; [|done]. eapply grows_settled; [exact Hg|].
    destruct (is_ok st1) eqn:Hok.
    + assert (st1 = PStatus_OK) as -> by (by destruct st1).
      destruct (execute_OK_enforced id c n c1 n1 Hc Hx) as (r1 & Hr1 & He1). exists r1. auto.
    + destruct (Hg1 id r Hr) as (r1 & Hr1 & Hsame). exists r1. split; [done|]. right.
      assert (Hu : unsupported r); [|by destruct Hsame as [->| ->]].
      rewrite (execute_rule_aux fuel id r c n Hr He Hs) in Hx.
      apply bind_Ok_inv in Hx as (st2 & c2 & n2 & Hemp & Hx).
      destruct (is_ok st2) eqn:Hok2.
      { apply bind_Ok_inv in Hx as (? & ? & ? & _ & [= -> _ _]). congruence. }
      injection Hx as -> _ _. unfold employ in Hemp. unfold unsupported.
      destruct (HousekeepingRule.m_rule_type r); try done.
      * pose proof (create_channel_aux (HousekeepingRule.m_channel_id r) (mkTuple (u32 (property r 1))
          (u32 (property r 2)) (u32 (property r 3))) c n Hc) as Ha. cbv zeta in Ha.
        case_bool_decide; [|destruct Ha as (? & ? & Ha & _)]; rewrite Ha in Hemp; injection Hemp as <- _ _;
          done.
      * split; [done|]. eapply create_object_status; [exact Hc|exact Hemp|done|done].
Qed.

Lemma execute_from_nothing order : forall status c n, Forall (fun id => enforced_rule id c) order ->
  Core.execute_from fuel order status c n = Ok status c n.
Proof.
  induction order as [|id order IH]; intros status c n Hall; [done|].
  apply Forall_cons_1 in Hall as [(r & Hr & He) Hall]. cbn [Core.execute_from].
  rewrite gets_bind. unfold rules_of in Hr. rewrite Hr, He. by apply IH.
Qed.

End Execution.

(** ** Theorems *)

Section Theorems.
Context `{SystemClock} (fuel : nat).

(** C1.  A core built with any number of default channels, and what any
    sequence of calls makes of it: identifiers and tokens are not repeated, the
    links list the channels, and each leads to a channel that carries
    the identifier and is itself well formed. *)
Theorem core_invariant channels default_channels default_objects calls c n :
  keeps core_well_formed
    ((Core.make fuel channels default_channels default_objects ≫= fun _ =>
      run_core_calls fuel calls) c n).
Proof.
  apply keeps_bind; [|by intros; apply run_core_calls_well_formed].
  unfold Core.make. rewrite modify_bind. destruct default_channels; [|apply default_core_well_formed].
  apply create_default_channels_well_formed, default_core_well_formed.
Qed.

(** C8.  A channel is created exactly when neither its token nor its identifier
    is in use; it is then linked, empty, well formed, and on the
    fast path.  Otherwise the status is an error and nothing changes. *)
Theorem create_channel_outcome id tuple c n :
  core_well_formed c ->
  let token := tuple_token (Core.m_channel_diff_builder c) tuple in
  if bool_decide (is_Some (Core.m_channels c !! token) \/
                  id ∈ (Core.m_channel_id_to_token_linkers c).*1)
  then Core.create_channel id tuple c n = Ok PStatus_Error c n
  else exists channel n', Core.create_channel id tuple c n =
      Ok PStatus_OK (add_channel id token channel c) n' /\ fresh_channel id channel.
Proof. apply create_channel_aux. Qed.

(** With the default options a core asked for any positive number of
    default channels has one: all of them hash to the token of the operation
    context 0. *)
Theorem default_options_give_one_channel channels c n c' n' :
  0 < channels < int_max ->
  Core.make fuel channels true false c n = Ok tt c' n' ->
  Core.m_channel_id_to_token_linkers c' = [(1, token_of [0])] /\ Core.get_total_channels c' = 1.
Proof.
  intros Hk Hm. unfold Core.make in Hm. rewrite modify_bind in Hm.
  destruct (Z.to_nat channels) as [|k] eqn:Hn; [lia|]. cbn [Core.create_default_channels] in Hm.
  pose proof default_core_well_formed as Hc.
  pose proof (create_channel_aux 1 (mkTuple 1 0 0) Core.make_default n Hc) as Ha. cbv zeta in Ha.
  rewrite default_token in Ha by done. cbn [tuple_operation_context] in Ha.
  rewrite bool_decide_eq_false_2 in Ha.
  2: { simpl. rewrite lookup_empty. intros [[? [=]]|Hin]. by apply not_elem_of_nil in Hin. }
  destruct Ha as (ch & n1 & Ha & Hfresh).
  set (c1 := add_channel 1 (token_of [0]) ch Core.make_default) in *.
  rewrite (bind_Ok _ _ _ _ tt c1 n1) in Hm by (unfold Core.create_default_channel;
    by rewrite (bind_Ok _ _ _ _ PStatus_OK c1 n1)).
  change (1 =? int_max) with false in Hm. cbv iota in Hm.
  assert (Hc1 : core_well_formed c1).
  { apply add_channel_well_formed; [done| |done].
    simpl. rewrite lookup_empty. intros [[? [=]]|Hin]. by apply not_elem_of_nil in Hin. }
  assert (Htok : is_Some (Core.m_channels c1 !! token_of [0])).
  { exists ch. apply lookup_insert_eq. }
  assert (Hb1 : default_builder c1) by reflexivity.
  rewrite (default_channels_stop fuel k _ _ c1 n1 Hc1 Hb1 Htok) in Hm by lia.
  injection Hm as <- <-. split; reflexivity.
Qed.

Lemma enforce_request_routed context buffer size result c n :
  core_well_formed c ->
  let token := channel_token (Core.m_channel_diff_builder c) (u32 (m_workflow_id context))
    (u32 (m_operation_type context)) (u32 (m_operation_context context)) in
  Core.enforce_request fuel context buffer size result c n =
  match Core.m_channels c !! token with
  | None => Ok result c n
  | Some channel =>
      outcome_map (fun channel' => Core.set_channels (<[token := channel']> (Core.m_channels c)) c)
        (ChannelDefault.channel_enforce fuel context buffer size result channel n)
  end.
Proof.
  intros Hc token. unfold Core.enforce_request. rewrite gets_bind. unfold Datatypes.id.
  rewrite (bind_Ok _ _ _ _ _ _ _ (bound_channel_token _ _ _ _ c n (proj1 Hc))). fold token.
  unfold Core.select_channel. destruct (Core.m_channels c !! token) as [ch|] eqn:Hl.
  - rewrite bool_decide_eq_true_2 by done. unfold Core.call_channel. rewrite Hl. unfold zoom.
    by destruct (ChannelDefault.channel_enforce _ _ _ _ _ _).
  - by rewrite bool_decide_eq_false_2 by (by intros [? [=]]).
Qed.

(** C2.  A request goes to the channel its classifiers hash to, and leaves the
    rest of the core alone; when there is none it is let through with
    its result untouched. *)
Theorem request_routing context buffer size result c n :
  core_well_formed c ->
  let token := channel_token (Core.m_channel_diff_builder c) (u32 (m_workflow_id context))
    (u32 (m_operation_type context)) (u32 (m_operation_context context)) in
  Core.enforce_request fuel context buffer size result c n =
  match Core.m_channels c !! token with
  | None => Ok result c n
  | Some channel =>
      outcome_map (fun channel' => Core.set_channels (<[token := channel']> (Core.m_channels c)) c)
        (ChannelDefault.channel_enforce fuel context buffer size result channel n)
  end.
Proof. apply enforce_request_routed. Qed.

(** An enforcement rule reaches the channel that carries its identifier
    and no other; it is an error when there is none, and also when the token of
    that channel is the one that stands for no token. *)
Theorem enforcement_rule_routing channel_id id type conf c n :
  core_well_formed c ->
  let linkers := Core.m_channel_id_to_token_linkers c in
  let employ_rule := Core.employ_enforcement_rule fuel channel_id id type conf c n in
  (channel_id ∉ linkers.*1 \/ (channel_id, invalid_token) ∈ linkers ->
   employ_rule = Ok PStatus_Error c n) /\
  (forall token, (channel_id, token) ∈ linkers -> token <> invalid_token -> exists channel,
     Core.m_channels c !! token = Some channel /\
     ChannelDefault.m_channel_id channel = u32 channel_id /\
     employ_rule = outcome_map
       (fun channel' => Core.set_channels (<[token := channel']> (Core.m_channels c)) c)
       (ChannelDefault.configure_enforcement_object fuel id type conf channel n)).
Proof.
  intros (Hb & Hids & Htoks & Hdom & Hlinks) linkers employ_rule. subst linkers employ_rule.
  rewrite employ_by_identifier. unfold by_identifier, Core.get_channel_diff_token. cbv zeta.
  split.
  - intros [Hno|Hin]; [rewrite find_link_absent by done|rewrite (find_link_NoDup _ _ _ Hids Hin)];
      by rewrite Z.eqb_refl.
  - intros token Hin Hne. rewrite (find_link_NoDup _ _ _ Hids Hin).
    rewrite (proj2 (Z.eqb_neq _ _)) by done.
    destruct (Hlinks _ _ Hin) as (ch & Hl & Hi & _). exists ch. split; [done|]. split; [done|].
    unfold Core.select_channel. rewrite Hl, bool_decide_eq_true_2 by done.
    unfold Core.call_channel. rewrite Hl. unfold zoom.
    by destruct (ChannelDefault.configure_enforcement_object _ _ _ _ _ _).
Qed.

(** Executing a rule that is in the table and not yet enforced: a
    create_channel rule creates the channel of its properties 1 to 3 (workflow,
    operation type, operation context), a create_object rule the object of
    properties 1 to 3 (operation type, operation context, object type)
    configured with those from 4 on; the rule is marked when the status is OK,
    and an operation of another kind throws. *)
Theorem execute_rule_employs rule_id rule c n :
  rules_of c !! rule_id = Some rule -> HousekeepingRule.m_enforced rule = false ->
  Z.of_nat (length (HousekeepingRule.m_properties rule)) <= int_max ->
  Core.execute_housekeeping_rule fuel rule_id c n =
  (status ← employ fuel rule;
   if is_ok status then
     _ ← Core.on_table (HousekeepingTable.mark_housekeeping_rule_as_enforced rule_id);
     mret status
   else mret status) c n.
Proof. apply execute_rule_aux. Qed.

(** C9.  A housekeeping rule takes effect at most once: after an execution that
    succeeds, and whatever calls follow, executing it again reports
    that it is enforced and changes nothing. *)
Theorem rule_executed_once rule_id calls c n c1 n1 c2 u n2 :
  core_well_formed c ->
  Core.execute_housekeeping_rule fuel rule_id c n = Ok PStatus_OK c1 n1 ->
  run_core_calls fuel calls c1 n1 = Ok u c2 n2 ->
  Core.execute_housekeeping_rule fuel rule_id c2 n2 = Ok PStatus_Enforced c2 n2.
Proof.
  intros Hc H1 H2. apply execute_enforced.
  pose proof (execute_rule_well_formed fuel rule_id c n Hc) as Hc1. rewrite H1 in Hc1.
  pose proof (run_core_calls_grows fuel calls c1 n1 Hc1) as Hg. rewrite H2 in Hg.
  eapply grows_enforced; [apply Hg|]. eapply execute_OK_enforced; [exact Hc|exact H1].
Qed.

(** Executing the pending rules: unless the status is an error, each rule
    listed ends enforced or asks for an object of an unknown type (these do
    not stop the pass); and when there is nothing left to execute the status is
    an error and nothing changes. *)
Theorem execute_housekeeping_rules_outcome order c n :
  core_well_formed c -> listed order c ->
  (forall st c' n', Core.execute_housekeeping_rules fuel order c n = Ok st c' n' ->
     st = PStatus_Error \/ Forall (fun id => settled id c') order) /\
  (Forall (fun id => enforced_rule id c) order ->
   Core.execute_housekeeping_rules fuel order c n = Ok PStatus_Error c n).
Proof.
  intros Hc Hl. split; [|apply execute_from_nothing].
  intros st c' n' Hrun. eapply execute_from_settles; [exact Hc|exact Hl|exact Hrun].
Qed.

End Theorems.

(** ** Witnesses *)

Definition sample_core : Core.t :=
  add_channel 1 (token_of [0])
    (ChannelDefault.mk 1 SubmissionQueue.make true 0 [] false false ChannelDefault.stats_member 0)
    Core.make_default.

Lemma sample_core_well_formed : core_well_formed sample_core.
Proof.
  apply add_channel_well_formed; [apply default_core_well_formed|..].
  - simpl. rewrite lookup_empty. intros [[? [=]]|Hin]. by apply not_elem_of_nil in Hin.
  - split; [done|]. split; [done|]. split; [done|]. by apply make_channel_well_formed.
Defined.

Lemma create_channel_outcome_witness : exists channel n',
  @Core.create_channel bounded_clock 1 (mkTuple 1 0 0) Core.make_default O =
    Ok PStatus_OK (add_channel 1 (tuple_token (Core.m_channel_diff_builder Core.make_default)
      (mkTuple 1 0 0)) channel Core.make_default) n' /\ fresh_channel 1 channel.
Proof.
  exact (@create_channel_outcome bounded_clock 1 (mkTuple 1 0 0) Core.make_default O
    default_core_well_formed).
Defined.

Lemma default_options_give_one_channel_witness : exists u c' n',
  @Core.make bounded_clock 3 4 true false Core.make_default O = Ok u c' n' /\
  Core.get_total_channels c' = 1.
Proof.
  destruct (is_Ok_inv (@Core.make bounded_clock 3 4 true false Core.make_default O))
    as ([] & c' & n' & Hm); [vm_compute; reflexivity|].
  exists tt, c', n'. split; [exact Hm|].
  apply (@default_options_give_one_channel bounded_clock 3 4 Core.make_default O c' n');
    [vm_compute; split; reflexivity|exact Hm].
Defined.

Lemma request_routing_witness :
  @Core.enforce_request bounded_clock 3 sample_context None 0 Result.default sample_core O =
  outcome_map (fun channel' => Core.set_channels (<[token_of [0] := channel']>
      (Core.m_channels sample_core)) sample_core)
    (@ChannelDefault.channel_enforce bounded_clock 3 sample_context None 0 Result.default
       (ChannelDefault.mk 1 SubmissionQueue.make true 0 [] false false ChannelDefault.stats_member 0) O).
Proof.
  exact (@request_routing bounded_clock 3 sample_context None 0 Result.default sample_core O
    sample_core_well_formed).
Defined.

Lemma enforcement_rule_routing_witness :
  @Core.employ_enforcement_rule bounded_clock 3 2 5 1 [10] sample_core O =
    Ok PStatus_Error sample_core O /\
  exists channel, Core.m_channels sample_core !! token_of [0] = Some channel /\
    ChannelDefault.m_channel_id channel = 1.
Proof.
  split.
  - apply (@enforcement_rule_routing bounded_clock 3 2 5 1 [10] sample_core O sample_core_well_formed).
    left. apply (bool_decide_unpack _). vm_compute. exact I.
  - destruct (proj2 (@enforcement_rule_routing bounded_clock 3 1 5 1 [10] sample_core O
      sample_core_well_formed) (token_of [0])) as (ch & Hl & Hi & _).
    + apply list_elem_of_here.
    + vm_compute. discriminate.
    + exists ch. split; [exact Hl|exact Hi].
Defined.

(** A rule that creates a channel, and a core that has it in its table. *)
Definition sample_rule : HousekeepingRule.t :=
  HousekeepingRule.make 8 hsk_create_channel 2 (-1) [0; 0; 0; 3].

Definition sample_core_with_rule : Core.t :=
  Core.set_table (snd (HousekeepingTable.insert_housekeeping_rule sample_rule HousekeepingTable.empty))
    sample_core.

Lemma execute_rule_employs_witness :
  @Core.execute_housekeeping_rule bounded_clock 3 8 sample_core_with_rule O =
  (status ← @Core.create_channel bounded_clock 2 (mkTuple 0 0 3);
   if is_ok status then
     _ ← Core.on_table (HousekeepingTable.mark_housekeeping_rule_as_enforced 8);
     mret status
   else mret status) sample_core_with_rule O.
Proof.
  exact (@execute_rule_employs bounded_clock 3 8 sample_rule sample_core_with_rule O eq_refl eq_refl
    ltac:(vm_compute; discriminate)).
Defined.

Lemma rule_executed_once_witness : exists c1 n1,
  @Core.execute_housekeeping_rule bounded_clock 3 8 sample_core_with_rule O = Ok PStatus_OK c1 n1 /\
  @Core.execute_housekeeping_rule bounded_clock 3 8 c1 n1 = Ok PStatus_Enforced c1 n1.
Proof.
  destruct (is_Ok_inv (@Core.execute_housekeeping_rule bounded_clock 3 8 sample_core_with_rule O))
    as (st & c1 & n1 & Hx); [vm_compute; reflexivity|].
  assert (Hst : match @Core.execute_housekeeping_rule bounded_clock 3 8 sample_core_with_rule O with
                | Ok st _ _ => st | _ => PStatus_Error end = PStatus_OK) by (vm_compute; reflexivity).
  rewrite Hx in Hst. subst st. exists c1, n1. split; [exact Hx|].
  apply (@rule_executed_once bounded_clock 3 8 [] sample_core_with_rule O c1 n1 c1 tt n1);
    [exact sample_core_well_formed|exact Hx|reflexivity].
Defined.

Lemma execute_housekeeping_rules_outcome_witness : exists st c' n',
  @Core.execute_housekeeping_rules bounded_clock 3 [8] sample_core_with_rule O = Ok st c' n' /\
  (st = PStatus_Error \/ Forall (fun id => settled id c') [8]).
Proof.
  destruct (is_Ok_inv (@Core.execute_housekeeping_rules bounded_clock 3 [8] sample_core_with_rule O))
    as (st & c' & n' & Hx); [vm_compute; reflexivity|].
  exists st, c', n'. split; [exact Hx|].
  apply (@execute_housekeeping_rules_outcome bounded_clock 3 [8] sample_core_with_rule O) with n'.
  - exact sample_core_well_formed.
  - constructor; [|constructor]. exists sample_rule. split; [reflexivity|vm_compute; discriminate].
  - exact Hx.
Defined.
