(* ===== verification/Queueing.v ===== *)
(** * Concurrent callers of a channel in queueing mode

    Several callers of [ChannelDefault::channel_enforce] share the submission
    queue, the workers and the completion queue.  A state lists what each lock
    protects; an event is a critical section of a caller or of a worker.  A
    worker keeps the lock of the submission queue while it enforces a ticket, so
    one ticket at most is being enforced.  A caller that finds the result of
    another at the front of the completion queue turns in its loop with the lock
    held. *)

From stdpp Require Import relations fin_maps.
From S2P Require Import Prelude MachineInt.

Module Queueing.

(** Where a caller is, with its ticket: about to enqueue it, about to look at
    the completion queue, waiting on the condition variable, or turning in the
    loop. *)
Inductive phase :=
| Built (id : Z)
| Entering (id : Z)
| Waiting (id : Z)
| Spinning (id : Z).

Record t := mk {
  m_ticket_id : Z;                      (* atomic<uint64_t> *)
  m_submission : list Z;                (* SubmissionQueue::m_queue *)
  m_enforcing : option Z;               (* the worker with m_queue_lock *)
  m_completion : list Z;                (* CompletionQueue::m_queue *)
  m_lock : option nat;                  (* the caller that keeps CompletionQueue::m_lock *)
  m_callers : gmap nat phase;
  m_delivered : list (nat * Z * Z);     (* caller, its ticket, the ticket of its result *)
}.

Definition initial : t := mk 0 [] None [] None ∅ [].

Definition set_callers (callers : gmap nat phase) (s : t) : t :=
  mk (m_ticket_id s) (m_submission s) (m_enforcing s) (m_completion s) (m_lock s) callers
    (m_delivered s).

Inductive event :=
| BuildTicket (caller : nat)            (* gen_ticket_id *)
| EnqueueTicket (caller : nat)          (* SubmissionQueue::enqueue *)
| TakeTicket                            (* the first half of SubmissionQueue::dequeue *)
| EnqueueResult                         (* its second half, with CompletionQueue::enqueue *)
| DequeueResult (caller : nat)          (* CompletionQueue::dequeue, with the lock *)
| Turn (caller : nat)                   (* an iteration of its loop, with the lock kept *)
| Wake (caller : nat).                  (* a spurious wake-up *)

(** [notify_all]. *)
Definition wake (p : phase) : phase := match p with Waiting id => Entering id | _ => p end.

Definition exec (e : event) (s : t) : option t :=
  match e with
  | BuildTicket c =>
      match m_callers s !! c with
      | None => Some (mk (u64 (m_ticket_id s + 1)) (m_submission s) (m_enforcing s) (m_completion s)
                        (m_lock s) (<[c := Built (m_ticket_id s)]> (m_callers s)) (m_delivered s))
      | Some _ => None
      end
  | EnqueueTicket c =>
      match m_callers s !! c, m_enforcing s with
      | Some (Built id), None =>
          Some (mk (m_ticket_id s) (m_submission s ++ [id]) None (m_completion s) (m_lock s)
                  (<[c := Entering id]> (m_callers s)) (m_delivered s))
      | _, _ => None
      end
  | TakeTicket =>
      match m_submission s, m_enforcing s with
      | id :: queue, None =>
          Some (mk (m_ticket_id s) queue (Some id) (m_completion s) (m_lock s) (m_callers s)
                  (m_delivered s))
      | _, _ => None
      end
  | EnqueueResult =>
      match m_enforcing s, m_lock s with
      | Some id, None =>
          Some (mk (m_ticket_id s) (m_submission s) None (m_completion s ++ [id]) None
                  (match m_completion s with
                   | [] => wake <$> m_callers s
                   | _ => m_callers s
                   end) (m_delivered s))
      | _, _ => None
      end
  | DequeueResult c =>
      match m_callers s !! c, m_lock s with
      | Some (Entering id), None =>
          match m_completion s with
          | [] => Some (set_callers (<[c := Waiting id]> (m_callers s)) s)
          | front :: queue =>
              if id =? front then
                Some (mk (m_ticket_id s) (m_submission s) (m_enforcing s) queue None
                        (delete c (m_callers s)) (m_delivered s ++ [(c, id, front)]))
              else
                Some (mk (m_ticket_id s) (m_submission s) (m_enforcing s) (m_completion s) (Some c)
                        (<[c := Spinning id]> (m_callers s)) (m_delivered s))
          end
      | _, _ => None
      end
  | Turn c =>
      match m_callers s !! c, m_completion s with
      | Some (Spinning id), front :: _ =>
          if bool_decide (m_lock s = Some c) && negb (id =? front) then Some s else None
      | _, _ => None
      end
  | Wake c =>
      match m_callers s !! c with
      | Some (Waiting id) => Some (set_callers (<[c := Entering id]> (m_callers s)) s)
      | _ => None
      end
  end.

Definition step (s s' : t) : Prop := exists e, exec e s = Some s'.

Fixpoint exec_all (events : list event) (s : t) : option t :=
  match events with
  | [] => Some s
  | e :: events => exec e s ≫= exec_all events
  end.

Definition reachable (s : t) : Prop := rtc step initial s.

(** The tickets that callers have enqueued and wait for. *)
Definition ticket (p : phase) : option Z :=
  match p with Built _ => None | Entering id | Waiting id | Spinning id => Some id end.

Definition pending (s : t) : list Z := (map_to_list (omap ticket (m_callers s))).*2.

(** The tickets on their way through the queues. *)
Definition in_flight (s : t) : list Z :=
  m_submission s ++ option_list (m_enforcing s) ++ m_completion s.

End Queueing.

(** ** Invariants *)

Section Invariants.
Import Queueing.

(** A caller that keeps the lock is in its loop, with the result of another at the
    front of the queue. *)
Definition lock_held (s : t) : Prop :=
  match m_lock s with
  | Some c => exists id front queue, m_callers s !! c = Some (Spinning id) /\
      m_completion s = front :: queue /\ front <> id
  | None => True
  end.

(** A caller in its loop keeps the lock, and one that waits has seen an empty
    queue, which still is. *)
Definition callers_placed (s : t) : Prop :=
  map_Forall (fun c p =>
    match p with
    | Spinning _ => m_lock s = Some c
    | Waiting _ => m_completion s = []
    | _ => True
    end) (m_callers s).

Definition queueing_invariant (s : t) : Prop :=
  in_flight s ≡ₚ pending s /\ lock_held s /\ callers_placed s /\
  Forall (fun '(_, id, result) => result = id) (m_delivered s).

Lemma pending_insert_same (m : gmap nat phase) c p p' : m !! c = Some p ->
  ticket p' = ticket p -> omap ticket (<[c := p']> m) = omap ticket m.
Proof.
  intros Hc Ht. apply map_eq. intros i. rewrite !lookup_omap.
  destruct (decide (c = i)) as [<-|Hne]; [by rewrite lookup_insert_eq, Hc|by rewrite lookup_insert_ne].
Qed.

Lemma pending_wake (m : gmap nat phase) : omap ticket (wake <$> m) = omap ticket m.
Proof.
  apply map_eq. intros i. rewrite !lookup_omap, lookup_fmap.
  by destruct (m !! i) as [[]|].
Qed.

Lemma pending_add (m : gmap nat phase) c id : omap ticket m !! c = None ->
  (map_to_list (omap ticket (<[c := Entering id]> m))).*2 ≡ₚ id :: (map_to_list (omap ticket m)).*2.
Proof.
  intros Hc. rewrite (omap_insert_Some _ _ _ _ id) by done.
  by rewrite map_to_list_insert by done.
Qed.

Lemma pending_remove (m : gmap nat phase) c id : omap ticket m !! c = Some id ->
  (map_to_list (omap ticket m)).*2 ≡ₚ id :: (map_to_list (omap ticket (delete c m))).*2.
Proof.
  intros Hc. rewrite omap_delete. by rewrite <- (map_to_list_delete _ _ _ Hc).
Qed.

Lemma caller_pending (m : gmap nat phase) c p id : m !! c = Some p -> ticket p = Some id ->
  omap ticket m !! c = Some id.
Proof. intros Hc Ht. by rewrite lookup_omap, Hc. Qed.

(** Another caller moves: the one with the lock is still there. *)
Lemma lock_held_other s c p (m := m_callers s) sub enf tk del :
  lock_held s -> (forall id, m !! c <> Some (Spinning id)) ->
  lock_held (mk tk sub enf (m_completion s) (m_lock s) (<[c := p]> m) del).
Proof.
  unfold lock_held. simpl. destruct (m_lock s) as [c'|]; [|done].
  intros (id & front & queue & Hc' & Hq & Hne) Hns. exists id, front, queue. split; [|done].
  rewrite lookup_insert_ne; [done|]. intros ->. by apply (Hns id).
Qed.

Lemma exec_placed e s s' : exec e s = Some s' -> callers_placed s -> callers_placed s'.
Proof.
  unfold callers_placed. intros He Hp. destruct e as [c|c| | |c|c|c]; simpl in He.
  - destruct (m_callers s !! c); [done|]. injection He as <-. by apply map_Forall_insert_2.
  - destruct (m_callers s !! c) as [[]|]; try done. destruct (m_enforcing s); [done|].
    injection He as <-. by apply map_Forall_insert_2.
  - destruct (m_submission s); [done|]. destruct (m_enforcing s); [done|]. by injection He as <-.
  - destruct (m_enforcing s) as [id|]; [|done]. destruct (m_lock s) as [c|] eqn:Hl; [done|].
    injection He as <-. simpl. destruct (m_completion s) eqn:Hq.
    + intros c p. rewrite lookup_fmap_Some. intros (p' & <- & Hc%Hp). by destruct p'.
    + intros c p Hc%Hp. by destruct p.
  - destruct (m_callers s !! c) as [[|id| |]|] eqn:Hc; [done| |done..].
    destruct (m_lock s) as [c'|] eqn:Hl; [done|].
    destruct (m_completion s) as [|front queue] eqn:Hq; [|destruct (id =? front)]; injection He as <-;
      simpl.
    + rewrite Hq, Hl. by apply map_Forall_insert_2.
    + apply map_Forall_delete. intros c1 p Hc1%Hp. by destruct p.
    + apply map_Forall_insert_2; [done|]. intros c1 p Hc1%Hp. by destruct p.
  - destruct (m_callers s !! c) as [[]|]; try done. destruct (m_completion s) eqn:Hq; [done|].
    destruct (_ && _); [|done]. injection He as <-. by rewrite Hq.
  - destruct (m_callers s !! c) as [[]|]; try done. injection He as <-. by apply map_Forall_insert_2.
Qed.

Lemma exec_invariant e s s' : exec e s = Some s' -> queueing_invariant s -> queueing_invariant s'.
Proof.
  intros He (Hperm & Hlock & Hplaced & Hdel).
  apply exec_placed in He as Hplaced'; [|done]. unfold in_flight, pending in Hperm.
  destruct e as [c|c| | |c|c|c]; simpl in He.
  - destruct (m_callers s !! c) as [p|] eqn:Hc; [done|]. injection He as <-.
    split; [|split; [|by split]].
    + unfold in_flight, pending. simpl. rewrite omap_insert_None, delete_id by
        (rewrite ?lookup_omap, ?Hc; done). done.
    + apply lock_held_other; [done|congruence].
  - destruct (m_callers s !! c) as [[id| | |]|] eqn:Hc; [|done..].
    destruct (m_enforcing s) as [w|] eqn:Hw; [done|]. injection He as <-. split; [|split; [|by split]].
    + unfold in_flight, pending. simpl. rewrite pending_add by (by rewrite lookup_omap, Hc).
      rewrite <- Hperm. simpl. solve_Permutation.
    + apply lock_held_other; [done|congruence].
  - destruct (m_submission s) as [|id queue] eqn:Hs; [done|].
    destruct (m_enforcing s); [done|]. injection He as <-. split; [|by split].
    unfold in_flight, pending. simpl in *. rewrite <- Hperm. solve_Permutation.
  - destruct (m_enforcing s) as [id|] eqn:Hw; [|done].
    destruct (m_lock s) as [c|] eqn:Hl; [done|]. injection He as <-. split; [|by split].
    unfold in_flight, pending. simpl in *.
    assert (omap ticket (match m_completion s with
      | [] => wake <$> m_callers s | _ :: _ => m_callers s end) = omap ticket (m_callers s)) as ->
      by (destruct (m_completion s); [apply pending_wake|done]).
    rewrite <- Hperm. solve_Permutation.
  - destruct (m_callers s !! c) as [[|id| |]|] eqn:Hc; [done| |done..].
    destruct (m_lock s) as [c'|] eqn:Hl; [done|].
    destruct (m_completion s) as [|front queue] eqn:Hq; [|destruct (Z.eqb_spec id front) as [<-|Hne]];
      injection He as <-.
    + split; [|split; [|by split]].
      * unfold in_flight, pending. simpl. by rewrite (pending_insert_same _ _ _ _ Hc), Hq.
      * unfold lock_held. simpl. by rewrite Hl.
    + split; [|split; [done|split; [done|]]].
      * unfold in_flight, pending. simpl.
        rewrite (pending_remove _ c id) in Hperm by (by eapply caller_pending).
        apply (Permutation_cons_inv (a := id)). rewrite <- Hperm. solve_Permutation.
      * simpl. apply Forall_app. split; [done|]. by constructor.
    + split; [|split; [|by split]].
      * unfold in_flight, pending. simpl. by rewrite (pending_insert_same _ _ _ _ Hc).
      * unfold lock_held. simpl. exists id, front, queue. rewrite lookup_insert_eq.
        split_and!; congruence.
  - destruct (m_callers s !! c) as [[| | |id]|]; [done..| |done].
    assert (s' = s) as -> by (destruct (m_completion s); [done|]; destruct (_ && _); congruence).
    split; [exact Hperm|]. split; [done|by split].
  - destruct (m_callers s !! c) as [[| |id|]|] eqn:Hc; [done|done| |done..]. injection He as <-.
    split; [|split; [|by split]].
    + unfold in_flight, pending. simpl. by rewrite (pending_insert_same _ _ _ _ Hc).
    + apply lock_held_other; [done|congruence].
Qed.

Lemma initial_invariant : queueing_invariant initial.
Proof. split; [done|]. split; [done|]. split; [apply map_Forall_empty|constructor]. Qed.

Lemma reachable_invariant s : reachable s -> queueing_invariant s.
Proof.
  intros Hs. pose proof initial_invariant as Hi. unfold reachable in Hs.
  induction Hs as [|s1 s2 s3 [e He] _ IH]; [done|]. apply IH. by eapply exec_invariant.
Qed.

(** A caller turns in the loop: the queue and the lock stay, and no event
    delivers a result. *)
Definition stuck (c : nat) (s : t) : Prop :=
  exists id front queue, m_lock s = Some c /\ m_callers s !! c = Some (Spinning id) /\
    m_completion s = front :: queue /\ front <> id.

Lemma exec_stuck c e s s' : stuck c s -> exec e s = Some s' ->
  stuck c s' /\ m_delivered s' = m_delivered s /\ m_completion s' = m_completion s.
Proof.
  intros (id & front & queue & Hl & Hc & Hq & Hne) He.
  destruct e as [c1|c1| | |c1|c1|c1]; simpl in He.
  - destruct (m_callers s !! c1) eqn:Hc1; [done|]. injection He as <-. split; [|done].
    exists id, front, queue. simpl. rewrite lookup_insert_ne by congruence. done.
  - destruct (m_callers s !! c1) as [[id1| | |]|] eqn:Hc1; [|done..].
    destruct (m_enforcing s); [done|]. injection He as <-. split; [|done].
    exists id, front, queue. simpl. rewrite lookup_insert_ne by congruence. done.
  - destruct (m_submission s); [done|]. destruct (m_enforcing s); [done|].
    injection He as <-. split; [|done]. by exists id, front, queue.
  - rewrite Hl in He. by destruct (m_enforcing s).
  - rewrite Hl in He. by destruct (m_callers s !! c1) as [[]|].
  - destruct (m_callers s !! c1) as [[| | |id1]|]; [done..| |done].
    assert (s' = s) as -> by (destruct (m_completion s); [done|]; destruct (_ && _); congruence).
    split; [|done]. by exists id, front, queue.
  - destruct (m_callers s !! c1) as [[| |id1|]|] eqn:Hc1; [done|done| |done..]. injection He as <-.
    split; [|done]. exists id, front, queue. simpl. rewrite lookup_insert_ne by congruence. done.
Qed.

Lemma exec_all_rtc events : forall s s', exec_all events s = Some s' -> rtc step s s'.
Proof.
  induction events as [|e events IH]; intros s s' He; [injection He as ->; constructor|].
  simpl in He. destruct (exec e s) as [s1|] eqn:H1; [|done]. simpl in He.
  eapply rtc_l; [by exists e|by apply IH].
Qed.

End Invariants.

(** ** A caller alone *)

Section Alone.
Import Queueing.

(** A run, without spurious wake-ups, that delivers the result of the caller. *)
Definition served (c : nat) (s : t) : Prop :=
  exists events s' id, exec_all events s = Some s' /\
    Forall (fun e => match e with Wake _ => False | _ => True end) events /\
    m_callers s' = ∅ /\ m_delivered s' = m_delivered s ++ [(c, id, id)].

Lemma served_event e c s s1 : exec e s = Some s1 ->
  match e with Wake _ => False | _ => True end -> m_delivered s1 = m_delivered s ->
  served c s1 -> served c s.
Proof.
  intros He Hw Hd (events & s' & id & Hall & Hev & Hc & Hd').
  exists (e :: events), s', id. simpl. rewrite He. split; [done|]. split; [by constructor|].
  split; [done|congruence].
Qed.

Lemma served_completed c id s : m_lock s = None -> m_callers s = {[ c := Entering id ]} ->
  m_completion s = [id] -> served c s.
Proof.
  intros Hl Hc Hq. exists [DequeueResult c]. eexists _, id. simpl.
  rewrite Hc, lookup_singleton_eq, Hl, Hq, Z.eqb_refl. split; [done|].
  split; [by repeat constructor|]. split; [apply delete_singleton_eq|done].
Qed.

Lemma served_enforcing c p id s : m_lock s = None -> m_callers s = {[ c := p ]} ->
  p = Entering id \/ p = Waiting id -> m_enforcing s = Some id -> m_completion s = [] -> served c s.
Proof.
  intros Hl Hc Hp He Hq.
  eapply (served_event EnqueueResult); [simpl; by rewrite He, Hl, Hq|done|done|].
  apply (served_completed c id); simpl; [done| |done].
  rewrite Hc, map_fmap_singleton. by destruct Hp as [->| ->].
Qed.

Lemma served_submitted c p id s : m_lock s = None -> m_callers s = {[ c := p ]} ->
  p = Entering id \/ p = Waiting id -> m_enforcing s = None -> m_submission s = [id] ->
  m_completion s = [] -> served c s.
Proof.
  intros Hl Hc Hp He Hs Hq. eapply (served_event TakeTicket); [simpl; by rewrite Hs, He|done|done|].
  by apply (served_enforcing c p id).
Qed.

(** The ticket on its way is somewhere in the queues. *)
Lemma in_flight_one s id : in_flight s = [id] ->
  (m_submission s = [id] /\ m_enforcing s = None /\ m_completion s = []) \/
  (m_enforcing s = Some id /\ m_completion s = []) \/
  (m_submission s = [] /\ m_enforcing s = None /\ m_completion s = [id]).
Proof.
  unfold in_flight. destruct (m_submission s) as [|a l]; simpl.
  - destruct (m_enforcing s); simpl; [intros [= -> ->]; auto|auto].
  - intros [= -> [-> H]%app_eq_nil]. destruct (m_enforcing s); simpl in H; [done|auto].
Qed.

End Alone.

(** ** Theorems *)

Section Theorems.
Import Queueing.

(** C12.  However callers and workers interleave, no ticket is lost or doubled
    (the tickets in the queues and in the hands of a worker are those callers
    wait for), and a result is only ever delivered to the caller of its ticket. *)
Theorem tickets_conserved s :
  reachable s -> in_flight s ≡ₚ pending s /\
  Forall (fun '(_, id, result) => result = id) (m_delivered s).
Proof. intros (Hp & _ & _ & Hd)%reachable_invariant. done. Qed.

(** C38.  Once a caller finds the result of another at the front, nothing is ever
    delivered again, whatever the others do. *)
Theorem no_delivery_after_foreign_front c s s' :
  stuck c s -> rtc step s s' -> stuck c s' /\ m_delivered s' = m_delivered s.
Proof.
  intros Hs Hrun. induction Hrun as [|s1 s2 s3 [e He] _ IH]; [done|].
  apply (exec_stuck c) in He as (Hs2 & Hd & _); [|done]. destruct (IH Hs2) as [? ?].
  split; [done|congruence].
Qed.

(** That state is two requests away: the caller of the second ticket looks
    at the queue when the result of the first is there. *)
Theorem foreign_front_reachable : exists s, reachable s /\ stuck 2%nat s /\
  pending s ≡ₚ [0; 1] /\ m_delivered s = [].
Proof.
  destruct (exec_all [BuildTicket 1; EnqueueTicket 1; BuildTicket 2; EnqueueTicket 2; TakeTicket;
    EnqueueResult; DequeueResult 2] initial) as [s|] eqn:He; [|done].
  exists s. split; [by eapply exec_all_rtc|]. vm_compute in He. injection He as <-.
  split; [by exists 1, 0, []|]. split; [|done].
  apply (bool_decide_unpack _). vm_compute. exact I.
Qed.

(** A caller alone on the channel is never stuck, and wherever its request
    is, there is a run that delivers its result, without spurious
    wake-ups. *)
Theorem single_caller_served s c p :
  reachable s -> m_callers s = {[ c := p ]} -> m_lock s = None /\ served c s.
Proof.
  intros (Hperm & Hlock & Hplaced & _)%reachable_invariant Hc.
  assert (Hp : match p with
               | Spinning _ => m_lock s = Some c | Waiting _ => m_completion s = [] | _ => True end)
    by (apply (Hplaced c p); by rewrite Hc, lookup_singleton_eq).
  unfold pending in Hperm. rewrite Hc in Hperm.
  assert (Hl : m_lock s = None).
  { unfold lock_held in Hlock. destruct (m_lock s) as [c'|]; [|done].
    destruct Hlock as (id & front & queue & Hc' & Hq & Hne). rewrite Hc in Hc'.
    apply lookup_singleton_Some in Hc' as [-> ->]. rewrite (omap_singleton_Some _ _ _ id) in Hperm by done.
    rewrite map_to_list_singleton in Hperm. simpl in Hperm. apply Permutation_singleton_r in Hperm.
    exfalso. apply in_flight_one in Hperm as [(_ & _ & H)|[(_ & H)|(_ & _ & H)]]; congruence. }
  split; [done|]. destruct p as [id|id|id|id]; [| | |congruence].
  - rewrite omap_singleton_None in Hperm by done. rewrite map_to_list_empty in Hperm.
    apply Permutation_nil_r in Hperm. unfold in_flight in Hperm.
    apply app_eq_nil in Hperm as [Hs [He Hq]%app_eq_nil].
    assert (Hw : m_enforcing s = None) by (by destruct (m_enforcing s)).
    eapply (served_event (EnqueueTicket c));
      [simpl; by rewrite Hc, lookup_singleton_eq, Hw|done|done|].
    apply (served_submitted c (Entering id) id); simpl; auto.
    + apply insert_singleton_eq.
    + by rewrite Hs.
  - rewrite (omap_singleton_Some _ _ _ id) in Hperm by done. rewrite map_to_list_singleton in Hperm.
    apply Permutation_singleton_r in Hperm.
    apply in_flight_one in Hperm as [(Hs & He & Hq)|[(He & Hq)|(_ & He & Hq)]].
    + by apply (served_submitted c (Entering id) id); auto.
    + by apply (served_enforcing c (Entering id) id); auto.
    + by apply (served_completed c id).
  - rewrite (omap_singleton_Some _ _ _ id) in Hperm by done. rewrite map_to_list_singleton in Hperm.
    apply Permutation_singleton_r in Hperm.
    apply in_flight_one in Hperm as [(Hs & He & Hq)|[(He & Hq)|(_ & He & Hq)]]; [| |congruence].
    + by apply (served_submitted c (Waiting id) id); auto.
    + by apply (served_enforcing c (Waiting id) id); auto.
Qed.

End Theorems.

(** ** Witnesses *)

Section Witnesses.
Import Queueing.

(** One caller that has enqueued its ticket. *)
Definition one_submitted : t := mk 1 [0] None [] None {[ 1%nat := Entering 0 ]} [].

Lemma one_submitted_reachable : reachable one_submitted.
Proof. apply (exec_all_rtc [BuildTicket 1; EnqueueTicket 1]). vm_compute. reflexivity. Defined.

Definition two_stuck : t :=
  mk 2 [1] None [0] (Some 2%nat) (<[1%nat := Entering 0]> {[ 2%nat := Spinning 1 ]}) [].

Lemma tickets_conserved_witness : in_flight one_submitted ≡ₚ pending one_submitted /\
  Forall (fun '(_, id, result) => result = id) (m_delivered one_submitted).
Proof. apply (tickets_conserved one_submitted one_submitted_reachable). Defined.

Lemma no_delivery_after_foreign_front_witness : stuck 2%nat two_stuck /\ m_delivered two_stuck = [].
Proof.
  apply (no_delivery_after_foreign_front 2%nat two_stuck two_stuck); [by exists 1, 0, []|].
  apply (exec_all_rtc [Turn 2]). vm_compute. reflexivity.
Defined.

Lemma single_caller_served_witness :
  m_lock one_submitted = None /\ served 1%nat one_submitted.
Proof.
  apply (single_caller_served one_submitted 1%nat (Entering 0) one_submitted_reachable eq_refl).
Defined.

End Witnesses.
