(* ===== verification/RulesParser.v ===== *)
(** * The parser of rule files

    [RulesParser] ([rules_parser.cpp]) splits the lines of a file into words and
    turns the words into housekeeping and enforcement rules.  The names of a
    line are told apart by a [switch] on a hash of the string.  The file is its
    contents, or nothing when it cannot be opened. *)

From Stdlib Require Import Ascii.
From S2P Require Import Prelude MachineInt Options Rules EnforcementObjects.

Inductive RuleType := rules_housekeeping | rules_differentiation | rules_enforcement | rules_noop.

(** ** Strings of the standard library *)

Definition char_code (c : Ascii.ascii) : Z := Z.of_N (Ascii.N_of_ascii c).

(** The text up to the first separator, and the text after it. *)
Fixpoint break_at (sep : Ascii.ascii) (s : string) : string * option string :=
  match s with
  | EmptyString => (EmptyString, None)
  | String c s =>
      if bool_decide (c = sep) then (EmptyString, Some s)
      else let '(word, rest) := break_at sep s in (String c word, rest)
  end.

(** The pieces between separators, [n] at most; as [std::getline] reads them,
    an empty piece at the very end is not one. *)
Fixpoint getlines (n : nat) (s : string) : list string :=
  match n with
  | O => []
  | S n =>
      match s with
      | EmptyString => []
      | _ =>
          let '(line, rest) := break_at "010"%char s in
          line :: match rest with Some rest => getlines n rest | None => [] end
      end
  end.

Definition lines_of (content : string) : list string := getlines (String.length content) content.

Definition is_space (c : Ascii.ascii) : bool :=
  let n := char_code c in (n =? 32) || ((9 <=? n) && (n <=? 13)).

Definition digit_of (c : Ascii.ascii) : option Z :=
  let n := char_code c in if (48 <=? n) && (n <=? 57) then Some (n - 48) else None.

Fixpoint skip_spaces (s : string) : string :=
  match s with
  | String c s' => if is_space c then skip_spaces s' else s
  | EmptyString => EmptyString
  end.

(** The value of the digits at the start of a string, after [acc]. *)
Fixpoint digits (s : string) (acc : Z) : Z :=
  match s with
  | String c s =>
      match digit_of c with
      | Some d => digits s (acc * 10 + d)
      | None => acc
      end
  | EmptyString => acc
  end.

(** [strtol]: the sign and value read, or nothing when there are no digits. *)
Definition read_number (s : string) : option (bool * Z) :=
  let s := skip_spaces s in
  let '(negative, s) :=
    match s with
    | String c s' =>
        if bool_decide (c = "-"%char) then (true, s')
        else if bool_decide (c = "+"%char) then (false, s') else (false, s)
    | EmptyString => (false, s)
    end in
  match s with
  | String c _ => match digit_of c with Some _ => Some (negative, digits s 0) | None => None end
  | EmptyString => None
  end.

Definition stol {S} (s : string) : M S Z :=
  match read_number s with
  | None => throw (InvalidArgument "stol")
  | Some (negative, n) =>
      let x := if negative : bool then - n else n in
      if decide (is_long x) then mret x else throw (OutOfRange "stol")
  end.

(** The sign negates the value in the unsigned type. *)
Definition stoull {S} (s : string) : M S Z :=
  match read_number s with
  | None => throw (InvalidArgument "stoull")
  | Some (negative, n) =>
      if decide (word 64 n) then mret (if negative : bool then u64 (- n) else n)
      else throw (OutOfRange "stoull")
  end.

Module RulesParser.

Record t := mk {
  m_rules_type : RuleType;
  m_staged_rules : list (list string);
}.

(** The default constructor. *)
Definition make_default : t := mk rules_noop [].

Definition m_create_channel_rules_min_elements : Z := 7.
Definition m_create_object_rules_min_elements : Z := 8.

(** The words of a line, [n] at most: [find_first_not_of] a space, then [find]
    the next one. *)
Fixpoint words (n : nat) (rule : string) : list string :=
  match n with
  | O => []
  | S n =>
      match rule with
      | EmptyString => []
      | String c rest =>
          if bool_decide (c = " "%char) then words n rest
          else
            let '(word, rest) := break_at " "%char rule in
            word :: match rest with Some rest => words n rest | None => [] end
      end
  end.

Definition parse_rule (rule : string) (tokens : list string) : list string :=
  tokens ++ words (String.length rule) rule.

(** The rules staged, and how many lines there were. *)
Definition read_rules_from_file (file : option string) (p : t) : Z * t :=
  match file with
  | Some content =>
      let lines := lines_of content in
      (Z.of_nat (length lines),
       mk (m_rules_type p) (m_staged_rules p ++ ((fun line => parse_rule line []) <$> lines)))
  | None => (0, p)
  end.

Definition make (type : RuleType) (file : option string) : t :=
  snd (read_rules_from_file file (mk type [])).

(** A [char], which is signed. *)
Definition signed_char (c : Ascii.ascii) : Z := s8 (char_code c).

(** [hash], with the salt 10242048, up to the null character. *)
Fixpoint hash (s : string) : Z :=
  match s with
  | EmptyString => 10242048
  | String c s =>
      if char_code c =? 0 then 10242048
      else Z.lxor (u32 (hash s * 33)) (u32 (signed_char c))
  end.

(** A [switch] over the hash of a string. *)
Fixpoint switch_hash {A} (h : Z) (cases : list (string * A)) : option A :=
  match cases with
  | [] => None
  | (label, x) :: cases => if h =? hash label then Some x else switch_hash h cases
  end.

Definition convert_housekeeping_operation (operation : string) : HousekeepingOperation :=
  default hsk_no_op (switch_hash (hash operation)
    [("create_channel", hsk_create_channel); ("create_object", hsk_create_object)]).

Definition convert_object_type (object_type : string) : EnforcementObjectType :=
  if bool_decide (object_type = "drl") then drl else noop.

Definition convert_enforcement_operation (object_type : EnforcementObjectType) (operation : string) : Z :=
  match object_type with
  | drl => default 0 (switch_hash (hash operation) [("init", 1); ("rate", 2); ("refill", 4)])
  | noop => 0
  end.

Definition ContextType_code (type : ContextType) : Z :=
  match type with
  | PAIO_GENERAL => 0 | POSIX => 1 | POSIX_META => 2 | LSM_KVS_SIMPLE => 3
  | LSM_KVS_DETAILED => 4 | KVS => 5
  end.

Definition context_cases : list (string * ContextType) :=
  [("general", PAIO_GENERAL); ("posix", POSIX); ("posix_meta", POSIX_META);
   ("lsm_kvs_simple", LSM_KVS_SIMPLE); ("lsm_kvs_detailed", LSM_KVS_DETAILED); ("kvs", KVS)].

Definition convert_context_type_definition (context_type : string) : Z :=
  match switch_hash (hash context_type) context_cases with
  | Some type => ContextType_code type
  | None => -1
  end.

(** The definitions of a domain: a name the [switch] does not have throws. *)
Definition convert_definitions {S} (cases : list (string * Z)) (domain definition : string) : M S Z :=
  match switch_hash (hash definition) cases with
  | Some code => mret code
  | None =>
      throw (RuntimeError ("Unknown " +:+ domain +:+ " function (hint: the request-type/request-context field does not match with the available elements of the chosen context-definition.)"))
  end.

Definition paio_general_cases : list (string * Z) :=
  [("foreground", PAIO_GENERAL_.code PAIO_GENERAL_.foreground);
   ("background", PAIO_GENERAL_.code PAIO_GENERAL_.background);
   ("high_priority", PAIO_GENERAL_.code PAIO_GENERAL_.high_priority);
   ("low_priority", PAIO_GENERAL_.code PAIO_GENERAL_.low_priority);
   ("no_op", PAIO_GENERAL_.code PAIO_GENERAL_.no_op)].

Definition convert_paio_general_definitions {S} (definition : string) : M S Z :=
  convert_definitions paio_general_cases "PAIO_GENERAL" definition.

Definition posix_lsm_simple_cases : list (string * Z) :=
  [("bg_flush", LSM_KVS_SIMPLE_.code LSM_KVS_SIMPLE_.bg_flush);
   ("bg_compaction_high_priority", LSM_KVS_SIMPLE_.code LSM_KVS_SIMPLE_.bg_compaction_high_priority);
   ("bg_compaction_low_priority", LSM_KVS_SIMPLE_.code LSM_KVS_SIMPLE_.bg_compaction_low_priority);
   ("foreground", LSM_KVS_SIMPLE_.code LSM_KVS_SIMPLE_.foreground);
   ("background", LSM_KVS_SIMPLE_.code LSM_KVS_SIMPLE_.background);
   ("no_op", LSM_KVS_SIMPLE_.code LSM_KVS_SIMPLE_.no_op)].

Definition convert_posix_lsm_simple_definitions {S} (definition : string) : M S Z :=
  convert_definitions posix_lsm_simple_cases "LSM_KVS_SIMPLE" definition.

Definition posix_lsm_detailed_cases : list (string * Z) :=
  [("bg_flush", LSM_KVS_DETAILED_.code LSM_KVS_DETAILED_.bg_flush);
   ("bg_compaction", LSM_KVS_DETAILED_.code LSM_KVS_DETAILED_.bg_compaction);
   ("bg_compaction_L0_L0", LSM_KVS_DETAILED_.code LSM_KVS_DETAILED_.bg_compaction_L0_L0);
   ("bg_compaction_L0_L1", LSM_KVS_DETAILED_.code LSM_KVS_DETAILED_.bg_compaction_L0_L1);
   ("bg_compaction_L1_L2", LSM_KVS_DETAILED_.code LSM_KVS_DETAILED_.bg_compaction_L1_L2);
   ("bg_compaction_L2_L3", LSM_KVS_DETAILED_.code LSM_KVS_DETAILED_.bg_compaction_L2_L3);
   ("bg_compaction_LN", LSM_KVS_DETAILED_.code LSM_KVS_DETAILED_.bg_compaction_LN);
   ("foreground", LSM_KVS_DETAILED_.code LSM_KVS_DETAILED_.foreground);
   ("no_op", LSM_KVS_DETAILED_.code LSM_KVS_DETAILED_.no_op)].

Definition convert_posix_lsm_detailed_definitions {S} (definition : string) : M S Z :=
  convert_definitions posix_lsm_detailed_cases "LSM_KVS_DETAILED" definition.

Definition posix_cases : list (string * Z) :=
  [("read", POSIX_.code POSIX_.read); ("write", POSIX_.code POSIX_.write);
   ("pread", POSIX_.code POSIX_.pread); ("pwrite", POSIX_.code POSIX_.pwrite);
   ("pread64", POSIX_.code POSIX_.pread64); ("pwrite64", POSIX_.code POSIX_.pwrite64);
   ("fread", POSIX_.code POSIX_.fread); ("fwrite", POSIX_.code POSIX_.fwrite);
   ("open", POSIX_.code POSIX_.open); ("open64", POSIX_.code POSIX_.open64);
   ("creat", POSIX_.code POSIX_.creat); ("creat64", POSIX_.code POSIX_.creat64);
   ("openat", POSIX_.code POSIX_.openat); ("close", POSIX_.code POSIX_.close);
   ("fsync", POSIX_.code POSIX_.fsync); ("fdatasync", POSIX_.code POSIX_.fdatasync);
   ("sync", POSIX_.code POSIX_.sync); ("syncfs", POSIX_.code POSIX_.syncfs);
   ("truncate", POSIX_.code POSIX_.truncate); ("ftruncate", POSIX_.code POSIX_.ftruncate);
   ("truncate64", POSIX_.code POSIX_.truncate64); ("ftruncate64", POSIX_.code POSIX_.ftruncate64);
   ("xstat", POSIX_.code POSIX_.xstat); ("lxstat", POSIX_.code POSIX_.lxstat);
   ("fxstat", POSIX_.code POSIX_.fxstat); ("xstat64", POSIX_.code POSIX_.xstat64);
   ("lxstat64", POSIX_.code POSIX_.lxstat64); ("fxstat64", POSIX_.code POSIX_.fxstat64);
   ("fxstatat", POSIX_.code POSIX_.fxstatat); ("fxstatat64", POSIX_.code POSIX_.fxstatat64);
   ("statfs", POSIX_.code POSIX_.statfs); ("fstatfs", POSIX_.code POSIX_.fstatfs);
   ("statfs64", POSIX_.code POSIX_.statfs64); ("fstatfs64", POSIX_.code POSIX_.fstatfs64);
   ("link", POSIX_.code POSIX_.link); ("linkat", POSIX_.code POSIX_.linkat);
   ("unlink", POSIX_.code POSIX_.unlink); ("unlinkat", POSIX_.code POSIX_.unlinkat);
   ("rename", POSIX_.code POSIX_.rename); ("renameat", POSIX_.code POSIX_.renameat);
   ("symlink", POSIX_.code POSIX_.symlink); ("symlinkat", POSIX_.code POSIX_.symlinkat);
   ("readlink", POSIX_.code POSIX_.readlink); ("readlinkat", POSIX_.code POSIX_.readlinkat);
   ("fopen", POSIX_.code POSIX_.fopen); ("fopen64", POSIX_.code POSIX_.fopen64);
   ("freopen", POSIX_.code POSIX_.freopen); ("freopen64", POSIX_.code POSIX_.freopen64);
   ("fclose", POSIX_.code POSIX_.fclose); ("fflush", POSIX_.code POSIX_.fflush);
   ("access", POSIX_.code POSIX_.access); ("faccessat", POSIX_.code POSIX_.faccessat);
   ("lseek", POSIX_.code POSIX_.lseek); ("lseek64", POSIX_.code POSIX_.lseek64);
   ("fseek", POSIX_.code POSIX_.fseek); ("fseek64", POSIX_.code POSIX_.fseek64);
   ("ftell", POSIX_.code POSIX_.ftell); ("fseeko", POSIX_.code POSIX_.fseeko);
   ("fseeko64", POSIX_.code POSIX_.fseeko64); ("ftello", POSIX_.code POSIX_.ftello);
   ("ftello64", POSIX_.code POSIX_.ftello64); ("mkdir", POSIX_.code POSIX_.mkdir);
   ("mkdirat", POSIX_.code POSIX_.mkdirat); ("rmdir", POSIX_.code POSIX_.rmdir);
   ("opendir", POSIX_.code POSIX_.opendir); ("readdir", POSIX_.code POSIX_.readdir);
   ("readdir64", POSIX_.code POSIX_.readdir64); ("fdopendir", POSIX_.code POSIX_.fdopendir);
   ("closedir", POSIX_.code POSIX_.closedir); ("dirfd", POSIX_.code POSIX_.dirfd);
   ("getxattr", POSIX_.code POSIX_.getxattr); ("lgetxattr", POSIX_.code POSIX_.lgetxattr);
   ("fgetxattr", POSIX_.code POSIX_.fgetxattr); ("setxattr", POSIX_.code POSIX_.setxattr);
   ("lsetxattr", POSIX_.code POSIX_.lsetxattr); ("fsetxattr", POSIX_.code POSIX_.fsetxattr);
   ("removexattr", POSIX_.code POSIX_.removexattr);
   ("lremovexattr", POSIX_.code POSIX_.lremovexattr);
   ("fremovexattr", POSIX_.code POSIX_.fremovexattr); ("listxattr", POSIX_.code POSIX_.listxattr);
   ("llistxattr", POSIX_.code POSIX_.llistxattr); ("flistxattr", POSIX_.code POSIX_.flistxattr);
   ("chmod", POSIX_.code POSIX_.chmod); ("fchmod", POSIX_.code POSIX_.fchmod);
   ("fchmodat", POSIX_.code POSIX_.fchmodat); ("chown", POSIX_.code POSIX_.chown);
   ("fchown", POSIX_.code POSIX_.fchown); ("fchownat", POSIX_.code POSIX_.fchownat);
   ("lchown", POSIX_.code POSIX_.lchown); ("no_op", POSIX_.code POSIX_.no_op)].

Definition convert_posix_definitions {S} (definition : string) : M S Z :=
  convert_definitions posix_cases "POSIX" definition.

Definition posix_meta_cases : list (string * Z) :=
  [("foreground", POSIX_META_.code POSIX_META_.foreground);
   ("background", POSIX_META_.code POSIX_META_.background);
   ("high_priority", POSIX_META_.code POSIX_META_.high_priority);
   ("med_priority", POSIX_META_.code POSIX_META_.med_priority);
   ("low_priority", POSIX_META_.code POSIX_META_.low_priority);
   ("data_op", POSIX_META_.code POSIX_META_.data_op);
   ("meta_op", POSIX_META_.code POSIX_META_.meta_op);
   ("dir_op", POSIX_META_.code POSIX_META_.dir_op);
   ("ext_attr_op", POSIX_META_.code POSIX_META_.ext_attr_op);
   ("file_mod_op", POSIX_META_.code POSIX_META_.file_mod_op);
   ("no_op", POSIX_META_.code POSIX_META_.no_op)].

Definition convert_posix_meta_definitions {S} (definition : string) : M S Z :=
  convert_definitions posix_meta_cases "POSIX_META" definition.

Definition kvs_cases : list (string * Z) :=
  [("put", KVS_.code KVS_.put); ("get", KVS_.code KVS_.get);
   ("new_iterator", KVS_.code KVS_.new_iterator); ("delete", KVS_.code KVS_.delete_);
   ("write", KVS_.code KVS_.write); ("get_snapshot", KVS_.code KVS_.get_snapshot);
   ("get_property", KVS_.code KVS_.get_property);
   ("get_approximate_size", KVS_.code KVS_.get_approximate_size);
   ("compact_range", KVS_.code KVS_.compact_range); ("no_op", KVS_.code KVS_.no_op)].

Definition convert_kvs_definitions {S} (definition : string) : M S Z :=
  convert_definitions kvs_cases "KVS" definition.

Definition convert_differentiation_definitions {S} (context_type definition : string) : M S Z :=
  match switch_hash (hash context_type) context_cases with
  | Some PAIO_GENERAL => convert_paio_general_definitions definition
  | Some POSIX => convert_posix_definitions definition
  | Some POSIX_META => convert_posix_meta_definitions definition
  | Some LSM_KVS_SIMPLE => convert_posix_lsm_simple_definitions definition
  | Some LSM_KVS_DETAILED => convert_posix_lsm_detailed_definitions definition
  | Some KVS => convert_kvs_definitions definition
  | None => mret (-1)
  end.

(** A limit of -1 is no limit. *)
Definition limit (total_rules : Z) : Z := if total_rules =? -1 then int_max else total_rules.

Definition build_create_channel_rule {S} (staged_rule : list string) : M S HousekeepingRule.t :=
  context ← vector_index staged_rule 3;
  word_4 ← vector_index staged_rule 4;
  workflow ← stol word_4;
  word_5 ← vector_index staged_rule 5;
  operation_type ← convert_differentiation_definitions context word_5;
  word_6 ← vector_index staged_rule 6;
  operation_context ← convert_differentiation_definitions context word_6;
  word_0 ← vector_index staged_rule 0;
  rule_id ← stoull word_0;
  word_2 ← vector_index staged_rule 2;
  channel ← stol word_2;
  mret (HousekeepingRule.make rule_id hsk_create_channel channel (-1)
          [convert_context_type_definition context; workflow; operation_type; operation_context]).

Definition build_create_object_rule {S} (staged_rule : list string) : M S HousekeepingRule.t :=
  context ← vector_index staged_rule 4;
  word_5 ← vector_index staged_rule 5;
  operation_type ← convert_differentiation_definitions context word_5;
  word_6 ← vector_index staged_rule 6;
  operation_context ← convert_differentiation_definitions context word_6;
  word_7 ← vector_index staged_rule 7;
  word_8 ← vector_index staged_rule 8;
  first_property ← stol word_8;
  word_9 ← vector_index staged_rule 9;
  second_property ← stol word_9;
  word_0 ← vector_index staged_rule 0;
  rule_id ← stoull word_0;
  word_2 ← vector_index staged_rule 2;
  channel ← stol word_2;
  word_3 ← vector_index staged_rule 3;
  object ← stol word_3;
  mret (HousekeepingRule.make rule_id hsk_create_object channel object
          [convert_context_type_definition context; operation_type; operation_context;
           EnforcementObjectType_code (convert_object_type word_7); first_property; second_property]).

(** The loop over the staged rules of one operation. *)
Fixpoint collect_rules {S} (operation : HousekeepingOperation) (min_elements : Z)
    (build : list string -> M S HousekeepingRule.t) (staged_rules : list (list string))
    (hsk_rules : list HousekeepingRule.t) (rules_passed total_rules : Z) :
    M S (Z * list HousekeepingRule.t) :=
  match staged_rules with
  | [] => mret (rules_passed, hsk_rules)
  | staged_rule :: staged_rules =>
      name ← vector_index staged_rule 1;
      if bool_decide (convert_housekeeping_operation name = operation) then
        if s32 (Z.of_nat (length staged_rule)) <? min_elements
        then collect_rules operation min_elements build staged_rules hsk_rules rules_passed total_rules
        else
          rule ← build staged_rule;
          if rules_passed + 1 =? total_rules then mret (rules_passed + 1, hsk_rules ++ [rule])
          else collect_rules operation min_elements build staged_rules (hsk_rules ++ [rule])
                 (rules_passed + 1) total_rules
      else collect_rules operation min_elements build staged_rules hsk_rules rules_passed total_rules
  end.

(** The number of rules passed, and [hsk_rules] with them. *)
Definition get_create_channel_rules (hsk_rules : list HousekeepingRule.t) (total_rules : Z) :
    M t (Z * list HousekeepingRule.t) :=
  p ← gets id;
  collect_rules hsk_create_channel m_create_channel_rules_min_elements build_create_channel_rule
    (m_staged_rules p) hsk_rules 0 (limit total_rules).

Definition get_create_object_rules (hsk_rules : list HousekeepingRule.t) (total_rules : Z) :
    M t (Z * list HousekeepingRule.t) :=
  p ← gets id;
  collect_rules hsk_create_object m_create_object_rules_min_elements build_create_object_rule
    (m_staged_rules p) hsk_rules 0 (limit total_rules).

Definition build_enforcement_rule {S} (staged_rule : list string) : M S EnforcementRule.t :=
  word_3 ← vector_index staged_rule 3;
  word_4 ← vector_index staged_rule 4;
  let operation_type := convert_enforcement_operation (convert_object_type word_3) word_4 in
  configurations ← (if operation_type =? 1 then
                      word_5 ← vector_index staged_rule 5;
                      period ← stol word_5;
                      word_6 ← vector_index staged_rule 6;
                      rate ← stol word_6;
                      mret [period; rate]
                    else if operation_type =? 2 then
                      word_5 ← vector_index staged_rule 5;
                      rate ← stol word_5;
                      mret [rate]
                    else mret []);
  word_0 ← vector_index staged_rule 0;
  rule_id ← stoull word_0;
  word_1 ← vector_index staged_rule 1;
  channel ← stol word_1;
  word_2 ← vector_index staged_rule 2;
  object ← stol word_2;
  mret (EnforcementRule.mk rule_id channel object operation_type configurations).

Fixpoint collect_enforcement_rules {S} (staged_rules : list (list string))
    (enf_rules : list EnforcementRule.t) (rules_passed total_rules : Z) :
    M S (Z * list EnforcementRule.t) :=
  match staged_rules with
  | [] => mret (rules_passed, enf_rules)
  | staged_rule :: staged_rules =>
      rule ← build_enforcement_rule staged_rule;
      if rules_passed + 1 =? total_rules then mret (rules_passed + 1, enf_rules ++ [rule])
      else collect_enforcement_rules staged_rules (enf_rules ++ [rule]) (rules_passed + 1) total_rules
  end.

Definition get_enforcement_rules (enf_rules : list EnforcementRule.t) (total_rules : Z) :
    M t (Z * list EnforcementRule.t) :=
  p ← gets id;
  collect_enforcement_rules (m_staged_rules p) enf_rules 0 (limit total_rules).

(** [erase] invalidates the iterator the loop goes on with. *)
Definition erase_rules : M t Z :=
  p ← gets id;
  match m_staged_rules p with
  | [] => mret 0
  | _ => crash_with (UndefinedBehaviour "iterator invalidated by erase")
  end.

End RulesParser.

(** ** Lines and words *)

Section Words.
Import RulesParser.

Fixpoint unwords (ws : list string) : string :=
  match ws with
  | [] => ""
  | [w] => w
  | w :: ws => w +:+ String " " (unwords ws)
  end.

(** A word without the separator. *)
Fixpoint free_of (sep : Ascii.ascii) (s : string) : bool :=
  match s with
  | EmptyString => true
  | String c s => negb (bool_decide (c = sep)) && free_of sep s
  end.

Definition is_word (w : string) : Prop := w <> "" /\ free_of " " w = true.

Lemma break_at_free sep w : free_of sep w = true -> break_at sep w = (w, None).
Proof.
  induction w as [|c w IH]; [done|]. cbn [free_of break_at].
  intros [Hc Hw]%andb_true_iff. apply negb_true_iff in Hc. rewrite Hc. by rewrite IH.
Qed.

Lemma break_at_word sep w rest : free_of sep w = true ->
  break_at sep (w +:+ String sep rest) = (w, Some rest).
Proof.
  induction w as [|c w IH]; cbn [free_of].
  - intros _. change ("" +:+ String sep rest) with (String sep rest). cbn [break_at].
    by rewrite bool_decide_eq_true_2.
  - intros [Hc Hw]%andb_true_iff. apply negb_true_iff in Hc.
    change (String c w +:+ String sep rest) with (String c (w +:+ String sep rest)).
    cbn [break_at]. rewrite Hc. by rewrite IH.
Qed.

Lemma length_append (s1 s2 : string) :
  String.length (s1 +:+ s2) = (String.length s1 + String.length s2)%nat.
Proof.
  induction s1 as [|c s1 IH]; [done|].
  change (String c s1 +:+ s2) with (String c (s1 +:+ s2)). simpl. by rewrite IH.
Qed.

Lemma words_unwords ws : Forall is_word ws -> forall n, (String.length (unwords ws) <= n)%nat ->
  words n (unwords ws) = ws.
Proof.
  induction ws as [|w ws IH]; intros Hws n Hn; [by destruct n|].
  apply Forall_cons_1 in Hws as [[Hne Hfree] Hws].
  destruct w as [|c w]; [done|]. assert (Hc : bool_decide (c = " "%char) = false).
  { cbn [free_of] in Hfree. apply andb_true_iff in Hfree as [Hc _]. by apply negb_true_iff in Hc. }
  destruct ws as [|w' ws'].
  - simpl in Hn. destruct n as [|n]; [lia|]. cbn [unwords words]. rewrite Hc.
    by rewrite break_at_free.
  - change (unwords (String c w :: w' :: ws')) with (String c w +:+ String " " (unwords (w' :: ws'))) in *.
    rewrite length_append in Hn. cbn [String.length] in Hn.
    destruct n as [|n]; [lia|].
    change (String c w +:+ String " " (unwords (w' :: ws'))) with
      (String c (w +:+ String " " (unwords (w' :: ws')))) at 1.
    cbn [words]. rewrite Hc.
    change (String c (w +:+ String " " (unwords (w' :: ws')))) with
      (String c w +:+ String " " (unwords (w' :: ws'))).
    rewrite break_at_word by done. f_equal. apply IH; [done|lia].
Qed.

(** ** Numbers *)

Lemma digit_of_pretty d : (d < 10)%N -> digit_of (pretty_N_char d) = Some (Z.of_N d).
Proof.
  intros Hd. assert (Hin : d ∈ [0; 1; 2; 3; 4; 5; 6; 7; 8; 9]%N).
  { rewrite !elem_of_cons. lia. }
  repeat (apply elem_of_cons in Hin as [->|Hin]; [reflexivity|]). by apply not_elem_of_nil in Hin.
Qed.

Lemma digits_pretty x : forall s, digits (pretty_N_go x s) 0 = digits s (Z.of_N x).
Proof.
  induction (N.lt_wf_0 x) as [x _ IH]. intros s.
  destruct (decide (x = 0)%N) as [->|Hx]; [by rewrite pretty_N_go_0|].
  rewrite pretty_N_go_step by lia. rewrite IH by (apply N.div_lt; lia). cbn [digits].
  rewrite digit_of_pretty by (apply N.mod_lt; lia). f_equal.
  rewrite N2Z.inj_div, N2Z.inj_mod. pose proof (Z.div_mod (Z.of_N x) 10). lia.
Qed.

(** A decimal form starts with a digit. *)
Lemma pretty_N_head (x : N) : exists c s d, pretty x = String c s /\ digit_of c = Some d.
Proof.
  unfold pretty, pretty_N. case_decide as Hx; [by exists "0"%char, "", 0|].
  assert (Hgo : forall x s, (exists c r d, s = String c r /\ digit_of c = Some d) \/ (0 < x)%N ->
    exists c r d, pretty_N_go x s = String c r /\ digit_of c = Some d).
  { clear x Hx. intros x. induction (N.lt_wf_0 x) as [x _ IH]. intros s Hs.
    destruct (decide (x = 0)%N) as [->|Hx].
    - rewrite pretty_N_go_0. destruct Hs as [?|?]; [done|lia].
    - rewrite pretty_N_go_step by lia. apply IH; [apply N.div_lt; lia|]. left.
      do 3 eexists. split; [done|]. apply digit_of_pretty, N.mod_lt. lia. }
  apply Hgo. right. lia.
Qed.

Lemma digit_not_space c d : digit_of c = Some d -> is_space c = false /\
  bool_decide (c = "-"%char) = false /\ bool_decide (c = "+"%char) = false.
Proof.
  unfold digit_of. destruct (_ && _) eqn:Hc; [|done]. intros _. bools.
  split; [|split; apply bool_decide_eq_false_2; intros ->; unfold char_code in *; simpl in *; lia].
  unfold is_space. apply orb_false_iff. rewrite Z.eqb_neq, andb_false_iff, !Z.leb_gt. lia.
Qed.

Lemma digits_of_pretty (x : N) : digits (pretty x) 0 = Z.of_N x.
Proof.
  unfold pretty, pretty_N. destruct (decide (x = 0%N)) as [->|Hx]; [done|].
  by rewrite digits_pretty.
Qed.

Lemma read_pretty_N (x : N) : read_number (pretty x) = Some (false, Z.of_N x).
Proof.
  rewrite <- (digits_of_pretty x).
  destruct (pretty_N_head x) as (c & s & d & Hp & Hd). unfold read_number. rewrite Hp.
  apply digit_not_space in Hd as Hsp. destruct Hsp as (Hs & Hm & Hpl).
  cbn [skip_spaces]. by rewrite Hs, Hm, Hpl, Hd.
Qed.

Lemma read_pretty_Z (x : Z) : read_number (pretty x) = Some (bool_decide (x < 0), Z.abs x).
Proof.
  destruct x as [|p|p]; [reflexivity|exact (read_pretty_N (Npos p))|].
  change (pretty (Zneg p)) with (String "-" (pretty (Npos p))).
  change (Z.abs (Zneg p)) with (Z.of_N (Npos p)). rewrite <- (digits_of_pretty (Npos p)).
  destruct (pretty_N_head (Npos p)) as (c & s & d & Hp & Hd). rewrite Hp.
  unfold read_number. cbn [skip_spaces]. change (is_space "-"%char) with false. cbn iota.
  rewrite bool_decide_eq_true_2 by done. by rewrite Hd.
Qed.

Lemma stol_pretty {S} x : is_long x -> @stol S (pretty x) = mret x.
Proof.
  intros Hx. unfold stol. rewrite read_pretty_Z.
  assert ((if bool_decide (x < 0) then - Z.abs x else Z.abs x) = x) as ->.
  { case_bool_decide; lia. }
  by rewrite decide_True.
Qed.

Lemma stoull_pretty {S} x : word 64 x -> @stoull S (pretty x) = mret x.
Proof.
  intros Hx. unfold stoull. rewrite read_pretty_Z.
  rewrite bool_decide_eq_false_2 by (unfold word in Hx; lia).
  rewrite Z.abs_eq by (unfold word in Hx; lia). by rewrite decide_True.
Qed.

(** The digits of a number are neither spaces nor line feeds. *)
Lemma free_of_pretty_go (sep : Ascii.ascii) (x : N) : digit_of sep = None -> forall s,
  free_of sep s = true -> free_of sep (pretty_N_go x s) = true.
Proof.
  intros Hsep. induction (N.lt_wf_0 x) as [x _ IH]. intros s Hs.
  destruct (decide (x = 0)%N) as [->|Hx]; [by rewrite pretty_N_go_0|].
  rewrite pretty_N_go_step by lia. apply IH; [apply N.div_lt; lia|]. cbn [free_of].
  rewrite Hs, andb_true_r. apply negb_true_iff, bool_decide_eq_false_2. intros <-.
  rewrite digit_of_pretty in Hsep by (apply N.mod_lt; lia). done.
Qed.

Lemma free_of_pretty_N sep (x : N) : digit_of sep = None -> free_of sep (pretty x) = true.
Proof.
  intros Hsep. unfold pretty, pretty_N. destruct (decide (x = 0%N)) as [_|_].
  - cbn [free_of]. rewrite andb_true_r. apply negb_true_iff, bool_decide_eq_false_2. by intros <-.
  - by apply free_of_pretty_go.
Qed.

Lemma free_of_pretty_Z sep (x : Z) : digit_of sep = None -> sep <> "-"%char ->
  free_of sep (pretty x) = true.
Proof.
  intros Hsep Hm. destruct x as [|p|p].
  - change (pretty 0) with "0". cbn [free_of]. rewrite andb_true_r. apply negb_true_iff, bool_decide_eq_false_2. by intros <-.
  - exact (free_of_pretty_N sep (Npos p) Hsep).
  - change (pretty (Zneg p)) with (String "-" (pretty (Npos p))). cbn [free_of].
    rewrite free_of_pretty_N by done. rewrite andb_true_r.
    apply negb_true_iff, bool_decide_eq_false_2. by intros <-.
Qed.

Lemma pretty_Z_not_empty (x : Z) : pretty x <> "".
Proof.
  destruct x as [|p|p]; [done| |done]. intros H. change (pretty (Zpos p)) with (pretty (Npos p)) in H.
  destruct (pretty_N_head (Npos p)) as (c & s & d & Hp & _). congruence.
Qed.

End Words.

(** ** A rules file as it is written

    The lines the parser is meant for: numbers in decimal and names from the
    list of the context's domain. *)

Inductive Entry :=
| channel_entry (rule channel : Z) (context : ContextType) (workflow : Z) (type operation : string)
| object_entry (rule channel object : Z) (context : ContextType) (type operation : string)
    (kind : EnforcementObjectType) (first second : Z).

Section Entries.
Import RulesParser.

Definition context_name (context : ContextType) : string :=
  match context with
  | PAIO_GENERAL => "general" | POSIX => "posix" | POSIX_META => "posix_meta"
  | LSM_KVS_SIMPLE => "lsm_kvs_simple" | LSM_KVS_DETAILED => "lsm_kvs_detailed" | KVS => "kvs"
  end.

Definition names_of (context : ContextType) : list (string * Z) :=
  match context with
  | PAIO_GENERAL => paio_general_cases | POSIX => posix_cases | POSIX_META => posix_meta_cases
  | LSM_KVS_SIMPLE => posix_lsm_simple_cases | LSM_KVS_DETAILED => posix_lsm_detailed_cases
  | KVS => kvs_cases
  end.

(** The code of a name, by comparing strings. *)
Fixpoint code_of (names : list (string * Z)) (name : string) : option Z :=
  match names with
  | [] => None
  | (label, code) :: names => if bool_decide (name = label) then Some code else code_of names name
  end.

Definition kind_name (kind : EnforcementObjectType) : string :=
  match kind with drl => "drl" | noop => "noop" end.

Definition entry_words (e : Entry) : list string :=
  match e with
  | channel_entry rule channel context workflow type operation =>
      [pretty rule; "create_channel"; pretty channel; context_name context; pretty workflow; type;
       operation]
  | object_entry rule channel object context type operation kind first second =>
      [pretty rule; "create_object"; pretty channel; pretty object; context_name context; type;
       operation; kind_name kind; pretty first; pretty second]
  end.

Definition print_lines (lines : list (list string)) : string :=
  foldr (fun ws rest => unwords ws +:+ String "010"%char rest) "" lines.

Definition entry_valid (e : Entry) : Prop :=
  match e with
  | channel_entry rule channel context workflow type operation =>
      word 64 rule /\ is_long channel /\ is_long workflow /\
      is_Some (code_of (names_of context) type) /\ is_Some (code_of (names_of context) operation)
  | object_entry rule channel object context type operation kind first second =>
      word 64 rule /\ is_long channel /\ is_long object /\ is_long first /\ is_long second /\
      is_Some (code_of (names_of context) type) /\ is_Some (code_of (names_of context) operation)
  end.

Definition code_or (context : ContextType) (name : string) : Z :=
  default (-1) (code_of (names_of context) name).

(** The rules of the entries of one kind, in the order of the file. *)
Definition channel_rule (e : Entry) : option HousekeepingRule.t :=
  match e with
  | channel_entry rule channel context workflow type operation =>
      Some (HousekeepingRule.make rule hsk_create_channel channel (-1)
              [ContextType_code context; workflow; code_or context type; code_or context operation])
  | object_entry _ _ _ _ _ _ _ _ _ => None
  end.

Definition object_rule (e : Entry) : option HousekeepingRule.t :=
  match e with
  | object_entry rule channel object context type operation kind first second =>
      Some (HousekeepingRule.make rule hsk_create_object channel object
              [ContextType_code context; code_or context type; code_or context operation;
               EnforcementObjectType_code kind; first; second])
  | channel_entry _ _ _ _ _ _ => None
  end.

(** A name in a list without two names of the same hash is found by the switch. *)
Fixpoint hashes_distinct (names : list (string * Z)) : bool :=
  match names with
  | [] => true
  | (label, _) :: names =>
      negb (existsb (fun p => hash label =? hash (fst p)) names) && hashes_distinct names
  end.

Lemma code_of_in names name code : code_of names name = Some code -> (name, code) ∈ names.
Proof.
  induction names as [|[label c] names IH]; [done|]. cbn [code_of]. case_bool_decide as Hn.
  - intros [= ->]. subst. apply list_elem_of_here.
  - intros H. by apply list_elem_of_further, IH.
Qed.

Lemma switch_hash_code names name code : hashes_distinct names = true ->
  code_of names name = Some code -> switch_hash (hash name) names = Some code.
Proof.
  induction names as [|[label c] names IH]; [done|]. cbn [hashes_distinct code_of switch_hash].
  intros [Hd Hds]%andb_true_iff. case_bool_decide as Hn.
  - subst. by rewrite Z.eqb_refl.
  - intros Hc. destruct (hash name =? hash label) eqn:Hh; [|by apply IH].
    apply negb_true_iff in Hd. exfalso. assert (existsb (fun p => hash label =? hash (fst p)) names = true).
    { apply existsb_exists. exists (name, code). split.
      - by apply list_elem_of_In, code_of_in.
      - simpl. lia. }
    congruence.
Qed.

Lemma names_hashes_distinct context : hashes_distinct (names_of context) = true.
Proof. destruct context; vm_compute; reflexivity. Qed.

Lemma context_name_found context :
  switch_hash (hash (context_name context)) context_cases = Some context.
Proof. destruct context; vm_compute; reflexivity. Qed.

Lemma convert_listed {S} context name : is_Some (code_of (names_of context) name) ->
  @convert_differentiation_definitions S (context_name context) name = mret (code_or context name).
Proof.
  intros [code Hc]. unfold convert_differentiation_definitions, code_or.
  rewrite context_name_found, Hc.
  pose proof (switch_hash_code _ _ _ (names_hashes_distinct context) Hc) as Hs.
  destruct context; cbn [names_of] in Hs;
    unfold convert_paio_general_definitions, convert_posix_definitions,
      convert_posix_meta_definitions, convert_posix_lsm_simple_definitions,
      convert_posix_lsm_detailed_definitions, convert_kvs_definitions, convert_definitions;
    by rewrite Hs.
Qed.

Lemma convert_context context :
  convert_context_type_definition (context_name context) = ContextType_code context.
Proof. unfold convert_context_type_definition. by rewrite context_name_found. Qed.

Lemma convert_kind kind : convert_object_type (kind_name kind) = kind.
Proof. by destruct kind. Qed.

(** The words of a line, and the lines of a file, are read back. *)
Definition plain (w : string) : Prop := is_word w /\ free_of "010"%char w = true.

Lemma pretty_plain (x : Z) : plain (pretty x).
Proof.
  split; [split; [apply pretty_Z_not_empty|]|]; apply free_of_pretty_Z; done.
Qed.

Lemma name_plain context name : is_Some (code_of (names_of context) name) -> plain name.
Proof.
  intros [code Hc]. apply code_of_in in Hc.
  set (ok := fun p : string * Z => negb (bool_decide (fst p = "")) &&
               free_of " "%char (fst p) && free_of "010"%char (fst p)).
  assert (Hall : forallb ok (names_of context) = true) by (destruct context; vm_compute; reflexivity).
  rewrite forallb_forall in Hall. apply list_elem_of_In in Hc. specialize (Hall _ Hc).
  unfold ok in Hall. cbn [fst] in Hall. apply andb_true_iff in Hall as [Hall Hn].
  apply andb_true_iff in Hall as [Hne Hs]. apply negb_true_iff, bool_decide_eq_false in Hne.
  repeat split; done.
Qed.

Lemma plain_const w : negb (bool_decide (w = "")) && free_of " "%char w && free_of "010"%char w = true ->
  plain w.
Proof.
  intros [[Hne Hs]%andb_true_iff Hn]%andb_true_iff. apply negb_true_iff, bool_decide_eq_false in Hne.
  repeat split; done.
Qed.

Lemma entry_words_plain e : entry_valid e -> Forall plain (entry_words e).
Proof.
  destruct e; cbn [entry_valid entry_words]; intros; destruct_and?; repeat constructor;
    first [apply pretty_plain | by eapply name_plain | apply plain_const; reflexivity
          | apply plain_const; by destruct context | apply plain_const; by destruct kind].
Qed.

End Entries.

Section Files.
Import RulesParser.

Lemma free_of_app sep s1 s2 : free_of sep (s1 +:+ s2) = free_of sep s1 && free_of sep s2.
Proof.
  induction s1 as [|c s1 IH]; [done|].
  change (String c s1 +:+ s2) with (String c (s1 +:+ s2)). cbn [free_of].
  by rewrite IH, andb_assoc.
Qed.

Lemma unwords_line ws : Forall plain ws -> free_of "010"%char (unwords ws) = true.
Proof.
  induction ws as [|w ws IH]; [done|]. intros [[_ Hw] Hws]%Forall_cons_1.
  destruct ws as [|w' ws]; [done|].
  change (unwords (w :: w' :: ws)) with (w +:+ String " " (unwords (w' :: ws))).
  rewrite free_of_app, Hw. cbn [free_of]. by rewrite IH.
Qed.

Lemma getlines_print lines : Forall (Forall plain) lines -> forall n,
  (String.length (print_lines lines) <= n)%nat ->
  getlines n (print_lines lines) = unwords <$> lines.
Proof.
  induction lines as [|ws lines IH]; [by destruct n|].
  intros [Hws Hlines]%Forall_cons_1 n Hn.
  change (print_lines (ws :: lines)) with (unwords ws +:+ String "010"%char (print_lines lines)) in *.
  rewrite length_append in Hn. cbn [String.length] in Hn. destruct n as [|n]; [lia|].
  cbn [getlines]. rewrite break_at_word by by apply unwords_line.
  rewrite IH by (done || lia). cbn [fmap list_fmap].
  destruct (unwords ws) as [|c w]; [done|].
  by change (String c w +:+ String "010"%char (print_lines lines))
    with (String c (w +:+ String "010"%char (print_lines lines))).
Qed.

Lemma make_print type lines : Forall (Forall plain) lines ->
  make type (Some (print_lines lines)) = mk type lines.
Proof.
  intros Hlines. unfold make, read_rules_from_file, lines_of.
  rewrite getlines_print by done. cbn [snd m_rules_type m_staged_rules app]. f_equal.
  rewrite <- list_fmap_compose. rewrite <- (list_fmap_id lines) at 2.
  apply list_fmap_ext. intros i ws Hi. unfold compose, parse_rule.
  rewrite words_unwords; [done| |done].
  eapply Forall_lookup_1 in Hlines; [|exact Hi]. eapply Forall_impl; [|exact Hlines]. by intros w [? _].
Qed.

Lemma entries_plain es : Forall entry_valid es -> Forall (Forall plain) (entry_words <$> es).
Proof.
  intros Hes. apply Forall_fmap. eapply Forall_impl; [|exact Hes]. apply entry_words_plain.
Qed.

(** The next computation of a chain returns. *)
Ltac returns_next :=
  erewrite bind_Ok;
  [|first [reflexivity
          | rewrite stol_pretty by done; reflexivity
          | rewrite stoull_pretty by done; reflexivity
          | rewrite convert_listed by done; reflexivity]].

Lemma build_channel {S} e rule (s : S) t : entry_valid e -> channel_rule e = Some rule ->
  build_create_channel_rule (entry_words e) s t = Ok rule s t.
Proof.
  destruct e; [|done]. cbn [entry_valid channel_rule entry_words]. intros Hv [= <-].
  destruct_and! Hv. unfold build_create_channel_rule. repeat returns_next.
  by rewrite convert_context.
Qed.

Lemma build_object {S} e rule (s : S) t : entry_valid e -> object_rule e = Some rule ->
  build_create_object_rule (entry_words e) s t = Ok rule s t.
Proof.
  destruct e; [done|]. cbn [entry_valid object_rule entry_words]. intros Hv [= <-].
  destruct_and! Hv. unfold build_create_object_rule. repeat returns_next.
  by rewrite convert_context, convert_kind.
Qed.

(** The loop of one operation over the words of the entries. *)
Lemma collect_entries {S} operation min_elements build (rule_of : Entry -> option HousekeepingRule.t)
    (s : S) t es :
  (forall e, entry_valid e ->
     match rule_of e with
     | Some rule =>
         convert_housekeeping_operation (default "" (entry_words e !! 1%nat)) = operation /\
         min_elements <= Z.of_nat (length (entry_words e)) /\ build (entry_words e) s t = Ok rule s t
     | None => convert_housekeeping_operation (default "" (entry_words e !! 1%nat)) <> operation
     end) ->
  Forall entry_valid es -> forall hsk_rules passed total,
  passed + Z.of_nat (length (omap rule_of es)) < total ->
  collect_rules operation min_elements build (entry_words <$> es) hsk_rules passed total s t =
  Ok (passed + Z.of_nat (length (omap rule_of es)), hsk_rules ++ omap rule_of es) s t.
Proof.
  intros Hrule. induction es as [|e es IH]; intros Hes hsk_rules passed total Htotal.
  - cbn. by rewrite Z.add_0_r, app_nil_r.
  - apply Forall_cons_1 in Hes as [He Hes]. specialize (Hrule e He) as Hr.
    cbn [fmap list_fmap collect_rules].
    assert (Hidx : vector_index (entry_words e) 1 s t = Ok (default "" (entry_words e !! 1%nat)) s t)
      by (by destruct e).
    erewrite bind_Ok by exact Hidx. cbn [omap list_omap] in Htotal |- *.
    destruct (rule_of e) as [rule|].
    + destruct Hr as (Hop & Hmin & Hbuild). rewrite bool_decide_eq_true_2 by done.
      assert (Hlt : (s32 (Z.of_nat (length (entry_words e))) <? min_elements) = false).
      { apply Z.ltb_ge. destruct e; cbn in Hmin |- *; done. }
      rewrite Hlt. erewrite bind_Ok by exact Hbuild. cbn [length] in Htotal.
      replace (passed + 1 =? total) with false by (symmetry; apply Z.eqb_neq; lia).
      rewrite IH by (done || lia). cbn [length]. rewrite <- app_assoc. do 2 f_equal. lia.
    + rewrite bool_decide_eq_false_2 by done. by apply IH.
Qed.

(** The lines that configure an enforcement object. *)
Lemma build_enforcement {S} rule channel object (name : string) (values : list Z) operation (s : S) t :
  word 64 rule -> is_long channel -> is_long object -> Forall is_long values ->
  (name, operation, length values) ∈ [("init", 1, 2%nat); ("rate", 2, 1%nat)] ->
  build_enforcement_rule
    ([pretty rule; pretty channel; pretty object; "drl"; name] ++ (pretty <$> values)) s t =
  Ok (EnforcementRule.mk rule channel object operation values) s t.
Proof.
  intros Hr Hc Ho Hv Hname. rewrite !elem_of_cons, elem_of_nil in Hname.
  destruct Hname as [[= -> -> Hl]|[[= -> -> Hl]|[]]].
  - destruct values as [|v1 [|v2 [|]]]; try done. apply Forall_cons_1 in Hv as [Hv1 Hv].
    apply Forall_cons_1 in Hv as [Hv2 _]. unfold build_enforcement_rule.
    do 2 returns_next. change (convert_enforcement_operation (convert_object_type "drl") "init") with 1.
    erewrite bind_Ok; [by repeat returns_next|]. cbn [Z.eqb Pos.eqb]. by repeat returns_next.
  - destruct values as [|v1 [|]]; try done. apply Forall_cons_1 in Hv as [Hv1 _].
    unfold build_enforcement_rule.
    do 2 returns_next. change (convert_enforcement_operation (convert_object_type "drl") "rate") with 2.
    erewrite bind_Ok; [by repeat returns_next|]. cbn [Z.eqb Pos.eqb]. by repeat returns_next.
Qed.

Lemma build_refill {S} rule channel object values (s : S) t :
  word 64 rule -> is_long channel -> is_long object ->
  build_enforcement_rule
    ([pretty rule; pretty channel; pretty object; "drl"; "refill"] ++ values) s t =
  Ok (EnforcementRule.mk rule channel object 4 []) s t.
Proof.
  intros Hr Hc Ho. unfold build_enforcement_rule. do 2 returns_next.
  change (convert_enforcement_operation (convert_object_type "drl") "refill") with 4.
  erewrite bind_Ok; [by repeat returns_next|reflexivity].
Qed.

Lemma collect_enforcement {S} (s : S) t (lines : list (list string)) (rules : list EnforcementRule.t) :
  Forall2 (fun ws rule => build_enforcement_rule ws s t = Ok rule s t) lines rules ->
  forall enf_rules passed total, passed + Z.of_nat (length rules) < total ->
  collect_enforcement_rules lines enf_rules passed total s t =
  Ok (passed + Z.of_nat (length rules), enf_rules ++ rules) s t.
Proof.
  induction 1 as [|ws rule lines rules Hb _ IH]; intros enf_rules passed total Htotal.
  - cbn. by rewrite Z.add_0_r, app_nil_r.
  - cbn [collect_enforcement_rules]. erewrite bind_Ok by exact Hb. cbn [length] in *.
    replace (passed + 1 =? total) with false by (symmetry; apply Z.eqb_neq; lia).
    rewrite IH by lia. rewrite <- app_assoc. do 2 f_equal. lia.
Qed.

End Files.

Lemma read_entries (es : list Entry) :
  Forall entry_valid es -> Z.of_nat (length es) < int_max ->
  let file := print_lines (entry_words <$> es) in
  let p := RulesParser.make rules_housekeeping (Some file) in
  forall hsk_rules t,
  RulesParser.get_create_channel_rules hsk_rules (-1) p t =
    Ok (Z.of_nat (length (omap channel_rule es)), hsk_rules ++ omap channel_rule es) p t /\
  RulesParser.get_create_object_rules hsk_rules (-1) p t =
    Ok (Z.of_nat (length (omap object_rule es)), hsk_rules ++ omap object_rule es) p t.
Proof.
  intros Hes Hlen file p hsk_rules t.
  assert (Hp : p = RulesParser.mk rules_housekeeping (entry_words <$> es))
    by (by apply make_print, entries_plain).
  rewrite Hp. split.
  - unfold RulesParser.get_create_channel_rules. rewrite gets_bind.
    apply (collect_entries _ _ _ channel_rule _ _ es); [|done|].
    + intros e He. destruct e; [|done]. cbn [channel_rule]. split_and!; [done..|].
      by apply build_channel.
    + pose proof (length_omap_le channel_rule es).
      change (RulesParser.limit (-1)) with int_max. lia.
  - unfold RulesParser.get_create_object_rules. rewrite gets_bind.
    apply (collect_entries _ _ _ object_rule _ _ es); [|done|].
    + intros e He. destruct e; [done|]. cbn [object_rule]. split_and!; [done..|].
      by apply build_object.
    + pose proof (length_omap_le object_rule es).
      change (RulesParser.limit (-1)) with int_max. lia.
Qed.

(** C34.  What is written is read: of a file that lists channel and object
    entries, one a line, [get_create_channel_rules] gives the channel rules and
    [get_create_object_rules] the object rules, each in the order of the file
    with the numbers and the codes of the names as written, and counts them. *)
Theorem rules_file_roundtrip (es : list Entry) :
  Forall entry_valid es -> Z.of_nat (length es) < int_max ->
  let file := print_lines (entry_words <$> es) in
  let p := RulesParser.make rules_housekeeping (Some file) in
  forall hsk_rules t,
  RulesParser.get_create_channel_rules hsk_rules (-1) p t =
    Ok (Z.of_nat (length (omap channel_rule es)), hsk_rules ++ omap channel_rule es) p t /\
  RulesParser.get_create_object_rules hsk_rules (-1) p t =
    Ok (Z.of_nat (length (omap object_rule es)), hsk_rules ++ omap object_rule es) p t.
Proof. apply read_entries. Qed.

(** A configuration line: rule, channel and object, and what to configure. *)
Inductive Setting := init_setting (period rate : Z) | rate_setting (rate : Z) | refill_setting (period : Z).

Record ConfigurationLine := configuration_line {
  cl_rule : Z;
  cl_channel : Z;
  cl_object : Z;
  cl_setting : Setting;
}.

Definition setting_values (setting : Setting) : list Z :=
  match setting with
  | init_setting period rate => [period; rate]
  | rate_setting rate => [rate]
  | refill_setting period => [period]
  end.

Definition setting_name (setting : Setting) : string :=
  match setting with
  | init_setting _ _ => "init" | rate_setting _ => "rate" | refill_setting _ => "refill"
  end.

Definition configuration_words (line : ConfigurationLine) : list string :=
  [pretty (cl_rule line); pretty (cl_channel line); pretty (cl_object line); "drl";
   setting_name (cl_setting line)] ++ (pretty <$> setting_values (cl_setting line)).

Definition configuration_valid (line : ConfigurationLine) : Prop :=
  word 64 (cl_rule line) /\ is_long (cl_channel line) /\ is_long (cl_object line) /\
  Forall is_long (setting_values (cl_setting line)).

(** The rule that is read: the values of a refill setting are lost. *)
Definition configuration_rule (line : ConfigurationLine) : EnforcementRule.t :=
  let '(operation, values) :=
    match cl_setting line with
    | init_setting period rate => (1, [period; rate])
    | rate_setting rate => (2, [rate])
    | refill_setting _ => (4, [])
    end in
  EnforcementRule.mk (cl_rule line) (cl_channel line) (cl_object line) operation values.

Lemma configuration_words_plain line : Forall plain (configuration_words line).
Proof.
  unfold configuration_words. apply Forall_app. split.
  - repeat apply Forall_cons_2; try apply pretty_plain; [..|apply Forall_nil_2];
      apply plain_const; [done|]. by destruct (cl_setting line).
  - apply Forall_fmap, Forall_forall. intros x _. apply pretty_plain.
Qed.

Lemma build_configuration {S} line (s : S) t : configuration_valid line ->
  RulesParser.build_enforcement_rule (configuration_words line) s t =
  Ok (configuration_rule line) s t.
Proof.
  destruct line as [rule channel object []]; unfold configuration_valid;
    cbn [cl_rule cl_channel cl_object cl_setting]; intros (Hr & Hc & Ho & Hv);
    unfold configuration_words, configuration_rule;
    cbn [cl_rule cl_channel cl_object cl_setting setting_name setting_values].
  - apply build_enforcement; try done. apply list_elem_of_here.
  - apply build_enforcement; try done. apply list_elem_of_further, list_elem_of_here.
  - by apply build_refill.
Qed.

Lemma read_configurations (lines : list ConfigurationLine) :
  Forall configuration_valid lines -> Z.of_nat (length lines) < int_max ->
  let p := RulesParser.make rules_enforcement (Some (print_lines (configuration_words <$> lines))) in
  forall enf_rules t,
  RulesParser.get_enforcement_rules enf_rules (-1) p t =
    Ok (Z.of_nat (length lines), enf_rules ++ (configuration_rule <$> lines)) p t.
Proof.
  intros Hlines Hlen p enf_rules t.
  assert (Hp : p = RulesParser.mk rules_enforcement (configuration_words <$> lines)).
  { apply make_print, Forall_fmap, Forall_forall. intros line _. apply configuration_words_plain. }
  rewrite Hp. unfold RulesParser.get_enforcement_rules. rewrite gets_bind.
  rewrite (collect_enforcement _ _ _ (configuration_rule <$> lines)).
  - by rewrite length_fmap.
  - apply Forall2_fmap_2, Forall_Forall2_diag. eapply Forall_impl; [|exact Hlines].
    intros line Hv. by apply build_configuration.
  - rewrite length_fmap. change (RulesParser.limit (-1)) with int_max. lia.
Qed.

(** A file of configuration lines is read line by line: [init] and [rate]
    settings come back with their values, a [refill] setting comes back with
    its code and no value. *)
Theorem enforcement_file_read (lines : list ConfigurationLine) :
  Forall configuration_valid lines -> Z.of_nat (length lines) < int_max ->
  let p := RulesParser.make rules_enforcement (Some (print_lines (configuration_words <$> lines))) in
  forall enf_rules t,
  RulesParser.get_enforcement_rules enf_rules (-1) p t =
    Ok (Z.of_nat (length lines), enf_rules ++ (configuration_rule <$> lines)) p t.
Proof. apply read_configurations. Qed.

(** What becomes of a [refill] line: the limiter that is configured with
    the rule read from it reads past the end of the vector, whatever its
    state. *)
Theorem refill_line_breaks_the_limiter (rule channel object period : Z) o n :
  word 64 rule -> is_long channel -> is_long object ->
  forall (s : RulesParser.t) t, exists r,
  RulesParser.build_enforcement_rule
    [pretty rule; pretty channel; pretty object; "drl"; "refill"; pretty period] s t = Ok r s t /\
  DynamicRateLimiter.obj_configure (EnforcementRule.m_operation_type r)
    (EnforcementRule.m_configurations r) o n =
    Crash (UndefinedBehaviour "vector index out of range").
Proof.
  intros Hr Hc Ho s t. exists (EnforcementRule.mk rule channel object 4 []).
  split; [|reflexivity]. exact (build_refill rule channel object [pretty period] s t Hr Hc Ho).
Qed.

(** The guard on object lines and what the line needs: below eight words
    the line is skipped, with eight or nine the rule is never built, for its
    properties are read past the end of the line, or an earlier word
    throws. *)
Theorem object_line_too_short (ws : list string) (hsk_rules : list HousekeepingRule.t) type t :
  ws !! 1%nat = Some "create_object" ->
  let p := RulesParser.mk type [ws] in
  if decide (length ws < 8)%nat
  then RulesParser.get_create_object_rules hsk_rules (-1) p t = Ok (0, hsk_rules) p t
  else (length ws < 10)%nat ->
       is_Ok (RulesParser.get_create_object_rules hsk_rules (-1) p t) = false.
Proof.
  intros Hname p. unfold RulesParser.get_create_object_rules. rewrite gets_bind.
  cbn [RulesParser.m_staged_rules p RulesParser.collect_rules Datatypes.id].
  assert (Hidx : vector_index ws 1 p t = Ok "create_object" p t).
  { unfold vector_index. cbn [decide]. change (Z.to_nat 1) with 1%nat. by rewrite Hname. }
  erewrite !bind_Ok by exact Hidx.
  rewrite bool_decide_eq_true_2 by reflexivity.
  assert (Hsize : (s32 (Z.of_nat (length ws)) <? RulesParser.m_create_object_rules_min_elements) =
                  bool_decide (length ws < 8)%nat \/ (10 <= length ws)%nat).
  { destruct (decide (length ws < 10)%nat) as [Hl|]; [left|right; lia].
    assert (s32 (Z.of_nat (length ws)) = Z.of_nat (length ws)) as -> by (unfold s32; rewrite Z.mod_small; lia).
    unfold RulesParser.m_create_object_rules_min_elements.
    case_bool_decide; [apply Z.ltb_lt|apply Z.ltb_ge]; lia. }
  destruct (decide (length ws < 8)%nat) as [Hl|Hl].
  - destruct Hsize as [->|]; [|lia]. by rewrite bool_decide_eq_true_2.
  - intros Hl10. destruct Hsize as [->|]; [|lia]. rewrite bool_decide_eq_false_2 by done.
    apply not_true_is_false. intros (rules & s & t' & Hrun)%is_Ok_inv.
    apply bind_Ok_inv in Hrun as (rule & s1 & t1 & Hrule & _).
    unfold RulesParser.build_create_object_rule in Hrule.
    do 7 apply bind_Ok_inv in Hrule as (? & ? & ? & _ & Hrule).
    apply bind_Ok_inv in Hrule as (? & ? & ? & _ & Hrule).
    apply bind_Ok_inv in Hrule as (? & ? & ? & Hpast & _).
    unfold vector_index in Hpast. cbn [decide] in Hpast.
    destruct (ws !! _) eqn:Hnine in Hpast; [|done].
    apply lookup_lt_Some in Hnine. lia.
Qed.

Lemma switch_hash_in {A} h (cases : list (string * A)) c :
  RulesParser.switch_hash h cases = Some c -> exists label, (label, c) ∈ cases.
Proof.
  induction cases as [|[label x] cases IH]; [done|]. cbn [RulesParser.switch_hash].
  destruct (h =? _).
  - intros [= ->]. exists label. apply list_elem_of_here.
  - intros (l & Hl)%IH. exists l. by apply list_elem_of_further.
Qed.

Lemma code_of_distinct names label code : hashes_distinct names = true -> (label, code) ∈ names ->
  code_of names label = Some code.
Proof.
  induction names as [|[l c] names IH]; [by intros _ ?%not_elem_of_nil|].
  cbn [hashes_distinct code_of]. intros [Hd Hds]%andb_true_iff [[= -> ->]|Hin]%elem_of_cons.
  - by rewrite bool_decide_eq_true_2.
  - rewrite bool_decide_eq_false_2; [by apply IH|]. intros ->. apply negb_true_iff in Hd.
    assert (existsb (fun p => RulesParser.hash l =? RulesParser.hash (fst p)) names = true); [|congruence].
    apply existsb_exists. exists (l, code). split; [by apply list_elem_of_In|apply Z.eqb_refl].
Qed.

(** The operations of the POSIX domain that a file can name are all but
    five: no string is converted to the code of [fdopen], [mknod], [mknodat],
    [mmap] or [munmap]. *)
Theorem posix_names_listed (op : POSIX_.t) :
  (exists name, forall (s : RulesParser.t) t,
     RulesParser.convert_posix_definitions name s t = Ok (POSIX_.code op) s t) <->
  op ∉ [POSIX_.fdopen; POSIX_.mknod; POSIX_.mknodat; POSIX_.mmap; POSIX_.munmap].
Proof.
  unfold RulesParser.convert_posix_definitions, RulesParser.convert_definitions. split.
  - intros [name Hname]. specialize (Hname RulesParser.make_default O).
    destruct (RulesParser.switch_hash _ _) as [c|] eqn:Hs; [|done]. injection Hname as ->.
    apply switch_hash_in in Hs as [label Hl].
    assert (Hin : POSIX_.code op ∈ snd <$> RulesParser.posix_cases).
    { apply list_elem_of_fmap. by exists (label, POSIX_.code op). }
    intros Hop. rewrite !elem_of_cons, elem_of_nil in Hop.
    destruct Hop as [->|[->|[->|[->|[->|[]]]]]]; revert Hin;
      apply (bool_decide_unpack (_ ∉ _)); vm_compute; exact I.
  - intros Hop. assert (Hin : POSIX_.code op ∈ snd <$> RulesParser.posix_cases).
    { destruct op; first [apply (bool_decide_unpack _); vm_compute; exact I
                         | exfalso; apply Hop; rewrite !elem_of_cons; tauto]. }
    apply list_elem_of_fmap in Hin as [[label c] [Hc Hin]]. simpl in Hc. subst c.
    exists label. intros s t.
    rewrite (switch_hash_code _ _ (POSIX_.code op)); [done|exact (names_hashes_distinct POSIX)|].
    apply code_of_distinct; [exact (names_hashes_distinct POSIX)|done].
Qed.

(** ** Concrete files *)

Definition sample_entries : list Entry :=
  [channel_entry 1 1000 PAIO_GENERAL 1000 "foreground" "high_priority";
   object_entry 5 1000 1 PAIO_GENERAL "foreground" "no_op" noop 0 0;
   channel_entry 2 (-2) POSIX 4 "mkdir" "no_op";
   object_entry 7 3000 1 KVS "put" "no_op" drl 10000 120000].

Definition sample_rules_file : string :=
  print_lines (entry_words <$> sample_entries).

Definition sample_parser : RulesParser.t := RulesParser.make rules_housekeeping (Some sample_rules_file).

Lemma rules_file_roundtrip_witness :
  RulesParser.get_create_channel_rules [] (-1) sample_parser O =
    Ok (2, omap channel_rule sample_entries) sample_parser O /\
  RulesParser.get_create_object_rules [] (-1) sample_parser O =
    Ok (2, omap object_rule sample_entries) sample_parser O.
Proof.
  refine (rules_file_roundtrip sample_entries _ _ [] O); [|reflexivity].
  repeat apply Forall_cons_2; try apply Forall_nil_2; cbn [entry_valid];
    split_and!; solve [vm_compute; intuition discriminate | eexists; vm_compute; reflexivity].
Defined.

Definition sample_configuration : list ConfigurationLine :=
  [configuration_line 1 1000 1 (init_setting 10000 120000);
   configuration_line 2 1000 1 (rate_setting (-5));
   configuration_line 3 1000 1 (refill_setting 20000)].

Lemma enforcement_file_read_witness :
  let p := RulesParser.make rules_enforcement
             (Some (print_lines (configuration_words <$> sample_configuration))) in
  RulesParser.get_enforcement_rules [] (-1) p O =
  Ok (3, [EnforcementRule.mk 1 1000 1 1 [10000; 120000]; EnforcementRule.mk 2 1000 1 2 [-5];
          EnforcementRule.mk 3 1000 1 4 []]) p O.
Proof.
  refine (enforcement_file_read sample_configuration _ _ [] O); [|reflexivity].
  repeat apply Forall_cons_2; try apply Forall_nil_2; unfold configuration_valid; cbn;
    split_and!; repeat apply Forall_cons_2; try apply Forall_nil_2;
    vm_compute; intuition discriminate.
Defined.

Lemma refill_line_breaks_the_limiter_witness : exists r,
  RulesParser.build_enforcement_rule ["3"; "1000"; "1"; "drl"; "refill"; "20000"]
    RulesParser.make_default O = Ok r RulesParser.make_default O /\
  DynamicRateLimiter.obj_configure (EnforcementRule.m_operation_type r)
    (EnforcementRule.m_configurations r) sample_limiter O =
    Crash (UndefinedBehaviour "vector index out of range").
Proof.
  refine (refill_line_breaks_the_limiter 3 1000 1 20000 sample_limiter O _ _ _ _ O);
    vm_compute; intuition discriminate.
Defined.

Lemma object_line_too_short_witness :
  let p := RulesParser.mk rules_housekeeping
             [["5"; "create_object"; "1000"; "1"; "general"; "foreground"; "no_op"; "noop"]] in
  is_Ok (RulesParser.get_create_object_rules [] (-1) p O) = false.
Proof.
  refine (object_line_too_short
            ["5"; "create_object"; "1000"; "1"; "general"; "foreground"; "no_op"; "noop"]
            [] rules_housekeeping O eq_refl _).
  cbn. lia.
Defined.
