(* ===== verification/StageInfo.v ===== *)
(** * The identity of a stage

    [StageInfo] ([stage_info.cpp]) names the stage, its process, its host and
    its user, and serializes to the [StageInfoRaw] of the handshake, whose
    members are fixed arrays of characters.  The process environment is a
    parameter: what [getenv], [getpid], [gethostname] and [getlogin_r] answer. *)

From Stdlib Require Import Ascii.
From S2P Require Import Prelude MachineInt Options.

(** What the process is told by the C library: [gethostname] and [getlogin_r]
    give their return value and the text they leave in a buffer of the size
    asked for, nothing when the buffer holds no terminated string. *)
Class Process := {
  getenv : string -> option string;
  getpid : Z;
  getppid : Z;
  gethostname : Z -> Z * option string;
  getlogin_r : Z -> Z * option string;
  HOST_NAME_MAX : Z;
  LOGIN_NAME_MAX : Z;
}.

(** The text of a [char*]: up to the null character. *)
Fixpoint c_str (s : string) : string :=
  match s with
  | EmptyString => EmptyString
  | String c s => if bool_decide (c = "000"%char) then EmptyString else String c (c_str s)
  end.

Definition size (s : string) : Z := Z.of_nat (String.length s).

(** ** Arrays of characters *)

(** [std::strcpy] to an array: the characters, the null character and what the
    array held after it. *)
Definition strcpy {S} (array : list Ascii.ascii) (s : string) : M S (list Ascii.ascii) :=
  let text := String.list_ascii_of_string (c_str s) ++ ["000"%char] in
  if Z.of_nat (length array) <? Z.of_nat (length text)
  then crash_with (UndefinedBehaviour "strcpy past the end of the array")
  else mret (text ++ drop (length text) array).

(** The string an array holds. *)
Definition text_of (array : list Ascii.ascii) : string :=
  c_str (String.string_of_list_ascii array).

(** A [std::string] from a local buffer: undefined when nothing terminates it. *)
Definition string_of_buffer {S} (buffer : option string) : M S string :=
  match buffer with
  | Some s => mret (c_str s)
  | None => crash_with (UndefinedBehaviour "string from an uninitialized buffer")
  end.

Definition stage_name_max_size : Z := 200.
Definition stage_opt_max_size : Z := 50.

Record StageInfoRaw := mkStageInfoRaw {
  m_stage_name : list Ascii.ascii;        (* char[stage_name_max_size] *)
  m_stage_opt : list Ascii.ascii;         (* char[stage_opt_max_size] *)
  raw_pid : Z;                            (* int *)
  raw_ppid : Z;                           (* int *)
  m_stage_hostname : list Ascii.ascii;    (* char[HOST_NAME_MAX] *)
  m_stage_login_name : list Ascii.ascii;  (* char[LOGIN_NAME_MAX] *)
}.

Definition zeros (n : Z) : list Ascii.ascii := replicate (Z.to_nat n) "000"%char.

Definition default_StageInfoRaw `{Process} : StageInfoRaw :=
  mkStageInfoRaw (zeros stage_name_max_size) (zeros stage_opt_max_size) (-1) (-1)
    (zeros HOST_NAME_MAX) (zeros LOGIN_NAME_MAX).

Module StageInfo.

Record t := mk {
  m_name : string;
  m_opt : string;
  m_description : string;
  m_pid : Z;              (* pid_t *)
  m_ppid : Z;             (* pid_t *)
  m_hostname : string;
  m_login_name : string;
}.

Section Environment.
Context `{Process}.

Definition option_environment_variable_name : string := "paio_stage_name".
Definition option_environment_variable_opt : string := "paio_stage_opt".
Definition option_default_data_plane_stage_name : string := "paio-stage".

Definition set_name : string :=
  match getenv option_environment_variable_name with
  | Some name => c_str name
  | None => option_default_data_plane_stage_name
  end.

Definition set_opt : string :=
  match getenv option_environment_variable_opt with
  | Some opt => c_str opt
  | None => ""
  end.

Definition set_hostname {S} : M S string :=
  let '(return_value, hostname) := gethostname HOST_NAME_MAX in
  if return_value =? -1 then mret "" else string_of_buffer hostname.

Definition set_login_name {S} : M S string :=
  let '(return_value, username) := getlogin_r LOGIN_NAME_MAX in
  if return_value =? -1 then mret "" else string_of_buffer username.

(** The members in the order of their initializers. *)
Definition make_default {S} : M S t :=
  let name := set_name in
  let opt := set_opt in
  hostname ← set_hostname;
  login_name ← set_login_name;
  mret (mk name opt "" getpid getppid hostname login_name).

Definition make {S} (stage_name : string) : M S t :=
  let opt := set_opt in
  hostname ← set_hostname;
  login_name ← set_login_name;
  mret (mk stage_name opt "" getpid getppid hostname login_name).

Definition set_description (description : string) (i : t) : t :=
  mk (m_name i) (m_opt i) description (m_pid i) (m_ppid i) (m_hostname i) (m_login_name i).

(** The exception of a text longer than its array. *)
Definition oversized (what : string) (limit : Z) : exn :=
  OutOfRange ("StageInfo's " +:+ what +:+ " is larger than " +:+ pretty limit +:+ " bytes.").

(** The checks that [serialize] makes before it copies a member. *)
Definition serialize_text {S} (what : string) (limit : Z) (text : string) (array : list Ascii.ascii) :
    M S (list Ascii.ascii) :=
  if negb (bool_decide (text = "")) then
    if limit <? size text then throw (oversized what limit)
    else strcpy array text
  else strcpy array "".

Definition serialize {S} (handshake_obj : StageInfoRaw) (i : t) : M S StageInfoRaw :=
  if stage_name_max_size <? size (m_name i) then throw (oversized "name" stage_name_max_size)
  else
    name ← strcpy (m_stage_name handshake_obj) (m_name i);
    opt ← serialize_text "opt" stage_opt_max_size (m_opt i) (m_stage_opt handshake_obj);
    hostname ← serialize_text "hostname" HOST_NAME_MAX (m_hostname i)
                 (m_stage_hostname handshake_obj);
    login_name ← serialize_text "login name" LOGIN_NAME_MAX (m_login_name i)
                   (m_stage_login_name handshake_obj);
    mret (mkStageInfoRaw name opt (m_pid i) (m_ppid i) hostname login_name).

End Environment.

End StageInfo.

(** ** Round trip *)

Section Serialization.
Context `{Process}.

(** A string that has no null character inside. *)
Definition terminated (s : string) : Prop := c_str s = s.

Definition fits (i : StageInfo.t) : Prop :=
  size (StageInfo.m_name i) < stage_name_max_size /\
  size (StageInfo.m_opt i) < stage_opt_max_size /\
  size (StageInfo.m_hostname i) < HOST_NAME_MAX /\
  size (StageInfo.m_login_name i) < LOGIN_NAME_MAX.

Definition texts (i : StageInfo.t) : list string :=
  [StageInfo.m_name i; StageInfo.m_opt i; StageInfo.m_hostname i; StageInfo.m_login_name i].

Lemma length_list_ascii s : length (String.list_ascii_of_string s) = String.length s.
Proof. induction s as [|c s IH]; [done|]. simpl. by rewrite IH. Qed.

Lemma c_str_app s rest : terminated s ->
  c_str (String.string_of_list_ascii (String.list_ascii_of_string s ++ "000"%char :: rest)) = s.
Proof.
  unfold terminated. induction s as [|c s IH]; [done|]. cbn [c_str].
  case_bool_decide as Hc; [done|]. intros [= Hs]. simpl.
  rewrite bool_decide_eq_false_2 by done. f_equal. by apply IH.
Qed.

Lemma strcpy_fits {S} array s (st : S) n :
  terminated s -> size s < Z.of_nat (length array) ->
  exists array', strcpy array s st n = Ok array' st n /\ text_of array' = s /\
    length array' = length array.
Proof.
  intros Hs Hsize. unfold strcpy. rewrite Hs.
  rewrite length_app, length_list_ascii. cbn [length]. unfold size in Hsize.
  assert ((Z.of_nat (length array) <? Z.of_nat (String.length s + 1)) = false) as ->
    by (apply Z.ltb_ge; lia).
  eexists. split; [reflexivity|]. split.
  - unfold text_of. rewrite <- app_assoc. by apply c_str_app.
  - rewrite !length_app, length_drop, length_list_ascii. cbn [length]. lia.
Qed.

Lemma serialize_text_fits {S} what limit array s (st : S) n :
  terminated s -> size s < limit -> Z.of_nat (length array) = limit ->
  exists array', StageInfo.serialize_text what limit s array st n = Ok array' st n /\
    text_of array' = s /\ length array' = length array.
Proof.
  intros Hs Hsize Hl. unfold StageInfo.serialize_text.
  destruct (bool_decide (s = "")) eqn:He; cbn [negb].
  - apply bool_decide_eq_true in He. rewrite He in *. apply strcpy_fits; [done|lia].
  - rewrite (proj2 (Z.ltb_ge limit (size s))) by lia. apply strcpy_fits; [done|lia].
Qed.

End Serialization.

(** C36.  The handshake carries the identity of the stage: when every text is
    shorter than its array, [serialize] fills the arrays so that each reads
    back as the text, and copies the process identifiers. *)
Theorem serialize_roundtrip `{Process} {S} (i : StageInfo.t) (st : S) n :
  fits i -> Forall terminated (texts i) -> 0 <= HOST_NAME_MAX -> 0 <= LOGIN_NAME_MAX ->
  exists raw, StageInfo.serialize default_StageInfoRaw i st n = Ok raw st n /\
    text_of (m_stage_name raw) = StageInfo.m_name i /\
    text_of (m_stage_opt raw) = StageInfo.m_opt i /\
    text_of (m_stage_hostname raw) = StageInfo.m_hostname i /\
    text_of (m_stage_login_name raw) = StageInfo.m_login_name i /\
    raw_pid raw = StageInfo.m_pid i /\ raw_ppid raw = StageInfo.m_ppid i.
Proof.
  intros (Hn & Ho & Hh & Hl) Htexts Hhmax Hlmax. unfold texts in Htexts.
  repeat (apply Forall_cons_1 in Htexts as [? Htexts]).
  assert (Hzeros : forall k, 0 <= k -> Z.of_nat (length (zeros k)) = k)
    by (intros; unfold zeros; rewrite length_replicate; lia).
  destruct (strcpy_fits (zeros stage_name_max_size) (StageInfo.m_name i) st n)
    as (name & Hname & ? & _); [done|by rewrite Hzeros|].
  destruct (serialize_text_fits "opt" stage_opt_max_size
              (zeros stage_opt_max_size) (StageInfo.m_opt i) st n)
    as (opt & Hopt & ? & _); [done..|].
  destruct (serialize_text_fits "hostname" HOST_NAME_MAX
              (zeros HOST_NAME_MAX) (StageInfo.m_hostname i) st n)
    as (hostname & Hhost & ? & _); [done|done|by apply Hzeros|].
  destruct (serialize_text_fits "login name" LOGIN_NAME_MAX
              (zeros LOGIN_NAME_MAX) (StageInfo.m_login_name i) st n)
    as (login & Hlogin & ? & _); [done|done|by apply Hzeros|].
  unfold StageInfo.serialize. rewrite (proj2 (Z.ltb_ge _ _)) by lia.
  erewrite !bind_Ok by eassumption. by eexists.
Qed.

(** The bounds that [serialize] checks leave room for the characters and
    not for the null character: a name of exactly 200 characters is copied past
    the end of its array, a longer one throws. *)
Theorem serialize_name_bound `{Process} {S} (i : StageInfo.t) raw (st : S) n :
  Z.of_nat (length (m_stage_name raw)) = stage_name_max_size -> terminated (StageInfo.m_name i) ->
  (size (StageInfo.m_name i) = stage_name_max_size ->
   StageInfo.serialize raw i st n = Crash (UndefinedBehaviour "strcpy past the end of the array")) /\
  (stage_name_max_size < size (StageInfo.m_name i) ->
   StageInfo.serialize raw i st n = Raise (StageInfo.oversized "name" stage_name_max_size) st n).
Proof.
  intros Hraw Hterm. unfold StageInfo.serialize. split; intros Hsize.
  - rewrite (proj2 (Z.ltb_ge _ _)) by lia. apply bind_Crash. unfold strcpy.
    rewrite Hterm, length_app, length_list_ascii. cbn [length]. unfold size in Hsize.
    by rewrite (proj2 (Z.ltb_lt _ _)) by lia.
  - by rewrite (proj2 (Z.ltb_lt _ _)).
Qed.

(** [getlogin_r] reports a failure with the error number, which is positive, not with -1:
    when it fails and leaves the buffer without a string, a stage cannot be
    constructed, its login name is read from the uninitialized buffer. *)
Theorem login_failure_is_read `{Process} {S} stage_name hostname error (st : S) n :
  gethostname HOST_NAME_MAX = (0, Some hostname) ->
  getlogin_r LOGIN_NAME_MAX = (error, None) -> 0 < error ->
  StageInfo.make stage_name st n =
    Crash (UndefinedBehaviour "string from an uninitialized buffer").
Proof.
  intros Hhost Hlogin Herror. unfold StageInfo.make, StageInfo.set_hostname, StageInfo.set_login_name.
  rewrite Hhost, Hlogin. erewrite bind_Ok by reflexivity. apply bind_Crash.
  by rewrite (proj2 (Z.eqb_neq _ _)) by lia.
Qed.

(** ** A process *)

Definition sample_process : Process := {|
  getenv variable := if bool_decide (variable = "paio_stage_opt") then Some "rocksdb" else None;
  getpid := 4000;
  getppid := 1;
  gethostname limit := (0, Some "node-1");
  getlogin_r limit := (0, Some "paio");
  HOST_NAME_MAX := 64;
  LOGIN_NAME_MAX := 256;
|}.

(** A daemon, without a controlling terminal: [ENXIO]. *)
Definition sample_daemon : Process := {|
  getenv variable := None;
  getpid := 4000;
  getppid := 1;
  gethostname limit := (0, Some "node-1");
  getlogin_r limit := (6, None);
  HOST_NAME_MAX := 64;
  LOGIN_NAME_MAX := 256;
|}.

Definition sample_info : StageInfo.t :=
  StageInfo.mk "stage" "rocksdb" "" 4000 1 "node-1" "paio".

Lemma serialize_roundtrip_witness :
  exists raw, @StageInfo.serialize sample_process unit (@default_StageInfoRaw sample_process) sample_info
      tt O = Ok raw tt O /\
    text_of (m_stage_name raw) = "stage" /\ text_of (m_stage_opt raw) = "rocksdb" /\
    text_of (m_stage_hostname raw) = "node-1" /\ text_of (m_stage_login_name raw) = "paio" /\
    raw_pid raw = 4000 /\ raw_ppid raw = 1.
Proof.
  refine (@serialize_roundtrip sample_process unit sample_info tt O _ _ _ _).
  - unfold fits. split_and!; reflexivity.
  - repeat apply Forall_cons_2; try apply Forall_nil_2; reflexivity.
  - discriminate.
  - discriminate.
Defined.

Lemma serialize_name_bound_witness :
  @StageInfo.serialize sample_process unit (@default_StageInfoRaw sample_process)
    (StageInfo.mk (String.string_of_list_ascii (replicate 200 "x"%char)) "" "" 0 0 "" "") tt O =
  Crash (UndefinedBehaviour "strcpy past the end of the array").
Proof.
  refine (proj1 (@serialize_name_bound sample_process unit
    (StageInfo.mk (String.string_of_list_ascii (replicate 200 "x"%char)) "" "" 0 0 "" "")
    (@default_StageInfoRaw sample_process) tt O _ _) _); vm_compute; reflexivity.
Defined.

Lemma login_failure_is_read_witness :
  @StageInfo.make sample_daemon unit "stage" tt O =
  Crash (UndefinedBehaviour "string from an uninitialized buffer").
Proof.
  refine (@login_failure_is_read sample_daemon unit "stage" "node-1" 6 tt O _ _ _); reflexivity.
Defined.
