(* ===== verification/Logging.v ===== *)
(** * The log

    [Logging] ([logging.hpp], [logging.cpp]): static members, the constructors, and
    the four qualifiers.  The library is built to be preloaded, so messages go to a
    descriptor with the [write] of the next library, not through spdlog.  The calls
    of the system and of spdlog are recorded; what [open] and [write] return, and
    the text of the local time, are parameters, and so is the process. *)

From stdpp Require Import pretty.
From S2P Require Import Prelude StageInfo.

Module Logging.

Inductive Level := level_info | level_warn | level_error | level_debug.

#[export] Instance Level_eq_dec : EqDecision Level.
Proof. solve_decision. Defined.

Inductive Event :=
| opened (path : string)                       (* open (O_CREAT | O_WRONLY | O_APPEND, 0666) *)
| wrote (fd : Z) (message : string)
| spdlog_set_level (level : Level)
| spdlog_log (level : Level) (message : string)
| printed_error (message : string)             (* perror *)
| printed (message : string).                  (* fprintf (stderr) *)

(** The static members, and the events so far. *)
Record t := mk {
  m_debug_enabled : bool;
  m_is_ld_preloaded : bool;
  m_fd : Z;
  m_dl_handle : option string;                 (* RTLD_NEXT, None for nullptr *)
  m_log_file_path : string;
  events : list Event;
}.

Definition STDOUT_FILENO : Z := 1.

Definition start : t := mk true true STDOUT_FILENO None "/tmp/paio" [].

Definition set_debug_enabled (value : bool) (l : t) : t :=
  mk value (m_is_ld_preloaded l) (m_fd l) (m_dl_handle l) (m_log_file_path l) (events l).
Definition set_fd (fd : Z) (l : t) : t :=
  mk (m_debug_enabled l) (m_is_ld_preloaded l) fd (m_dl_handle l) (m_log_file_path l) (events l).
Definition set_dl_handle (handle : option string) (l : t) : t :=
  mk (m_debug_enabled l) (m_is_ld_preloaded l) (m_fd l) handle (m_log_file_path l) (events l).
Definition record (event : Event) (l : t) : t :=
  mk (m_debug_enabled l) (m_is_ld_preloaded l) (m_fd l) (m_dl_handle l) (m_log_file_path l)
    (events l ++ [event]).

(** The system: what [open] returns, what the [write] after so many events returns, and
    the local time as [%F %T] after so many events. *)
Class LogSystem := {
  log_open : string -> Z;
  log_write : nat -> Z -> string -> Z;
  local_time : nat -> string;
}.

Section Calls.
Context `{Process} `{LogSystem}.

Definition add (event : Event) : M t unit := modify (record event).

Definition set_debug (debug : bool) : M t unit :=
  if debug then
    _ ← add (spdlog_set_level level_debug);
    modify (set_debug_enabled true)
  else mret tt.

Definition create_file_name (file_name : string) : string :=
  if bool_decide (file_name = "") then ""
  else file_name +:+ "-" +:+ pretty getpid +:+ ".log".

Definition initialize : M t unit :=
  debug ← gets m_debug_enabled;
  _ ← (if debug : bool then add (spdlog_set_level level_debug) else mret tt);
  preloaded ← gets m_is_ld_preloaded;
  if preloaded : bool then
    _ ← modify (set_dl_handle (Some "RTLD_NEXT"));
    path ← gets m_log_file_path;
    if bool_decide (path = "") then mret tt
    else
      let file_name := create_file_name path in
      _ ← add (opened file_name);
      let fd := log_open file_name in
      _ ← modify (set_fd fd);
      if fd =? -1 then
        _ ← add (printed_error "Log::Error in initialize");
        modify (set_fd STDOUT_FILENO)
      else mret tt
  else mret tt.

(** The constructors; the second one does not use its argument. *)
Definition make : M t unit := initialize.
Definition make_debug (debug : bool) : M t unit := initialize.

Definition create_formatted_message (message level : string) : M t string :=
  l ← gets id;
  mret ("[" +:+ local_time (length (events l)) +:+ "] " +:+ level +:+ " " +:+ message +:+
        String (Ascii.ascii_of_nat 10) "").

Definition qualifier (level : Level) : string :=
  match level with
  | level_info => "[paio:info] "
  | level_warn => "[paio:warn] "
  | level_error => "[paio:error] "
  | level_debug => "[paio:debug] "
  end.

Definition create_formatted_info_message (message : string) : M t string :=
  create_formatted_message message (qualifier level_info).
Definition create_formatted_warn_message (message : string) : M t string :=
  create_formatted_message message (qualifier level_warn).
Definition create_formatted_error_message (message : string) : M t string :=
  create_formatted_message message (qualifier level_error).
Definition create_formatted_debug_message (message : string) : M t string :=
  create_formatted_message message (qualifier level_debug).

Definition dlsym_write_message (message : string) : M t Z :=
  l ← gets id;
  _ ← add (wrote (m_fd l) message);
  mret (log_write (length (events l)) (m_fd l) message).

Definition error_text (level : Level) : string :=
  match level with
  | level_info => "Log::Error on log_info"
  | level_warn => "Log::Error on log_warn"
  | level_error => "Log::Error on log_error"
  | level_debug => "Log::Error on log_debug"
  end.

(** The body that the four qualifiers have. *)
Definition log_with (level : Level) (create : string -> M t string) (message : string) : M t unit :=
  preloaded ← gets m_is_ld_preloaded;
  if preloaded : bool then
    msg ← create message;
    return_value ← dlsym_write_message msg;
    if return_value <? 0 then add (printed_error (error_text level)) else mret tt
  else add (spdlog_log level message).

Definition log_info : string -> M t unit := log_with level_info create_formatted_info_message.
Definition log_warn : string -> M t unit := log_with level_warn create_formatted_warn_message.
Definition log_error : string -> M t unit := log_with level_error create_formatted_error_message.
Definition log_debug : string -> M t unit := log_with level_debug create_formatted_debug_message.

Definition log_debug_explicit (message : string) : M t unit :=
  log_message ← create_formatted_message message "[paio:debug_explicit]";
  debug ← gets m_debug_enabled;
  if debug : bool then add (printed log_message) else mret tt.

Definition is_debug_enabled (l : t) : bool := m_debug_enabled l.

End Calls.

End Logging.

(** ** Programs that log *)

Import Logging.

Inductive log_call :=
| Construct
| ConstructWith (debug : bool)
| SetDebug (debug : bool)
| LogMessage (level : Level) (message : string)
| LogExplicit (message : string).

Section Programs.
Context `{Process} `{LogSystem}.

Definition log_message (level : Level) : string -> M t unit :=
  match level with
  | level_info => log_info
  | level_warn => log_warn
  | level_error => log_error
  | level_debug => log_debug
  end.

Definition run_log (call : log_call) : M t unit :=
  match call with
  | Construct => make
  | ConstructWith debug => make_debug debug
  | SetDebug debug => set_debug debug
  | LogMessage level message => log_message level message
  | LogExplicit message => log_debug_explicit message
  end.

Fixpoint run_logs (calls : list log_call) : M t unit :=
  match calls with
  | [] => mret tt
  | call :: calls => _ ← run_log call; run_logs calls
  end.

Definition log_all (messages : list (Level * string)) : M t unit :=
  run_logs ((fun '(level, message) => LogMessage level message) <$> messages).

End Programs.

(** What the calls of [write] are given for a descriptor. *)
Fixpoint written (fd : Z) (events : list Event) : string :=
  match events with
  | [] => ""
  | wrote fd' message :: events => if fd' =? fd then message +:+ written fd events else written fd events
  | _ :: events => written fd events
  end.

(** ** Reading a log back *)

Fixpoint strip (prefix s : string) : option string :=
  match prefix, s with
  | "", _ => Some s
  | String a prefix, String b s => if bool_decide (a = b) then strip prefix s else None
  | String _ _, "" => None
  end.

Fixpoint skip (n : nat) (s : string) : string :=
  match n, s with
  | S n, String _ s => skip n s
  | _, _ => s
  end.

Definition newline : Ascii.ascii := Ascii.ascii_of_nat 10.

(** The lines of a text; what follows the last newline is not a line. *)
Fixpoint lines_of (s line : string) : list string :=
  match s with
  | "" => []
  | String c s =>
      if bool_decide (c = newline) then line :: lines_of s ""
      else lines_of s (line +:+ String c "")
  end.

Definition time_length : nat := 19.

Definition levels : list Level := [level_info; level_warn; level_error; level_debug].

(** The level and the message of a line: after the time between brackets, the
    qualifier that is a prefix of the rest. *)
Definition parse_line (line : string) : option (Level * string) :=
  let rest := skip (1 + time_length + 2) line in
  list_find (fun level => is_Some (strip (qualifier level +:+ " ") rest)) levels ≫= fun '(_, level) =>
  strip (qualifier level +:+ " ") rest ≫= fun message => Some (level, message).

Definition read_log (s : string) : list (Level * string) := omap parse_line (lines_of s "").

Fixpoint no_newline (s : string) : bool :=
  match s with
  | "" => true
  | String c s => negb (bool_decide (c = newline)) && no_newline s
  end.

(** The text of a line, without its newline. *)
Definition line_of (time : string) (level : Level) (message : string) : string :=
  "[" +:+ time +:+ "] " +:+ qualifier level +:+ " " +:+ message.

Section Lemmas.
Context `{Process} `{LogSystem}.

Lemma app_assoc_string (a b c : string) : (a +:+ b) +:+ c = a +:+ b +:+ c.
Proof. induction a as [|x a IH]; [done|]. by apply (f_equal (String x)) in IH. Qed.

Lemma app_nil_string (a : string) : a +:+ "" = a.
Proof. induction a as [|x a IH]; [done|]. by apply (f_equal (String x)) in IH. Qed.

Lemma skip_app a b : skip (String.length a) (a +:+ b) = b.
Proof. induction a as [|x a IH]; [by destruct b|done]. Qed.

Lemma skip_plus n a b : skip (String.length a + n) (a +:+ b) = skip n b.
Proof. induction a as [|x a IH]; [done|]. exact IH. Qed.

(** No qualifier is a prefix of a line of another. *)
Lemma strip_qualifier level level' message :
  strip (qualifier level' +:+ " ") (qualifier level +:+ " " +:+ message) =
  if decide (level' = level) then Some message else None.
Proof. by destruct level, level'. Qed.

Lemma parse_line_of time level message : String.length time = time_length ->
  parse_line (line_of time level message) = Some (level, message).
Proof.
  intros Htime. unfold parse_line.
  assert (skip (1 + time_length + 2) (line_of time level message) = qualifier level +:+ " " +:+ message) as ->.
  { unfold line_of. change (skip (time_length + 2) (time +:+ "] " +:+ qualifier level +:+ " " +:+ message) =
      qualifier level +:+ " " +:+ message). rewrite <- Htime, skip_plus. done. }
  assert (exists i, list_find (fun level' => is_Some (strip (qualifier level' +:+ " ")
    (qualifier level +:+ " " +:+ message))) levels = Some (i, level)) as [i ->].
  { by destruct level; eexists. }
  cbn [mbind option_bind]. rewrite strip_qualifier. by rewrite decide_True.
Qed.

Lemma lines_of_line s rest : forall acc, no_newline s = true ->
  lines_of (s +:+ String newline rest) acc = (acc +:+ s) :: lines_of rest "".
Proof.
  induction s as [|c s IH]; intros acc Hs.
  - change ("" +:+ String newline rest) with (String newline rest). cbn [lines_of].
    by rewrite bool_decide_eq_true_2, app_nil_string.
  - apply andb_true_iff in Hs as [Hc Hs]. apply negb_true_iff, bool_decide_eq_false in Hc.
    change (String c s +:+ String newline rest) with (String c (s +:+ String newline rest)).
    cbn [lines_of]. rewrite bool_decide_eq_false_2, IH by done. f_equal.
    by rewrite app_assoc_string.
Qed.

Lemma no_newline_app a b : no_newline (a +:+ b) = no_newline a && no_newline b.
Proof.
  induction a as [|x a IH]; [done|]. change (String x a +:+ b) with (String x (a +:+ b)).
  cbn [no_newline]. by rewrite <- andb_assoc, IH.
Qed.

Lemma no_newline_line time level message :
  no_newline time = true -> no_newline message = true -> no_newline (line_of time level message) = true.
Proof.
  intros Ht Hm. unfold line_of. rewrite !no_newline_app, Ht, Hm. by destruct level.
Qed.

(** A message is one write to the descriptor of the log, a line that starts with
    the time, and an error message when the write fails. *)
Lemma log_message_run level message l n : m_is_ld_preloaded l = true ->
  log_message level message l n =
  Ok tt
    (mk (m_debug_enabled l) true (m_fd l) (m_dl_handle l) (m_log_file_path l)
       (events l ++ wrote (m_fd l) (line_of (local_time (length (events l))) level message +:+
                                     String newline "") ::
        (if log_write (length (events l)) (m_fd l)
              (line_of (local_time (length (events l))) level message +:+ String newline "") <? 0
         then [printed_error (error_text level)] else []))) n.
Proof.
  intros Hp.
  assert (Hlog : forall create, (forall msg l n, create msg l n = create_formatted_message msg (qualifier level) l n) ->
    log_with level create message l n = Ok tt
    (mk (m_debug_enabled l) true (m_fd l) (m_dl_handle l) (m_log_file_path l)
       (events l ++ wrote (m_fd l) (line_of (local_time (length (events l))) level message +:+
                                     String newline "") ::
        (if log_write (length (events l)) (m_fd l)
              (line_of (local_time (length (events l))) level message +:+ String newline "") <? 0
         then [printed_error (error_text level)] else []))) n).
  { intros create Hcreate. unfold log_with. rewrite gets_bind, Hp.
    rewrite (bind_Ok _ _ l n (line_of (local_time (length (events l))) level message +:+ String newline "") l n).
    - unfold dlsym_write_message, add, record, modify, mbind, M_bind, gets, mret, M_ret, Datatypes.id.
      cbn [m_fd events m_is_ld_preloaded m_debug_enabled m_dl_handle m_log_file_path]. rewrite Hp.
      destruct (_ <? 0); [|done]. do 2 f_equal. cbn [events].
      by rewrite <- app_assoc.
    - rewrite Hcreate. unfold create_formatted_message. rewrite gets_bind. unfold id, mret, M_ret.
      f_equal. unfold line_of. by rewrite !app_assoc_string. }
  destruct level; by apply Hlog.
Qed.

Definition plain_time : Prop :=
  forall k, String.length (local_time k) = time_length /\ no_newline (local_time k) = true.

Lemma read_log_line time level message rest : String.length time = time_length ->
  no_newline time = true -> no_newline message = true ->
  read_log ((line_of time level message +:+ String newline "") +:+ rest) =
  (level, message) :: read_log rest.
Proof.
  intros Hlen Ht Hm. rewrite app_assoc_string.
  change (String newline "" +:+ rest) with (String newline rest). unfold read_log.
  rewrite lines_of_line by (by apply no_newline_line). cbn [omap list_omap].
  change ("" +:+ line_of time level message) with (line_of time level message).
  by rewrite parse_line_of.
Qed.

Lemma log_all_run messages : plain_time -> forall l n, m_is_ld_preloaded l = true ->
  Forall (fun '(_, message) => no_newline message = true) messages ->
  exists l' logged, log_all messages l n = Ok tt l' n /\ m_fd l' = m_fd l /\
    events l' = events l ++ logged /\
    forall rest, read_log (written (m_fd l) logged +:+ rest) = messages ++ read_log rest.
Proof.
  intros Htime. induction messages as [|[level message] messages IH]; intros l n Hp Hm.
  - exists l, []. split; [done|]. split; [done|]. by rewrite app_nil_r.
  - apply Forall_cons_1 in Hm as [Hm Hms]. unfold log_all. cbn [fmap list_fmap run_logs run_log].
    rewrite (bind_Ok _ _ _ _ _ _ _ (log_message_run level message l n Hp)).
    set (line := line_of (local_time (length (events l))) level message +:+ String newline "").
    set (failed := if log_write _ _ line <? 0 then [printed_error (error_text level)] else []).
    edestruct (IH (mk (m_debug_enabled l) true (m_fd l) (m_dl_handle l) (m_log_file_path l)
      (events l ++ wrote (m_fd l) line :: failed)) n) as (l' & logged & Hrun & Hfd & Hev & Hread); [done..|].
    exists l', (wrote (m_fd l) line :: failed ++ logged). split; [exact Hrun|]. split; [exact Hfd|].
    split; [rewrite Hev; cbn [events]; by rewrite <- app_assoc|]. intros rest. cbn [written].
    rewrite Z.eqb_refl. assert (written (m_fd l) (failed ++ logged) = written (m_fd l) logged) as ->.
    { unfold failed. by destruct (_ <? 0). }
    unfold line at 1. rewrite (app_assoc_string _ (written _ _) rest). destruct (Htime (length (events l))).
    rewrite read_log_line by done. by rewrite Hread.
Qed.

End Lemmas.

(** ** Theorems *)

Section Theorems.
Context `{Process} `{LogSystem}.

(** C33.  The log can be read back: messages of any levels, without newlines in them, are
    given to [write], on the descriptor of the log, as lines from which the levels
    and the messages are recovered in their order, debug messages included whether
    the debug mode is enabled or not. *)
Theorem log_reads_back messages l n :
  plain_time -> m_is_ld_preloaded l = true ->
  Forall (fun '(_, message) => no_newline message = true) messages ->
  exists l' logged, log_all messages l n = Ok tt l' n /\ events l' = events l ++ logged /\
    read_log (written (m_fd l) logged) = messages.
Proof.
  intros Ht Hp Hm. destruct (log_all_run messages Ht l n Hp Hm) as (l' & logged & Hrun & _ & Hev & Hread).
  exists l', logged. split; [done|]. split; [done|]. specialize (Hread "").
  by rewrite app_nil_string, app_nil_r in Hread.
Qed.

(** Debug messages cannot be disabled: the mode is enabled from the start, and
    neither [set_debug] with [false] nor a constructor with [false] changes that.
    The descriptor is the one of the file, or the standard output. *)
Theorem debug_stays_enabled calls n :
  keeps (fun l => m_debug_enabled l = true /\
    (m_fd l = STDOUT_FILENO \/ m_fd l = log_open (create_file_name (m_log_file_path l))))
    (run_logs calls start n).
Proof.
  set (P := fun l : t => m_debug_enabled l = true /\
    (m_fd l = STDOUT_FILENO \/ m_fd l = log_open (create_file_name (m_log_file_path l)))).
  assert (Hs : P start) by (split; [done|by left]). revert Hs. generalize start as l. revert n.
  induction calls as [|call calls IH]; intros n l Hl; [done|]. cbn [run_logs].
  apply keeps_bind; [|intros [] l' n' Hl'; by apply IH].
  destruct l as [debug preloaded fd handle path evs], Hl as [Hd Hf]. cbn in Hd, Hf. subst debug.
  assert (Hinit : keeps P (initialize (mk true preloaded fd handle path evs) n)).
  { unfold initialize, add, modify, gets, mbind, M_bind, mret, M_ret. cbn.
    destruct preloaded; [|by split]. cbn. destruct (bool_decide (path = "")); [by split|]. cbn.
    destruct (log_open _ =? -1); (split; [done|]); [by left|by right]. }
  assert (Hlog : forall level create message,
    (forall m l n, create m l n = create_formatted_message m (qualifier level) l n) ->
    keeps P (log_with level create message (mk true preloaded fd handle path evs) n)).
  { intros level create message Hcreate. unfold log_with. rewrite gets_bind. cbn [m_is_ld_preloaded].
    destruct preloaded; [|by split]. unfold mbind, M_bind. rewrite Hcreate. cbn.
    unfold create_formatted_message, dlsym_write_message, add, modify, mbind, M_bind, gets, mret, M_ret. cbn.
    match goal with |- context [if ?b then _ else _] => destruct b end; by split. }
  destruct call as [|debug|debug|level message|message]; cbn [run_log].
  - exact Hinit.
  - exact Hinit.
  - by destruct debug.
  - destruct level; by apply Hlog.
  - by split.
Qed.

End Theorems.

(** ** Witness *)

(** A system whose first write fails. *)
Definition sample_log_system : LogSystem := {|
  log_open _ := 5;
  log_write k _ _ := if (k =? 0)%nat then -1 else 1;
  local_time _ := "2022-04-19 14:26:26";
|}.

Definition log_process : Process := {|
  getenv _ := None; getpid := 42; getppid := 1; gethostname _ := (0, Some "host");
  getlogin_r _ := (0, Some "user"); HOST_NAME_MAX := 64; LOGIN_NAME_MAX := 256;
|}.

Definition sample_messages : list (Level * string) :=
  [(level_info, "stage"); (level_error, "[paio:debug] "); (level_debug, "")].

Lemma log_reads_back_witness : exists l' logged,
  @log_all log_process sample_log_system sample_messages start O = Ok tt l' O /\
  read_log (written 1 logged) = sample_messages.
Proof.
  destruct (@log_reads_back log_process sample_log_system sample_messages start O) as (l' & logged & Hrun & _ & Hread).
  - by split.
  - reflexivity.
  - by repeat constructor.
  - exists l', logged. by split.
Defined.
