(* ===== verification/Agent.v ===== *)
(** * The agent of the stage

    [Agent] ([agent.cpp]) stands between the control plane and the core: it
    inserts and executes housekeeping rules, employs enforcement rules and
    collects statistics.  Without a controller it reads the rules from files
    when it is constructed, and then marks the stage as ready.  The core and
    the ready flag, which the code shares by pointer, are members of the
    model's agent, and the stage reaches them through it.  The file system is a
    parameter: the contents of the files that open. *)

From S2P Require Import Prelude MachineInt Binary64 Options Differentiation.
From S2P Require Import Rules TokenBucketStats TokenBucket EnforcementObjects.
From S2P Require Import ChannelStatistics Channel Core RulesParser StageInfo.

(** The contents of a file, or nothing when it does not open. *)
Class FileSystem := contents_of : string -> option string.

(** [std::map<long, ...>] as its entries in the order of the keys: [emplace]
    keeps the value of a key in use. *)
Fixpoint map_emplace {A} (key : Z) (value : A) (entries : list (Z * A)) : list (Z * A) :=
  match entries with
  | [] => [(key, value)]
  | (k, v) :: rest =>
      if key <? k then (key, value) :: entries
      else if key =? k then entries
      else (k, v) :: map_emplace key value rest
  end.

Module Agent.

Record t := mk {
  m_core : Core.t;                          (* shared_ptr<Core> *)
  m_ready : bool;                           (* shared_ptr<atomic<bool>> *)
  m_stage_identifier : StageInfo.t;         (* shared_ptr<StageInfo> *)
  m_housekeeping_rule_file : string;        (* fs::path *)
  m_differentiation_rule_file : string;     (* fs::path *)
  m_enforcement_rule_file : string;         (* fs::path *)
  m_execute_on_receive : bool;
}.

Definition set_core (core : Core.t) (a : t) : t :=
  mk core (m_ready a) (m_stage_identifier a) (m_housekeeping_rule_file a)
    (m_differentiation_rule_file a) (m_enforcement_rule_file a) (m_execute_on_receive a).
Definition set_ready (ready : bool) (a : t) : t :=
  mk (m_core a) ready (m_stage_identifier a) (m_housekeeping_rule_file a)
    (m_differentiation_rule_file a) (m_enforcement_rule_file a) (m_execute_on_receive a).
Definition set_execute_on_receive (value : bool) (a : t) : t :=
  mk (m_core a) (m_ready a) (m_stage_identifier a) (m_housekeeping_rule_file a)
    (m_differentiation_rule_file a) (m_enforcement_rule_file a) value.

Definition main_path : string := "../files/".
Definition option_default_housekeeping_rules_file_path : string :=
  main_path +:+ "default_housekeeping_rules_file".
Definition option_default_differentiation_rules_file_path : string :=
  main_path +:+ "default_differentiation_rules_file".
Definition option_default_enforcement_rules_file_path : string :=
  main_path +:+ "default_enforcement_rules_file".

(** A call on the core. *)
Definition on_core {A} (m : M Core.t A) : M t A := zoom m_core set_core m.

(** A call on a local parser. *)
Definition on_parser {A} (p : RulesParser.t) (m : M RulesParser.t A) : M t A :=
  zoom (fun _ => p) (fun _ a => a) m.

Definition mark_ready : M t unit := modify (set_ready true).
Definition mark_data_plane_stage_ready : M t unit := mark_ready.

Definition get_stage_name (a : t) : string := StageInfo.m_name (m_stage_identifier a).

Definition get_stage_info `{Process} (handshake_obj : StageInfoRaw) : M t StageInfoRaw :=
  a ← gets id;
  StageInfo.serialize handshake_obj (m_stage_identifier a).

Section Clock.
Context `{SystemClock} `{FileSystem}.
(** Fuel of the loops of the token buckets. *)
Context (fuel : nat).

Definition employ_housekeeping_rule (rule : HousekeepingRule.t) : M t PStatus :=
  status ← (match HousekeepingRule.m_rule_type rule with
            | hsk_create_channel | hsk_create_object => on_core (Core.insert_housekeeping_rule rule)
            | _ => throw (LogicError "Agent: unexpected HousekeepingRule type")
            end);
  if is_ok status then
    execute ← gets m_execute_on_receive;
    if execute : bool
    then on_core (Core.execute_housekeeping_rule fuel (HousekeepingRule.m_rule_id rule))
    else mret status
  else mret status.

(** [order] is the order in which the hash table lists its rules. *)
Definition execute_housekeeping_rules (order : list Z) : M t PStatus :=
  status ← on_core (Core.execute_housekeeping_rules fuel order);
  if negb (is_ok status) then mret PStatus_Error else mret status.

Definition employ_enforcement_rule (enforcement_rule : EnforcementRule.t) : M t PStatus :=
  on_core (Core.employ_enforcement_rule fuel (EnforcementRule.m_channel_id enforcement_rule)
    (EnforcementRule.m_enforcement_object_id enforcement_rule)
    (EnforcementRule.m_operation_type enforcement_rule)
    (EnforcementRule.m_configurations enforcement_rule)).

(** The loop over the rules the parser counted, with the last status. *)
Fixpoint employ_housekeeping_rules (rules : list HousekeepingRule.t) (status : PStatus) : M t PStatus :=
  match rules with
  | [] => mret status
  | rule :: rules =>
      status ← employ_housekeeping_rule rule;
      employ_housekeeping_rules rules status
  end.

Definition insert_housekeeping_rules_from_file (path : string) (total_rules : Z) : M t PStatus :=
  let status := PStatus_Error in
  if bool_decide (path = "") then mret status
  else
    let file_parser := RulesParser.make rules_housekeeping (contents_of path) in
    '(_, create_channel_rules) ←
      on_parser file_parser (RulesParser.get_create_channel_rules [] total_rules);
    status ← employ_housekeeping_rules create_channel_rules status;
    '(_, create_object_rules) ←
      on_parser file_parser (RulesParser.get_create_object_rules [] total_rules);
    employ_housekeeping_rules create_object_rules status.

(** Not implemented. *)
Definition insert_differentiation_rules_from_file (path : string) (total_rules : Z) : M t Z :=
  mret (-1).

(** The loop that employs the rules and counts those that succeed. *)
Fixpoint employ_enforcement_rules (rules : list EnforcementRule.t) (rules_enforced : Z) : M t Z :=
  match rules with
  | [] => mret rules_enforced
  | rule :: rules =>
      status ← employ_enforcement_rule rule;
      employ_enforcement_rules rules
        (if is_ok status then s32 (rules_enforced + 1) else rules_enforced)
  end.

Definition insert_enforcement_rules_from_file (path : string) (total_rules : Z) : M t Z :=
  if bool_decide (path = "") then mret (-1)
  else
    let file_parser := RulesParser.make rules_enforcement (contents_of path) in
    '(_, enforcement_rules) ←
      on_parser file_parser (RulesParser.get_enforcement_rules [] total_rules);
    employ_enforcement_rules enforcement_rules 0.

(** [collect_channel_statistics] of the channels from the [i]-th identifier on,
    [n] of them, until one fails. *)
Fixpoint collect_each_channel (channel_ids : list Z) (i : Z) (n : nat) (status : PStatus)
    (channel_stats : list ChannelStatsRaw) : M t (PStatus * list ChannelStatsRaw) :=
  match n with
  | O => mret (status, channel_stats)
  | S n =>
      channel_id ← vector_index channel_ids i;
      '(status, stats_raw) ←
        on_core (Core.collect_channel_statistics channel_id default_ChannelStatsRaw);
      if is_ok status
      then collect_each_channel channel_ids (i + 1) n status (channel_stats ++ [stats_raw])
      else mret (status, channel_stats)
  end.

(** The status, and the vector of the caller. *)
Definition collect_channel_statistics (channel_id : Z) (channel_stats : list ChannelStatsRaw) :
    M t (PStatus * list ChannelStatsRaw) :=
  if negb (channel_id =? -1) then
    '(status, channel_stats_obj) ←
      on_core (Core.collect_channel_statistics channel_id default_ChannelStatsRaw);
    mret (status, if is_ok status then channel_stats ++ [channel_stats_obj] else channel_stats)
  else
    c ← gets m_core;
    let total_channels := Core.get_total_channels c in
    if 0 <? total_channels then
      collect_each_channel (Core.get_channels_identifiers c []) 0 (Z.to_nat total_channels)
        PStatus_Error channel_stats
    else mret (PStatus_Error, channel_stats).

Fixpoint collect_each_channel_detailed (channel_ids : list Z) (i : Z) (n : nat) (status : PStatus)
    (detailed_channel_stats : list (Z * list double)) : M t (PStatus * list (Z * list double)) :=
  match n with
  | O => mret (status, detailed_channel_stats)
  | S n =>
      channel_id ← vector_index channel_ids i;
      '(status, single_channel_statistics) ←
        on_core (Core.collect_channel_statistics_detailed channel_id []);
      if is_ok status then
        collect_each_channel_detailed channel_ids (i + 1) n status
          (map_emplace channel_id single_channel_statistics detailed_channel_stats)
      else mret (status, detailed_channel_stats)
  end.

(** The status, and the map of the caller. *)
Definition collect_detailed_channel_statistics (channel_id : Z)
    (detailed_channel_stats : list (Z * list double)) : M t (PStatus * list (Z * list double)) :=
  if negb (channel_id =? -1) then
    '(status, detailed_stats) ← on_core (Core.collect_channel_statistics_detailed channel_id []);
    mret (status,
          if is_ok status then map_emplace channel_id detailed_stats detailed_channel_stats
          else detailed_channel_stats)
  else
    c ← gets m_core;
    let total_channels := Core.get_total_channels c in
    if 0 <? total_channels then
      collect_each_channel_detailed (Core.get_channels_identifiers c []) 0
        (Z.to_nat total_channels) PStatus_Error detailed_channel_stats
    else mret (PStatus_Error, detailed_channel_stats).

(** The traversal of the map of the caller, whose values are filled in: the
    entries left, and the ones done before them. *)
Fixpoint collect_each_object (entries : list (Z * Z * ObjectStatisticsRaw)) (status : PStatus)
    (collected : list (Z * Z * ObjectStatisticsRaw)) :
    M t (PStatus * list (Z * Z * ObjectStatisticsRaw)) :=
  match entries with
  | [] => mret (status, collected)
  | (channel_id, object_id, raw) :: entries =>
      '(status, raw) ←
        on_core (Core.collect_enforcement_object_statistics fuel channel_id object_id raw);
      let collected := collected ++ [(channel_id, object_id, raw)] in
      if is_error status then mret (status, collected ++ entries)
      else collect_each_object entries status collected
  end.

Definition collect_enforcement_object_statistics
    (object_stats_raw : list (Z * Z * ObjectStatisticsRaw)) :
    M t (PStatus * list (Z * Z * ObjectStatisticsRaw)) :=
  collect_each_object object_stats_raw PStatus_Error [].

(** The body of the constructors: without a controller, the rules of the files,
    and the stage is ready when the last housekeeping rule was employed. *)
Definition load_rules (communication_type : CommunicationType) (instances : Z) : M t unit :=
  match communication_type with
  | none =>
      a ← gets id;
      status ← insert_housekeeping_rules_from_file (m_housekeeping_rule_file a) instances;
      if is_ok status then
        _ ← insert_differentiation_rules_from_file (m_differentiation_rule_file a) (-1);
        _ ← insert_enforcement_rules_from_file (m_enforcement_rule_file a) (-1);
        mark_ready
      else mret tt
  | _ => mret tt
  end.

(** The constructors, as computations that end with the new agent as state. *)
Definition make_default `{Process} : M t unit :=
  info ← StageInfo.make "stage";
  _ ← modify (fun _ =>
        mk Core.make_default false info option_default_housekeeping_rules_file_path
          option_default_differentiation_rules_file_path option_default_enforcement_rules_file_path
          option_execute_rule_on_receive);
  load_rules option_default_communication_type (-1).

Definition make (communication_type : CommunicationType) (core : Core.t) (ready : bool)
    (instances : Z) (stage_identifier : StageInfo.t) : M t unit :=
  _ ← modify (fun _ =>
        mk core ready stage_identifier option_default_housekeeping_rules_file_path
          option_default_differentiation_rules_file_path option_default_enforcement_rules_file_path
          option_execute_rule_on_receive);
  load_rules communication_type instances.

Definition make_with_files (communication_type : CommunicationType) (core : Core.t) (ready : bool)
    (housekeeping_rules_file_path differentiation_rules_file_path enforcement_rules_file_path : string)
    (instances : Z) (stage_identifier : StageInfo.t) (execute_on_receive : bool) : M t unit :=
  _ ← modify (fun _ =>
        mk core ready stage_identifier housekeeping_rules_file_path differentiation_rules_file_path
          enforcement_rules_file_path execute_on_receive);
  load_rules communication_type instances.

End Clock.

End Agent.

(** ** What the agent keeps *)

(** The calls on the agent, from the control plane or from a file. *)
Inductive agent_call :=
| MarkReady
| SetExecuteOnReceive (value : bool)
| EmployHousekeepingRule (rule : HousekeepingRule.t)
| ExecutePendingRules (order : list Z)
| EmployEnforcement (rule : EnforcementRule.t)
| InsertHousekeepingFile (path : string) (total_rules : Z)
| InsertEnforcementFile (path : string) (total_rules : Z)
| CollectChannels (channel_id : Z) (stats : list ChannelStatsRaw)
| CollectDetailed (channel_id : Z) (stats : list (Z * list double))
| CollectObjects (stats : list (Z * Z * ObjectStatisticsRaw))
| LoadRules (communication_type : CommunicationType) (instances : Z).

Section Invariant.
Context `{SystemClock} `{FileSystem} (fuel : nat).

Definition run_agent (call : agent_call) : M Agent.t unit :=
  match call with
  | MarkReady => Agent.mark_data_plane_stage_ready
  | SetExecuteOnReceive value => modify (Agent.set_execute_on_receive value)
  | EmployHousekeepingRule rule => _ ← Agent.employ_housekeeping_rule fuel rule; mret tt
  | ExecutePendingRules order => _ ← Agent.execute_housekeeping_rules fuel order; mret tt
  | EmployEnforcement rule => _ ← Agent.employ_enforcement_rule fuel rule; mret tt
  | InsertHousekeepingFile path total_rules =>
      _ ← Agent.insert_housekeeping_rules_from_file fuel path total_rules; mret tt
  | InsertEnforcementFile path total_rules =>
      _ ← Agent.insert_enforcement_rules_from_file fuel path total_rules; mret tt
  | CollectChannels channel_id stats => _ ← Agent.collect_channel_statistics channel_id stats; mret tt
  | CollectDetailed channel_id stats =>
      _ ← Agent.collect_detailed_channel_statistics channel_id stats; mret tt
  | CollectObjects stats => _ ← Agent.collect_enforcement_object_statistics fuel stats; mret tt
  | LoadRules communication_type instances => Agent.load_rules fuel communication_type instances
  end.

Fixpoint run_agent_calls (calls : list agent_call) : M Agent.t unit :=
  match calls with
  | [] => mret tt
  | call :: calls => _ ← run_agent call; run_agent_calls calls
  end.

(** The core stays well formed, and a ready stage stays ready. *)
Definition sound (ready : bool) (a : Agent.t) : Prop :=
  core_well_formed (Agent.m_core a) /\ (ready = true -> Agent.m_ready a = true).

Lemma on_core_sound {A} (m : M Core.t A) ready a n :
  (forall c n, core_well_formed c -> keeps core_well_formed (m c n)) ->
  sound ready a -> keeps (sound ready) (Agent.on_core m a n).
Proof.
  intros Hm [Hc Hr]. apply (keeps_zoom core_well_formed); [by apply Hm|].
  intros c Hc'. by split.
Qed.

Lemma on_parser_sound {A} p (m : M RulesParser.t A) ready a n :
  sound ready a -> keeps (sound ready) (Agent.on_parser p m a n).
Proof.
  intros Ha. unfold Agent.on_parser, zoom. by destruct (m p n).
Qed.

(** The runs of the core that the agent makes. *)
Lemma run_core_sound {A} call (m : M Core.t A) ready a n :
  (forall c n, run_core fuel call c n = (m ≫= fun _ => mret tt) c n) ->
  sound ready a -> keeps (sound ready) (Agent.on_core m a n).
Proof.
  intros Hm. apply on_core_sound. intros c k Hc. apply keeps_unit. rewrite <- Hm.
  by apply run_core_well_formed.
Qed.

Lemma employ_rule_sound rule ready a n :
  sound ready a -> keeps (sound ready) (Agent.employ_housekeeping_rule fuel rule a n).
Proof.
  intros Ha. unfold Agent.employ_housekeeping_rule. apply keeps_bind.
  - destruct (HousekeepingRule.m_rule_type rule); try done;
      by apply (run_core_sound (InsertHousekeepingRule rule)).
  - intros status b k Hb. destruct (is_ok status); [|done]. rewrite gets_bind.
    destruct (Agent.m_execute_on_receive b); [|done].
    by apply (run_core_sound (ExecuteHousekeepingRule (HousekeepingRule.m_rule_id rule))).
Qed.

Lemma employ_rules_sound rules : forall status ready a n, sound ready a ->
  keeps (sound ready) (Agent.employ_housekeeping_rules fuel rules status a n).
Proof.
  induction rules as [|rule rules IH]; intros status ready a n Ha; [done|]. simpl.
  apply keeps_bind; [by apply employ_rule_sound|auto].
Qed.

Lemma housekeeping_file_sound path total ready a n : sound ready a ->
  keeps (sound ready) (Agent.insert_housekeeping_rules_from_file fuel path total a n).
Proof.
  intros Ha. unfold Agent.insert_housekeeping_rules_from_file.
  destruct (bool_decide _); [done|].
  apply keeps_bind; [by apply on_parser_sound|intros [? ?] b k Hb].
  apply keeps_bind; [by apply employ_rules_sound|intros ? b' k' Hb'].
  apply keeps_bind; [by apply on_parser_sound|intros [? ?] b2 k2 Hb2].
  by apply employ_rules_sound.
Qed.

Lemma employ_enforcement_sound rule ready a n : sound ready a ->
  keeps (sound ready) (Agent.employ_enforcement_rule fuel rule a n).
Proof.
  by apply (run_core_sound (EmployEnforcementRule (EnforcementRule.m_channel_id rule)
    (EnforcementRule.m_enforcement_object_id rule) (EnforcementRule.m_operation_type rule)
    (EnforcementRule.m_configurations rule))).
Qed.

Lemma enforcement_file_sound path total ready a n : sound ready a ->
  keeps (sound ready) (Agent.insert_enforcement_rules_from_file fuel path total a n).
Proof.
  intros Ha. unfold Agent.insert_enforcement_rules_from_file. destruct (bool_decide _); [done|].
  apply keeps_bind; [by apply on_parser_sound|intros [? rules] b k Hb].
  generalize 0 as count. revert b k Hb.
  induction rules as [|rule rules IH]; intros b k Hb count; [done|]. simpl.
  apply keeps_bind; [by apply employ_enforcement_sound|auto].
Qed.

Lemma collect_channels_sound ids k : forall i status stats ready a n, sound ready a ->
  keeps (sound ready) (Agent.collect_each_channel ids i k status stats a n).
Proof.
  induction k as [|k IH]; intros i status stats ready a n Ha; [done|]. simpl.
  apply keeps_bind; [by apply vector_index_keeps|intros id b j Hb].
  apply keeps_bind; [by apply (run_core_sound (CollectChannelStatistics id default_ChannelStatsRaw))|].
  intros [st raw] b' j' Hb'. destruct (is_ok st); [by apply IH|done].
Qed.

Lemma collect_channels_detailed_sound ids k : forall i status stats ready a n, sound ready a ->
  keeps (sound ready) (Agent.collect_each_channel_detailed ids i k status stats a n).
Proof.
  induction k as [|k IH]; intros i status stats ready a n Ha; [done|]. simpl.
  apply keeps_bind; [by apply vector_index_keeps|intros id b j Hb].
  apply keeps_bind; [by apply (run_core_sound (CollectChannelStatisticsDetailed id []))|].
  intros [st raw] b' j' Hb'. destruct (is_ok st); [by apply IH|done].
Qed.

Lemma collect_objects_sound entries : forall status collected ready a n, sound ready a ->
  keeps (sound ready) (Agent.collect_each_object fuel entries status collected a n).
Proof.
  induction entries as [|[[channel_id id] raw] entries IH]; intros status collected ready a n Ha; [done|].
  simpl. apply keeps_bind; [by apply (run_core_sound (CollectObjectStatistics channel_id id raw))|].
  intros [st raw'] b k Hb. destruct (is_error st); [done|by apply IH].
Qed.

Lemma run_agent_sound call ready a n : sound ready a -> keeps (sound ready) (run_agent call a n).
Proof.
  intros Ha. destruct call; cbn [run_agent]; try apply (proj2 (keeps_unit _ _ _ _)).
  - by destruct Ha.
  - done.
  - by apply employ_rule_sound.
  - apply keeps_bind; [by apply (run_core_sound (ExecuteHousekeepingRules order))|].
    intros st b k Hb. by destruct (negb _).
  - by apply employ_enforcement_sound.
  - by apply housekeeping_file_sound.
  - by apply enforcement_file_sound.
  - unfold Agent.collect_channel_statistics. destruct (negb _).
    + apply keeps_bind; [|by intros []].
      by apply (run_core_sound (CollectChannelStatistics channel_id default_ChannelStatsRaw)).
    + rewrite gets_bind. destruct (0 <? _); [by apply collect_channels_sound|done].
  - unfold Agent.collect_detailed_channel_statistics. destruct (negb _).
    + apply keeps_bind; [by apply (run_core_sound (CollectChannelStatisticsDetailed channel_id []))|by intros []].
    + rewrite gets_bind. destruct (0 <? _); [by apply collect_channels_detailed_sound|done].
  - by apply collect_objects_sound.
  - unfold Agent.load_rules. destruct communication_type; try done. rewrite gets_bind.
    apply keeps_bind; [by apply housekeeping_file_sound|intros st b k Hb].
    destruct (is_ok st); [|done]. apply keeps_bind; [done|intros ? b1 k1 Hb1].
    apply keeps_bind; [by apply enforcement_file_sound|intros ? b' k' [Hb' _]]. done.
Qed.

(** Whatever the control plane or the files ask of the agent, in any
    order, with errors and exceptions included: the core stays well formed, and
    a stage that is ready stays ready. *)
Theorem agent_invariant calls : forall a n, core_well_formed (Agent.m_core a) ->
  keeps (fun a' => core_well_formed (Agent.m_core a') /\
           (Agent.m_ready a = true -> Agent.m_ready a' = true)) (run_agent_calls calls a n).
Proof.
  intros a n Hc. change (keeps (sound (Agent.m_ready a)) (run_agent_calls calls a n)).
  assert (Ha : sound (Agent.m_ready a) a) by done.
  revert Ha. generalize (Agent.m_ready a) as ready. clear Hc. revert a n.
  induction calls as [|call calls IH]; intros a n ready Ha; [done|]. simpl.
  apply keeps_bind; [by apply run_agent_sound|auto].
Qed.

End Invariant.

(** ** Rules from files *)

Section Files.
Context `{SystemClock} `{FileSystem} (fuel : nat).

Lemma employ_rules_app rules1 rules2 : forall status a n,
  Agent.employ_housekeeping_rules fuel (rules1 ++ rules2) status a n =
  (status ← Agent.employ_housekeeping_rules fuel rules1 status;
   Agent.employ_housekeeping_rules fuel rules2 status) a n.
Proof.
  induction rules1 as [|rule rules1 IH]; intros status a n; [done|]. cbn [app].
  cbn [Agent.employ_housekeeping_rules]. unfold mbind, M_bind.
  destruct (Agent.employ_housekeeping_rule fuel rule a n); [apply IH|done..].
Qed.

Lemma on_parser_Ok {A} p (m : M RulesParser.t A) a n x n' :
  m p n = Ok x p n' -> Agent.on_parser p m a n = Ok x a n'.
Proof. intros Hm. unfold Agent.on_parser, zoom. by rewrite Hm. Qed.

(** The rules of a file of entries, in the order in which they are employed. *)
Definition rules_of_entries (es : list Entry) : list HousekeepingRule.t :=
  omap channel_rule es ++ omap object_rule es.

Lemma housekeeping_file_aux path es a n :
  path <> "" -> contents_of path = Some (print_lines (entry_words <$> es)) ->
  Forall entry_valid es -> Z.of_nat (length es) < int_max ->
  Agent.insert_housekeeping_rules_from_file fuel path (-1) a n =
  Agent.employ_housekeeping_rules fuel (rules_of_entries es) PStatus_Error a n.
Proof.
  intros Hpath Hfile Hes Hlen. unfold Agent.insert_housekeeping_rules_from_file.
  rewrite bool_decide_eq_false_2, Hfile by done.
  set (p := RulesParser.make _ _).
  rewrite (bind_Ok _ _ _ _ _ _ _ (on_parser_Ok _ _ a n _ _ (proj1 (read_entries es Hes Hlen [] n)))).
  unfold rules_of_entries. rewrite employ_rules_app. unfold mbind at 1 3, M_bind at 1 3.
  destruct (Agent.employ_housekeeping_rules fuel _ PStatus_Error a n) as [status b k| |]; [|done..].
  by rewrite (bind_Ok _ _ _ _ _ _ _ (on_parser_Ok _ _ b k _ _ (proj2 (read_entries es Hes Hlen [] k)))).
Qed.

Lemma enforcement_file_aux path lines a n :
  path <> "" -> contents_of path = Some (print_lines (configuration_words <$> lines)) ->
  Forall configuration_valid lines -> Z.of_nat (length lines) < int_max ->
  Agent.insert_enforcement_rules_from_file fuel path (-1) a n =
  Agent.employ_enforcement_rules fuel (configuration_rule <$> lines) 0 a n.
Proof.
  intros Hpath Hfile Hlines Hlen. unfold Agent.insert_enforcement_rules_from_file.
  rewrite bool_decide_eq_false_2, Hfile by done.
  by rewrite (bind_Ok _ _ _ _ _ _ _ (on_parser_Ok _ _ a n _ _ (read_configurations lines Hlines Hlen [] n))).
Qed.

Lemma files_loaded es lines a n :
  Agent.m_housekeeping_rule_file a <> "" -> Agent.m_enforcement_rule_file a <> "" ->
  contents_of (Agent.m_housekeeping_rule_file a) = Some (print_lines (entry_words <$> es)) ->
  contents_of (Agent.m_enforcement_rule_file a) =
    Some (print_lines (configuration_words <$> lines)) ->
  Forall entry_valid es -> Z.of_nat (length es) < int_max ->
  Forall configuration_valid lines -> Z.of_nat (length lines) < int_max ->
  Agent.load_rules fuel Options.none (-1) a n =
  (status ← Agent.employ_housekeeping_rules fuel (rules_of_entries es) PStatus_Error;
   if is_ok status then
     _ ← Agent.employ_enforcement_rules fuel (configuration_rule <$> lines) 0;
     Agent.mark_ready
   else mret tt) a n.
Proof.
  intros Hp1 Hp2 Hf1 Hf2 Hes Hes_len Hlines Hlines_len. cbn [Agent.load_rules].
  rewrite gets_bind. unfold Datatypes.id. unfold mbind at 1 4, M_bind at 1 4.
  rewrite (housekeeping_file_aux _ es) by done.
  destruct (Agent.employ_housekeeping_rules fuel _ PStatus_Error a n) as [status b k| |]; [|done..].
  destruct (is_ok status); [|done].
  unfold Agent.insert_differentiation_rules_from_file. rewrite ret_bind.
  unfold mbind, M_bind. by rewrite (enforcement_file_aux _ lines).
Qed.

(** *** What each rule and each configuration does

    Stated on the core, by the calls it gets, so as to be compared with the loops of the
    agent. *)

(** A rule is inserted in the table; when it was, and rules are executed on receipt, it
    is executed, and the status is that of the execution. *)
Inductive rule_employed (rule : HousekeepingRule.t) (a : Agent.t) (n : nat) :
    PStatus -> Agent.t -> nat -> Prop :=
| rule_refused status core n' :
    Core.insert_housekeeping_rule rule (Agent.m_core a) n = Ok status core n' ->
    is_ok status = false -> rule_employed rule a n status (Agent.set_core core a) n'
| rule_stored status core n' :
    Core.insert_housekeeping_rule rule (Agent.m_core a) n = Ok status core n' ->
    is_ok status = true -> Agent.m_execute_on_receive a = false ->
    rule_employed rule a n status (Agent.set_core core a) n'
| rule_executed inserted core1 n1 status core n' :
    Core.insert_housekeeping_rule rule (Agent.m_core a) n = Ok inserted core1 n1 ->
    is_ok inserted = true -> Agent.m_execute_on_receive a = true ->
    Core.execute_housekeeping_rule fuel (HousekeepingRule.m_rule_id rule) core1 n1 = Ok status core n' ->
    rule_employed rule a n status (Agent.set_core core a) n'.

(** A configuration goes to the object of the channel that its line names. *)
Inductive configuration_employed (rule : EnforcementRule.t) (a : Agent.t) (n : nat) :
    PStatus -> Agent.t -> nat -> Prop :=
| configuration_run status core n' :
    Core.employ_enforcement_rule fuel (EnforcementRule.m_channel_id rule)
      (EnforcementRule.m_enforcement_object_id rule) (EnforcementRule.m_operation_type rule)
      (EnforcementRule.m_configurations rule) (Agent.m_core a) n = Ok status core n' ->
    configuration_employed rule a n status (Agent.set_core core a) n'.

(** One after the other, each on the agent that the one before has left. *)
Inductive in_order {R} (employed : R -> Agent.t -> nat -> PStatus -> Agent.t -> nat -> Prop) :
    list R -> Agent.t -> nat -> list PStatus -> Agent.t -> nat -> Prop :=
| none_left a n : in_order employed [] a n [] a n
| next_employed rule rules a n status a1 n1 statuses a' n' :
    employed rule a n status a1 n1 -> in_order employed rules a1 n1 statuses a' n' ->
    in_order employed (rule :: rules) a n (status :: statuses) a' n'.

Definition creates (rule : HousekeepingRule.t) : Prop :=
  HousekeepingRule.m_rule_type rule = hsk_create_channel \/
  HousekeepingRule.m_rule_type rule = hsk_create_object.

Lemma employ_rule_spec rule a n status a' n' : creates rule ->
  Agent.employ_housekeeping_rule fuel rule a n = Ok status a' n' <-> rule_employed rule a n status a' n'.
Proof.
  intros Hc. assert (Heq : Agent.employ_housekeeping_rule fuel rule a n =
    (status ← Agent.on_core (Core.insert_housekeeping_rule rule);
     if is_ok status then
       execute ← gets Agent.m_execute_on_receive;
       if execute : bool
       then Agent.on_core (Core.execute_housekeeping_rule fuel (HousekeepingRule.m_rule_id rule))
       else mret status
     else mret status) a n).
  { unfold Agent.employ_housekeeping_rule. by destruct Hc as [-> | ->]. }
  rewrite Heq. clear Heq. unfold Agent.on_core, zoom, mbind, M_bind, gets.
  split.
  - destruct (Core.insert_housekeeping_rule rule _ n) as [st1 c1 k1| |] eqn:Hi; [|done..].
    destruct (is_ok st1) eqn:Hok; [|intros [= <- <- <-]; by eapply rule_refused].
    change (Agent.m_execute_on_receive (Agent.set_core c1 a)) with (Agent.m_execute_on_receive a).
    destruct (Agent.m_execute_on_receive a) eqn:Hx; [|intros [= <- <- <-]; by eapply rule_stored].
    change (Agent.m_core (Agent.set_core c1 a)) with c1.
    destruct (Core.execute_housekeeping_rule _ _ c1 k1) as [st2 c2 k2| |] eqn:He; [|done..].
    intros [= <- <- <-]. exact (rule_executed rule a n st1 c1 k1 st2 c2 k2 Hi Hok Hx He).
  - intros [st c k Hi Hok|st c k Hi Hok Hx|st1 c1 k1 st c k Hi Hok Hx He]; rewrite Hi, Hok; [done|..];
      change (Agent.m_execute_on_receive (Agent.set_core ?c a)) with (Agent.m_execute_on_receive a);
      rewrite Hx; [done|].
    change (Agent.m_core (Agent.set_core c1 a)) with c1. by rewrite He.
Qed.

Lemma employ_configuration_spec rule a n status a' n' :
  Agent.employ_enforcement_rule fuel rule a n = Ok status a' n' <->
  configuration_employed rule a n status a' n'.
Proof.
  unfold Agent.employ_enforcement_rule, Agent.on_core, zoom. split.
  - destruct (Core.employ_enforcement_rule _ _ _ _ _ _ _) as [st c k| |] eqn:He; [|done..].
    intros [= <- <- <-]. by constructor.
  - intros [st c k He]. by rewrite He.
Qed.

Lemma employ_rules_spec rules : Forall creates rules -> forall before a n status a' n',
  Agent.employ_housekeeping_rules fuel rules before a n = Ok status a' n' <->
  exists statuses, in_order rule_employed rules a n statuses a' n' /\
    status = default before (list.last statuses).
Proof.
  induction 1 as [|rule rules Hc _ IH]; intros before a n status a' n'; cbn [Agent.employ_housekeeping_rules].
  - split; [intros [= <- <- <-]; exists []; split; [constructor|done]|].
    intros (statuses & Hrun & ->). by inversion Hrun; subst.
  - split.
    + intros (st & a1 & n1 & Hst%employ_rule_spec & Hrun)%bind_Ok_inv; [|done].
      apply IH in Hrun as (statuses & Hrun & ->). exists (st :: statuses).
      split; [by econstructor|]. rewrite last_cons. by destruct (list.last statuses).
    + intros (statuses & Hrun & ->). inversion Hrun as [|? ? ? ? st a1 n1 sts ? ? Hst Hrest]; subst.
      apply employ_rule_spec in Hst; [|done]. rewrite (bind_Ok _ _ _ _ _ _ _ Hst).
      apply IH. exists sts. split; [done|]. rewrite last_cons. by destruct (list.last sts).
Qed.

Lemma employ_configurations_spec rules : forall count a n a' n',
  (exists total, Agent.employ_enforcement_rules fuel rules count a n = Ok total a' n') <->
  exists statuses, in_order configuration_employed rules a n statuses a' n'.
Proof.
  induction rules as [|rule rules IH]; intros count a n a' n'; cbn [Agent.employ_enforcement_rules].
  - split; [intros (total & [= _ <- <-]); exists []; constructor|].
    intros (statuses & Hrun). inversion Hrun; subst. by exists count.
  - split.
    + intros (total & (st & a1 & n1 & Hst%employ_configuration_spec & Hrun)%bind_Ok_inv).
      destruct (proj1 (IH _ a1 n1 a' n') (ex_intro _ total Hrun)) as [statuses Hall].
      exists (st :: statuses). by econstructor.
    + intros (statuses & Hrun). inversion Hrun as [|? ? ? ? st a1 n1 sts ? ? Hst Hrest]; subst.
      apply employ_configuration_spec in Hst.
      destruct (proj2 (IH (if is_ok st then s32 (count + 1) else count) a1 n1 a' n') (ex_intro _ sts Hrest))
        as [total Htotal].
      exists total. by rewrite (bind_Ok _ _ _ _ _ _ _ Hst).
Qed.

Lemma entries_create es : Forall creates (rules_of_entries es).
Proof.
  apply Forall_app. split; apply Forall_forall; intros rule (e & _ & He)%list_elem_of_In%list_elem_of_omap;
    destruct e; simplify_eq/=; [by left|by right].
Qed.


End Files.

(** ** Collecting from every channel *)

Section Collecting.
Context `{SystemClock}.

Lemma collect_id channel_id stats c n raw c' n' :
  Core.collect_channel_statistics channel_id stats c n = Ok (PStatus_OK, raw) c' n' ->
  stats_raw_channel_id raw = channel_id.
Proof.
  rewrite collect_channel_by_identifier. unfold by_identifier. cbv zeta.
  destruct (_ =? _); [intros [=]|].
  destruct (Core.select_channel _ c) as [token|]; [|intros [=]].
  unfold Core.call_channel. destruct (_ !! token) as [channel|]; [|done].
  intros (ch & Hrun & ->)%zoom_Ok_inv.
  unfold ChannelDefault.collect_general_statistics in Hrun. rewrite gets_bind in Hrun.
  unfold Datatypes.id in Hrun.
  destruct (ChannelDefault.m_collect_channel_statistics channel); [|done].
  run_inv Hrun. apply zoom_Ok_inv in Hrun0 as (st & Hcollect & ->).
  unfold ChannelStatistics.collect in Hcollect. by run_inv Hcollect.
Qed.

Lemma collect_each_aux ids k : forall i status stats a n st stats' a' n',
  0 <= i -> i + Z.of_nat k = Z.of_nat (length ids) -> k <> O \/ status = PStatus_OK ->
  Agent.collect_each_channel ids i k status stats a n = Ok (st, stats') a' n' ->
  exists raws, stats' = stats ++ raws /\
    (stats_raw_channel_id <$> raws) = take (length raws) (drop (Z.to_nat i) ids) /\
    (st = PStatus_OK <-> length raws = k).
Proof.
  induction k as [|k IH]; intros i status stats a n st stats' a' n' Hi Hk Hstatus Hrun.
  - destruct Hstatus as [?| ->]; [done|]. injection Hrun as <- <- <- <-.
    exists []. by rewrite app_nil_r.
  - cbn [Agent.collect_each_channel] in Hrun. apply bind_Ok_inv in Hrun as (id & b & m & Hid & Hrun).
    unfold vector_index in Hid. destruct (decide (0 <= i)) as [|?]; [|done].
    destruct (ids !! Z.to_nat i) as [id'|] eqn:Hlook; [|done]. injection Hid as -> <- <-.
    apply bind_Ok_inv in Hrun as ([st1 raw] & b & m & Hcollect & Hrun).
    apply zoom_Ok_inv in Hcollect as (core & Hcollect & ->).
    rewrite (drop_S _ _ _ Hlook). destruct (is_ok st1) eqn:Hst1.
    + apply bool_decide_eq_true in Hst1 as ->. apply collect_id in Hcollect.
      apply IH in Hrun as (raws & -> & Hids & Hiff); [|lia|lia|by right].
      exists (raw :: raws). rewrite <- app_assoc. cbn [fmap list_fmap length take].
      split; [done|]. rewrite Hcollect, Hids, Z2Nat.inj_add by lia.
      change (Z.to_nat 1) with 1%nat. rewrite Nat.add_1_r. split; [done|]. rewrite Hiff. lia.
    + injection Hrun as <- <- <- <-. exists []. rewrite app_nil_r. split_and!; [done..|].
      cbn [length]. split; [|lia]. intros ->. done.
Qed.

(** Collecting from every channel: the records appended carry the
    identifiers of the channels in the order in which they were created, up to
    the first channel whose collection fails, and the status is OK exactly when
    every channel was collected; a stage without a channel reports an error. *)
Theorem collect_all_channels stats a n st stats' a' n' :
  let channels := (Core.m_channel_id_to_token_linkers (Agent.m_core a)).*1 in
  Z.of_nat (length channels) <= int_max ->
  Agent.collect_channel_statistics (-1) stats a n = Ok (st, stats') a' n' ->
  exists raws, stats' = stats ++ raws /\
    (stats_raw_channel_id <$> raws) = take (length raws) channels /\
    (st = PStatus_OK <-> length raws = length channels /\ channels <> []).
Proof.
  intros channels Hlen Hrun. unfold Agent.collect_channel_statistics in Hrun.
  change (negb (-1 =? -1)) with false in Hrun. cbv iota in Hrun. rewrite gets_bind in Hrun.
  unfold Core.get_total_channels in Hrun.
  assert (Hsize : s32 (Z.of_nat (length (Core.m_channel_id_to_token_linkers (Agent.m_core a)))) =
                  Z.of_nat (length channels)).
  { unfold channels in *. rewrite length_fmap in Hlen |- *. apply s32_small.
    unfold is_int, int_min. unfold int_max in *. lia. }
  rewrite Hsize, Nat2Z.id in Hrun. change (Core.get_channels_identifiers _ []) with channels in Hrun.
  destruct (Z.ltb_spec 0 (Z.of_nat (length channels))) as [Hpos|Hpos].
  - apply collect_each_aux in Hrun as (raws & Hstats & Hids & Hst); [|lia|lia|left; lia].
    exists raws. split; [done|]. split; [done|]. rewrite Hst. split; [|by intros [? _]].
    intros Heq. split; [done|]. intros Hnil. rewrite Hnil in Hpos. done.
  - injection Hrun as <- <- <- <-. exists []. rewrite app_nil_r. split_and!; [done..|].
    split; [done|]. intros [_ Hne]. destruct channels; [done|]. simpl in Hpos. lia.
Qed.

End Collecting.

(** ** The files of the repository *)

(** The entries of [files/default_housekeeping_rules_file]. *)
Definition default_entries : list Entry :=
  [channel_entry 1 1000 PAIO_GENERAL 1000 "foreground" "high_priority";
   channel_entry 2 2000 PAIO_GENERAL 2000 "background" "low_priority";
   channel_entry 3 3000 PAIO_GENERAL 3000 "no_op" "no_op";
   channel_entry 4 4000 PAIO_GENERAL 4000 "no_op" "no_op";
   object_entry 5 1000 1 PAIO_GENERAL "foreground" "no_op" noop 0 0;
   object_entry 6 2000 1 PAIO_GENERAL "background" "no_op" noop 0 0;
   object_entry 7 3000 1 PAIO_GENERAL "no_op" "no_op" drl 0 0;
   object_entry 8 4000 1 PAIO_GENERAL "no_op" "no_op" drl 0 0].

Definition default_housekeeping_rules_file : string :=
"1 create_channel 1000 general 1000 foreground high_priority
2 create_channel 2000 general 2000 background low_priority
3 create_channel 3000 general 3000 no_op no_op
4 create_channel 4000 general 4000 no_op no_op
5 create_object 1000 1 general foreground no_op noop 0 0
6 create_object 2000 1 general background no_op noop 0 0
7 create_object 3000 1 general no_op no_op drl 0 0
8 create_object 4000 1 general no_op no_op drl 0 0
".

Lemma default_file_printed :
  default_housekeeping_rules_file = print_lines (entry_words <$> default_entries).
Proof. by vm_compute. Qed.

Ltac entries_valid :=
  repeat apply Forall_cons_2; try apply Forall_nil_2; cbn [entry_valid configuration_valid];
  split_and!; solve [vm_compute; intuition discriminate | eexists; vm_compute; reflexivity | done].

Lemma default_entries_valid : Forall entry_valid default_entries.
Proof. unfold default_entries. entries_valid. Qed.

Lemma default_agent_not_ready `{SystemClock} `{FileSystem} fuel info a n :
  contents_of Agent.option_default_housekeeping_rules_file_path =
    Some default_housekeeping_rules_file ->
  returns (Agent.make fuel Options.none Core.make_default false (-1) info a n) (fun _ a' _ =>
    Agent.m_ready a' = false /\
    (Core.m_channel_id_to_token_linkers (Agent.m_core a')).*1 = [1000; 2000; 3000]).
Proof.
  intros Hfile. unfold Agent.make. rewrite modify_bind. unfold Agent.load_rules. rewrite gets_bind.
  apply returns_bind. rewrite (housekeeping_file_aux fuel _ default_entries).
  - vm_compute. by split.
  - done.
  - by rewrite <- default_file_printed.
  - apply default_entries_valid.
  - done.
Qed.

(** The default files do not make a stage: an agent on a default core
    that reads the default housekeeping file ends not ready, with three channels
    and not four.  The default differentiation reads the context only, the
    fourth channel asks for the token of the third, and its object, the last rule
    of the file, has no channel. *)
Theorem default_files_never_ready `{SystemClock} `{FileSystem} fuel info a n :
  contents_of Agent.option_default_housekeeping_rules_file_path =
    Some default_housekeeping_rules_file ->
  returns (Agent.make fuel Options.none Core.make_default false (-1) info a n) (fun _ a' _ =>
    Agent.m_ready a' = false /\
    (Core.m_channel_id_to_token_linkers (Agent.m_core a')).*1 = [1000; 2000; 3000]).
Proof. apply default_agent_not_ready. Qed.

(** ** Witnesses *)

(** A file system with the default housekeeping file, and a pair of files. *)
Definition sample_files : FileSystem := fun path =>
  if bool_decide (path = Agent.option_default_housekeeping_rules_file_path)
  then Some default_housekeeping_rules_file
  else if bool_decide (path = "housekeeping") then Some (print_lines (entry_words <$> take 1 default_entries))
  else if bool_decide (path = "enforcement")
  then Some (print_lines (configuration_words <$> [configuration_line 1 1000 1 (rate_setting 7)]))
  else None.

Definition sample_agent : Agent.t :=
  Agent.mk Core.make_default false sample_info "housekeeping" "differentiation" "enforcement" true.

(** An agent whose only channel collects statistics. *)
Definition collecting_agent : Agent.t :=
  Agent.set_core
    (add_channel 1 (token_of [0])
       (ChannelDefault.mk 1 SubmissionQueue.make true 0 [] true false ChannelDefault.stats_member 0)
       Core.make_default) sample_agent.

Lemma agent_invariant_witness :
  keeps (fun a' => core_well_formed (Agent.m_core a') /\ (false = true -> Agent.m_ready a' = true))
    (@run_agent_calls bounded_clock sample_files 3
       [LoadRules Options.none (-1); CollectChannels (-1) []] sample_agent O).
Proof.
  exact (@agent_invariant bounded_clock sample_files 3
    [LoadRules Options.none (-1); CollectChannels (-1) []] sample_agent O default_core_well_formed).
Defined.

(** The stage of a file with a channel is ready, though its configuration is refused: no
    object has the identifier of the line. *)
Lemma ready_despite_refusal :
  match @Agent.load_rules bounded_clock sample_files 3 Options.none (-1) sample_agent O with
  | Ok _ a n =>
      Agent.m_ready a = true /\
      match @Agent.employ_enforcement_rule bounded_clock 3
              (configuration_rule (configuration_line 1 1000 1 (rate_setting 7))) a n with
      | Ok status _ _ => is_ok status = false
      | _ => False
      end
  | _ => False
  end.
Proof. vm_compute. by split. Qed.


Lemma collect_all_channels_witness : exists st stats' a' n',
  @Agent.collect_channel_statistics bounded_clock (-1) [] collecting_agent 1%nat =
    Ok (st, stats') a' n' /\
  (stats_raw_channel_id <$> stats') = take (length stats') [1].
Proof.
  destruct (is_Ok_inv (@Agent.collect_channel_statistics bounded_clock (-1) [] collecting_agent 1%nat))
    as ([st stats'] & a' & n' & Hrun); [vm_compute; reflexivity|].
  exists st, stats', a', n'. split; [exact Hrun|].
  destruct (@collect_all_channels bounded_clock [] collecting_agent 1%nat st stats' a' n'
    ltac:(vm_compute; discriminate) Hrun) as (raws & Hr & Hids & _).
  rewrite Hr. exact Hids.
Defined.

Lemma default_files_never_ready_witness :
  returns (@Agent.make bounded_clock sample_files 3 Options.none Core.make_default false (-1)
    sample_info sample_agent O) (fun _ a' _ =>
    Agent.m_ready a' = false /\
    (Core.m_channel_id_to_token_linkers (Agent.m_core a')).*1 = [1000; 2000; 3000]).
Proof.
  exact (@default_files_never_ready bounded_clock sample_files 3 sample_info sample_agent O
    eq_refl).
Defined.
