(* ===== verification/Networking.v ===== *)
(** * Structures on a socket and the connection handler

    The raw structures that the control plane and the stage exchange
    ([interface_definitions.hpp]) with their layout in memory, and
    [ConnectionHandler] ([connection_handler.hpp]), which opens the socket, reads
    into a structure and writes one.  The layout is the one of the x86-64 ABI:
    little-endian integers at their alignment, with padding.  The system calls
    are parameters. *)

From S2P Require Import Prelude MachineInt Binary64 Options Differentiation.
From S2P Require Import Rules TokenBucketStats TokenBucket EnforcementObjects.
From S2P Require Import ChannelStatistics Channel Core RulesParser StageInfo Agent.

(** ** Integers in memory *)

(** The [n] bytes of an integer, the least significant first. *)
Fixpoint le_bytes (n : nat) (x : Z) : list Z :=
  match n with
  | O => []
  | S n => x mod 256 :: le_bytes n (x / 256)
  end.

Fixpoint le_value (bytes : list Z) : Z :=
  match bytes with
  | [] => 0
  | b :: bytes => b + 256 * le_value bytes
  end.

(** The members of a structure, by their widths in bytes. *)
Inductive field :=
| unsigned_field (width : nat)
| signed_field (width : nat)
| bool_field
| padding (width : nat).

Definition width_of (f : field) : nat :=
  match f with unsigned_field n | signed_field n | padding n => n | bool_field => 1 end.

(** [sizeof] *)
Definition size_of (layout : list field) : nat := sum_list_with width_of layout.

(** The integer of [n] bytes in two's complement. *)
Definition to_signed (n : nat) (x : Z) : Z :=
  if x <? 2 ^ (8 * Z.of_nat n - 1) then x else x - 2 ^ (8 * Z.of_nat n).

(** The bytes of a structure, with zeros as padding. *)
Fixpoint encode (layout : list field) (values : list Z) : list Z :=
  match layout, values with
  | [], _ => []
  | padding n :: layout, values => replicate n 0 ++ encode layout values
  | (unsigned_field n | signed_field n) :: layout, v :: values =>
      le_bytes n v ++ encode layout values
  | bool_field :: layout, v :: values => le_bytes 1 v ++ encode layout values
  | (unsigned_field n | signed_field n) :: layout, [] => replicate n 0 ++ encode layout []
  | bool_field :: layout, [] => replicate 1 0 ++ encode layout []
  end.

Fixpoint decode (layout : list field) (bytes : list Z) : list Z :=
  match layout with
  | [] => []
  | padding n :: layout => decode layout (drop n bytes)
  | unsigned_field n :: layout => le_value (take n bytes) :: decode layout (drop n bytes)
  | signed_field n :: layout =>
      to_signed n (le_value (take n bytes)) :: decode layout (drop n bytes)
  | bool_field :: layout => le_value (take 1 bytes) :: decode layout (drop 1 bytes)
  end.

(** The members in their order, with their offsets in the structure. *)
Fixpoint members_from (offset : nat) (layout : list field) : list (nat * field) :=
  match layout with
  | [] => []
  | padding n :: layout => members_from (offset + n) layout
  | f :: layout => (offset, f) :: members_from (offset + width_of f) layout
  end.

Definition members (layout : list field) : list (nat * field) := members_from 0 layout.

(** The value that a member has in the bytes from its offset on. *)
Definition value_of (f : field) (bytes : list Z) : Z :=
  match f with
  | unsigned_field n => le_value (take n bytes)
  | signed_field n => to_signed n (le_value (take n bytes))
  | bool_field => le_value (take 1 bytes)
  | padding _ => 0
  end.

(** The values that the members hold. *)
Definition in_field (f : field) (v : Z) : Prop :=
  match f with
  | unsigned_field n => 0 <= v < 2 ^ (8 * Z.of_nat n)
  | signed_field n =>
      (0 < n)%nat /\ - 2 ^ (8 * Z.of_nat n - 1) <= v < 2 ^ (8 * Z.of_nat n - 1)
  | bool_field => 0 <= v <= 1
  | padding _ => False
  end.

Fixpoint fits_layout (layout : list field) (values : list Z) : Prop :=
  match layout with
  | [] => values = []
  | padding _ :: layout => fits_layout layout values
  | f :: layout =>
      match values with
      | v :: values => in_field f v /\ fits_layout layout values
      | [] => False
      end
  end.

(** The same as a test. *)
Definition in_fieldb (f : field) (v : Z) : bool :=
  match f with
  | unsigned_field n => (0 <=? v) && (v <? 2 ^ (8 * Z.of_nat n))
  | signed_field n =>
      (0 <? n)%nat && (- 2 ^ (8 * Z.of_nat n - 1) <=? v) && (v <? 2 ^ (8 * Z.of_nat n - 1))
  | bool_field => (0 <=? v) && (v <=? 1)
  | padding _ => false
  end.

Fixpoint fits_layoutb (layout : list field) (values : list Z) : bool :=
  match layout with
  | [] => bool_decide (values = [])
  | padding _ :: layout => fits_layoutb layout values
  | f :: layout =>
      match values with
      | v :: values => in_fieldb f v && fits_layoutb layout values
      | [] => false
      end
  end.

Lemma in_fieldb_sound f v : in_fieldb f v = true -> in_field f v.
Proof.
  destruct f; cbn; [|intros H| |done].
  - intros [? ?]%andb_true_iff. bools. lia.
  - apply andb_true_iff in H as [[? ?]%andb_true_iff ?]. bools.
    split; [by apply Nat.ltb_lt|lia].
  - intros [? ?]%andb_true_iff. bools. lia.
Qed.

Lemma fits_layoutb_sound layout : forall values,
  fits_layoutb layout values = true -> fits_layout layout values.
Proof.
  induction layout as [|f layout IH]; intros values Hfit; cbn in *.
  - by apply bool_decide_eq_true in Hfit.
  - destruct f; [destruct values as [|v values]; [done|]..|by apply IH];
      apply andb_true_iff in Hfit as [Hv Hfit]; split; try by apply in_fieldb_sound in Hv.
    all: by apply IH.
Qed.

(** A structure: its layout, its members as integers, and back. *)
Class Raw (A : Type) := {
  layout_of : list field;
  to_values : A -> list Z;
  of_values : list Z -> A;
}.
#[global] Hint Mode Raw ! : typeclass_instances.
Arguments layout_of A {_}.

(** The members are in the range of their types. *)
Definition valid {A} `{Raw A} (a : A) : Prop := fits_layout (layout_of A) (to_values a).

(** What the handlers ask of a structure: it is its members. *)
Class RawLaws (A : Type) `{Raw A} := {
  values_back : forall a : A, valid a -> of_values (to_values a) = a;
  values_forth : forall values, length values = length (members (layout_of A)) ->
    to_values (of_values values : A) = values;
  members_sized : Forall (fun f => (0 < width_of f)%nat) (layout_of A);
}.

Definition bytes_of {A} `{Raw A} (a : A) : list Z := encode (layout_of A) (to_values a).
Definition of_bytes {A} `{Raw A} (bytes : list Z) : A := of_values (decode (layout_of A) bytes).
Definition sizeof (A : Type) `{Raw A} : Z := Z.of_nat (size_of (layout_of A)).

Lemma length_le_bytes n x : length (le_bytes n x) = n.
Proof. revert x. induction n as [|n IH]; intros x; simpl; [done|by rewrite IH]. Qed.

Lemma le_value_bytes n : forall x, le_value (le_bytes n x) = x mod 2 ^ (8 * Z.of_nat n).
Proof.
  induction n as [|n IH]; intros x; simpl; [by rewrite Z.mod_1_r|].
  rewrite IH. replace (2 ^ (8 * Z.of_nat (S n))) with (256 * 2 ^ (8 * Z.of_nat n)).
  - rewrite Z.rem_mul_r by lia. lia.
  - rewrite Nat2Z.inj_succ, Z.mul_succ_r, Z.pow_add_r by lia. lia.
Qed.

Lemma to_signed_mod n v : in_field (signed_field n) v ->
  to_signed n (v mod 2 ^ (8 * Z.of_nat n)) = v.
Proof.
  intros [Hn Hv]. unfold to_signed.
  assert (Hw : 2 ^ (8 * Z.of_nat n) = 2 * 2 ^ (8 * Z.of_nat n - 1)).
  { rewrite <- Z.pow_succ_r by lia. f_equal. lia. }
  rewrite Hw in *. destruct (decide (0 <= v)) as [Hpos|Hneg].
  - rewrite Z.mod_small by lia. destruct (Z.ltb_spec v (2 ^ (8 * Z.of_nat n - 1))); lia.
  - rewrite <- (Z_mod_plus_full v 1), Z.mod_small by lia.
    destruct (Z.ltb_spec (v + 1 * (2 * 2 ^ (8 * Z.of_nat n - 1))) (2 ^ (8 * Z.of_nat n - 1))); lia.
Qed.

Lemma length_encode layout : forall values, length (encode layout values) = size_of layout.
Proof.
  induction layout as [|f layout IH]; intros values; [done|].
  destruct f, values; simpl; rewrite ?length_app, ?length_le_bytes, ?length_replicate, IH; done.
Qed.

Lemma decode_encode layout : forall values, fits_layout layout values ->
  decode layout (encode layout values) = values.
Proof.
  induction layout as [|f layout IH]; intros values Hfit; [by symmetry|].
  destruct f as [n|n| |n]; cbn [fits_layout encode decode] in *.
  1, 2, 3: destruct values as [|v values]; [done|]; destruct Hfit as [Hv Hfit];
    rewrite take_app_length', drop_app_length' by (symmetry; apply length_le_bytes);
    rewrite le_value_bytes, IH by done; f_equal.
  - by apply Z.mod_small.
  - by apply to_signed_mod.
  - apply Z.mod_small. cbn in *. lia.
  - rewrite drop_app_length' by (symmetry; apply length_replicate). by apply IH.
Qed.

Lemma of_bytes_of {A} `{RawLaws A} (a : A) : valid a -> of_bytes (bytes_of a) = a.
Proof.
  intros Ha. unfold of_bytes, bytes_of. rewrite decode_encode by done. by apply values_back.
Qed.

Lemma decode_members_from layout bytes : forall offset,
  decode layout (drop offset bytes)
  = (fun m => value_of (snd m) (drop (fst m) bytes)) <$> members_from offset layout.
Proof.
  induction layout as [|f layout IH]; intros offset; [done|].
  destruct f; cbn [decode members_from width_of]; rewrite drop_drop, IH; done.
Qed.

Lemma decode_members layout bytes :
  decode layout bytes = (fun m => value_of (snd m) (drop (fst m) bytes)) <$> members layout.
Proof. exact (decode_members_from layout bytes 0). Qed.

Lemma to_values_of_bytes {A} `{RawLaws A} bytes :
  to_values (of_bytes bytes : A) = decode (layout_of A) bytes.
Proof. apply values_forth. by rewrite decode_members, length_fmap. Qed.

(** Bytes decode to integers in the range of their types, whatever they are; not so
    a [bool], whose byte is 0 or 1. *)
Definition integral (layout : list field) : Prop := Forall (fun f => f <> bool_field) layout.

Definition is_byte (b : Z) : Prop := 0 <= b < 256.

Lemma le_value_range bytes : Forall is_byte bytes -> 0 <= le_value bytes < 2 ^ (8 * Z.of_nat (length bytes)).
Proof.
  induction 1 as [|b bytes [Hb1 Hb2] _ IH]; [done|]. cbn [le_value length].
  replace (2 ^ (8 * Z.of_nat (S (length bytes)))) with (256 * 2 ^ (8 * Z.of_nat (length bytes))); [lia|].
  rewrite Nat2Z.inj_succ, Z.mul_succ_r, Z.pow_add_r by lia. lia.
Qed.

Lemma le_value_take n bytes : Forall is_byte bytes -> 0 <= le_value (take n bytes) < 2 ^ (8 * Z.of_nat n).
Proof.
  intros Hb. pose proof (le_value_range (take n bytes) (Forall_take _ n _ Hb)) as [H0 Hlt]. split; [done|].
  eapply Z.lt_le_trans; [exact Hlt|]. apply Z.pow_le_mono_r; [lia|]. rewrite length_take. lia.
Qed.

Lemma to_signed_range n x : (0 < n)%nat -> 0 <= x < 2 ^ (8 * Z.of_nat n) -> in_field (signed_field n) (to_signed n x).
Proof.
  intros Hn Hx. split; [done|]. unfold to_signed.
  assert (Hw : 2 ^ (8 * Z.of_nat n) = 2 * 2 ^ (8 * Z.of_nat n - 1)).
  { rewrite <- Z.pow_succ_r by lia. f_equal. lia. }
  rewrite Hw in *. destruct (Z.ltb_spec x (2 ^ (8 * Z.of_nat n - 1))); lia.
Qed.

Lemma decode_fits layout : forall bytes, Forall (fun f => (0 < width_of f)%nat) layout ->
  integral layout -> Forall is_byte bytes -> fits_layout layout (decode layout bytes).
Proof.
  induction layout as [|f layout IH]; intros bytes Hw Hi Hb; [done|].
  apply Forall_cons_1 in Hw as [Hf Hw]. apply Forall_cons_1 in Hi as [Hnb Hi].
  pose proof (IH (drop (width_of f) bytes) Hw Hi (Forall_drop _ _ _ Hb)).
  destruct f as [n|n| |n]; cbn [decode fits_layout width_of] in *; [split; [|done]..|done].
  - by apply le_value_take.
  - by apply to_signed_range, le_value_take.
  - done.
Qed.

Lemma of_bytes_valid {A} `{RawLaws A} bytes :
  integral (layout_of A) -> Forall is_byte bytes -> valid (of_bytes bytes : A).
Proof.
  intros Hi Hb. unfold valid. rewrite to_values_of_bytes.
  by apply (decode_fits (layout_of A) bytes members_sized).
Qed.

Lemma to_values_decode {A} `{Raw A} (a : A) : valid a ->
  to_values a = decode (layout_of A) (bytes_of a).
Proof. intros Ha. symmetry. by apply decode_encode. Qed.

(** The value of a member depends on its own bytes only. *)
Lemma value_of_take f bytes : value_of f bytes = value_of f (take (width_of f) bytes).
Proof. destruct f; cbn; by rewrite ?take_take, ?Nat.min_id. Qed.

(** A structure whose first bytes are replaced by those of another one. *)
Lemma member_replaced k (bytes other : list Z) offset f : (k <= length other)%nat ->
  ((offset + width_of f <= k)%nat ->
   value_of f (drop offset (take k other ++ drop k bytes)) = value_of f (drop offset other)) /\
  ((k <= offset)%nat ->
   value_of f (drop offset (take k other ++ drop k bytes)) = value_of f (drop offset bytes)).
Proof.
  intros Hk. assert (Hlen : length (take k other) = k) by (rewrite length_take; lia).
  split; intros Hm.
  - rewrite value_of_take, (value_of_take _ (drop _ other)). f_equal.
    rewrite drop_app_le by lia. rewrite take_app_le by (rewrite length_drop; lia).
    rewrite <- (take_drop k other) at 2. rewrite drop_app_le by lia.
    by rewrite take_app_le by (rewrite length_drop; lia).
  - f_equal. rewrite drop_app_ge by lia. rewrite Hlen, drop_drop. f_equal. lia.
Qed.

Lemma le_bytes_range n x : Forall is_byte (le_bytes n x).
Proof.
  revert x. induction n as [|n IH]; intros x; constructor; [|done].
  unfold is_byte. apply Z.mod_pos_bound. lia.
Qed.

Lemma encode_range layout : forall values, Forall is_byte (encode layout values).
Proof.
  induction layout as [|f layout IH]; intros values; [by constructor|].
  destruct f, values; cbn [encode]; apply Forall_app; split;
    done || apply le_bytes_range || by apply Forall_replicate.
Qed.

Lemma length_bytes_of {A} `{Raw A} (a : A) : Z.of_nat (length (bytes_of a)) = sizeof A.
Proof. unfold bytes_of. by rewrite length_encode. Qed.

(** ** The structures *)

Record ControlOperation := mkControlOperation {
  m_operation_id : Z;                   (* int *)
  operation_type : Z;                   (* int *)
  operation_subtype : Z;                (* int *)
  m_size : Z;                           (* int *)
}.

#[export] Instance ControlOperation_raw : Raw ControlOperation := {
  layout_of := [signed_field 4; signed_field 4; signed_field 4; signed_field 4];
  to_values o := [m_operation_id o; operation_type o; operation_subtype o; m_size o];
  of_values vs := match vs with
    | [a; b; c; d] => mkControlOperation a b c d
    | _ => mkControlOperation 0 0 0 0
    end;
}.

(** [ControlOperation {}] *)
Definition zero_ControlOperation : ControlOperation := mkControlOperation 0 0 0 0.

Record CollectStatisticsMetadata := mkCollectStatisticsMetadata {
  metadata_channel_id : Z;              (* long *)
  m_number_of_channels : Z;             (* int *)
}.

Definition default_CollectStatisticsMetadata : CollectStatisticsMetadata :=
  mkCollectStatisticsMetadata (-1) 0.

#[export] Instance CollectStatisticsMetadata_raw : Raw CollectStatisticsMetadata := {
  layout_of := [signed_field 8; signed_field 4; padding 4];
  to_values m := [metadata_channel_id m; m_number_of_channels m];
  of_values vs := match vs with
    | [a; b] => mkCollectStatisticsMetadata a b
    | _ => default_CollectStatisticsMetadata
    end;
}.

(** The member is a [bool]: 0 or 1, or what else a peer has put in the byte. *)
Record StageReadyRaw := mkStageReadyRaw { m_mark_stage : Z }.

#[export] Instance StageReadyRaw_raw : Raw StageReadyRaw := {
  layout_of := [bool_field];
  to_values r := [m_mark_stage r];
  of_values vs := mkStageReadyRaw (default 0 (head vs));
}.

Definition default_EnforcementRuleRaw : EnforcementRuleRaw :=
  mkEnforcementRuleRaw 0 (-1) (-1) 0 (-1) (-1) (-1).

#[export] Instance EnforcementRuleRaw_raw : Raw EnforcementRuleRaw := {
  layout_of := [signed_field 8; signed_field 8; signed_field 8; signed_field 4; padding 4;
                signed_field 8; signed_field 8; signed_field 8];
  to_values r :=
    [raw_rule_id r; raw_channel_id r; raw_enforcement_object_id r; raw_enforcement_operation r;
     raw_property_first r; raw_property_second r; raw_property_third r];
  of_values vs := match vs with
    | [a; b; c; d; e; f; g] => mkEnforcementRuleRaw a b c d e f g
    | _ => default_EnforcementRuleRaw
    end;
}.

Definition HousekeepingOperation_code (operation : HousekeepingOperation) : Z :=
  match operation with
  | hsk_create_channel => 1 | hsk_create_object => 2 | hsk_configure => 3 | hsk_remove => 4
  | hsk_no_op => 0
  end.

Record HousekeepingCreateChannelRaw := mkCreateChannelRaw {
  cc_rule_id : Z;                       (* uint64_t *)
  cc_rule_type : Z;                     (* int *)
  cc_channel_id : Z;                    (* long *)
  cc_context_definition : Z;            (* int *)
  cc_workflow_id : Z;                   (* uint32_t *)
  cc_operation_type : Z;                (* uint32_t *)
  cc_operation_context : Z;             (* uint32_t *)
}.

Definition default_CreateChannelRaw : HousekeepingCreateChannelRaw :=
  mkCreateChannelRaw 0 (HousekeepingOperation_code hsk_create_channel) (-1)
    (RulesParser.ContextType_code PAIO_GENERAL) 0 (u32 (PAIO_GENERAL_.code PAIO_GENERAL_.no_op))
    (u32 (PAIO_GENERAL_.code PAIO_GENERAL_.no_op)).

#[export] Instance CreateChannelRaw_raw : Raw HousekeepingCreateChannelRaw := {
  layout_of := [unsigned_field 8; signed_field 4; padding 4; signed_field 8; signed_field 4;
                unsigned_field 4; unsigned_field 4; unsigned_field 4];
  to_values r :=
    [cc_rule_id r; cc_rule_type r; cc_channel_id r; cc_context_definition r; cc_workflow_id r;
     cc_operation_type r; cc_operation_context r];
  of_values vs := match vs with
    | [a; b; c; d; e; f; g] => mkCreateChannelRaw a b c d e f g
    | _ => default_CreateChannelRaw
    end;
}.

Record HousekeepingCreateObjectRaw := mkCreateObjectRaw {
  co_rule_id : Z;                       (* long *)
  co_rule_type : Z;                     (* int *)
  co_channel_id : Z;                    (* long *)
  co_enforcement_object_id : Z;         (* long *)
  co_context_definition : Z;            (* int *)
  co_operation_type : Z;                (* uint32_t *)
  co_operation_context : Z;             (* uint32_t *)
  co_enforcement_object_type : Z;       (* long *)
  co_property_first : Z;                (* long *)
  co_property_second : Z;               (* long *)
}.

Definition default_CreateObjectRaw : HousekeepingCreateObjectRaw :=
  mkCreateObjectRaw 0 (HousekeepingOperation_code hsk_create_object) (-1) (-1)
    (RulesParser.ContextType_code PAIO_GENERAL) (u32 (PAIO_GENERAL_.code PAIO_GENERAL_.no_op))
    (u32 (PAIO_GENERAL_.code PAIO_GENERAL_.no_op)) 0 0 0.

#[export] Instance CreateObjectRaw_raw : Raw HousekeepingCreateObjectRaw := {
  layout_of := [signed_field 8; signed_field 4; padding 4; signed_field 8; signed_field 8;
                signed_field 4; unsigned_field 4; unsigned_field 4; padding 4;
                signed_field 8; signed_field 8; signed_field 8];
  to_values r :=
    [co_rule_id r; co_rule_type r; co_channel_id r; co_enforcement_object_id r;
     co_context_definition r; co_operation_type r; co_operation_context r;
     co_enforcement_object_type r; co_property_first r; co_property_second r];
  of_values vs := match vs with
    | [a; b; c; d; e; f; g; h; i; j] => mkCreateObjectRaw a b c d e f g h i j
    | _ => default_CreateObjectRaw
    end;
}.

Definition stage_max_handshake_address_size : nat := 100.

Record StageHandshakeRaw := mkStageHandshakeRaw {
  m_address : list Z;                   (* char[stage_max_handshake_address_size] *)
  handshake_port : Z;                   (* int *)
}.

Definition default_StageHandshakeRaw : StageHandshakeRaw :=
  mkStageHandshakeRaw (replicate stage_max_handshake_address_size 0) (-1).

#[export] Instance StageHandshakeRaw_raw : Raw StageHandshakeRaw := {
  layout_of := replicate stage_max_handshake_address_size (unsigned_field 1) ++ [signed_field 4];
  to_values r := m_address r ++ [handshake_port r];
  of_values vs :=
    mkStageHandshakeRaw (take stage_max_handshake_address_size vs)
      (default 0 (vs !! stage_max_handshake_address_size));
}.

(** The values of a layout are as many as its members. *)
Ltac by_values := let values := fresh "values" in let Hlen := fresh "Hlen" in
  intros values Hlen; cbn in Hlen |- *;
  repeat (destruct values as [|? values]; cbn in Hlen; try discriminate Hlen; try reflexivity).

Ltac by_members := constructor; [intros [] ?; reflexivity|by_values|repeat constructor; cbn; lia].

#[export] Instance ControlOperation_laws : RawLaws ControlOperation.
Proof. by_members. Qed.
#[export] Instance CollectStatisticsMetadata_laws : RawLaws CollectStatisticsMetadata.
Proof. by_members. Qed.
#[export] Instance StageReadyRaw_laws : RawLaws StageReadyRaw.
Proof. by_members. Qed.
#[export] Instance EnforcementRuleRaw_laws : RawLaws EnforcementRuleRaw.
Proof. by_members. Qed.
#[export] Instance CreateChannelRaw_laws : RawLaws HousekeepingCreateChannelRaw.
Proof. by_members. Qed.
#[export] Instance CreateObjectRaw_laws : RawLaws HousekeepingCreateObjectRaw.
Proof. by_members. Qed.

Lemma fits_characters n : forall values,
  fits_layout (replicate n (unsigned_field 1) ++ [signed_field 4]) values ->
  length values = S n.
Proof.
  induction n as [|n IH]; intros [|v values] Hfit; try (by destruct Hfit).
  - by destruct Hfit as [_ ->].
  - destruct Hfit as [_ Hfit]. cbn [length]. f_equal. by apply IH.
Qed.

#[export] Instance StageHandshakeRaw_laws : RawLaws StageHandshakeRaw.
Proof.
  constructor; [|intros values Hlen|apply Forall_app; split; [by apply Forall_replicate; cbn; lia|by repeat constructor; cbn; lia]].
  2: { change (length values = S stage_max_handshake_address_size) in Hlen. cbn [of_values to_values StageHandshakeRaw_raw m_address handshake_port].
       destruct (lookup_lt_is_Some_2 values stage_max_handshake_address_size) as [port Hport]; [lia|].
       rewrite Hport. cbn [default].
       rewrite <- (take_drop stage_max_handshake_address_size values) at 2. f_equal.
       rewrite (drop_S _ _ _ Hport). by rewrite drop_ge by lia. }
  intros [address port] Hvalid.
  assert (Hlen : length address = stage_max_handshake_address_size).
  { apply fits_characters in Hvalid. cbn [to_values StageHandshakeRaw_raw m_address handshake_port] in Hvalid.
    rewrite length_app in Hvalid. cbn [length] in Hvalid. lia. }
  cbn [of_values to_values StageHandshakeRaw_raw m_address handshake_port].
  rewrite <- Hlen. by rewrite take_app_length, list_lookup_middle.
Qed.

(** ** System calls

    The n-th call of each kind: the bytes a [read] delivers (at most as many as
    it is asked for) or an error, the value a [write] returns, the descriptor
    [socket] returns, the answers of [connect] and [inet_pton]. *)

Inductive domain := AF_INET | AF_UNIX.

Class Sockets := {
  libc_read : nat -> Z -> Z -> option (list Z);
  libc_write : nat -> Z -> Z -> Z;
  libc_socket : nat -> domain -> Z;
  libc_connect : nat -> Z -> string -> Z -> Z;
  inet_pton : string -> Z;
}.

(** What the stage sends, a structure a [write]. *)
Inductive Sent :=
| sent_ack (message : Z)
| sent_metadata (metadata : CollectStatisticsMetadata)
| sent_channel_stats (stats : ChannelStatsRaw)
| sent_silk (fg_tasks bg_tasks_flush bg_tasks_compaction_l0 bg_tasks_compaction_lN : double)
| sent_tensorflow (read_rate write_rate : double)
| sent_global (total_rate : double)
| sent_data_metadata (total_metadata_rate total_data_rate : double)
| sent_stage_info (info : StageInfoRaw).

(** [sizeof] of the structures that are only sent; [StageInfoRaw] has two bytes of
    padding before its integers, and its size is a multiple of four. *)
Definition size_of_sent `{Process} (message : Sent) : Z :=
  match message with
  | sent_ack _ => 4
  | sent_metadata _ => sizeof CollectStatisticsMetadata
  | sent_channel_stats _ => 24
  | sent_silk _ _ _ _ => 32
  | sent_tensorflow _ _ => 16
  | sent_global _ => 8
  | sent_data_metadata _ _ => 16
  | sent_stage_info _ => (stage_name_max_size + stage_opt_max_size + 2 + 8 + HOST_NAME_MAX +
                          LOGIN_NAME_MAX + 3) / 4 * 4
  end.

(** The calls made so far and the messages written, which the handlers of a stage
    share. *)
Module Network.
Record t := mk {
  reads : nat;
  writes : nat;
  sockets : nat;
  connects : nat;
  sent : list (Z * Sent);               (* by descriptor, in the order of the writes *)
}.
Definition start : t := mk O O O O [].
End Network.

Module ConnectionOptions.

Record t := mk {
  m_connection_type : CommunicationType;
  m_address : string;
  m_port : Z;                           (* int *)
}.

Definition option_default_socket_name : string := "/tmp/0.0.0.0:50054.socket".
Definition option_default_address : string := "127.0.0.1".
Definition option_default_port : Z := 12345.

Definition make_default {S} : M S t :=
  match option_default_communication_type with
  | _unix => mret (mk _unix option_default_socket_name option_default_port)
  | inet => mret (mk inet option_default_address option_default_port)
  | rpc => throw (LogicError "RPC connection type not implemented yet.")
  | none => mret (mk none "noaddress" option_default_port)
  end.

End ConnectionOptions.

Inductive ConnectionHandlerType := handshake_handler | southbound_handler | handler_no_op.

Module ConnectionHandler.

Record t := mk {
  m_socket : Z;                                    (* shared_ptr<atomic<int>> *)
  m_connection_options : ConnectionOptions.t;
  m_agent_ptr : Agent.t;                           (* shared_ptr<Agent> *)
  m_handler_type : ConnectionHandlerType;
  network : Network.t;
}.

Definition set_socket (socket : Z) (h : t) : t :=
  mk socket (m_connection_options h) (m_agent_ptr h) (m_handler_type h) (network h).
Definition set_agent (agent : Agent.t) (h : t) : t :=
  mk (m_socket h) (m_connection_options h) agent (m_handler_type h) (network h).
Definition set_network (n : Network.t) (h : t) : t :=
  mk (m_socket h) (m_connection_options h) (m_agent_ptr h) (m_handler_type h) n.

(** A call on the agent behind the pointer. *)
Definition on_agent {A} (m : M Agent.t A) : M t A := zoom m_agent_ptr set_agent m.

Section Calls.
Context `{Sockets} `{Process}.

Definition count_read : M t nat :=
  state (fun h =>
    let n := network h in
    (Network.reads n,
     set_network (Network.mk (S (Network.reads n)) (Network.writes n) (Network.sockets n)
                    (Network.connects n) (Network.sent n)) h)).

Definition log_write (socket : Z) (message : Sent) : M t nat :=
  state (fun h =>
    let n := network h in
    (Network.writes n,
     set_network (Network.mk (Network.reads n) (S (Network.writes n)) (Network.sockets n)
                    (Network.connects n) (Network.sent n ++ [(socket, message)])) h)).

Definition count_socket : M t nat :=
  state (fun h =>
    let n := network h in
    (Network.sockets n,
     set_network (Network.mk (Network.reads n) (Network.writes n) (S (Network.sockets n))
                    (Network.connects n) (Network.sent n)) h)).

Definition count_connect : M t nat :=
  state (fun h =>
    let n := network h in
    (Network.connects n,
     set_network (Network.mk (Network.reads n) (Network.writes n) (Network.sockets n)
                    (S (Network.connects n)) (Network.sent n)) h)).

(** [socket_read (&object, count)]: the return value, and the bytes of the object.
    [count] is converted to [size_t]; what is read past the end of the object is
    lost memory. *)
Definition socket_read (object : list Z) (count : Z) : M t (Z * list Z) :=
  socket ← gets m_socket;
  if socket =? -1 then mret (-1, object)
  else
    n ← count_read;
    match libc_read n socket (u64 count) with
    | None => mret (-1, object)
    | Some bytes =>
        let received := take (Z.to_nat (u64 count)) bytes in
        if (length object <? length received)%nat
        then crash_with (UndefinedBehaviour "read past the end of a structure")
        else mret (Z.of_nat (length received), received ++ drop (length received) object)
    end.

(** The same with a structure. *)
Definition read_raw {A} `{Raw A} (object : A) (count : Z) : M t (Z * A) :=
  '(return_value, bytes) ← socket_read (bytes_of object) count;
  mret (return_value, of_bytes bytes).

(** [socket_write (&message, count)] *)
Definition socket_write (message : Sent) (count : Z) : M t Z :=
  socket ← gets m_socket;
  if socket =? -1 then mret (-1)
  else if size_of_sent message <? u64 count
  then crash_with (UndefinedBehaviour "write past the end of a structure")
  else
    n ← log_write socket message;
    mret (libc_write n socket (u64 count)).

(** Connect a new socket; the port narrows to [uint16_t]. *)
Definition establish_inet_connection (address : string) (port : Z) : M t PStatus :=
  n ← count_socket;
  let socket := libc_socket n AF_INET in
  _ ← modify (set_socket socket);
  if socket <? 0 then mret PStatus_Error
  else if inet_pton (c_str address) <=? 0 then mret PStatus_Error
  else
    n ← count_connect;
    if libc_connect n socket (c_str address) (port mod 2 ^ 16) <? 0 then mret PStatus_Error
    else mret PStatus_OK.

(** The size of [sun_path]. *)
Definition sun_path_size : nat := 108.

Definition establish_unix_domain_socket_connection (socket_name : string) : M t PStatus :=
  let sun_path := String.substring 0 (sun_path_size - 1) (c_str socket_name) in
  n ← count_socket;
  let socket := libc_socket n AF_UNIX in
  _ ← modify (set_socket socket);
  if socket <? 0 then mret PStatus_Error
  else
    n ← count_connect;
    if libc_connect n socket sun_path 0 <? 0 then mret PStatus_Error else mret PStatus_OK.

Definition connect_to_control_plane (address : string) (port : Z) : M t unit :=
  h ← gets id;
  let status_or_throw (status : PStatus) : M t unit :=
    if is_error status then throw (RuntimeError "Error while creating connection.") else mret tt in
  match ConnectionOptions.m_connection_type (m_connection_options h) with
  | _unix => establish_unix_domain_socket_connection address ≫= status_or_throw
  | inet => establish_inet_connection address port ≫= status_or_throw
  | rpc => mret tt
  | none => status_or_throw PStatus_OK
  end.

(** The parameterized constructor, as a computation that ends with the new
    handler as state; [h] gives the agent and the network. *)
Definition make (connection_options : ConnectionOptions.t) (handler_type : ConnectionHandlerType) :
    M t unit :=
  _ ← modify (fun h => mk (-1) connection_options (m_agent_ptr h) handler_type (network h));
  connect_to_control_plane (ConnectionOptions.m_address connection_options)
    (ConnectionOptions.m_port connection_options).

(** The one that takes the default options. *)
Definition make_default (handler_type : ConnectionHandlerType) : M t unit :=
  connection_options ← ConnectionOptions.make_default;
  make connection_options handler_type.

Definition is_configured (h : t) : bool := 0 <=? m_socket h.

(** [convert_operation_type] of a number the enumeration does not have throws, and
    [log_control_operation] calls it when debugging. *)
Definition log_control_operation (debug_mode : bool) (operation : ControlOperation) : M t unit :=
  if debug_mode then
    if (0 <=? operation_type operation) && (operation_type operation <=? 8) then mret tt
    else throw (LogicError "ConnectionHandler: unrecognized operation type")
  else mret tt.

Definition log_return_value (debug_mode : bool) (operation : ControlOperation) : M t unit :=
  log_control_operation debug_mode operation.

End Calls.

End ConnectionHandler.

(** ** Theorem *)

Section Typing.
Import ConnectionHandler.
Context `{Sockets}.

(** A read has been made. *)
Definition after_read (h : t) : t :=
  let n := network h in
  set_network (Network.mk (S (Network.reads n)) (Network.writes n) (Network.sockets n)
                 (Network.connects n) (Network.sent n)) h.

(** The bytes that the next read would deliver. *)
Definition next_bytes (count : Z) (h : t) : option (list Z) :=
  take (Z.to_nat (u64 count)) <$> libc_read (Network.reads (network h)) (m_socket h) (u64 count).

Lemma socket_read_outcome (object : list Z) count h n :
  socket_read object count h n =
  if m_socket h =? -1 then Ok (-1, object) h n
  else match next_bytes count h with
       | None => Ok (-1, object) (after_read h) n
       | Some received =>
           if (length object <? length received)%nat
           then Crash (UndefinedBehaviour "read past the end of a structure")
           else Ok (Z.of_nat (length received), received ++ drop (length received) object)
                  (after_read h) n
       end.
Proof.
  unfold socket_read, next_bytes. rewrite gets_bind. destruct (m_socket h =? -1); [done|].
  unfold count_read, state, mbind, M_bind. destruct (libc_read _ _ _) as [bytes|]; [|done]. cbn.
  by case_match.
Qed.

(** C30.  What a read leaves in a structure, however few bytes the peer has sent.  Without a
    socket, or when the system call fails, the answer is -1 and the structure is as it
    was.  Otherwise the answer is the number of bytes that came; when they are the first
    bytes of a structure [sent], each member that they cover has the value it has in
    [sent], each member that they do not touch has the value it had, and the structure is
    [sent] when all of it came; and whatever the bytes are, the members are in the range
    of their C++ types, unless one is a [bool].  A run is lost only when more bytes come
    than the structure has. *)
Theorem received_structure_typed {A} `{RawLaws A} (object : A) count h n :
  valid object ->
  match read_raw object count h n with
  | Ok (read, object') h' n' =>
      n' = n /\ h' = (if m_socket h =? -1 then h else after_read h) /\
      match (if m_socket h =? -1 then None else next_bytes count h) with
      | None => read = -1 /\ object' = object
      | Some received =>
          read = Z.of_nat (length received) /\ read <= sizeof A /\
          (forall sent, valid sent -> received = take (length received) (bytes_of sent) ->
             (read = sizeof A -> object' = sent) /\
             forall i offset f, members (layout_of A) !! i = Some (offset, f) ->
               ((offset + width_of f <= length received)%nat ->
                to_values object' !! i = to_values sent !! i) /\
               ((length received <= offset)%nat -> to_values object' !! i = to_values object !! i)) /\
          (integral (layout_of A) -> Forall is_byte received -> valid object')
      end
  | Raise _ _ _ => False
  | Crash _ => m_socket h <> -1 /\ exists received, next_bytes count h = Some received /\
      sizeof A < Z.of_nat (length received)
  end.
Proof.
  intros Ho. unfold read_raw, mbind, M_bind. rewrite socket_read_outcome.
  pose proof (length_bytes_of object) as Hlen. pose proof (of_bytes_of object Ho) as Hsame.
  destruct (Z.eqb_spec (m_socket h) (-1)) as [|Hs]; [done|].
  destruct (next_bytes count h) as [received|]; [|done].
  destruct (Nat.ltb_spec (length (bytes_of object)) (length received)) as [Hlt|Hle].
  { split; [done|]. exists received. split; [done|lia]. }
  cbn [mret M_ret]. split; [done|]. split; [done|]. split; [done|]. split; [lia|]. split.
  - intros sent Hsent Hreceived. split; [intros Hall|intros i offset f Hi].
    + rewrite drop_ge by lia. rewrite app_nil_r, Hreceived, take_ge; [by apply of_bytes_of|].
      pose proof (length_bytes_of sent). lia.
    + rewrite to_values_of_bytes, (to_values_decode sent Hsent), (to_values_decode object Ho).
      pose proof (length_bytes_of sent). destruct (member_replaced (length received) (bytes_of object)
        (bytes_of sent) offset f ltac:(lia)) as [Hin Hout]. rewrite <- Hreceived in Hin, Hout.
      rewrite !decode_members, !list_lookup_fmap, Hi. cbn.
      split; intros Hm; f_equal; [by apply Hin|by apply Hout].
  - intros Hi Hb. apply of_bytes_valid; [done|]. apply Forall_app. split; [done|].
    apply Forall_drop, encode_range.
Qed.

End Typing.

(** A peer that answers every read with the same bytes. *)
Definition repeating (bytes : list Z) : Sockets := {|
  libc_read _ _ _ := Some bytes;
  libc_write _ _ count := count;
  libc_socket _ _ := 3;
  libc_connect _ _ _ _ := 0;
  inet_pton _ := 1;
|}.

(** The first 20 of the 56 bytes of a rule. *)
Definition sample_rule_raw : EnforcementRuleRaw := mkEnforcementRuleRaw 511 (-2) 9 2 7 8 9.
Definition cut_rule : Sockets := repeating (take 20 (bytes_of sample_rule_raw)).

Lemma received_structure_typed_witness : exists object : EnforcementRuleRaw, exists h' n',
  @ConnectionHandler.read_raw cut_rule _ _ default_EnforcementRuleRaw 56
    (ConnectionHandler.mk 3 (ConnectionOptions.mk inet "127.0.0.1" 12345) sample_agent
       southbound_handler Network.start) O = Ok (20, object) h' n' /\
  valid object /\ raw_rule_id object = 511 /\ raw_channel_id object = -2 /\
  raw_property_third object = -1.
Proof.
  pose proof (@received_structure_typed cut_rule EnforcementRuleRaw _ _ default_EnforcementRuleRaw 56
    (ConnectionHandler.mk 3 (ConnectionOptions.mk inet "127.0.0.1" 12345) sample_agent
       southbound_handler Network.start) O ltac:(apply fits_layoutb_sound; reflexivity)) as Ht.
  set (run := ConnectionHandler.read_raw _ _ _ _) in Ht |- *.
  assert (Hread : match run with Ok (read, _) _ _ => read | _ => 0 end = 20) by (vm_compute; reflexivity).
  destruct run as [[read object] h' n'| |]; [|done..]. exists object, h', n'.
  destruct Ht as (_ & _ & Ht). cbn [ConnectionHandler.m_socket Z.eqb] in Ht.
  destruct (next_bytes 56 _) as [received|] eqn:Hnext; [|exfalso; vm_compute in Hnext; discriminate].
  assert (Hreceived : received = take 20 (bytes_of sample_rule_raw))
    by (vm_compute in Hnext; injection Hnext as <-; vm_compute; reflexivity).
  destruct Ht as (_ & _ & Hmembers & Hvalid).
  destruct (Hmembers sample_rule_raw ltac:(apply fits_layoutb_sound; reflexivity)
    ltac:(by rewrite Hreceived)) as [_ Hm]. rewrite Hreceived in Hm, Hvalid.
  pose proof (proj1 (Hm 0%nat _ _ eq_refl) ltac:(vm_compute; lia)) as H0.
  pose proof (proj1 (Hm 1%nat _ _ eq_refl) ltac:(vm_compute; lia)) as H1.
  pose proof (proj2 (Hm 6%nat _ _ eq_refl) ltac:(vm_compute; lia)) as H6.
  injection H0 as H0. injection H1 as H1. injection H6 as H6.
  split; [by rewrite <- Hread|]. split; [|by split_and!].
  apply Hvalid; [repeat constructor; discriminate|apply Forall_take, encode_range].
Defined.
