(* ===== verification/Southbound.v ===== *)
(** * The southbound connection handler

    [SouthboundConnectionHandler] ([southbound_connection_handler.cpp]): the loop
    that reads control operations from the socket, carries them out through the
    agent and answers.  The requests that change the stage are also given as an
    abstract specification, which the handler refines. *)

From S2P Require Import Prelude MachineInt Binary64 Options Differentiation.
From S2P Require Import Rules TokenBucketStats TokenBucket EnforcementObjects.
From S2P Require Import ChannelStatistics Channel Core RulesParser StageInfo Agent.
From S2P Require Import Networking.

Inductive ControlPlaneOperationType :=
| stage_handshake | mark_stage_ready | collect_stats | collect_detailed_stats | create_hsk_rule
| create_dif_rule | create_enf_rule | exec_hsk_rules | remove_rule_.

Definition operation_type_code (type : ControlPlaneOperationType) : Z :=
  match type with
  | stage_handshake => 0 | mark_stage_ready => 1 | collect_stats => 2 | collect_detailed_stats => 3
  | create_hsk_rule => 4 | create_dif_rule => 5 | create_enf_rule => 6 | exec_hsk_rules => 7
  | remove_rule_ => 8
  end.

(** The enumerator a [static_cast] yields, when there is one. *)
Definition operation_type_of (code : Z) : option ControlPlaneOperationType :=
  find (fun type => operation_type_code type =? code)
    [stage_handshake; mark_stage_ready; collect_stats; collect_detailed_stats; create_hsk_rule;
     create_dif_rule; create_enf_rule; exec_hsk_rules; remove_rule_].

Inductive ControlPlaneOperationSubtype :=
| sub_hsk_create_channel | sub_hsk_create_object | collect_stats_rocksdb | collect_stats_tensorflow
| collect_stats_global | collect_stats_metadata_data | collect_stats_mds | sub_no_op.

Definition operation_subtype_code (subtype : ControlPlaneOperationSubtype) : Z :=
  match subtype with
  | sub_hsk_create_channel => 1 | sub_hsk_create_object => 2 | collect_stats_rocksdb => 3
  | collect_stats_tensorflow => 4 | collect_stats_global => 5 | collect_stats_metadata_data => 6
  | collect_stats_mds => 7 | sub_no_op => 0
  end.

Definition operation_subtype_of (code : Z) : option ControlPlaneOperationSubtype :=
  find (fun subtype => operation_subtype_code subtype =? code)
    [sub_hsk_create_channel; sub_hsk_create_object; collect_stats_rocksdb; collect_stats_tensorflow;
     collect_stats_global; collect_stats_metadata_data; collect_stats_mds; sub_no_op].

Definition AckCode_ok : Z := 1.
Definition AckCode_error : Z := 0.

(** The order in which the hash table of the rules lists its keys. *)
Class RulesOrder := rules_order : HousekeepingTable.t -> list Z.

Module SouthboundConnectionHandler.
Import ConnectionHandler.

(** ** Aggregating the statistics of the channels *)

Definition DetailedStats : Type := list (Z * list double).

Definition double_ne_0 (x : double) : bool := negb (SpecFloat.SFeqb x d0).

Record KvsRates := mkKvsRates {
  valid_l0_compaction_io_flows : Z;     (* int *)
  rate_fg_tasks : double;
  rate_bg_tasks_flush : double;
  rate_bg_tasks_compaction_l0 : double;
  rate_bg_tasks_compaction_lN : double;
}.

(** [entry.second[code % size]] *)
Definition entry_at {S} (entries : list double) (code size : Z) : M S double :=
  vector_index entries (Z.rem code size).

Definition kvs_at {S} (entries : list double) (op : LSM_KVS_DETAILED_.t) : M S double :=
  entry_at entries (LSM_KVS_DETAILED_.code op) lsm_kvs_detailed_size.

(** What a channel adds. *)
Definition add_kvs_entry {S} (entry : Z * list double) (r : KvsRates) : M S KvsRates :=
  let '(entry_flow_id, entries) := entry in
  if entry_flow_id <? 2000 then
    x ← kvs_at entries LSM_KVS_DETAILED_.foreground;
    mret (mkKvsRates (valid_l0_compaction_io_flows r) (dadd (rate_fg_tasks r) x)
            (rate_bg_tasks_flush r) (rate_bg_tasks_compaction_l0 r) (rate_bg_tasks_compaction_lN r))
  else if entry_flow_id =? 2000 then
    x ← kvs_at entries LSM_KVS_DETAILED_.bg_flush;
    mret (mkKvsRates (valid_l0_compaction_io_flows r) (rate_fg_tasks r)
            (dadd (rate_bg_tasks_flush r) x) (rate_bg_tasks_compaction_l0 r)
            (rate_bg_tasks_compaction_lN r))
  else
    let previous_value := rate_bg_tasks_compaction_l0 r in
    l0_l0 ← kvs_at entries LSM_KVS_DETAILED_.bg_compaction_L0_L0;
    l0_l1 ← kvs_at entries LSM_KVS_DETAILED_.bg_compaction_L0_L1;
    let l0 := dadd previous_value (dadd l0_l0 l0_l1) in
    l1_l2 ← kvs_at entries LSM_KVS_DETAILED_.bg_compaction_L1_L2;
    l2_l3 ← kvs_at entries LSM_KVS_DETAILED_.bg_compaction_L2_L3;
    lN ← kvs_at entries LSM_KVS_DETAILED_.bg_compaction_LN;
    mret (mkKvsRates
            (if dgt l0 previous_value then s32 (valid_l0_compaction_io_flows r + 1)
             else valid_l0_compaction_io_flows r)
            (rate_fg_tasks r) (rate_bg_tasks_flush r) l0
            (dadd (rate_bg_tasks_compaction_lN r) (dadd (dadd l1_l2 l2_l3) lN))).

(** A loop over the entries of the map. *)
Fixpoint for_entries {S A} (body : Z * list double -> A -> M S A) (stats : DetailedStats) (acc : A) :
    M S A :=
  match stats with
  | [] => mret acc
  | entry :: stats => acc ← body entry acc; for_entries body stats acc
  end.

(** The aggregations: the status, and the message as they leave it. *)
Definition aggregate_kvs_statistics {S} (stats : DetailedStats) (raw : Sent) : M S (PStatus * Sent) :=
  match stats with
  | [] => mret (PStatus_Error, raw)
  | _ =>
      r ← for_entries add_kvs_entry stats (mkKvsRates 0 d0 d0 d0 d0);
      let l0 := rate_bg_tasks_compaction_l0 r in
      mret (PStatus_OK,
            sent_silk (rate_fg_tasks r) (rate_bg_tasks_flush r)
              (if double_ne_0 l0 then ddiv l0 (to_double (valid_l0_compaction_io_flows r)) else l0)
              (rate_bg_tasks_compaction_lN r))
  end.

Definition posix_at {S} (entries : list double) (op : POSIX_.t) : M S double :=
  entry_at entries (POSIX_.code op) posix_size.

Definition add_tf_entry {S} (entry : Z * list double) (rates : double * double) :
    M S (double * double) :=
  let '(read_io_rate, write_io_rate) := rates in
  let entries := snd entry in
  r0 ← posix_at entries POSIX_.no_op;
  r1 ← posix_at entries POSIX_.read;
  r2 ← posix_at entries POSIX_.pread;
  r3 ← posix_at entries POSIX_.pread64;
  w0 ← posix_at entries POSIX_.write;
  w1 ← posix_at entries POSIX_.pwrite;
  w2 ← posix_at entries POSIX_.pwrite64;
  mret (dadd (dadd (dadd (dadd read_io_rate r0) r1) r2) r3,
        dadd (dadd (dadd write_io_rate w0) w1) w2).

Definition aggregate_tf_statistics {S} (stats : DetailedStats) (raw : Sent) : M S (PStatus * Sent) :=
  match stats with
  | [] => mret (PStatus_Error, raw)
  | _ =>
      '(read_io_rate, write_io_rate) ← for_entries add_tf_entry stats (d0, d0);
      mret (PStatus_OK, sent_tensorflow read_io_rate write_io_rate)
  end.

(** [std::accumulate] from 0.0 *)
Definition accumulate (entries : list double) : double := foldl dadd d0 entries.

Definition aggregate_global_statistics {S} (stats : DetailedStats) (raw : Sent) :
    M S (PStatus * Sent) :=
  match stats with
  | [] => mret (PStatus_Error, raw)
  | _ =>
      mret (PStatus_OK,
            sent_global (foldl (fun global_rate entry => dadd global_rate (accumulate (snd entry)))
                           d0 stats))
  end.

Definition add_metadata_entry {S} (entry : Z * list double) (rates : double * double) :
    M S (double * double) :=
  let '(data_rate, metadata_rate) := rates in
  d ← entry_at (snd entry) (POSIX_META_.code POSIX_META_.data_op) posix_meta_size;
  m ← entry_at (snd entry) (POSIX_META_.code POSIX_META_.meta_op) posix_meta_size;
  mret (dadd data_rate d, dadd metadata_rate m).

Definition aggregate_metadata_data_statistics {S} (stats : DetailedStats) (raw : Sent) :
    M S (PStatus * Sent) :=
  match stats with
  | [] => mret (PStatus_Error, raw)
  | _ =>
      '(data_rate, metadata_rate) ← for_entries add_metadata_entry stats (d0, d0);
      mret (PStatus_OK, sent_data_metadata metadata_rate data_rate)
  end.

Section Calls.
Context `{SystemClock} `{Sockets} `{Process} `{RulesOrder}.
(** Fuel of the loops of the token buckets. *)
Context (fuel : nat).

(** The parameterized constructor. *)
Definition make (connection_options : ConnectionOptions.t) : M t unit :=
  ConnectionHandler.make connection_options southbound_handler.

(** ** Reading an operation and answering *)

(** The exception carries the text of [errno]. *)
Definition read_control_operation_from_socket (operation : ControlOperation) :
    M t (Z * ControlOperation) :=
  socket ← gets m_socket;
  if 0 <? socket then read_raw operation (sizeof ControlOperation)
  else throw (RuntimeError "SouthboundConnectionHandler: invalid socket").

Definition send_ack (success : bool) : M t Z :=
  socket_write (sent_ack (if success then AckCode_ok else AckCode_error)) 4.

(** ** Operations *)

(** A [bool] holds 0 or 1. *)
Definition mark_stage_as_ready (operation : ControlOperation) : M t Z :=
  '(return_value, mark_stage) ← read_raw (mkStageReadyRaw 0) (m_size operation);
  status ← (if return_value <=? 0 then mret PStatus_Error
            else if m_mark_stage mark_stage =? 0 then mret PStatus_Error
            else if m_mark_stage mark_stage =? 1 then
              _ ← on_agent Agent.mark_data_plane_stage_ready;
              mret PStatus_OK
            else crash_with (UndefinedBehaviour "bool that is neither 0 nor 1"));
  send_ack (is_ok status).

(** The loop that sends the statistics of the channels. *)
Fixpoint send_channel_stats (channel_stats : list ChannelStatsRaw) (total_of_written_bytes : Z) :
    M t Z :=
  match channel_stats with
  | [] => mret total_of_written_bytes
  | channel_stat :: channel_stats =>
      return_value ← socket_write (sent_channel_stats channel_stat) 24;
      if negb (return_value =? 24) then
        throw (RuntimeError "CollectStatistics: failed to send the collected statistics.")
      else send_channel_stats channel_stats (total_of_written_bytes + return_value)
  end.

Definition collect_statistics (operation : ControlOperation) : M t Z :=
  '(return_value, collect_stats_meta) ←
    read_raw default_CollectStatisticsMetadata (m_size operation);
  if return_value <=? 0 then
    throw (RuntimeError "Error while reading CollectStatisticsMetadata object")
  else
    '(status, channel_stats) ← on_agent (Agent.collect_channel_statistics
        (metadata_channel_id collect_stats_meta) []);
    if is_ok status then
      let response := mkCollectStatisticsMetadata (-1) (s32 (Z.of_nat (length channel_stats))) in
      return_value ← socket_write (sent_metadata response) (m_size operation);
      if negb (return_value =? sizeof CollectStatisticsMetadata) then
        throw (RuntimeError "CollectStatistics: failed to send the number of collected statistics.")
      else send_channel_stats channel_stats return_value
    else mret 0.

(** The cases of [collect_instance_statistics]: collect, aggregate, send. *)
Definition collect_and_send (aggregate : DetailedStats -> Sent -> M t (PStatus * Sent)) (raw : Sent)
    (size : Z) : M t Z :=
  '(status, detailed_stats) ← on_agent (Agent.collect_detailed_channel_statistics (-1) []);
  message ← (if is_ok status then '(_, message) ← aggregate detailed_stats raw; mret message
             else mret raw);
  socket_write message size.

Definition collect_instance_statistics (operation : ControlOperation) : M t Z :=
  match operation_subtype_of (operation_subtype operation) with
  | Some collect_stats_rocksdb =>
      return_value ← collect_and_send aggregate_kvs_statistics (sent_silk d0 d0 d0 d0) 32;
      if negb (return_value =? 32) then
        throw (RuntimeError "CollectInstanceStatistics: failed to write KVS statistics.")
      else mret return_value
  | Some collect_stats_tensorflow =>
      collect_and_send aggregate_tf_statistics (sent_tensorflow d0 d0) 16
  | Some collect_stats_global => collect_and_send aggregate_global_statistics (sent_global d0) 8
  | Some collect_stats_metadata_data =>
      collect_and_send aggregate_metadata_data_statistics (sent_data_metadata d0 d0) 16
  | _ => mret (-1)
  end.

(** The rules that the raw structures stand for. *)
Definition channel_rule_of (r : HousekeepingCreateChannelRaw) : HousekeepingRule.t :=
  HousekeepingRule.make (cc_rule_id r) hsk_create_channel (cc_channel_id r) (-1)
    [cc_context_definition r; cc_workflow_id r; cc_operation_type r; cc_operation_context r].

Definition object_rule_of (r : HousekeepingCreateObjectRaw) : HousekeepingRule.t :=
  HousekeepingRule.make (u64 (co_rule_id r)) hsk_create_object (co_channel_id r)
    (co_enforcement_object_id r)
    [co_context_definition r; co_operation_type r; co_operation_context r;
     co_enforcement_object_type r; co_property_first r; co_property_second r].

Definition create_housekeeping_rule (operation : ControlOperation) : M t Z :=
  status ← (match operation_subtype_of (operation_subtype operation) with
            | Some sub_hsk_create_channel =>
                '(return_value, create_channel_rule) ←
                  read_raw default_CreateChannelRaw (m_size operation);
                if return_value <=? 0 then mret PStatus_Error
                else on_agent (Agent.employ_housekeeping_rule fuel
                                 (channel_rule_of create_channel_rule))
            | Some sub_hsk_create_object =>
                '(return_value, create_object_rule) ←
                  read_raw default_CreateObjectRaw (m_size operation);
                if return_value <=? 0 then mret PStatus_Error
                else on_agent (Agent.employ_housekeeping_rule fuel (object_rule_of create_object_rule))
            | Some _ => throw (RuntimeError "Unsupported operation type.")
            | None => mret PStatus_Error
            end);
  send_ack (is_ok status).

Definition create_differentiation_rule (operation : ControlOperation) : M t Z :=
  throw (RuntimeError "create_differentiation_rule not implemented.").

Definition create_enforcement_rule (operation : ControlOperation) : M t Z :=
  '(return_value, enforcement_rule) ← read_raw default_EnforcementRuleRaw (m_size operation);
  status ← (if return_value <=? 0 then mret PStatus_Error
            else on_agent (Agent.employ_enforcement_rule fuel
                             (EnforcementRule.of_raw enforcement_rule)));
  send_ack (is_ok status).

Definition execute_housekeeping_rules (operation : ControlOperation) : M t Z :=
  h ← gets id;
  let order := rules_order (Core.m_housekeeping_table (Agent.m_core (m_agent_ptr h))) in
  status ← on_agent (Agent.execute_housekeeping_rules fuel order);
  send_ack (negb (is_error status)).

Definition remove_rule (operation : ControlOperation) : M t Z :=
  throw (RuntimeError "remove_rule not implemented.").

Definition handle_control_operation (operation : ControlOperation) (debug : bool) : M t Z :=
  _ ← log_control_operation debug operation;
  return_value ← (match operation_type_of (operation_type operation) with
                  | Some mark_stage_ready => mark_stage_as_ready operation
                  | Some collect_stats => collect_statistics operation
                  | Some collect_detailed_stats => collect_instance_statistics operation
                  | Some create_hsk_rule => create_housekeeping_rule operation
                  | Some create_dif_rule => create_differentiation_rule operation
                  | Some create_enf_rule => create_enforcement_rule operation
                  | Some exec_hsk_rules => execute_housekeeping_rules operation
                  | Some remove_rule_ => remove_rule operation
                  | _ => throw (LogicError "SouthboundConnectionHandler: unknown operation type")
                  end);
  _ ← log_return_value debug operation;
  mret return_value.

(** [shutdown i] is the [i]-th reading of the flag that the stage sets to stop
    its threads. *)
Context (shutdown : nat -> bool).

(** The loop, from its [i]-th test on; [rounds] is the fuel. *)
Fixpoint listen_loop (debug : bool) (rounds : nat) (i : nat) (control_operation : ControlOperation)
    (read_bytes : Z) : M t unit :=
  match rounds with
  | O => crash_with OutOfFuel
  | S rounds =>
      if (0 <? read_bytes) && negb (shutdown i) then
        read_bytes ← handle_control_operation control_operation debug;
        if read_bytes <=? 0 then
          throw (RuntimeError "ConnectionManager: failed to receive control operation.")
        else
          '(read_bytes, control_operation) ← read_control_operation_from_socket control_operation;
          listen_loop debug rounds (S i) control_operation read_bytes
      else mret tt
  end.

Definition listen (debug : bool) (rounds : nat) : M t unit :=
  '(read_bytes, control_operation) ← read_control_operation_from_socket zero_ControlOperation;
  listen_loop debug rounds O control_operation read_bytes.

End Calls.

End SouthboundConnectionHandler.

(** ** The requests that change the stage

    What the control plane asks, how it is written on the socket, what it means
    for the agent. *)

Inductive Request :=
| StageReady (ready : bool)
| CreateChannelRequest (rule : HousekeepingCreateChannelRaw)
| CreateObjectRequest (rule : HousekeepingCreateObjectRaw)
| EnforceRequestRule (rule : EnforcementRuleRaw)
| ExecutePending.

Definition request_type (r : Request) : ControlPlaneOperationType :=
  match r with
  | StageReady _ => mark_stage_ready
  | CreateChannelRequest _ | CreateObjectRequest _ => create_hsk_rule
  | EnforceRequestRule _ => create_enf_rule
  | ExecutePending => exec_hsk_rules
  end.

Definition request_subtype (r : Request) : ControlPlaneOperationSubtype :=
  match r with
  | CreateChannelRequest _ => sub_hsk_create_channel
  | CreateObjectRequest _ => sub_hsk_create_object
  | _ => sub_no_op
  end.

(** The structure that follows the operation, when there is one. *)
Definition request_body (r : Request) : list (list Z) :=
  match r with
  | StageReady ready => [bytes_of (mkStageReadyRaw (if ready then 1 else 0))]
  | CreateChannelRequest rule => [bytes_of rule]
  | CreateObjectRequest rule => [bytes_of rule]
  | EnforceRequestRule rule => [bytes_of rule]
  | ExecutePending => []
  end.

Definition request_operation (id : Z) (r : Request) : ControlOperation :=
  mkControlOperation id (operation_type_code (request_type r))
    (operation_subtype_code (request_subtype r)) (Z.of_nat (length (concat (request_body r)))).

Definition request_valid (r : Request) : Prop :=
  match r with
  | CreateChannelRequest rule => valid rule
  | CreateObjectRequest rule => valid rule
  | EnforceRequestRule rule => valid rule
  | StageReady _ | ExecutePending => True
  end.

(** The writes of the control plane for a sequence of requests. *)
Definition chunks (requests : list (Z * Request)) : list (list Z) :=
  concat ((fun '(id, r) => bytes_of (request_operation id r) :: request_body r) <$> requests).

Section Meaning.
Context `{SystemClock} `{RulesOrder} (fuel : nat).

Definition request_effect (r : Request) : M Agent.t PStatus :=
  match r with
  | StageReady ready =>
      if ready then _ ← Agent.mark_data_plane_stage_ready; mret PStatus_OK else mret PStatus_Error
  | CreateChannelRequest rule =>
      Agent.employ_housekeeping_rule fuel (SouthboundConnectionHandler.channel_rule_of rule)
  | CreateObjectRequest rule =>
      Agent.employ_housekeeping_rule fuel (SouthboundConnectionHandler.object_rule_of rule)
  | EnforceRequestRule rule => Agent.employ_enforcement_rule fuel (EnforcementRule.of_raw rule)
  | ExecutePending => fun a =>
      Agent.execute_housekeeping_rules fuel
        (rules_order (Core.m_housekeeping_table (Agent.m_core a))) a
  end.

(** The requests one after the other, with their statuses. *)
Fixpoint serve_all (requests : list (Z * Request)) : M Agent.t (list PStatus) :=
  match requests with
  | [] => mret []
  | (_, r) :: requests =>
      status ← request_effect r;
      statuses ← serve_all requests;
      mret (status :: statuses)
  end.

End Meaning.

(** ** The handler carries them out *)

Section Refinement.
Import SouthboundConnectionHandler ConnectionHandler.
Context `{SystemClock} `{Sockets} `{Process} `{RulesOrder} (fuel : nat).

Definition after_write (message : Sent) (h : t) : t :=
  set_network (Network.mk (Network.reads (network h)) (S (Network.writes (network h)))
    (Network.sockets (network h)) (Network.connects (network h))
    (Network.sent (network h) ++ [(m_socket h, message)])) h.

Definition after_body (r : Request) (h : t) : t :=
  match request_body r with [] => h | _ => after_read h end.

Definition ack_of (status : PStatus) : Sent :=
  sent_ack (if is_ok status then AckCode_ok else AckCode_error).

(** What the socket delivers of a request. *)
Definition delivers (h : t) (r : Request) : Prop :=
  forall body, request_body r = [body] ->
    libc_read (Network.reads (network h)) (m_socket h) (Z.of_nat (length body)) = Some body.

Lemma read_raw_whole {A} `{RawLaws A} (object a : A) h n :
  m_socket h <> -1 -> valid a -> word 64 (sizeof A) ->
  libc_read (Network.reads (network h)) (m_socket h) (sizeof A) = Some (bytes_of a) ->
  read_raw object (sizeof A) h n = Ok (sizeof A, a) (after_read h) n.
Proof.
  intros Hs Ha Hsize Hread. unfold read_raw, socket_read.
  assert (Hlen : length (bytes_of a) = size_of (layout_of A)) by apply length_encode.
  assert (Hobj : length (bytes_of object) = size_of (layout_of A)) by apply length_encode.
  unfold mbind, M_bind, gets. rewrite (proj2 (Z.eqb_neq _ _)) by done. cbn [count_read state].
  rewrite u64_small by done. unfold count_read, state. rewrite Hread.
  unfold sizeof in *. rewrite Nat2Z.id, take_ge, Hlen, Hobj, Nat.ltb_irrefl by lia.
  cbn [mret M_ret]. rewrite drop_ge, app_nil_r by lia. by rewrite of_bytes_of.
Qed.

Lemma send_ack_runs success h n : m_socket h <> -1 ->
  send_ack success h n =
  Ok (libc_write (Network.writes (network h)) (m_socket h) 4)
    (after_write (sent_ack (if success then AckCode_ok else AckCode_error)) h) n.
Proof.
  intros Hs. unfold send_ack, socket_write. rewrite gets_bind.
  by rewrite (proj2 (Z.eqb_neq _ _)).
Qed.

Lemma log_runs debug operation (h : t) n :
  0 <= operation_type operation <= 8 -> log_control_operation debug operation h n = Ok tt h n.
Proof.
  intros Ht. unfold log_control_operation. destruct debug; [|done].
  by rewrite (proj2 (Z.leb_le 0 _)), (proj2 (Z.leb_le _ 8)) by lia.
Qed.

Lemma execute_rules_status order a n st a' n' :
  Agent.execute_housekeeping_rules fuel order a n = Ok st a' n' -> negb (is_error st) = is_ok st.
Proof.
  intros Hrun. unfold Agent.execute_housekeeping_rules in Hrun.
  apply bind_Ok_inv in Hrun as (status & b & k & _ & Hrun).
  destruct status; by injection Hrun as <- _ _.
Qed.

(** What a handler does with a request that has been delivered. *)
Definition answer (r : Request) (h : t) (o : Outcome Agent.t PStatus) : Outcome t Z :=
  match o with
  | Ok status a n =>
      Ok (libc_write (Network.writes (network h)) (m_socket h) 4)
        (after_write (ack_of status) (set_agent a (after_body r h))) n
  | Raise e a n => Raise e (set_agent a (after_body r h)) n
  | Crash c => Crash c
  end.

Lemma request_size_word (r : Request) :
  match r with
  | StageReady _ => word 64 (sizeof StageReadyRaw)
  | CreateChannelRequest _ => word 64 (sizeof HousekeepingCreateChannelRaw)
  | CreateObjectRequest _ => word 64 (sizeof HousekeepingCreateObjectRaw)
  | EnforceRequestRule _ => word 64 (sizeof EnforcementRuleRaw)
  | ExecutePending => True
  end.
Proof. by destruct r; try done; vm_compute. Qed.

Lemma body_read {A} `{RawLaws A} (object a : A) r h n :
  request_body r = [bytes_of a] -> m_socket h <> -1 -> valid a -> word 64 (sizeof A) -> delivers h r ->
  forall id, read_raw object (m_size (request_operation id r)) h n =
    Ok (sizeof A, a) (after_read h) n.
Proof.
  intros Hbody Hs Ha Hsize Hd id.
  assert (Hm : m_size (request_operation id r) = sizeof A).
  { cbn [request_operation m_size]. rewrite Hbody. cbn [concat]. by rewrite app_nil_r, length_bytes_of. }
  rewrite Hm. apply read_raw_whole; try done.
  rewrite <- (length_bytes_of a). by apply Hd.
Qed.

(** A run on the agent followed by the answer. *)
Lemma effect_and_ack (m : M Agent.t PStatus) r h n :
  m_socket h <> -1 -> after_body r h = after_read h ->
  (on_agent m ≫= fun status => send_ack (is_ok status)) (after_read h) n =
  answer r h (m (m_agent_ptr h) n).
Proof.
  intros Hs Hb. unfold answer. rewrite Hb. unfold mbind, M_bind, on_agent, zoom.
  change (m_agent_ptr (after_read h)) with (m_agent_ptr h).
  destruct (m (m_agent_ptr h) n) as [st a k|e a k|c]; [|done..].
  by rewrite send_ack_runs.
Qed.

Lemma size_positive n : (0 < n)%nat -> (Z.of_nat n <=? 0) = false.
Proof. intros Hn. apply Z.leb_gt. lia. Qed.

Lemma request_type_read id r :
  operation_type_of (operation_type (request_operation id r)) = Some (request_type r).
Proof. by destruct r. Qed.

Lemma request_served_aux id r debug h n :
  m_socket h <> -1 -> request_valid r -> delivers h r ->
  handle_control_operation fuel (request_operation id r) debug h n =
  answer r h (request_effect fuel r (m_agent_ptr h) n).
Proof.
  intros Hs Hr Hd. unfold handle_control_operation.
  rewrite (bind_Ok _ _ _ _ _ _ _ (log_runs debug (request_operation id r) h n ltac:(by destruct r))).
  rewrite request_type_read.
  enough (Hmain : match request_type r with
      | mark_stage_ready => mark_stage_as_ready (request_operation id r)
      | create_hsk_rule => create_housekeeping_rule fuel (request_operation id r)
      | create_enf_rule => create_enforcement_rule fuel (request_operation id r)
      | _ => execute_housekeeping_rules fuel (request_operation id r)
      end h n = answer r h (request_effect fuel r (m_agent_ptr h) n)).
  { unfold mbind, M_bind. destruct r; cbn [request_type] in *; rewrite Hmain;
    destruct (answer _ h _) as [x h' k| |]; try done;
    unfold log_return_value; by rewrite log_runs. }
  destruct r as [ready|rule|rule|rule|]; cbn [request_type].
  - unfold mark_stage_as_ready.
    rewrite (bind_Ok _ _ _ _ _ _ _ (body_read (mkStageReadyRaw 0)
      (mkStageReadyRaw (if ready then 1 else 0)) (StageReady ready) h n eq_refl Hs
      ltac:(by destruct ready) (request_size_word (StageReady ready)) Hd id)).
    rewrite <- effect_and_ack by done. by destruct ready.
  - unfold create_housekeeping_rule.
    change (operation_subtype_of (operation_subtype (request_operation id (CreateChannelRequest rule))))
      with (Some sub_hsk_create_channel). cbv iota.
    rewrite <- effect_and_ack by done. unfold mbind at 1 3, M_bind at 1 3.
    erewrite bind_Ok; [|apply (body_read _ rule); try done; apply (request_size_word (CreateChannelRequest rule))].
    done.
  - unfold create_housekeeping_rule.
    change (operation_subtype_of (operation_subtype (request_operation id (CreateObjectRequest rule))))
      with (Some sub_hsk_create_object). cbv iota.
    rewrite <- effect_and_ack by done. unfold mbind at 1 3, M_bind at 1 3.
    erewrite bind_Ok; [|apply (body_read _ rule); try done; apply (request_size_word (CreateObjectRequest rule))].
    done.
  - unfold create_enforcement_rule.
    erewrite bind_Ok; [|apply (body_read _ rule); try done; apply (request_size_word (EnforceRequestRule rule))].
    rewrite <- effect_and_ack by done. done.
  - unfold execute_housekeeping_rules. rewrite gets_bind. unfold mbind, M_bind, on_agent, zoom, Datatypes.id.
    cbn [request_effect answer after_body request_body].
    destruct (Agent.execute_housekeeping_rules fuel _ (m_agent_ptr h) n) as [st a k| |] eqn:Hrun; [|done..].
    rewrite (execute_rules_status _ _ _ _ _ _ Hrun). by rewrite send_ack_runs.
Qed.

(** ** The loop *)

(** From the [reads]-th read on, the socket delivers the chunks, a read each, and
    then the end of the stream. *)
Definition stream (fd : Z) (reads : nat) (cs : list (list Z)) : Prop :=
  (forall i c, cs !! i = Some c -> libc_read (reads + i) fd (Z.of_nat (length c)) = Some c) /\
  libc_read (reads + length cs) fd (sizeof ControlOperation) = Some [].

Lemma stream_cons fd reads c cs : stream fd reads (c :: cs) ->
  libc_read reads fd (Z.of_nat (length c)) = Some c /\ stream fd (S reads) cs.
Proof.
  intros [Hc Hend]. split; [rewrite <- (Nat.add_0_r reads) at 1; by apply (Hc O)|]. split.
  - intros i x Hx. rewrite Nat.add_succ_comm. by apply (Hc (S i)).
  - by rewrite Nat.add_succ_comm.
Qed.

Lemma chunks_cons id r rs :
  chunks ((id, r) :: rs) = bytes_of (request_operation id r) :: request_body r ++ chunks rs.
Proof. done. Qed.

Lemma request_operation_valid id r : is_int id -> valid (request_operation id r).
Proof.
  unfold is_int, int_min, int_max. intros Hid.
  destruct r; cbn; change (2 ^ (8 * Z.of_nat 4 - 1)) with (2 ^ 31); split_and!; done || lia.
Qed.

Lemma body_delivered h r cs : stream (m_socket h) (Network.reads (network h)) (request_body r ++ cs) ->
  delivers h r /\ stream (m_socket h) (Network.reads (network (after_body r h))) cs.
Proof.
  intros Hst. unfold delivers, after_body. destruct r; cbn [request_body app] in *;
    [apply stream_cons in Hst as [Hr Hst]..|]; (split; [intros body [= <-]; done|done]) || by split.
Qed.

Variable shutdown : nat -> bool.

Lemma listen_serves debug rs : forall h n i rounds op statuses a' n',
  (forall i, shutdown i = false) -> 0 < m_socket h ->
  (forall k, libc_write k (m_socket h) 4 = 4) ->
  Forall (fun '(id, r) => is_int id /\ request_valid r) rs ->
  stream (m_socket h) (Network.reads (network h)) (chunks rs) -> (length rs < rounds)%nat ->
  serve_all fuel rs (m_agent_ptr h) n = Ok statuses a' n' ->
  exists h',
    (read_control_operation_from_socket op ≫= fun '(read_bytes, op) =>
       listen_loop fuel shutdown debug rounds i op read_bytes) h n = Ok tt h' n' /\
    m_agent_ptr h' = a' /\
    Network.sent (network h') =
      Network.sent (network h) ++ ((fun status => (m_socket h, ack_of status)) <$> statuses).
Proof.
  induction rs as [|[id r] rs IH];
    intros h n i rounds op statuses a' n' Hshut Hs Hw Hrs Hst Hrounds Hrun;
    (destruct rounds as [|rounds]; [simpl in Hrounds; lia|]).
  - injection Hrun as <- <- <-. exists (after_read h).
    rewrite (bind_Ok _ _ _ _ (0, of_bytes (bytes_of op)) (after_read h) n); [by rewrite app_nil_r|].
    unfold read_control_operation_from_socket. rewrite gets_bind.
    rewrite (proj2 (Z.ltb_lt _ _)) by done. destruct Hst as [_ Hend].
    rewrite Nat.add_0_r in Hend. unfold read_raw, socket_read, mbind, M_bind, gets.
    rewrite (proj2 (Z.eqb_neq _ _)) by lia. unfold count_read, state.
    change (u64 (sizeof ControlOperation)) with (sizeof ControlOperation). rewrite Hend.
    by rewrite take_nil.
  - apply Forall_cons_1 in Hrs as [[Hid Hr] Hrs]. rewrite chunks_cons in Hst.
    apply stream_cons in Hst as [Hhead Hst]. rewrite length_bytes_of in Hhead.
    apply bind_Ok_inv in Hrun as (status & a & k & Heffect & Hrun).
    apply bind_Ok_inv in Hrun as (rest & a2 & k2 & Hrest & Hrun). injection Hrun as <- <- <-.
    change (stream (m_socket (after_read h)) (Network.reads (network (after_read h)))
              (request_body r ++ chunks rs)) in Hst.
    apply body_delivered in Hst as [Hbody Hst].
    set (h2 := after_write (ack_of status) (set_agent a (after_body r (after_read h)))).
    assert (Hsocket : m_socket h2 = m_socket h) by (by destruct r).
    destruct (IH h2 k (S i) rounds (request_operation id r) rest a2 k2) as (h' & Hloop & Ha & Hsent).
    + done.
    + by rewrite Hsocket.
    + by rewrite Hsocket.
    + done.
    + rewrite Hsocket. by destruct r.
    + simpl in Hrounds. lia.
    + by destruct r.
    + exists h'. rewrite (bind_Ok _ _ _ _ (sizeof ControlOperation, request_operation id r)
        (after_read h) n).
      * cbn [listen_loop]. rewrite Hshut. change (0 <? sizeof ControlOperation) with true. cbn [andb negb].
        rewrite (bind_Ok _ _ _ _ 4 h2 k).
        -- change (4 <=? 0) with false. cbv iota. split; [exact Hloop|]. split; [done|].
           rewrite Hsent, Hsocket. unfold h2. destruct r; cbn; by rewrite <- app_assoc.
        -- rewrite request_served_aux by (done || (cbn; lia)).
           change (m_agent_ptr (after_read h)) with (m_agent_ptr h). rewrite Heffect.
           cbn [answer]. by rewrite Hw.
      * unfold read_control_operation_from_socket. rewrite gets_bind.
        rewrite (proj2 (Z.ltb_lt _ _)) by done.
        apply read_raw_whole; [lia|by apply request_operation_valid|done|done].
Qed.

(** ** What every message keeps *)

Section Keeps.
Variable ready : bool.

Definition handler_sound (h : t) : Prop := sound ready (m_agent_ptr h).

Lemma socket_read_sound object count h n :
  handler_sound h -> keeps handler_sound (socket_read object count h n).
Proof.
  intros Hh. unfold socket_read. rewrite gets_bind. destruct (_ =? _); [done|].
  apply keeps_bind; [done|]. intros k h' n' Hh'. destruct (libc_read _ _ _); [|done].
  by destruct (_ <? _)%nat.
Qed.

Lemma read_raw_sound {A} `{Raw A} (object : A) count h n :
  handler_sound h -> keeps handler_sound (read_raw object count h n).
Proof.
  intros Hh. unfold read_raw. apply keeps_bind; [by apply socket_read_sound|]. by intros [].
Qed.

Lemma socket_write_sound message count h n :
  handler_sound h -> keeps handler_sound (socket_write message count h n).
Proof.
  intros Hh. unfold socket_write. rewrite gets_bind. destruct (_ =? _); [done|].
  by destruct (_ <? _).
Qed.

Lemma send_ack_sound success h n :
  handler_sound h -> keeps handler_sound (send_ack success h n).
Proof. apply socket_write_sound. Qed.

Lemma on_agent_handler_sound {A} (m : M Agent.t A) h n :
  (forall a n, sound ready a -> keeps (sound ready) (m a n)) ->
  handler_sound h -> keeps handler_sound (on_agent m h n).
Proof. intros Hm Hh. by apply (keeps_zoom (sound ready)); [apply Hm|]. Qed.

(** A run on the agent that is one of its calls. *)
Lemma agent_call_sound {A} call (m : M Agent.t A) h n
    (Hm : forall `{FileSystem} a n, run_agent fuel call a n = (m ≫= fun _ => mret tt) a n) :
  handler_sound h -> keeps handler_sound (on_agent m h n).
Proof.
  apply on_agent_handler_sound. intros a k Ha. apply keeps_unit.
  rewrite <- (Hm (fun _ => None)). by apply run_agent_sound.
Qed.

Lemma mark_ready_sound h n : handler_sound h ->
  keeps handler_sound (on_agent Agent.mark_data_plane_stage_ready h n).
Proof. intros [Hh _]. by split. Qed.

Lemma for_entries_sound {A} (body : Z * list double -> A -> M t A) stats : forall acc h n,
  (forall entry acc h n, handler_sound h -> keeps handler_sound (body entry acc h n)) ->
  handler_sound h -> keeps handler_sound (for_entries body stats acc h n).
Proof.
  induction stats as [|entry stats IH]; intros acc h n Hbody Hh; [done|]. simpl.
  apply keeps_bind; [by apply Hbody|]. intros. by apply IH.
Qed.

Lemma entry_at_sound entries code size h n :
  handler_sound h -> keeps handler_sound (entry_at entries code size h n).
Proof. apply vector_index_keeps. Qed.

Ltac entries_sound :=
  repeat (apply keeps_bind; [by apply entry_at_sound|intros ? ? ? ?]); try done.

Lemma add_entries_sound entry h n : handler_sound h ->
  (forall r, keeps handler_sound (add_kvs_entry entry r h n)) /\
  (forall rates, keeps handler_sound (add_tf_entry entry rates h n)) /\
  (forall rates, keeps handler_sound (add_metadata_entry entry rates h n)).
Proof.
  intros Hh. split_and!.
  - intros r. unfold add_kvs_entry. destruct entry as [id entries]. unfold kvs_at.
    destruct (id <? 2000); [entries_sound|]. destruct (id =? 2000); entries_sound.
  - intros [x y]. unfold add_tf_entry, posix_at. entries_sound.
  - intros [x y]. unfold add_metadata_entry. entries_sound.
Qed.

Lemma aggregate_sound aggregate : aggregate ∈ [aggregate_kvs_statistics (S := t);
    aggregate_tf_statistics; aggregate_global_statistics; aggregate_metadata_data_statistics] ->
  forall stats raw h n, handler_sound h -> keeps handler_sound (aggregate stats raw h n).
Proof.
  rewrite !elem_of_cons, elem_of_nil. intros [->|[->|[->|[->|[]]]]] stats raw h n Hh;
    (destruct stats as [|entry stats]; [done|]).
  1, 2, 4: apply keeps_bind; [apply for_entries_sound; [|done]; intros; by apply add_entries_sound|];
    intros; (done || by destruct a).
  done.
Qed.

Lemma collect_and_send_sound aggregate raw size h n :
  (forall stats raw h n, handler_sound h -> keeps handler_sound (aggregate stats raw h n)) ->
  handler_sound h -> keeps handler_sound (collect_and_send aggregate raw size h n).
Proof.
  intros Hagg Hh. unfold collect_and_send.
  apply keeps_bind; [by apply (agent_call_sound (CollectDetailed (-1) []))|].
  intros [status stats] h' n' Hh'. apply keeps_bind; [|intros; by apply socket_write_sound].
  destruct (is_ok status); [|done]. apply keeps_bind; [by apply Hagg|]. by intros [].
Qed.

Lemma instance_statistics_sound operation h n :
  handler_sound h -> keeps handler_sound (collect_instance_statistics operation h n).
Proof.
  intros Hh. unfold collect_instance_statistics.
  destruct (operation_subtype_of _) as [[]|]; try done;
    [apply keeps_bind; [|intros x h' n' Hh'; by destruct (negb _)]|..];
    (apply collect_and_send_sound; [apply aggregate_sound|done]; rewrite !elem_of_cons; auto).
Qed.

Lemma send_stats_sound stats : forall total h n,
  handler_sound h -> keeps handler_sound (send_channel_stats stats total h n).
Proof.
  induction stats as [|stat stats IH]; intros total h n Hh; [done|]. cbn [send_channel_stats].
  apply keeps_bind; [by apply socket_write_sound|]. intros x h' n' Hh'.
  destruct (negb _); [done|by apply IH].
Qed.

Lemma collect_statistics_sound operation h n :
  handler_sound h -> keeps handler_sound (collect_statistics operation h n).
Proof.
  intros Hh. unfold collect_statistics.
  apply keeps_bind; [by apply read_raw_sound|]. intros [x meta] h' n' Hh'.
  destruct (_ <=? _); [done|].
  apply keeps_bind; [by apply (agent_call_sound (CollectChannels (metadata_channel_id meta) []))|].
  intros [status stats] h2 n2 Hh2. destruct (is_ok status); [|done]. cbv zeta.
  apply keeps_bind; [by apply socket_write_sound|]. intros y h3 n3 Hh3.
  destruct (negb _); [done|by apply send_stats_sound].
Qed.

Lemma housekeeping_rule_sound operation h n :
  handler_sound h -> keeps handler_sound (create_housekeeping_rule fuel operation h n).
Proof.
  intros Hh. unfold create_housekeeping_rule.
  apply keeps_bind; [|intros; by apply send_ack_sound].
  destruct (operation_subtype_of _) as [[]|]; try done;
    (apply keeps_bind; [by apply read_raw_sound|]; intros [x raw] h' n' Hh';
     destruct (_ <=? _); [done|]; by eapply (agent_call_sound (EmployHousekeepingRule _))).
Qed.

Lemma handle_sound operation debug h n :
  handler_sound h -> keeps handler_sound (handle_control_operation fuel operation debug h n).
Proof.
  intros Hh. unfold handle_control_operation.
  assert (Hlog : forall h n, handler_sound h ->
            keeps handler_sound (log_control_operation debug operation h n)).
  { intros h' n' Hh'. unfold log_control_operation. destruct debug; [|done]. by destruct (_ && _). }
  apply keeps_bind; [by apply Hlog|]. intros _ h1 n1 Hh1.
  apply keeps_bind; [|intros x h' n' Hh'; apply keeps_bind; [by apply Hlog|done]].
  destruct (operation_type_of _) as [[]|]; try done.
  - unfold mark_stage_as_ready. apply keeps_bind; [by apply read_raw_sound|]. intros [x r] h' n' Hh'.
    apply keeps_bind; [|intros; by apply send_ack_sound].
    destruct (_ <=? _); [done|]. destruct (_ =? _); [done|]. destruct (_ =? _); [|done].
    apply keeps_bind; [by apply mark_ready_sound|done].
  - by apply collect_statistics_sound.
  - by apply instance_statistics_sound.
  - by apply housekeeping_rule_sound.
  - unfold create_enforcement_rule. apply keeps_bind; [by apply read_raw_sound|].
    intros [x raw] h' n' Hh'. apply keeps_bind; [|intros; by apply send_ack_sound].
    destruct (_ <=? _); [done|]. by eapply (agent_call_sound (EmployEnforcement _)).
  - unfold execute_housekeeping_rules. rewrite gets_bind.
    apply keeps_bind; [by eapply (agent_call_sound (ExecutePendingRules _))|].
    intros; by apply send_ack_sound.
Qed.

Lemma read_operation_sound operation h n :
  handler_sound h -> keeps handler_sound (read_control_operation_from_socket operation h n).
Proof.
  intros Hh. unfold read_control_operation_from_socket. rewrite gets_bind.
  destruct (_ <? _); [by apply read_raw_sound|done].
Qed.

Lemma listen_loop_sound debug rounds : forall i operation read_bytes h n,
  handler_sound h ->
  keeps handler_sound (listen_loop fuel shutdown debug rounds i operation read_bytes h n).
Proof.
  induction rounds as [|rounds IH]; intros i operation read_bytes h n Hh; [done|]. simpl.
  destruct (_ && _); [|done].
  apply keeps_bind; [by apply handle_sound|]. intros x h' n' Hh'. destruct (_ <=? _); [done|].
  apply keeps_bind; [by apply read_operation_sound|]. intros [y op] h2 n2 Hh2. by apply IH.
Qed.

End Keeps.

(** Whatever bytes arrive on the socket, operations that do not exist and
    broken messages included, when the loop ends, by itself or with an exception,
    the core is well formed, and a stage that was ready is ready. *)
Theorem listen_keeps_core debug rounds h n : core_well_formed (Agent.m_core (m_agent_ptr h)) ->
  keeps (fun h' => core_well_formed (Agent.m_core (m_agent_ptr h')) /\
           (Agent.m_ready (m_agent_ptr h) = true -> Agent.m_ready (m_agent_ptr h') = true))
    (listen fuel shutdown debug rounds h n).
Proof.
  intros Hc. change (keeps (handler_sound (Agent.m_ready (m_agent_ptr h)))
    (listen fuel shutdown debug rounds h n)).
  assert (Hh : handler_sound (Agent.m_ready (m_agent_ptr h)) h) by done.
  unfold listen. apply keeps_bind; [by apply read_operation_sound|].
  intros [x op] h' n' Hh'. by apply listen_loop_sound.
Qed.

(** The handler refines the meaning of the requests: a request that is
    delivered whole has its effect on the agent, no other and once, and then the
    acknowledgement, with the code of its status, is the one message sent.  An
    exception of the agent escapes and nothing is sent. *)
Theorem request_served id r debug h n :
  m_socket h <> -1 -> request_valid r -> delivers h r ->
  handle_control_operation fuel (request_operation id r) debug h n =
  match request_effect fuel r (m_agent_ptr h) n with
  | Ok status a n' =>
      Ok (libc_write (Network.writes (network h)) (m_socket h) 4)
        (after_write (ack_of status) (set_agent a (after_body r h))) n'
  | Raise e a n' => Raise e (set_agent a (after_body r h)) n'
  | Crash c => Crash c
  end.
Proof. apply request_served_aux. Qed.

(** C11.  The whole conversation: when the socket delivers the requests in
    order and then ends, the acknowledgements can be written and the stage is
    not shut down, the loop ends; the agent is as the requests leave it, one
    after the other, and their statuses are acknowledged in that order. *)
Theorem listen_serves_requests debug rs h n rounds statuses a' n' :
  (forall i, shutdown i = false) -> 0 < m_socket h ->
  (forall k, libc_write k (m_socket h) 4 = 4) ->
  Forall (fun '(id, r) => is_int id /\ request_valid r) rs ->
  stream (m_socket h) (Network.reads (network h)) (chunks rs) -> (length rs < rounds)%nat ->
  serve_all fuel rs (m_agent_ptr h) n = Ok statuses a' n' ->
  exists h', listen fuel shutdown debug rounds h n = Ok tt h' n' /\
    m_agent_ptr h' = a' /\
    Network.sent (network h') =
      Network.sent (network h) ++ ((fun status => (m_socket h, ack_of status)) <$> statuses).
Proof. apply listen_serves. Qed.

(** ** Requests that end the conversation *)

Lemma collect_absent channel a n :
  channel ∉ (Core.m_channel_id_to_token_linkers (Agent.m_core a)).*1 ->
  (channel = -1 -> Core.m_channel_id_to_token_linkers (Agent.m_core a) = []) ->
  Agent.collect_channel_statistics channel [] a n = Ok (PStatus_Error, []) a n.
Proof.
  intros Habsent Hall. unfold Agent.collect_channel_statistics.
  destruct (Z.eqb_spec channel (-1)) as [->|Hne]; cbn [negb].
  - rewrite gets_bind. unfold Core.get_total_channels. by rewrite Hall.
  - unfold mbind, M_bind, Agent.on_core, zoom. rewrite collect_channel_by_identifier.
    unfold by_identifier, Core.get_channel_diff_token. rewrite find_link_absent by done.
    by destruct a.
Qed.

(** C39.  A collection that fails is not answered: when the control plane
    collects from a channel that does not exist, or from all the channels of a
    stage without any, nothing is sent and the loop throws. *)
Theorem failed_collection_not_answered id subtype channel count debug rounds h n :
  let operation := mkControlOperation id (operation_type_code collect_stats) subtype
                     (sizeof CollectStatisticsMetadata) in
  let metadata := mkCollectStatisticsMetadata channel count in
  let links := Core.m_channel_id_to_token_linkers (Agent.m_core (m_agent_ptr h)) in
  0 < m_socket h -> shutdown O = false -> valid operation -> valid metadata ->
  libc_read (Network.reads (network h)) (m_socket h) (sizeof ControlOperation) =
    Some (bytes_of operation) ->
  libc_read (S (Network.reads (network h))) (m_socket h) (sizeof CollectStatisticsMetadata) =
    Some (bytes_of metadata) ->
  channel ∉ links.*1 -> (channel = -1 -> links = []) ->
  exists h', listen fuel shutdown debug (S rounds) h n =
      Raise (RuntimeError "ConnectionManager: failed to receive control operation.") h' n /\
    Network.sent (network h') = Network.sent (network h).
Proof.
  intros operation metadata links Hs Hshut Hop Hmeta Hread1 Hread2 Habsent Hall.
  exists (set_agent (m_agent_ptr h) (after_read (after_read h))). split; [|done]. unfold listen.
  rewrite (bind_Ok _ _ _ _ (sizeof ControlOperation, operation) (after_read h) n).
  2: { unfold read_control_operation_from_socket. rewrite gets_bind, (proj2 (Z.ltb_lt _ _)) by done.
       by apply read_raw_whole; [lia|..]. }
  cbn [listen_loop]. rewrite Hshut. change (0 <? sizeof ControlOperation) with true. cbn [andb negb].
  rewrite (bind_Ok _ _ _ _ 0 (set_agent (m_agent_ptr h) (after_read (after_read h))) n); [done|].
  unfold handle_control_operation.
  assert (Htype : 0 <= operation_type operation <= 8) by (cbn; lia).
  rewrite (bind_Ok _ _ _ _ _ _ _ (log_runs debug operation (after_read h) n Htype)).
  change (operation_type_of (operation_type operation)) with (Some collect_stats). cbv iota.
  rewrite (bind_Ok _ _ _ _ 0 (set_agent (m_agent_ptr h) (after_read (after_read h))) n).
  - unfold log_return_value. by rewrite (bind_Ok _ _ _ _ _ _ _ (log_runs _ operation _ _ Htype)).
  - unfold collect_statistics.
    rewrite (bind_Ok _ _ _ _ (sizeof CollectStatisticsMetadata, metadata) (after_read (after_read h)) n).
    2: { apply read_raw_whole; [cbn; lia|done|done|done]. }
    change (sizeof CollectStatisticsMetadata <=? 0) with false. cbv iota.
    unfold mbind, M_bind, on_agent, zoom.
    change (m_agent_ptr (after_read (after_read h))) with (m_agent_ptr h).
    by rewrite collect_absent.
Qed.

(** The size of a message is the sender's: when the operation announces
    more bytes than the structure has and they arrive, the read goes past the
    end of the structure. *)
Theorem oversized_rule_overflows id subtype size bytes debug h n :
  let operation := mkControlOperation id (operation_type_code create_enf_rule) subtype size in
  m_socket h <> -1 -> sizeof EnforcementRuleRaw < size <= int_max ->
  libc_read (Network.reads (network h)) (m_socket h) size = Some bytes ->
  Z.of_nat (length bytes) = size ->
  handle_control_operation fuel operation debug h n =
    Crash (UndefinedBehaviour "read past the end of a structure").
Proof.
  intros operation Hs [Hsize Hmax] Hread Hlen. unfold handle_control_operation.
  rewrite (bind_Ok _ _ _ _ _ _ _ (log_runs debug operation h n ltac:(cbn; lia))).
  change (operation_type_of (operation_type operation)) with (Some create_enf_rule). cbv iota.
  unfold create_enforcement_rule, read_raw, socket_read, mbind, M_bind, gets.
  rewrite (proj2 (Z.eqb_neq _ _)) by done. unfold count_read, state.
  cbn [m_size operation]. assert (0 <= sizeof EnforcementRuleRaw) by done.
  rewrite u64_small by (unfold word; unfold int_max in Hmax; lia). rewrite Hread.
  rewrite take_ge by lia. rewrite (proj2 (Nat.ltb_lt _ _)); [done|].
  pose proof (length_bytes_of default_EnforcementRuleRaw). lia.
Qed.

End Refinement.

Section Aggregation.
Import SouthboundConnectionHandler.

Lemma entry_at_in {S} (entries : list double) code size (s : S) n :
  0 <= code < size -> size <= Z.of_nat (length entries) ->
  exists x, entry_at entries code size s n = Ok x s n.
Proof.
  intros Hcode Hsize. unfold entry_at, vector_index. rewrite Z.rem_small by lia.
  destruct (decide (0 <= code)) as [_|?]; [|lia].
  destruct (lookup_lt_is_Some_2 entries (Z.to_nat code)) as [x ->]; [lia|]. by exists x.
Qed.

Lemma for_entries_run {S A} (body : Z * list double -> A -> M S A) stats (s : S) n :
  Forall (fun entry => forall acc, exists acc', body entry acc s n = Ok acc' s n) stats ->
  forall acc, exists acc', for_entries body stats acc s n = Ok acc' s n.
Proof.
  induction 1 as [|entry stats Hentry _ IH]; intros acc; [by exists acc|]. cbn [for_entries].
  destruct (Hentry acc) as [acc1 H1]. destruct (IH acc1) as [acc2 H2]. exists acc2.
  by rewrite (bind_Ok _ _ _ _ _ _ _ H1).
Qed.

(** Step through the accesses of a body. *)
Ltac read_entries_within :=
  repeat match goal with
  | |- context [(entry_at ?e ?c ?z ≫= _) ?s ?n] =>
      let x := fresh "x" in let H := fresh "H" in
      destruct (entry_at_in e c z s n) as [x H]; [vm_compute; intuition discriminate|done|];
      rewrite (bind_Ok _ _ _ _ _ _ _ H); clear H
  end.

(** Entries that a channel of this program reports: its statistics are initialized for the
    default context, and count and are collected in any order before. *)
Definition reported_by_default `{SystemClock} (entries : list double) : Prop :=
  exists calls n0 n1 n2 n3 n4 n5 s0 s s',
    ChannelStatistics.initialize option_default_context_type ChannelDefault.stats_member n0 = Ok tt s0 n1 /\
    ChannelStatistics.run_all calls s0 n2 = Ok tt s n3 /\
    ChannelStatistics.collect_detailed_windowed_entries [] s n4 = Ok entries s' n5.

Lemma reported_five `{SystemClock} entries : reported_by_default entries ->
  exists a b c d e, entries = [a; b; c; d; e].
Proof.
  intros (calls & n0 & n1 & n2 & n3 & n4 & n5 & s0 & s & s' & Hinit & Hrun & Hcollect).
  apply detailed_entries_length in Hcollect.
  rewrite (default_statistics_size _ _ _ _ _ _ _ _ _ _ Hinit Hrun) in Hcollect.
  change (length entries = 5%nat) in Hcollect. do 5 (destruct entries as [|? entries]; [done|]).
  destruct entries; [|done]. by repeat eexists.
Qed.

(** A loop that loses its run at one of the entries. *)
Lemma for_entries_lost {S A} (body : Z * list double -> A -> M S A) stats x (s : S) n
    (fine lost : Z * list double -> Prop) :
  (forall entry acc, fine entry -> exists acc', body entry acc s n = Ok acc' s n) ->
  (forall entry acc, lost entry -> body entry acc s n = Crash x) ->
  Forall (fun entry => fine entry \/ lost entry) stats -> Exists lost stats ->
  forall acc, for_entries body stats acc s n = Crash x.
Proof.
  intros Hfine Hlost Hall Hex. induction Hall as [|entry stats [Hf|Hl] _ IH]; intros acc;
    [by inversion Hex|..]; cbn [for_entries].
  - destruct (Hfine entry acc Hf) as [acc' Hrun]. rewrite (bind_Ok _ _ _ _ _ _ _ Hrun).
    inversion Hex as [? ? Hl|? ? Hex']; subst; [|by apply IH].
    by rewrite (Hlost entry acc Hl) in Hrun.
  - by apply bind_Crash, Hlost.
Qed.

Lemma kvs_five a b c d e id acc {S} (s : S) n :
  if id =? 2000 then exists acc', add_kvs_entry (id, [a; b; c; d; e]) acc s n = Ok acc' s n
  else add_kvs_entry (id, [a; b; c; d; e]) acc s n
       = Crash (UndefinedBehaviour "vector index out of range").
Proof.
  unfold add_kvs_entry, mbind, M_bind. destruct (Z.eqb_spec id 2000) as [->|Hne]; [by eexists|].
  by destruct (id <? 2000).
Qed.

Lemma five_entries_lost `{SystemClock} {S} stats raw (s : S) n :
  let lost := Crash (UndefinedBehaviour "vector index out of range") in
  stats <> [] -> Forall (fun entry => reported_by_default entry.2) stats ->
  Forall (fun entry => length entry.2 = 5%nat) stats /\
  aggregate_tf_statistics stats raw s n = lost /\
  aggregate_metadata_data_statistics stats raw s n = lost /\
  (Exists (fun entry => entry.1 <> 2000) stats -> aggregate_kvs_statistics stats raw s n = lost) /\
  (Forall (fun entry => entry.1 = 2000) stats ->
   exists m, aggregate_kvs_statistics stats raw s n = Ok (PStatus_OK, m) s n).
Proof.
  intros lost Hne Hall.
  assert (Hfive : Forall (fun entry : Z * list double => exists a b c d e,
    entry.2 = [a; b; c; d; e]) stats) by (eapply Forall_impl; [|exact Hall]; intros; by apply reported_five).
  split. { eapply Forall_impl; [|exact Hfive]. by intros entry (a & b & c & d & e & ->). }
  split; [|split; [|split]].
  - destruct Hfive as [|[id entries] stats (a & b & c & d & e & Heq) _]; [done|].
    cbn [snd] in Heq. by rewrite Heq.
  - destruct Hfive as [|[id entries] stats (a & b & c & d & e & Heq) _]; [done|].
    cbn [snd] in Heq. by rewrite Heq.
  - intros Hid. unfold aggregate_kvs_statistics. destruct stats as [|entry0 stats0] eqn:Hs; [done|].
    rewrite <- Hs in *. apply bind_Crash.
    apply for_entries_lost with
      (fine := fun entry => entry.1 = 2000 /\ exists a b c d e, entry.2 = [a; b; c; d; e])
      (lost := fun entry => entry.1 <> 2000 /\ exists a b c d e, entry.2 = [a; b; c; d; e]).
    + intros [id entries] acc (Heq & a & b & c & d & e & He). cbn [fst snd] in *. subst.
      exact (kvs_five a b c d e 2000 acc s n).
    + intros [id entries] acc (Heq & a & b & c & d & e & He). cbn [fst snd] in *. subst.
      pose proof (kvs_five a b c d e id acc s n) as Hlost. by rewrite (proj2 (Z.eqb_neq _ _)) in Hlost.
    + eapply Forall_impl; [|exact Hfive]. intros entry He.
      destruct (decide (entry.1 = 2000)); [by left|by right].
    + rewrite Exists_exists in Hid |- *. destruct Hid as (entry & Hin & Hid). exists entry.
      split; [done|]. split; [done|]. rewrite Forall_forall in Hfive. by apply Hfive.
  - intros Hid. destruct (for_entries_run add_kvs_entry stats s n) with (mkKvsRates 0 d0 d0 d0 d0)
      as [r Hr].
    + apply Forall_forall. intros [id entries] Hin acc. rewrite Forall_forall in Hfive, Hid.
      destruct (Hfive _ Hin) as (a & b & c & d & e & He). specialize (Hid _ Hin). cbn [fst snd] in *.
      subst. exact (kvs_five a b c d e 2000 acc s n).
    + eexists. destruct stats; [done|]. unfold aggregate_kvs_statistics.
      by rewrite (bind_Ok _ _ _ _ _ _ _ Hr).
Qed.

(** C40.  The aggregations of RocksDB, TensorFlow and data and metadata rates read the
    vectors of the channels within bounds when they have the sizes of their contexts,
    and then answer.  But the channels of this program report five entries, whatever
    they have counted, the size of the default context.  On such vectors the aggregations
    for TensorFlow and for data and metadata read past the end of the first, and the
    one for RocksDB past the end of the first whose flow is not 2000; with the flow
    2000 alone it answers. *)
Theorem aggregation_bounds `{SystemClock} {S} stats raw (s : S) n :
  stats <> [] ->
  (Forall (fun entry => lsm_kvs_detailed_size <= Z.of_nat (length entry.2)) stats ->
   exists m, aggregate_kvs_statistics stats raw s n = Ok (PStatus_OK, m) s n) /\
  (Forall (fun entry => posix_size <= Z.of_nat (length entry.2)) stats ->
   exists m, aggregate_tf_statistics stats raw s n = Ok (PStatus_OK, m) s n) /\
  (Forall (fun entry => posix_meta_size <= Z.of_nat (length entry.2)) stats ->
   exists m, aggregate_metadata_data_statistics stats raw s n = Ok (PStatus_OK, m) s n) /\
  (Forall (fun entry => reported_by_default entry.2) stats ->
   let lost := Crash (UndefinedBehaviour "vector index out of range") in
   Forall (fun entry => length entry.2 = 5%nat) stats /\
   aggregate_tf_statistics stats raw s n = lost /\
   aggregate_metadata_data_statistics stats raw s n = lost /\
   (Exists (fun entry => entry.1 <> 2000) stats -> aggregate_kvs_statistics stats raw s n = lost) /\
   (Forall (fun entry => entry.1 = 2000) stats ->
    exists m, aggregate_kvs_statistics stats raw s n = Ok (PStatus_OK, m) s n)).
Proof.
  intros Hne. split_and!.
  - intros Hsize. destruct (for_entries_run add_kvs_entry stats s n) with (mkKvsRates 0 d0 d0 d0 d0)
      as [r Hr].
    + eapply Forall_impl; [|exact Hsize]. intros [id entries] Hlen r. cbn [snd] in Hlen.
      unfold add_kvs_entry, kvs_at.
      destruct (id <? 2000); [|destruct (id =? 2000)]; cbv zeta; read_entries_within; eauto.
    + eexists. destruct stats; [done|]. unfold aggregate_kvs_statistics.
      by rewrite (bind_Ok _ _ _ _ _ _ _ Hr).
  - intros Hsize. destruct (for_entries_run add_tf_entry stats s n) with (d0, d0) as [[x y] Hr].
    + eapply Forall_impl; [|exact Hsize]. intros [id entries] Hlen [x y]. cbn [snd] in *.
      unfold add_tf_entry, posix_at. cbn [snd]. read_entries_within; eauto.
    + eexists. destruct stats; [done|]. unfold aggregate_tf_statistics.
      by rewrite (bind_Ok _ _ _ _ _ _ _ Hr).
  - intros Hsize. destruct (for_entries_run add_metadata_entry stats s n) with (d0, d0) as [[x y] Hr].
    + eapply Forall_impl; [|exact Hsize]. intros [id entries] Hlen [x y]. cbn [snd] in *.
      unfold add_metadata_entry. cbn [snd]. read_entries_within; eauto.
    + eexists. destruct stats; [done|]. unfold aggregate_metadata_data_statistics.
      by rewrite (bind_Ok _ _ _ _ _ _ _ Hr).
  - intros Hreported lost. by apply five_entries_lost.
Qed.

End Aggregation.

(** ** Witnesses *)

(** A connection that delivers chunks, one a read, and takes what is written. *)
Definition scripted (cs : list (list Z)) : Sockets := {|
  libc_read i _ _ := Some (default [] (cs !! i));
  libc_write _ _ count := count;
  libc_socket _ _ := 3;
  libc_connect _ _ _ _ := 0;
  inet_pton _ := 1;
|}.

Definition listed_order : RulesOrder := fun table =>
  (map_to_list (HousekeepingTable.m_housekeeping_rules table)).*1.

Definition sample_requests : list (Z * Request) :=
  [(1, CreateChannelRequest (mkCreateChannelRaw 5 1 7 0 0 0 0)); (2, StageReady true);
   (3, EnforceRequestRule default_EnforcementRuleRaw); (4, ExecutePending)].

Definition sample_handler : ConnectionHandler.t :=
  ConnectionHandler.mk 3 (ConnectionOptions.mk inet "127.0.0.1" 12345) sample_agent southbound_handler
    Network.start.

Definition never : nat -> bool := fun _ => false.

Lemma listen_keeps_core_witness :
  keeps (fun h' => core_well_formed (Agent.m_core (ConnectionHandler.m_agent_ptr h')) /\
           (false = true -> Agent.m_ready (ConnectionHandler.m_agent_ptr h') = true))
    (@SouthboundConnectionHandler.listen bounded_clock (scripted [[1; 2; 3]]) sample_process listed_order
       3 never false 9 sample_handler O).
Proof.
  exact (@listen_keeps_core bounded_clock (scripted [[1; 2; 3]]) sample_process listed_order 3 never
    false 9 sample_handler O default_core_well_formed).
Defined.

Lemma request_served_witness :
  @SouthboundConnectionHandler.handle_control_operation bounded_clock
    (scripted [[1]]) sample_process listed_order 3 (request_operation 2 (StageReady true)) true
    sample_handler O =
  Ok 4 (after_write (sent_ack AckCode_ok)
          (ConnectionHandler.set_agent (Agent.set_ready true sample_agent) (after_read sample_handler))) O.
Proof.
  refine (@request_served bounded_clock (scripted [[1]]) sample_process listed_order 3 2
    (StageReady true) true sample_handler O _ _ _).
  - discriminate.
  - exact I.
  - intros body [= <-]. reflexivity.
Defined.

Lemma listen_serves_requests_witness : exists statuses a' n' h',
  @serve_all bounded_clock listed_order 3 sample_requests sample_agent O = Ok statuses a' n' /\
  @SouthboundConnectionHandler.listen bounded_clock (scripted (chunks sample_requests)) sample_process
    listed_order 3 never false 9 sample_handler O = Ok tt h' n' /\
  ConnectionHandler.m_agent_ptr h' = a'.
Proof.
  destruct (is_Ok_inv (@serve_all bounded_clock listed_order 3 sample_requests sample_agent O))
    as (statuses & a' & n' & Hrun); [vm_compute; reflexivity|].
  destruct (@listen_serves_requests bounded_clock (scripted (chunks sample_requests)) sample_process
    listed_order 3 never false sample_requests sample_handler O 9 statuses a' n')
    as (h' & Hl & Ha & _).
  - reflexivity.
  - reflexivity.
  - reflexivity.
  - repeat apply Forall_cons_2; try apply Forall_nil_2; (split; [split; vm_compute; discriminate|]);
      first [exact I|apply fits_layoutb_sound; vm_compute; reflexivity].
  - split; [intros i c Hc; change (Some (default [] (chunks sample_requests !! i)) = Some c); by rewrite Hc|reflexivity].
  - cbn. lia.
  - exact Hrun.
  - exists statuses, a', n', h'. split; [exact Hrun|]. split; [exact Hl|exact Ha].
Defined.

Lemma failed_collection_not_answered_witness : exists h',
  let operation := mkControlOperation 1 2 0 16 in
  let metadata := mkCollectStatisticsMetadata (-1) 0 in
  @SouthboundConnectionHandler.listen bounded_clock (scripted [bytes_of operation; bytes_of metadata])
    sample_process listed_order 3 never false 9 sample_handler O =
  Raise (RuntimeError "ConnectionManager: failed to receive control operation.") h' O /\
  Network.sent (ConnectionHandler.network h') = [].
Proof.
  refine (@failed_collection_not_answered bounded_clock
    (scripted [bytes_of (mkControlOperation 1 2 0 16); bytes_of (mkCollectStatisticsMetadata (-1) 0)])
    sample_process listed_order 3 never 1 0 (-1) 0 false 8 sample_handler O _ _ _ _ _ _ _ _);
    first [reflexivity|apply not_elem_of_nil|apply fits_layoutb_sound; vm_compute; reflexivity].
Defined.

Lemma oversized_rule_overflows_witness :
  @SouthboundConnectionHandler.handle_control_operation bounded_clock (scripted [replicate 57 0])
    sample_process listed_order 3 (mkControlOperation 1 6 0 57) false sample_handler O =
  Crash (UndefinedBehaviour "read past the end of a structure").
Proof.
  refine (@oversized_rule_overflows bounded_clock (scripted [replicate 57 0]) sample_process listed_order
    3 1 0 57 (replicate 57 0) false sample_handler O _ _ _ _);
    [discriminate|split; vm_compute; (reflexivity || discriminate)|reflexivity|reflexivity].
Defined.

(** What a channel reports a second after it has been made. *)
Definition five_entries : list double :=
  match @ChannelStatistics.collect_detailed_windowed_entries seconds_clock []
          (match @ChannelStatistics.initialize seconds_clock option_default_context_type
                   ChannelDefault.stats_member 1%nat with
           | Ok _ s _ => s | _ => ChannelDefault.stats_member end) 2%nat with
  | Ok entries _ _ => entries
  | _ => []
  end.

Lemma aggregation_bounds_witness :
  SouthboundConnectionHandler.aggregate_tf_statistics [(1000, five_entries)]
    (sent_tensorflow d0 d0) tt O = Crash (UndefinedBehaviour "vector index out of range") /\
  SouthboundConnectionHandler.aggregate_kvs_statistics [(1000, five_entries)]
    (sent_silk d0 d0 d0 d0) tt O = Crash (UndefinedBehaviour "vector index out of range") /\
  exists m, SouthboundConnectionHandler.aggregate_kvs_statistics [(2000, five_entries)]
    (sent_silk d0 d0 d0 d0) tt O = Ok (PStatus_OK, m) tt O.
Proof.
  assert (Hfive : @reported_by_default seconds_clock five_entries).
  { exists [], 1%nat, 2%nat, 2%nat, 2%nat, 2%nat, 3%nat. do 3 eexists.
    split; [reflexivity|]. split; [reflexivity|]. vm_compute. reflexivity. }
  split; [|split].
  - refine (proj1 (proj2 (proj2 (proj2 (proj2 (@aggregation_bounds seconds_clock unit
      [(1000, five_entries)] (sent_tensorflow d0 d0) tt O _))) _))); [discriminate|by repeat constructor].
  - refine (proj1 (proj2 (proj2 (proj2 (proj2 (proj2 (proj2 (@aggregation_bounds seconds_clock unit
      [(1000, five_entries)] (sent_silk d0 d0 d0 d0) tt O _))) _)))) _);
      [discriminate|by repeat constructor|by constructor].
  - refine (proj2 (proj2 (proj2 (proj2 (proj2 (proj2 (proj2 (@aggregation_bounds seconds_clock unit
      [(2000, five_entries)] (sent_silk d0 d0 d0 d0) tt O _))) _)))) _);
      [discriminate|by repeat constructor|by repeat constructor].
Defined.
