(* ===== verification/Connection.v ===== *)
(** * The handshake and the connection manager

    [HandshakeConnectionHandler] ([handshake_connection_handler.cpp]) sends the
    description of the stage and receives where to connect next;
    [ConnectionManager] ([connection_manager.cpp]) runs the handshake in a thread
    that it waits for, builds the southbound handler and starts its thread.  An
    exception that leaves a thread terminates the program. *)

From S2P Require Import Prelude MachineInt Binary64 Options Differentiation.
From S2P Require Import Rules TokenBucketStats TokenBucket EnforcementObjects.
From S2P Require Import ChannelStatistics Channel Core RulesParser StageInfo Agent.
From S2P Require Import Networking Southbound.

(** The function of a [std::thread]. *)
Definition thread_body {S} (m : M S unit) : M S unit := fun s n =>
  match m s n with
  | Raise e _ _ => Crash (Terminated "exception in a thread")
  | o => o
  end.

Module HandshakeConnectionHandler.

Record t := mk {
  handler : ConnectionHandler.t;
  m_southbound_socket_name : string;
  m_southbound_socket_port : Z;         (* int *)
}.

Definition set_handler (h : ConnectionHandler.t) (s : t) : t :=
  mk h (m_southbound_socket_name s) (m_southbound_socket_port s).

Definition on_handler {A} (m : M ConnectionHandler.t A) : M t A := zoom handler set_handler m.

Section Calls.
Context `{Sockets} `{Process}.

(** The parameterized constructors: [h] gives the agent and the network. *)
Definition make (connection_options : ConnectionOptions.t) : M t unit :=
  _ ← modify (fun s => mk (handler s) "" (-1));
  on_handler (ConnectionHandler.make connection_options handshake_handler).

Definition make_default : M t unit :=
  _ ← modify (fun s => mk (handler s) "" (-1));
  on_handler (ConnectionHandler.make_default handshake_handler).

(** The exception carries the text of [errno]. *)
Definition read_control_operation_from_socket (operation : ControlOperation) :
    M t (Z * ControlOperation) :=
  s ← gets id;
  if 0 <? ConnectionHandler.m_socket (handler s)
  then on_handler (ConnectionHandler.read_raw operation (sizeof ControlOperation))
  else throw (RuntimeError "HandshakeConnectionHandler: invalid socket").

(** The string in an array of characters, which must end within it. *)
Definition string_of_array {S} (array : list Z) : M S string :=
  if bool_decide (0 ∈ array)
  then mret (text_of ((fun b => Ascii.ascii_of_N (Z.to_N b)) <$> array))
  else crash_with (UndefinedBehaviour "array of characters without an end").

Definition set_southbound_socket_info (handshake_object : StageHandshakeRaw) : M t unit :=
  name ← string_of_array (m_address handshake_object);
  modify (fun s => mk (handler s) name (handshake_port handshake_object)).

Definition stage_handshake : M t Z :=
  info_obj ← on_handler (ConnectionHandler.on_agent (Agent.get_stage_info default_StageInfoRaw));
  let message := sent_stage_info info_obj in
  return_value ← on_handler (ConnectionHandler.socket_write message (size_of_sent message));
  if return_value <=? 0 then mret return_value
  else
    '(return_value, handshake_obj) ←
      on_handler (ConnectionHandler.read_raw default_StageHandshakeRaw (sizeof StageHandshakeRaw));
    if return_value <=? 0 then mret return_value
    else
      _ ← set_southbound_socket_info handshake_obj;
      mret return_value.

Definition handle_control_operation (operation : ControlOperation) (debug : bool) : M t Z :=
  _ ← on_handler (ConnectionHandler.log_control_operation debug operation);
  return_value ← (match operation_type_of (operation_type operation) with
                  | Some Southbound.stage_handshake => stage_handshake
                  | _ => throw (LogicError "HandshakeConnectionHandler: unknown operation type")
                  end);
  _ ← on_handler (ConnectionHandler.log_return_value debug operation);
  mret return_value.

Definition listen (debug : bool) : M t unit :=
  '(read_bytes, control_operation) ← read_control_operation_from_socket zero_ControlOperation;
  read_bytes ← (if 0 <? read_bytes then handle_control_operation control_operation debug
                else mret read_bytes);
  if read_bytes <=? 0 then
    throw (RuntimeError "ConnectionManager: failed to receive control operation.")
  else mret tt.

End Calls.

End HandshakeConnectionHandler.

Module ConnectionManager.

(** The network and the agent, which the handlers share, are in the handler in
    use; before the southbound handler is built that is the one of the handshake. *)
Record t := mk {
  m_socket : Z;                                                   (* shared_ptr<atomic<int>> *)
  m_connection_options : ConnectionOptions.t;
  m_agent_ptr : Agent.t;                                          (* shared_ptr<Agent> *)
  m_handshake_connection_handler : HandshakeConnectionHandler.t;  (* unique_ptr<...> *)
  m_southbound_connection_handler : option ConnectionHandler.t;   (* unique_ptr<...> *)
  m_connection_thread : bool;                                     (* joinable *)
}.

Definition set_handshake (s : HandshakeConnectionHandler.t) (m : t) : t :=
  mk (m_socket m) (m_connection_options m) (m_agent_ptr m) s (m_southbound_connection_handler m)
    (m_connection_thread m).
Definition set_southbound (h : ConnectionHandler.t) (m : t) : t :=
  mk (m_socket m) (m_connection_options m) (m_agent_ptr m) (m_handshake_connection_handler m) (Some h)
    (m_connection_thread m).
Definition set_thread (joinable : bool) (m : t) : t :=
  mk (m_socket m) (m_connection_options m) (m_agent_ptr m) (m_handshake_connection_handler m)
    (m_southbound_connection_handler m) joinable.

Definition with_controller (m : t) : bool :=
  match ConnectionOptions.m_connection_type (m_connection_options m) with
  | none => false
  | _ => true
  end.

Section Calls.
Context `{SystemClock} `{Sockets} `{Process} `{RulesOrder}.
(** Fuel of the loops of the token buckets. *)
Context (fuel : nat).

(** The thread is started and joined. *)
Definition spawn_handshake_listening_thread (debug : bool) : M t unit :=
  m ← gets id;
  if with_controller m then
    thread_body (zoom m_handshake_connection_handler set_handshake
                   (HandshakeConnectionHandler.listen debug))
  else mret tt.

(** The thread is started: what it runs is [southbound_thread]. *)
Definition spawn_southbound_listening_thread (debug : bool) : M t unit :=
  m ← gets id;
  if with_controller m then modify (set_thread true) else mret tt.

Definition southbound_thread (shutdown : nat -> bool) (debug : bool) (rounds : nat) :
    M ConnectionHandler.t unit :=
  thread_body (SouthboundConnectionHandler.listen fuel shutdown debug rounds).

(** The southbound handler takes the default communication type. *)
Definition connect (debug : bool) : M t unit :=
  _ ← spawn_handshake_listening_thread debug;
  m ← gets id;
  let handshake := m_handshake_connection_handler m in
  let southbound_connection_options :=
    ConnectionOptions.mk option_default_communication_type
      (HandshakeConnectionHandler.m_southbound_socket_name handshake)
      (HandshakeConnectionHandler.m_southbound_socket_port handshake) in
  _ ← zoom (fun m => HandshakeConnectionHandler.handler (m_handshake_connection_handler m))
        set_southbound (SouthboundConnectionHandler.make southbound_connection_options);
  spawn_southbound_listening_thread debug.

(** The state before the constructor of the handshake handler runs. *)
Definition initial (connection_options : ConnectionOptions.t) (agent_ptr : Agent.t)
    (network : Network.t) : t :=
  mk (-1) connection_options agent_ptr
    (HandshakeConnectionHandler.mk
       (ConnectionHandler.mk (-1) connection_options agent_ptr handshake_handler network) "" (-1))
    None false.

(** The parameterized constructor; [m_shutdown] is the flag of the stage. *)
Definition make (connection_options : ConnectionOptions.t) (agent_ptr : Agent.t)
    (network : Network.t) (debug : bool) : M t unit :=
  _ ← modify (fun _ => initial connection_options agent_ptr network);
  _ ← zoom m_handshake_connection_handler set_handshake
        (HandshakeConnectionHandler.make connection_options);
  connect debug.

(** The one that takes the default options. *)
Definition make_default (agent_ptr : Agent.t) (network : Network.t) (debug : bool) : M t unit :=
  connection_options ← ConnectionOptions.make_default;
  make connection_options agent_ptr network debug.

(** The thread that is joined must be one; that it has ended is for the flag of
    the stage and the control plane. *)
Definition disconnect_from_control_plane : M t unit :=
  m ← gets id;
  if with_controller m then
    if m_connection_thread m then modify (set_thread false)
    else throw (RuntimeError "std::system_error: join")
  else mret tt.

Definition get_socket_identifier (m : t) : Z := m_socket m.

End Calls.

End ConnectionManager.

(** ** What the handshake exchanges *)

Section Handshake.
Import HandshakeConnectionHandler.
Context `{Sockets} `{Process}.

Definition handshake_operation (id : Z) : ControlOperation :=
  mkControlOperation id (operation_type_code Southbound.stage_handshake) 0 0.

Lemma on_handler_Ok {A} (m : M ConnectionHandler.t A) s n a h n' :
  m (handler s) n = Ok a h n' -> on_handler m s n = Ok a (set_handler h s) n'.
Proof. apply zoom_Ok. Qed.

Lemma send_info_runs info h n : ConnectionHandler.m_socket h <> -1 ->
  word 64 (size_of_sent (sent_stage_info info)) ->
  ConnectionHandler.socket_write (sent_stage_info info) (size_of_sent (sent_stage_info info)) h n =
  Ok (libc_write (Network.writes (ConnectionHandler.network h)) (ConnectionHandler.m_socket h)
        (size_of_sent (sent_stage_info info)))
    (after_write (sent_stage_info info) h) n.
Proof.
  intros Hs Hw. unfold ConnectionHandler.socket_write. rewrite gets_bind.
  rewrite (proj2 (Z.eqb_neq _ _)), u64_small, Z.ltb_irrefl by done. done.
Qed.

(** The text of an address: its characters up to the first null. *)
Definition address_text (array : list Z) : string :=
  text_of ((fun b => Ascii.ascii_of_N (Z.to_N b)) <$> array).

Lemma stage_handshake_runs (reply : StageHandshakeRaw) info s n :
  let h := handler s in
  ConnectionHandler.m_socket h <> -1 -> valid reply -> 0 ∈ m_address reply ->
  Agent.get_stage_info default_StageInfoRaw (ConnectionHandler.m_agent_ptr h) n =
    Ok info (ConnectionHandler.m_agent_ptr h) n ->
  word 64 (size_of_sent (sent_stage_info info)) ->
  0 < libc_write (Network.writes (ConnectionHandler.network h)) (ConnectionHandler.m_socket h)
        (size_of_sent (sent_stage_info info)) ->
  libc_read (Network.reads (ConnectionHandler.network h)) (ConnectionHandler.m_socket h)
    (sizeof StageHandshakeRaw) = Some (bytes_of reply) ->
  stage_handshake s n =
    Ok (sizeof StageHandshakeRaw)
      (mk (after_read (after_write (sent_stage_info info)
             (ConnectionHandler.set_agent (ConnectionHandler.m_agent_ptr h) h)))
         (address_text (m_address reply)) (handshake_port reply)) n.
Proof.
  intros h Hs Hreply Haddress Hinfo Hword Hwrite Hread. unfold stage_handshake.
  rewrite (bind_Ok _ _ _ _ info
    (set_handler (ConnectionHandler.set_agent (ConnectionHandler.m_agent_ptr h) h) s) n).
  2: { apply on_handler_Ok. unfold ConnectionHandler.on_agent. by apply zoom_Ok. }
  cbv zeta. set (h1 := ConnectionHandler.set_agent (ConnectionHandler.m_agent_ptr h) h).
  rewrite (bind_Ok _ _ _ _ _ _ _ (on_handler_Ok _ (set_handler h1 s) _ _ _ _
    (send_info_runs info h1 n Hs Hword))).
  rewrite (proj2 (Z.leb_gt _ _)) by done. set (h2 := after_write (sent_stage_info info) h1).
  rewrite (bind_Ok _ _ _ _ _ _ _ (on_handler_Ok _ (set_handler h2 (set_handler h1 s)) _ _ _ _
    (read_raw_whole default_StageHandshakeRaw reply h2 n Hs Hreply
       ltac:(vm_compute; intuition congruence) Hread))).
  change (sizeof StageHandshakeRaw <=? 0) with false. cbv iota.
  unfold set_southbound_socket_info, string_of_array, mbind, M_bind.
  by rewrite bool_decide_eq_true_2.
Qed.

(** C35.  The handshake: when the operation and the reply of the control plane
    are delivered whole and the description of the stage can be written, the
    handler has sent the description, and knows the address, up to its null
    character, and the port of the reply. *)
Theorem handshake_exchange id (reply : StageHandshakeRaw) info debug s n :
  let h := handler s in
  0 < ConnectionHandler.m_socket h -> is_int id -> valid reply -> 0 ∈ m_address reply ->
  Agent.get_stage_info default_StageInfoRaw (ConnectionHandler.m_agent_ptr h) n =
    Ok info (ConnectionHandler.m_agent_ptr h) n ->
  word 64 (size_of_sent (sent_stage_info info)) ->
  0 < libc_write (Network.writes (ConnectionHandler.network h)) (ConnectionHandler.m_socket h)
        (size_of_sent (sent_stage_info info)) ->
  libc_read (Network.reads (ConnectionHandler.network h)) (ConnectionHandler.m_socket h)
    (sizeof ControlOperation) = Some (bytes_of (handshake_operation id)) ->
  libc_read (S (Network.reads (ConnectionHandler.network h))) (ConnectionHandler.m_socket h)
    (sizeof StageHandshakeRaw) = Some (bytes_of reply) ->
  exists s', listen debug s n = Ok tt s' n /\
    m_southbound_socket_name s' = address_text (m_address reply) /\
    m_southbound_socket_port s' = handshake_port reply /\
    Network.sent (ConnectionHandler.network (handler s')) =
      Network.sent (ConnectionHandler.network h) ++
      [(ConnectionHandler.m_socket h, sent_stage_info info)].
Proof.
  intros h Hs Hid Hreply Haddress Hinfo Hword Hwrite Hread1 Hread2.
  set (h1 := after_read h).
  exists (mk (after_read (after_write (sent_stage_info info)
             (ConnectionHandler.set_agent (ConnectionHandler.m_agent_ptr h1) h1)))
         (address_text (m_address reply)) (handshake_port reply)).
  split; [|done].
  unfold listen, read_control_operation_from_socket.
  assert (Hop : valid (handshake_operation id)).
  { revert Hid. unfold is_int, int_min, int_max. intros Hid. cbn.
    change (2 ^ (8 * Z.of_nat 4 - 1)) with (2 ^ 31). split_and!; done || lia. }
  assert (Hlog : forall h n, ConnectionHandler.log_control_operation debug (handshake_operation id) h n =
                   Ok tt h n) by (intros; apply log_runs; cbn; lia).
  rewrite (bind_Ok _ _ _ _ (sizeof ControlOperation, handshake_operation id)
    (set_handler h1 s) n).
  2: { rewrite gets_bind. unfold Datatypes.id. rewrite (proj2 (Z.ltb_lt _ _)) by done.
       apply on_handler_Ok. apply read_raw_whole; [unfold h in *; lia|done..]. }
  change (0 <? sizeof ControlOperation) with true. cbv iota.
  rewrite (bind_Ok _ _ _ _ (sizeof StageHandshakeRaw) (mk (after_read (after_write
    (sent_stage_info info) (ConnectionHandler.set_agent (ConnectionHandler.m_agent_ptr h1) h1)))
    (address_text (m_address reply)) (handshake_port reply)) n); [done|].
  unfold handle_control_operation.
  rewrite (bind_Ok _ _ _ _ _ _ _ (on_handler_Ok _ (set_handler h1 s) _ _ _ _ (Hlog _ _))).
  change (operation_type_of (operation_type (handshake_operation id)))
    with (Some Southbound.stage_handshake). cbv iota.
  rewrite (bind_Ok _ _ _ _ _ _ _ (stage_handshake_runs reply info
    (set_handler h1 (set_handler h1 s)) n ltac:(cbn; unfold h in *; lia)
    Hreply Haddress Hinfo Hword Hwrite Hread2)).
  unfold ConnectionHandler.log_return_value. unfold mbind, M_bind, on_handler, zoom. by rewrite Hlog.
Qed.

End Handshake.

(** ** With and without a control plane *)

Section Manager.
Context `{SystemClock} `{Sockets} `{Process} `{RulesOrder} (fuel : nat).
Import ConnectionManager.

Lemma southbound_make_runs name port h n :
  SouthboundConnectionHandler.make (ConnectionOptions.mk option_default_communication_type name port)
    h n =
  Ok tt (ConnectionHandler.mk (-1) (ConnectionOptions.mk option_default_communication_type name port)
           (ConnectionHandler.m_agent_ptr h) southbound_handler (ConnectionHandler.network h)) n.
Proof. done. Qed.

Lemma invalid_socket_terminates shutdown debug rounds h n : ConnectionHandler.m_socket h = -1 ->
  southbound_thread fuel shutdown debug rounds h n = Crash (Terminated "exception in a thread").
Proof.
  intros Hs. unfold southbound_thread, thread_body, SouthboundConnectionHandler.listen.
  unfold mbind, M_bind, SouthboundConnectionHandler.read_control_operation_from_socket, gets.
  unfold mbind, M_bind. by rewrite Hs.
Qed.

Lemma lost_aux options agent network debug m0 n u m n' :
  ConnectionOptions.m_connection_type options <> Options.none ->
  make options agent network debug m0 n = Ok u m n' ->
  exists h, m_southbound_connection_handler m = Some h /\ m_connection_thread m = true /\
    ConnectionHandler.m_socket h = -1 /\
    forall shutdown rounds k, southbound_thread fuel shutdown debug rounds h k =
      Crash (Terminated "exception in a thread").
Proof.
  intros Htype Hrun. unfold make in Hrun. rewrite modify_bind in Hrun.
  apply bind_Ok_inv in Hrun as (? & m1 & n1 & Hmake & Hrun).
  apply zoom_Ok_inv in Hmake as (s1 & _ & ->). unfold connect in Hrun.
  apply bind_Ok_inv in Hrun as (? & m2 & n2 & Hshake & Hrun). rewrite gets_bind in Hrun. cbv zeta in Hrun.
  assert (Hoptions : m_connection_options m2 = options).
  { unfold spawn_handshake_listening_thread in Hshake. rewrite gets_bind in Hshake.
    destruct (with_controller _); [|by injection Hshake as _ <- _].
    unfold thread_body in Hshake. destruct (zoom _ _ _ _ _) as [y m' k| |] eqn:Hz; [|done..].
    injection Hshake as _ <- _. by apply zoom_Ok_inv in Hz as (s2 & _ & ->). }
  erewrite bind_Ok in Hrun; [|apply zoom_Ok, southbound_make_runs].
  unfold spawn_southbound_listening_thread in Hrun. rewrite gets_bind in Hrun.
  unfold Datatypes.id in Hrun.
  assert (Hwith : forall h, with_controller (set_southbound h m2) = true).
  { intros h. unfold with_controller. cbn [m_connection_options set_southbound]. rewrite Hoptions.
    by destruct (ConnectionOptions.m_connection_type options). }
  rewrite Hwith in Hrun. injection Hrun as _ <- _.
  eexists. split; [done|]. split; [done|]. split; [done|]. intros. by apply invalid_socket_terminates.
Qed.

(** C37.  A stage never talks to its control plane after the handshake: whatever
    the type of the connection, the southbound handler takes the default type,
    which opens no socket; its thread, which is started, throws at the first read,
    and the program is terminated. *)
Theorem control_plane_is_lost options agent network debug m0 n u m n' :
  ConnectionOptions.m_connection_type options <> Options.none ->
  make options agent network debug m0 n = Ok u m n' ->
  exists h, m_southbound_connection_handler m = Some h /\ m_connection_thread m = true /\
    ConnectionHandler.m_socket h = -1 /\
    forall shutdown rounds k, southbound_thread fuel shutdown debug rounds h k =
      Crash (Terminated "exception in a thread").
Proof. apply lost_aux. Qed.

(** Without a control plane the manager makes no system call, starts no
    thread, and has none to join when it is destroyed. *)
Theorem no_control_plane name port agent network debug m0 n :
  let options := ConnectionOptions.mk Options.none name port in
  exists m, make options agent network debug m0 n = Ok tt m n /\
    m_connection_thread m = false /\
    (exists h, m_southbound_connection_handler m = Some h /\
       ConnectionHandler.network h = network /\ ConnectionHandler.m_agent_ptr h = agent) /\
    disconnect_from_control_plane m n = Ok tt m n.
Proof.
  intros options.
  set (h := fun type => ConnectionHandler.mk (-1) options agent type network).
  exists (mk (-1) options agent (HandshakeConnectionHandler.mk (h handshake_handler) "" (-1))
            (Some (ConnectionHandler.mk (-1) (ConnectionOptions.mk Options.none "" (-1)) agent
                     southbound_handler network)) false).
  split; [by destruct network|]. split; [done|]. split; [|done]. by eexists.
Qed.

End Manager.

(** ** Witnesses *)

Definition sample_reply : StageHandshakeRaw :=
  mkStageHandshakeRaw ([49; 48; 46; 48; 46; 48; 46; 49] ++ replicate 92 0) 50055.

Definition handshake_script : Sockets :=
  scripted [bytes_of (handshake_operation 1); bytes_of sample_reply].

Definition sample_inet : ConnectionOptions.t := ConnectionOptions.mk inet "127.0.0.1" 12345.

Lemma handshake_exchange_witness : exists s',
  @HandshakeConnectionHandler.listen handshake_script sample_process false
    (HandshakeConnectionHandler.mk sample_handler "" (-1)) O = Ok tt s' O /\
  HandshakeConnectionHandler.m_southbound_socket_name s' = "10.0.0.1" /\
  HandshakeConnectionHandler.m_southbound_socket_port s' = 50055.
Proof.
  destruct (is_Ok_inv (@Agent.get_stage_info sample_process
    (@default_StageInfoRaw sample_process) sample_agent O)) as (info & a & n & Hinfo);
    [vm_compute; reflexivity|].
  assert (Ha : a = sample_agent /\ n = O).
  { pose proof (eq_refl : outcome_map (fun _ => sample_agent) (@Agent.get_stage_info sample_process
      (@default_StageInfoRaw sample_process) sample_agent O) =
      @Agent.get_stage_info sample_process (@default_StageInfoRaw sample_process) sample_agent O) as Heq.
    rewrite Hinfo in Heq. injection Heq as <-. split; [reflexivity|].
    pose proof (eq_refl : match @Agent.get_stage_info sample_process
      (@default_StageInfoRaw sample_process) sample_agent O with Ok _ _ k => k | _ => 1%nat end = O) as Hn.
    rewrite Hinfo in Hn. exact Hn. }
  destruct Ha as [-> ->].
  destruct (@handshake_exchange handshake_script sample_process 1 sample_reply info false
    (HandshakeConnectionHandler.mk sample_handler "" (-1)) O) as (s' & Hl & Hname & Hport & _).
  - reflexivity.
  - split; vm_compute; discriminate.
  - apply fits_layoutb_sound. vm_compute. reflexivity.
  - apply (bool_decide_unpack _). vm_compute. exact I.
  - exact Hinfo.
  - split; vm_compute; (discriminate || reflexivity).
  - vm_compute. reflexivity.
  - reflexivity.
  - reflexivity.
  - exists s'. split; [exact Hl|]. split; [rewrite Hname; vm_compute; reflexivity|exact Hport].
Defined.

Lemma control_plane_is_lost_witness : exists u m n' h,
  @ConnectionManager.make handshake_script sample_process sample_inet sample_agent
    Network.start false (ConnectionManager.initial sample_inet sample_agent Network.start) O =
    Ok u m n' /\
  ConnectionManager.m_southbound_connection_handler m = Some h /\
  @ConnectionManager.southbound_thread bounded_clock handshake_script sample_process listed_order 3
    never false 9 h O = Crash (Terminated "exception in a thread").
Proof.
  destruct (is_Ok_inv (@ConnectionManager.make handshake_script sample_process sample_inet
    sample_agent Network.start false (ConnectionManager.initial sample_inet sample_agent Network.start) O))
    as (u & m & n' & Hm); [vm_compute; reflexivity|].
  destruct (@control_plane_is_lost bounded_clock handshake_script sample_process listed_order 3
    sample_inet sample_agent Network.start false _ O u m n' ltac:(discriminate) Hm)
    as (h & Hh & _ & _ & Hlost).
  exists u, m, n', h. split; [exact Hm|]. split; [exact Hh|]. apply Hlost.
Defined.
