(* ===== verification/Stage.v ===== *)
(** * The data plane stage

    [PaioStage] ([paio_stage.cpp]) puts the parts together: the core, the
    description of the stage, the agent over both, and the connection manager.
    A request reaches the core only when the stage is ready. *)

From S2P Require Import Prelude MachineInt Binary64 Options Differentiation.
From S2P Require Import Rules TokenBucketStats TokenBucket EnforcementObjects.
From S2P Require Import ChannelStatistics Channel Core RulesParser StageInfo Agent.
From S2P Require Import Networking Southbound Connection.

(** Build an object from an initial memory [s]. *)
Definition build {S T A} (s : S) (m : M S A) : M T S := fun t n =>
  match m s n with
  | Ok _ s' n' => Ok s' t n'
  | Raise e _ n' => Raise e t n'
  | Crash c => Crash c
  end.

Module PaioStage.

(** The core, the ready flag and the description are the agent's, which shares
    them. *)
Record t := mk {
  m_agent : Agent.t;                              (* shared_ptr<Agent> *)
  m_shutdown : bool;                              (* shared_ptr<atomic<bool>> *)
  m_connection_manager : ConnectionManager.t;
}.

Definition m_core (s : t) : Core.t := Agent.m_core (m_agent s).
Definition m_ready (s : t) : bool := Agent.m_ready (m_agent s).
Definition m_stage_info (s : t) : StageInfo.t := Agent.m_stage_identifier (m_agent s).

Definition set_agent (agent : Agent.t) (s : t) : t := mk agent (m_shutdown s) (m_connection_manager s).
Definition set_core (core : Core.t) (s : t) : t := set_agent (Agent.set_core core (m_agent s)) s.
Definition set_manager (manager : ConnectionManager.t) (s : t) : t :=
  mk (m_agent s) (m_shutdown s) manager.

(** A call on the core. *)
Definition on_core {A} (m : M Core.t A) : M t A := zoom m_core set_core m.

Section Calls.
Context `{SystemClock} `{FileSystem} `{Sockets} `{Process}.
(** Fuel of the loops of the token buckets, and the debug mode of the log. *)
Context (fuel : nat) (debug : bool).

(** Memory before a constructor runs. *)
Definition raw_agent (info : StageInfo.t) : Agent.t :=
  Agent.mk Core.make_default false info "" "" "" option_execute_rule_on_receive.

Definition build_core (channels : Z) (default_object_creation : bool) : M unit Core.t :=
  build Core.make_default
    (Core.make fuel channels option_create_default_channels default_object_creation).

Definition build_manager (agent : Agent.t) (options : option ConnectionOptions.t) :
    M unit ConnectionManager.t :=
  build (ConnectionManager.initial (ConnectionOptions.mk none "" 0) agent Network.start)
    (match options with
     | Some options => ConnectionManager.make options agent Network.start debug
     | None => ConnectionManager.make_default agent Network.start debug
     end).

Definition make_default : M unit t :=
  info ← StageInfo.make StageInfo.option_default_data_plane_stage_name;
  agent ← build (raw_agent info)
            (Agent.make_with_files fuel option_default_communication_type Core.make_default false
               Agent.option_default_housekeeping_rules_file_path
               Agent.option_default_differentiation_rules_file_path
               Agent.option_default_enforcement_rules_file_path (-1) info true);
  manager ← build_manager agent None;
  mret (mk agent false manager).

Definition make (channels : Z) (default_object_creation : bool) (stage_identifier : string) :
    M unit t :=
  core ← build_core channels default_object_creation;
  info ← StageInfo.make stage_identifier;
  agent ← build (raw_agent info)
            (Agent.make fuel option_default_communication_type core false channels info);
  manager ← build_manager agent None;
  mret (mk agent false manager).

Definition make_with_files (channels : Z) (default_object_creation : bool)
    (stage_identifier housekeeping_rules_file_path differentiation_rules_file_path
       enforcement_rules_file_path : string) (execute_on_receive : bool) : M unit t :=
  core ← build_core channels default_object_creation;
  info ← StageInfo.make stage_identifier;
  agent ← build (raw_agent info)
            (Agent.make_with_files fuel option_default_communication_type core false
               housekeeping_rules_file_path differentiation_rules_file_path
               enforcement_rules_file_path channels info execute_on_receive);
  manager ← build_manager agent None;
  mret (mk agent false manager).

Definition make_connected (channels : Z) (default_object_creation : bool) (stage_identifier : string)
    (connection_type : CommunicationType) (address : string) (port : Z) : M unit t :=
  core ← build_core channels default_object_creation;
  info ← StageInfo.make stage_identifier;
  agent ← build (raw_agent info) (Agent.make fuel connection_type core false channels info);
  manager ← build_manager agent (Some (ConnectionOptions.mk connection_type address port));
  mret (mk agent false manager).

Definition is_interrupted (s : t) : bool := m_shutdown s.
Definition is_ready (s : t) : bool := m_ready s.

Definition shutdown_connection : M t unit :=
  modify (fun s => mk (m_agent s) true (m_connection_manager s)).

(** The destructor, with the one of the connection manager. *)
Definition destroy : M t unit :=
  _ ← shutdown_connection;
  zoom m_connection_manager set_manager ConnectionManager.disconnect_from_control_plane.

Definition set_stage_description (description : string) : M t unit :=
  modify (fun s =>
    let a := m_agent s in
    set_agent (Agent.mk (Agent.m_core a) (Agent.m_ready a)
                 (StageInfo.set_description description (Agent.m_stage_identifier a))
                 (Agent.m_housekeeping_rule_file a) (Agent.m_differentiation_rule_file a)
                 (Agent.m_enforcement_rule_file a) (Agent.m_execute_on_receive a)) s).

(** The status and the result, which is passed by reference. *)
Definition enforce_request (context : Context) (buffer : option (list Z)) (buffer_size : Z)
    (result : Result.t) : M t (PStatus * Result.t) :=
  s ← gets id;
  if m_ready s then
    result ← on_core (Core.enforce_request fuel context buffer buffer_size result);
    mret (PStatus_Enforced, result)
  else mret (PStatus_Error, result).

Definition get_stage_info_name (s : t) : string := StageInfo.m_name (m_stage_info s).
Definition get_stage_info_opt (s : t) : string := StageInfo.m_opt (m_stage_info s).
Definition get_stage_info_pid (s : t) : Z := StageInfo.m_pid (m_stage_info s).
Definition get_stage_info_ppid (s : t) : Z := StageInfo.m_ppid (m_stage_info s).
Definition get_stage_info_hostname (s : t) : string := StageInfo.m_hostname (m_stage_info s).
Definition get_stage_info_login_name (s : t) : string := StageInfo.m_login_name (m_stage_info s).

End Calls.

End PaioStage.

(** ** What the constructors build *)

Section Construction.
Context `{SystemClock} `{FileSystem} `{Sockets} `{Process} (fuel : nat) (debug : bool).

(** How a stage is constructed. *)
Inductive stage_options :=
| DefaultStage
| Stage (channels : Z) (objects : bool) (name : string)
| StageWithFiles (channels : Z) (objects : bool) (name housekeeping differentiation enforcement : string)
    (execute_on_receive : bool)
| ConnectedStage (channels : Z) (objects : bool) (name : string) (type : CommunicationType)
    (address : string) (port : Z).

Definition make_stage (o : stage_options) : M unit PaioStage.t :=
  match o with
  | DefaultStage => PaioStage.make_default fuel debug
  | Stage channels objects name => PaioStage.make fuel debug channels objects name
  | StageWithFiles channels objects name f1 f2 f3 execute =>
      PaioStage.make_with_files fuel debug channels objects name f1 f2 f3 execute
  | ConnectedStage channels objects name type address port =>
      PaioStage.make_connected fuel debug channels objects name type address port
  end.

(** The calls on a stage, from the layer above and from the threads of the stage. *)
Inductive stage_call :=
| StageEnforce (context : Context) (buffer : option (list Z)) (buffer_size : Z) (result : Result.t)
| StageAgent (call : agent_call)
| StageDescription (description : string)
| StageShutdown.

Definition run_stage (call : stage_call) : M PaioStage.t unit :=
  match call with
  | StageEnforce context buffer size result =>
      _ ← PaioStage.enforce_request fuel context buffer size result; mret tt
  | StageAgent call => zoom PaioStage.m_agent PaioStage.set_agent (run_agent fuel call)
  | StageDescription description => PaioStage.set_stage_description description
  | StageShutdown => PaioStage.shutdown_connection
  end.

Fixpoint run_stage_calls (calls : list stage_call) : M PaioStage.t unit :=
  match calls with
  | [] => mret tt
  | call :: calls => _ ← run_stage call; run_stage_calls calls
  end.

Lemma build_inv {S T A} (s : S) (m : M S A) (u : T) n s' u' n' :
  build s m u n = Ok s' u' n' -> exists a, m s n = Ok a s' n'.
Proof. unfold build. destruct (m s n); [|done..]. intros [= <- <- <-]. eauto. Qed.

Lemma build_core_well_formed channels objects u n core u' n' :
  PaioStage.build_core fuel channels objects u n = Ok core u' n' -> core_well_formed core.
Proof.
  intros [a Hm]%build_inv. unfold Core.make in Hm. rewrite modify_bind in Hm.
  pose proof default_core_well_formed as Hd.
  destruct option_create_default_channels; [|by injection Hm as _ <- _].
  pose proof (create_default_channels_well_formed fuel (Z.to_nat channels) 1 objects
    Core.make_default n Hd) as Hk.
  by rewrite Hm in Hk.
Qed.

(** The agent of a constructor: the core is well formed if it was. *)
Lemma load_rules_sound type instances a n : core_well_formed (Agent.m_core a) ->
  keeps (fun a' => core_well_formed (Agent.m_core a')) (Agent.load_rules fuel type instances a n).
Proof.
  intros Hc. assert (Hs : sound false a) by done.
  pose proof (run_agent_sound fuel (LoadRules type instances) false a n Hs) as Hk.
  cbn [run_agent] in Hk. by destruct (Agent.load_rules fuel type instances a n); [destruct Hk..|].
Qed.

Lemma make_stage_core o u n s u' n' : make_stage o u n = Ok s u' n' ->
  core_well_formed (PaioStage.m_core s).
Proof.
  intros Hm.
  assert (Hload : forall type instances a k b a' k', core_well_formed (Agent.m_core a) ->
    Agent.load_rules fuel type instances a k = Ok b a' k' -> core_well_formed (Agent.m_core a')).
  { intros type instances a k b a' k' Hc Hl. pose proof (load_rules_sound type instances a k Hc) as Hk.
    by rewrite Hl in Hk. }
  destruct o; cbn [make_stage] in Hm.
  - unfold PaioStage.make_default in Hm. run_inv Hm. apply build_inv in Hrun0 as [b Hb].
    unfold Agent.make_with_files in Hb. rewrite modify_bind in Hb.
    eapply Hload; [|exact Hb]. apply default_core_well_formed.
  - unfold PaioStage.make in Hm. run_inv Hm. apply build_core_well_formed in Hrun.
    apply build_inv in Hrun1 as [b Hb]. unfold Agent.make in Hb. rewrite modify_bind in Hb.
    by eapply Hload; [|exact Hb].
  - unfold PaioStage.make_with_files in Hm. run_inv Hm. apply build_core_well_formed in Hrun.
    apply build_inv in Hrun1 as [b Hb]. unfold Agent.make_with_files in Hb. rewrite modify_bind in Hb.
    by eapply Hload; [|exact Hb].
  - unfold PaioStage.make_connected in Hm. run_inv Hm. apply build_core_well_formed in Hrun.
    apply build_inv in Hrun1 as [b Hb]. unfold Agent.make in Hb. rewrite modify_bind in Hb.
    by eapply Hload; [|exact Hb].
Qed.

End Construction.

Section Guarantees.
Context `{SystemClock} `{FileSystem} `{Sockets} `{Process} `{RulesOrder} (fuel : nat) (debug : bool).

Definition stage_sound (ready : bool) (s : PaioStage.t) : Prop := sound ready (PaioStage.m_agent s).

Lemma run_stage_sound call ready s n :
  stage_sound ready s -> keeps (stage_sound ready) (run_stage fuel call s n).
Proof.
  intros Hs. destruct call; cbn [run_stage]; [|by apply (keeps_zoom (sound ready)); [apply run_agent_sound|]|done|done].
  apply keeps_unit. unfold PaioStage.enforce_request. rewrite gets_bind.
  destruct (PaioStage.m_ready _); [|done]. apply keeps_bind; [|done].
  apply (keeps_zoom core_well_formed); [|by intros core Hcore; split; [|apply Hs]].
  apply enforce_request_well_formed, Hs.
Qed.

(** C25.  A stage that is constructed, in any of the four ways, has a
    well-formed core, and keeps it whatever requests, control operations and
    collections follow in any order; once it is ready it stays ready. *)
Theorem stage_invariant o calls u n s u' n' :
  make_stage fuel debug o u n = Ok s u' n' ->
  core_well_formed (PaioStage.m_core s) /\
  keeps (fun s' => core_well_formed (PaioStage.m_core s') /\
           (PaioStage.m_ready s = true -> PaioStage.m_ready s' = true))
    (run_stage_calls fuel calls s n').
Proof.
  intros Hm. pose proof (make_stage_core fuel debug o u n s u' n' Hm) as Hc. split; [done|].
  change (keeps (stage_sound (PaioStage.m_ready s)) (run_stage_calls fuel calls s n')).
  assert (Hs : stage_sound (PaioStage.m_ready s) s) by (split; done).
  revert Hs. generalize (PaioStage.m_ready s) as ready. clear Hm Hc. revert s n'.
  induction calls as [|call calls IH]; intros s k ready Hs; [done|]. simpl.
  apply keeps_bind; [by apply run_stage_sound|auto].
Qed.

(** A request enters the core of a stage that is ready, once, and comes
    back as enforced; before that it comes back as an error and nothing changes,
    the result included. *)
Theorem enforce_when_ready context buffer size result s n :
  core_well_formed (PaioStage.m_core s) ->
  let c := PaioStage.m_core s in
  let token := channel_token (Core.m_channel_diff_builder c) (u32 (m_workflow_id context))
    (u32 (m_operation_type context)) (u32 (m_operation_context context)) in
  PaioStage.enforce_request fuel context buffer size result s n =
  if PaioStage.m_ready s then
    match Core.m_channels c !! token with
    | None => Ok (PStatus_Enforced, result) (PaioStage.set_core c s) n
    | Some channel =>
        match ChannelDefault.channel_enforce fuel context buffer size result channel n with
        | Ok result' channel' n' =>
            Ok (PStatus_Enforced, result')
              (PaioStage.set_core (Core.set_channels (<[token := channel']> (Core.m_channels c)) c) s) n'
        | Raise e channel' n' =>
            Raise e
              (PaioStage.set_core (Core.set_channels (<[token := channel']> (Core.m_channels c)) c) s) n'
        | Crash x => Crash x
        end
    end
  else Ok (PStatus_Error, result) s n.
Proof.
  intros Hc c token. unfold PaioStage.enforce_request. rewrite gets_bind. unfold Datatypes.id.
  destruct (PaioStage.m_ready s); [|done].
  unfold mbind, M_bind, PaioStage.on_core, zoom. fold c. rewrite enforce_request_routed by done.
  fold token. destruct (Core.m_channels c !! token) as [channel|]; [|done].
  by destruct (ChannelDefault.channel_enforce _ _ _ _ _ _ _).
Qed.

Lemma default_stage_unready u n s u' n' :
  contents_of Agent.option_default_housekeeping_rules_file_path =
    Some default_housekeeping_rules_file ->
  make_stage fuel debug DefaultStage u n = Ok s u' n' -> PaioStage.is_ready s = false.
Proof.
  intros Hfile Hm. cbn [make_stage] in Hm. unfold PaioStage.make_default in Hm. run_inv Hm.
  apply build_inv in Hrun0 as [b Hb].
  match type of Hb with Agent.make_with_files _ _ _ _ _ _ _ _ ?info _ ?a ?k = _ =>
    pose proof (default_agent_not_ready fuel info a k Hfile) as Hnot end.
  change (Agent.make fuel Options.none Core.make_default false (-1)) with
    (fun info => Agent.make_with_files fuel option_default_communication_type Core.make_default false
       Agent.option_default_housekeeping_rules_file_path
       Agent.option_default_differentiation_rules_file_path
       Agent.option_default_enforcement_rules_file_path (-1) info true) in Hnot.
  cbv beta in Hnot. rewrite Hb in Hnot. by destruct Hnot.
Qed.

(** A stage built on the default files of the repository is never made
    ready by its constructor. *)
Theorem default_stage_not_ready u n s u' n' :
  contents_of Agent.option_default_housekeeping_rules_file_path =
    Some default_housekeeping_rules_file ->
  make_stage fuel debug DefaultStage u n = Ok s u' n' -> PaioStage.is_ready s = false.
Proof. apply default_stage_unready. Qed.

(** A stage that asks for a control plane never serves a request: its
    constructor leaves it not ready, and the thread that would carry out the
    operation that marks it ready terminates the program at its first read. *)
Theorem connected_stage_lost channels objects name type address port u n s u' n' :
  type <> Options.none ->
  make_stage fuel debug (ConnectedStage channels objects name type address port) u n = Ok s u' n' ->
  PaioStage.is_ready s = false /\
  exists h, ConnectionManager.m_southbound_connection_handler (PaioStage.m_connection_manager s) = Some h /\
    ConnectionManager.m_connection_thread (PaioStage.m_connection_manager s) = true /\
    forall shutdown rounds k, ConnectionManager.southbound_thread fuel shutdown debug rounds h k =
      Crash (Terminated "exception in a thread").
Proof.
  intros Htype Hm. cbn [make_stage] in Hm. unfold PaioStage.make_connected in Hm. run_inv Hm.
  apply build_inv in Hrun1 as [b Hb], Hrun2 as [b2 Hb2]. split.
  - unfold Agent.make in Hb. rewrite modify_bind in Hb. unfold Agent.load_rules in Hb.
    destruct type; try done; by injection Hb as _ <- _.
  - eapply lost_aux in Hb2 as (h & Hh & Ht & _ & Hlost); [by exists h|done].
Qed.

End Guarantees.

(** ** Witnesses *)


Lemma stage_invariant_witness : exists s u' n',
  @make_stage bounded_clock sample_files handshake_script sample_process 3 false DefaultStage tt O =
    Ok s u' n' /\
  core_well_formed (PaioStage.m_core s).
Proof.
  destruct (is_Ok_inv (@make_stage bounded_clock sample_files handshake_script sample_process 3 false
    DefaultStage tt O)) as (s & u' & n' & Hm); [vm_compute; reflexivity|].
  exists s, u', n'. split; [exact Hm|].
  exact (proj1 (@stage_invariant bounded_clock sample_files handshake_script sample_process 3 false
    DefaultStage [StageShutdown] tt O s u' n' Hm)).
Defined.

Definition sample_stage (ready : bool) : PaioStage.t :=
  PaioStage.mk (Agent.set_ready ready (Agent.set_core sample_core sample_agent)) false
    (ConnectionManager.initial sample_inet sample_agent Network.start).

Lemma enforce_when_ready_witness :
  @PaioStage.enforce_request bounded_clock 3 sample_context None 0 Result.default (sample_stage false) O =
    Ok (PStatus_Error, Result.default) (sample_stage false) O.
Proof.
  exact (@enforce_when_ready bounded_clock 3 sample_context None 0 Result.default (sample_stage false) O
    sample_core_well_formed).
Defined.

Lemma default_stage_not_ready_witness : exists s u' n',
  @make_stage bounded_clock sample_files handshake_script sample_process 3 false DefaultStage tt O =
    Ok s u' n' /\ PaioStage.is_ready s = false.
Proof.
  destruct (is_Ok_inv (@make_stage bounded_clock sample_files handshake_script sample_process 3 false
    DefaultStage tt O)) as (s & u' & n' & Hm); [vm_compute; reflexivity|].
  exists s, u', n'. split; [exact Hm|].
  exact (@default_stage_not_ready bounded_clock sample_files handshake_script sample_process 3 false
    tt O s u' n' eq_refl Hm).
Defined.

Lemma connected_stage_lost_witness : exists s u' n',
  @make_stage bounded_clock sample_files handshake_script sample_process 3 false
    (ConnectedStage 0 false "stage" inet "127.0.0.1" 12345) tt O = Ok s u' n' /\
  PaioStage.is_ready s = false.
Proof.
  destruct (is_Ok_inv (@make_stage bounded_clock sample_files handshake_script sample_process 3 false
    (ConnectedStage 0 false "stage" inet "127.0.0.1" 12345) tt O)) as (s & u' & n' & Hm);
    [vm_compute; reflexivity|].
  exists s, u', n'. split; [exact Hm|].
  exact (proj1 (@connected_stage_lost bounded_clock sample_files handshake_script sample_process
    listed_order 3 false 0 false "stage" inet "127.0.0.1" 12345 tt O s u' n' ltac:(discriminate) Hm)).
Defined.
