(* ===== verification/Instances.v ===== *)
(** * The interfaces to the I/O layers

    [InstanceInterface] ([instance_interface.hpp]) submits a request to the stage
    again and again until it is enforced; [PaioInstance], [PosixLayer] and
    [LsmKvsLayer] are built on it.  The POSIX calls of the layers below are
    parameters, and the calls made are recorded in their order. *)

From S2P Require Import Prelude MachineInt Binary64 Options Differentiation.
From S2P Require Import Rules TokenBucketStats TokenBucket EnforcementObjects.
From S2P Require Import ChannelStatistics Channel Core RulesParser StageInfo Agent.
From S2P Require Import Networking Southbound Connection Stage.

(** What the other threads of the program have done to the stage by the end of
    the n-th sleep of a caller. *)
Class OtherThreads := others : nat -> PaioStage.t -> PaioStage.t.

Module InstanceInterface.

Record t := mk {
  m_paio_stage : PaioStage.t;                       (* shared_ptr<PaioStage> *)
  m_default_workflow_id : Z;                        (* long *)
  m_default_secondary_workflow_identifier : string;
  m_default_operation_type : Z;                     (* int *)
  m_default_operation_context : Z;                  (* int *)
  sleeps : nat;                                     (* of the callers, so far *)
}.

Definition set_stage (stage : PaioStage.t) (i : t) : t :=
  mk stage (m_default_workflow_id i) (m_default_secondary_workflow_identifier i)
    (m_default_operation_type i) (m_default_operation_context i) (sleeps i).

Definition set_default_workflow_id (workflow_id : Z) (i : t) : t :=
  mk (m_paio_stage i) workflow_id (m_default_secondary_workflow_identifier i)
    (m_default_operation_type i) (m_default_operation_context i) (sleeps i).
Definition set_default_operation_type (operation_type : Z) (i : t) : t :=
  mk (m_paio_stage i) (m_default_workflow_id i) (m_default_secondary_workflow_identifier i)
    operation_type (m_default_operation_context i) (sleeps i).
Definition set_default_operation_context (operation_context : Z) (i : t) : t :=
  mk (m_paio_stage i) (m_default_workflow_id i) (m_default_secondary_workflow_identifier i)
    (m_default_operation_type i) operation_context (sleeps i).
Definition set_default_secondary_workflow_identifier (workflow_secondary_id : string) (i : t) : t :=
  mk (m_paio_stage i) (m_default_workflow_id i) workflow_secondary_id
    (m_default_operation_type i) (m_default_operation_context i) (sleeps i).

(** The explicit constructor, and the parameterized one. *)
Definition make (stage_ptr : PaioStage.t) : t :=
  mk stage_ptr (-1) "workflow" (PAIO_GENERAL_.code PAIO_GENERAL_.no_op)
    (PAIO_GENERAL_.code PAIO_GENERAL_.no_op) O.
Definition make_with (stage_ptr : PaioStage.t) (workflow_id operation_type operation_context : Z) : t :=
  mk stage_ptr workflow_id "workflow" operation_type operation_context O.

(** The one of [PaioInstance], [PosixLayer] and [LsmKvsLayer]. *)
Definition build_context_object (workflow_id operation_type operation_context operation_size
    total_operations : Z) : Context :=
  mkContext workflow_id operation_type operation_context operation_size total_operations.

Definition build_default_context_object (i : t) : Context :=
  build_context_object (m_default_workflow_id i) (m_default_operation_type i)
    (m_default_operation_context i) 1 1.

Section Calls.
Context `{SystemClock} `{OtherThreads}.
(** Fuel of the loops of the token buckets. *)
Context (fuel : nat).

Definition on_stage {A} (m : M PaioStage.t A) : M t A := zoom m_paio_stage set_stage m.

(** A second of sleep. *)
Definition sleep : M t unit :=
  modify (fun i =>
    mk (others (sleeps i) (m_paio_stage i)) (m_default_workflow_id i)
      (m_default_secondary_workflow_identifier i) (m_default_operation_type i)
      (m_default_operation_context i) (S (sleeps i))).

(** The loop, which ends when the request is enforced; [attempts] is the fuel. *)
Fixpoint enforce_buffer (attempts : nat) (context : Context) (buffer : option (list Z)) (size : Z)
    (result : Result.t) : M t Result.t :=
  match attempts with
  | O => crash_with OutOfFuel
  | S attempts =>
      '(status, result) ← on_stage (PaioStage.enforce_request fuel context buffer size result);
      if is_enforced status then mret result
      else
        _ ← sleep;
        enforce_buffer attempts context buffer size result
  end.

Definition enforce (attempts : nat) (context : Context) (result : Result.t) : M t Result.t :=
  enforce_buffer attempts context None 0 result.

End Calls.

End InstanceInterface.

(** [PaioInstance] ([paio_instance.cpp]): its operations are those of the
    interface; a default context asks for the classes of the general domain. *)
Module PaioInstance.

Definition t : Type := InstanceInterface.t.

Definition make (stage_ptr : PaioStage.t) : t := InstanceInterface.make stage_ptr.

Definition make_workflow (stage_ptr : PaioStage.t) (default_workflow_id : Z) : t :=
  InstanceInterface.set_default_operation_context (PAIO_GENERAL_.code PAIO_GENERAL_.no_op)
    (InstanceInterface.set_default_operation_type (PAIO_GENERAL_.code PAIO_GENERAL_.no_op)
       (InstanceInterface.set_default_workflow_id default_workflow_id
          (InstanceInterface.make stage_ptr))).

Definition make_full (stage_ptr : PaioStage.t) (default_workflow_id default_operation_type
    default_operation_context : Z) : t :=
  InstanceInterface.make_with stage_ptr default_workflow_id default_operation_type
    default_operation_context.

Definition set_default_workflow_id (workflow_id : Z) (i : t) : t :=
  InstanceInterface.set_default_workflow_id workflow_id i.
Definition set_default_operation_type (operation_type : Z) (i : t) : t :=
  InstanceInterface.set_default_operation_type operation_type i.
Definition set_default_operation_context (operation_context : Z) (i : t) : t :=
  InstanceInterface.set_default_operation_context operation_context i.
Definition set_default_secondary_workflow_identifier (workflow_secondary_id : string) (i : t) : t :=
  InstanceInterface.set_default_secondary_workflow_identifier workflow_secondary_id i.

Definition get_default_workflow_id (i : t) : Z := InstanceInterface.m_default_workflow_id i.
Definition get_default_secondary_workflow_identifier (i : t) : string :=
  InstanceInterface.m_default_secondary_workflow_identifier i.
Definition get_default_operation_type (i : t) : Z := InstanceInterface.m_default_operation_type i.
Definition get_default_operation_context (i : t) : Z := InstanceInterface.m_default_operation_context i.

Section Calls.
Context `{SystemClock} `{OtherThreads} (fuel attempts : nat).

Definition enforce_context (context : Context) (result : Result.t) : M t Result.t :=
  InstanceInterface.enforce fuel attempts context result.
Definition enforce_content (context : Context) (buffer : option (list Z)) (size : Z)
    (result : Result.t) : M t Result.t :=
  InstanceInterface.enforce_buffer fuel attempts context buffer size result.

End Calls.

End PaioInstance.

(** [LsmKvsLayer] ([lsm_kvs_layer.cpp]): nothing is enforced yet. *)
Module LsmKvsLayer.

Record t := mk {
  instance : InstanceInterface.t;
  m_has_io_transformation : bool;
}.

Definition set_instance (i : InstanceInterface.t) (l : t) : t := mk i (m_has_io_transformation l).

Definition make (stage_ptr : PaioStage.t) : t :=
  mk (InstanceInterface.set_default_operation_context (KVS_.code KVS_.no_op)
        (InstanceInterface.set_default_operation_type (KVS_.code KVS_.no_op)
           (InstanceInterface.make stage_ptr))) option_default_has_io_transformation.

Definition make_workflow (stage_ptr : PaioStage.t) (default_workflow_id : Z) : t :=
  mk (InstanceInterface.set_default_operation_context (KVS_.code KVS_.no_op)
        (InstanceInterface.set_default_operation_type (KVS_.code KVS_.no_op)
           (InstanceInterface.set_default_workflow_id default_workflow_id
              (InstanceInterface.make stage_ptr)))) option_default_has_io_transformation.

Definition make_full (stage_ptr : PaioStage.t) (default_workflow_id default_operation_type
    default_operation_context : Z) : t :=
  mk (InstanceInterface.make_with stage_ptr default_workflow_id default_operation_type
        default_operation_context) option_default_has_io_transformation.

Definition set_io_transformation (value : bool) (l : t) : t := mk (instance l) value.

Definition set_default_workflow_id (workflow_id : Z) (l : t) : t :=
  set_instance (InstanceInterface.set_default_workflow_id workflow_id (instance l)) l.
Definition set_default_operation_type (operation_type : Z) (l : t) : t :=
  set_instance (InstanceInterface.set_default_operation_type operation_type (instance l)) l.
Definition set_default_operation_context (operation_context : Z) (l : t) : t :=
  set_instance (InstanceInterface.set_default_operation_context operation_context (instance l)) l.
Definition set_default_secondary_workflow_identifier (workflow_secondary_id : string) (l : t) : t :=
  set_instance (InstanceInterface.set_default_secondary_workflow_identifier workflow_secondary_id
    (instance l)) l.

Definition build_context_object (workflow_id operation_type operation_context operation_size
    total_operations : Z) : Context :=
  InstanceInterface.build_context_object workflow_id operation_type operation_context operation_size
    total_operations.

Definition build_default_context_object (l : t) : Context :=
  InstanceInterface.build_default_context_object (instance l).

Definition enforce_context (context : Context) (result : Result.t) : M t Result.t :=
  throw (RuntimeError "LsmKvsLayer::enforce() not implemented.").
Definition enforce (context : Context) (buffer : option (list Z)) (size : Z) (result : Result.t) :
    M t Result.t :=
  throw (RuntimeError "LsmKvsLayer::enforce() not implemented.").

Definition put : M t PStatus := mret PStatus_NotSupported.
Definition get (result : Result.t) : M t (PStatus * Result.t) := mret (PStatus_NotSupported, result).
Definition delete_ : M t PStatus := mret PStatus_NotSupported.

End LsmKvsLayer.

(** ** The POSIX layer *)

(** The calls of the layer below, with pointers other than the buffers of reads
    and writes as addresses. *)
Inductive SystemCall :=
| sys_write (fd : Z) (content : option (list Z)) (count : Z)
| sys_pwrite (fd : Z) (content : option (list Z)) (count offset : Z)
| sys_pwrite64 (fd : Z) (content : option (list Z)) (count offset : Z)
| sys_read (fd count : Z)
| sys_pread (fd count offset : Z)
| sys_pread64 (fd count offset : Z)
| sys_close (fd : Z)
| sys_fclose (stream : Z)
| sys_open (path : string) (flags : Z) (mode : option Z)
| sys_open64 (path : string) (flags : Z) (mode : option Z)
| sys_creat (path : string) (mode : Z)
| sys_creat64 (path : string) (mode : Z)
| sys_openat (dirfd : Z) (path : string) (flags : Z) (mode : option Z)
| sys_fopen (pathname mode : string)
| sys_fdopen (fd : Z) (mode : string)
| sys_rename (old_path new_path : string)
| sys_renameat (olddirfd : Z) (old_path : string) (newdirfd : Z) (new_path : string)
| sys_unlink (path : string)
| sys_unlinkat (dirfd : Z) (pathname : string) (flags : Z)
| sys_mkdir (path : string) (mode : Z)
| sys_mkdirat (dirfd : Z) (path : string) (mode : Z)
| sys_rmdir (path : string)
| sys_mknod (path : string) (mode dev : Z)
| sys_mknodat (dirfd : Z) (path : string) (mode dev : Z)
| sys_getxattr (path name : string) (value size : Z)
| sys_lgetxattr (path name : string) (value size : Z)
| sys_fgetxattr (fd : Z) (name : string) (value size : Z)
| sys_setxattr (path name : string) (value size flags : Z)
| sys_lsetxattr (path name : string) (value size flags : Z)
| sys_fsetxattr (fd : Z) (name : string) (value size flags : Z).

(** What [realloc] does with a block: fail and keep it, free it and return no
    other (a size of 0), resize it in place, or move it and free the old one. *)
Inductive Reallocation := null_kept | null_freed | same_place | new_place.

Class Posix := {
  call_result : nat -> SystemCall -> Z;             (* of the n-th call *)
  call_bytes : nat -> SystemCall -> option (list Z);  (* that the n-th call, a read, delivers *)
  realloc : nat -> Z -> Reallocation;
  O_CREAT : Z;
}.

(** The block that a caller passed for the bytes read. *)
Inductive Memory := holds (bytes : list Z) | freed.

Module PosixLayer.

Record t := mk {
  instance : InstanceInterface.t;
  m_has_io_transformation : bool;
  calls : list SystemCall;
}.

Definition set_instance (i : InstanceInterface.t) (l : t) : t :=
  mk i (m_has_io_transformation l) (calls l).

Definition make (stage_ptr : PaioStage.t) : t :=
  mk (InstanceInterface.set_default_operation_context (POSIX_.code POSIX_.no_op)
        (InstanceInterface.set_default_operation_type (POSIX_.code POSIX_.no_op)
           (InstanceInterface.make stage_ptr))) option_default_has_io_transformation [].

Definition make_workflow (stage_ptr : PaioStage.t) (default_workflow_id : Z) : t :=
  mk (InstanceInterface.set_default_operation_context (POSIX_.code POSIX_.no_op)
        (InstanceInterface.set_default_operation_type (POSIX_.code POSIX_.no_op)
           (InstanceInterface.set_default_workflow_id default_workflow_id
              (InstanceInterface.make stage_ptr)))) option_default_has_io_transformation [].

Definition make_full (stage_ptr : PaioStage.t) (default_workflow_id default_operation_type
    default_operation_context : Z) : t :=
  mk (InstanceInterface.make_with stage_ptr default_workflow_id default_operation_type
        default_operation_context) option_default_has_io_transformation [].

Definition set_io_transformation (value : bool) (l : t) : t := mk (instance l) value (calls l).

Definition set_default_workflow_id (workflow_id : Z) (l : t) : t :=
  set_instance (InstanceInterface.set_default_workflow_id workflow_id (instance l)) l.
Definition set_default_operation_type (operation_type : Z) (l : t) : t :=
  set_instance (InstanceInterface.set_default_operation_type operation_type (instance l)) l.
Definition set_default_operation_context (operation_context : Z) (l : t) : t :=
  set_instance (InstanceInterface.set_default_operation_context operation_context (instance l)) l.
Definition set_default_secondary_workflow_identifier (workflow_secondary_id : string) (l : t) : t :=
  set_instance (InstanceInterface.set_default_secondary_workflow_identifier workflow_secondary_id
    (instance l)) l.

Definition build_context_object (workflow_id operation_type operation_context operation_size
    total_operations : Z) : Context :=
  InstanceInterface.build_context_object workflow_id operation_type operation_context operation_size
    total_operations.

Definition build_default_context_object (l : t) : Context :=
  InstanceInterface.build_default_context_object (instance l).

Section Calls.
Context `{SystemClock} `{OtherThreads} `{Posix}.
(** Fuel of the loops of the token buckets, and of the loop of [enforce]. *)
Context (fuel attempts : nat).

Definition on_instance {A} (m : M InstanceInterface.t A) : M t A := zoom instance set_instance m.

Definition log_call (call : SystemCall) : M t nat :=
  state (fun l =>
    (length (calls l), mk (instance l) (m_has_io_transformation l) (calls l ++ [call]))).

Definition system_call (call : SystemCall) : M t Z :=
  n ← log_call call;
  mret (call_result n call).

(** The context of a request on [count] bytes. *)
Definition context_of (operation : POSIX_.t) (count : Z) (l : t) : Context :=
  InstanceInterface.build_context_object (InstanceInterface.m_default_workflow_id (instance l))
    (POSIX_.code operation) (InstanceInterface.m_default_operation_context (instance l)) count 1.

Definition enforce_content (context : Context) (content : option (list Z)) (size : Z) : M t Result.t :=
  on_instance (InstanceInterface.enforce_buffer fuel attempts context content size Result.default).

Definition enforce_context (context : Context) : M t Result.t :=
  on_instance (InstanceInterface.enforce fuel attempts context Result.default).

(** Enforce a request on the content of a buffer, or on its context alone. *)
Definition enforce_request (context : Context) (buf : option (list Z)) (count : Z) : M t Result.t :=
  l ← gets id;
  if m_has_io_transformation l then enforce_content context buf count else enforce_context context.

(** The three writes: [call] makes the system call. *)
Definition write_with (call : option (list Z) -> Z -> SystemCall) (buf : option (list Z)) (count : Z)
    (context : Context) : M t Z :=
  l ← gets id;
  result ← enforce_request context buf count;
  if m_has_io_transformation l && bool_decide (Result.m_result_status result = success)
  then system_call (call (Result.m_content result) (Result.m_content_size result))
  else if bool_decide (Result.m_result_status result = success) then system_call (call buf count)
  else mret (-1).

Definition write_context (fd : Z) (buf : option (list Z)) (count : Z) (context : Context) : M t Z :=
  write_with (sys_write fd) buf count context.
Definition pwrite_context (fd : Z) (buf : option (list Z)) (count offset : Z) (context : Context) :
    M t Z :=
  write_with (fun content size => sys_pwrite fd content size offset) buf count context.
Definition pwrite64_context (fd : Z) (buf : option (list Z)) (size offset : Z) (context : Context) :
    M t Z :=
  write_with (fun content count => sys_pwrite64 fd content count offset) buf size context.

Definition write (fd : Z) (buf : option (list Z)) (count : Z) : M t Z :=
  context ← gets (context_of POSIX_.write count);
  write_context fd buf count context.
Definition pwrite (fd : Z) (buf : option (list Z)) (count offset : Z) : M t Z :=
  context ← gets (context_of POSIX_.pwrite count);
  pwrite_context fd buf count offset context.
Definition pwrite64 (fd : Z) (buf : option (list Z)) (size offset : Z) : M t Z :=
  context ← gets (context_of POSIX_.pwrite64 size);
  pwrite64_context fd buf size offset context.

(** A system call that reads [count] bytes at most into a block. *)
Definition read_call (call : SystemCall) (buf : list Z) (count : Z) : M t (Z * list Z) :=
  n ← log_call call;
  match call_bytes n call with
  | None => mret (-1, buf)
  | Some bytes =>
      let received := take (Z.to_nat count) bytes in
      if (length buf <? length received)%nat
      then crash_with (UndefinedBehaviour "read past the end of the buffer")
      else mret (Z.of_nat (length received), received ++ drop (length received) buf)
  end.

(** The end of a read whose bytes were transformed: the block of the caller is
    resized and takes the new content. *)
Definition resize_and_copy (result : Result.t) (buf : list Z) : M t (Z * Memory) :=
  let read_bytes := s64 (Result.m_content_size result) in
  l ← gets id;
  match realloc (length (calls l)) (u64 read_bytes) with
  | null_kept => mret (-1, holds buf)
  | null_freed => mret (-1, freed)
  | same_place =>
      content ← memcpy (Result.m_content result) (u64 read_bytes);
      mret (read_bytes, holds content)
  | new_place =>
      _ ← memcpy (Result.m_content result) (u64 read_bytes);
      mret (read_bytes, freed)
  end.

(** The three reads. *)
Definition read_with (call : SystemCall) (buf : list Z) (count : Z) (context : Context) :
    M t (Z * Memory) :=
  l ← gets id;
  if m_has_io_transformation l then
    '(read_bytes, buf) ← read_call call buf count;
    if 0 <? read_bytes then
      result ← enforce_content context (Some buf) read_bytes;
      if negb (bool_decide (Result.m_result_status result = success)) then mret (-1, holds buf)
      else resize_and_copy result buf
    else mret (read_bytes, holds buf)
  else
    _ ← enforce_context context;
    '(read_bytes, buf) ← read_call call buf count;
    mret (read_bytes, holds buf).

Definition read_context (fd : Z) (buf : list Z) (count : Z) (context : Context) : M t (Z * Memory) :=
  read_with (sys_read fd count) buf count context.
Definition pread_context (fd : Z) (buf : list Z) (count offset : Z) (context : Context) :
    M t (Z * Memory) :=
  read_with (sys_pread fd count offset) buf count context.
Definition pread64_context (fd : Z) (buf : list Z) (size offset : Z) (context : Context) :
    M t (Z * Memory) :=
  read_with (sys_pread64 fd size offset) buf size context.

Definition read (fd : Z) (buf : list Z) (count : Z) : M t (Z * Memory) :=
  context ← gets (context_of POSIX_.read count);
  read_context fd buf count context.
Definition pread (fd : Z) (buf : list Z) (count offset : Z) : M t (Z * Memory) :=
  context ← gets (context_of POSIX_.pread count);
  pread_context fd buf count offset context.
Definition pread64 (fd : Z) (buf : list Z) (size offset : Z) : M t (Z * Memory) :=
  context ← gets (context_of POSIX_.pread64 size);
  pread64_context fd buf size offset context.

(** A content size of 0 stands for the size of the request. *)
Definition posix_base_context (buf : option (list Z)) (count : Z) (context : Context) : M t Z :=
  result ← enforce_request context buf count;
  if bool_decide (Result.m_result_status result = success) then
    mret (if 0 <? Result.m_content_size result then s64 (Result.m_content_size result) else s64 count)
  else mret (-1).

Definition posix_base (buf : option (list Z)) (count : Z) : M t Z :=
  context ← gets (fun l => InstanceInterface.build_default_context_object (instance l));
  posix_base_context buf count context.

(** ** Calls that are not enforced *)

(** The mode of an [open]: read from the arguments when a file may be created. *)
Definition mode_of (flags mode : Z) : option Z :=
  if Z.land flags O_CREAT =? 0 then None else Some (u32 mode).

Definition close (fd : Z) : M t Z := system_call (sys_close fd).
Definition fclose (stream : Z) : M t Z := system_call (sys_fclose stream).
Definition open (path : string) (flags mode : Z) : M t Z :=
  system_call (sys_open path flags (mode_of flags mode)).
Definition open64 (path : string) (flags mode : Z) : M t Z :=
  system_call (sys_open64 path flags (mode_of flags mode)).
Definition creat (path : string) (mode : Z) : M t Z := system_call (sys_creat path mode).
Definition creat64 (path : string) (mode : Z) : M t Z := system_call (sys_creat64 path mode).
Definition openat (dirfd : Z) (path : string) (flags mode : Z) : M t Z :=
  system_call (sys_openat dirfd path flags (mode_of flags mode)).
Definition fopen (pathname mode : string) : M t Z := system_call (sys_fopen pathname mode).
Definition fdopen (fd : Z) (mode : string) : M t Z := system_call (sys_fdopen fd mode).
Definition rename (old_path new_path : string) : M t Z := system_call (sys_rename old_path new_path).
Definition renameat (olddirfd : Z) (old_path : string) (newdirfd : Z) (new_path : string) : M t Z :=
  system_call (sys_renameat olddirfd old_path newdirfd new_path).
Definition unlink (path : string) : M t Z := system_call (sys_unlink path).
Definition unlinkat (dirfd : Z) (pathname : string) (flags : Z) : M t Z :=
  system_call (sys_unlinkat dirfd pathname flags).
Definition mkdir (path : string) (mode : Z) : M t Z := system_call (sys_mkdir path mode).
Definition mkdirat (dirfd : Z) (path : string) (mode : Z) : M t Z :=
  system_call (sys_mkdirat dirfd path mode).
Definition rmdir (path : string) : M t Z := system_call (sys_rmdir path).
Definition mknod (path : string) (mode dev : Z) : M t Z := system_call (sys_mknod path mode dev).
Definition mknodat (dirfd : Z) (path : string) (mode dev : Z) : M t Z :=
  system_call (sys_mknodat dirfd path mode dev).
Definition getxattr (path name : string) (value size : Z) : M t Z :=
  system_call (sys_getxattr path name value size).
Definition lgetxattr (path name : string) (value size : Z) : M t Z :=
  system_call (sys_lgetxattr path name value size).
Definition fgetxattr (fd : Z) (name : string) (value size : Z) : M t Z :=
  system_call (sys_fgetxattr fd name value size).
Definition setxattr (path name : string) (value size flags : Z) : M t Z :=
  system_call (sys_setxattr path name value size flags).
Definition lsetxattr (path name : string) (value size flags : Z) : M t Z :=
  system_call (sys_lsetxattr path name value size flags).
Definition fsetxattr (fd : Z) (name : string) (value size flags : Z) : M t Z :=
  system_call (sys_fsetxattr fd name value size flags).

End Calls.

End PosixLayer.

(** ** The loop of [enforce] *)

Section Waiting.
Import InstanceInterface.
Context `{SystemClock} `{OtherThreads} (fuel : nat).

(** The stage after [k] more sleeps, the first of them the [n]-th. *)
Fixpoint after_sleeps (k n : nat) (s : PaioStage.t) : PaioStage.t :=
  match k with
  | O => s
  | S k => after_sleeps k (S n) (others n s)
  end.

(** The instance after [k] sleeps. *)
Definition slept (k : nat) (i : t) : t :=
  mk (after_sleeps k (sleeps i) (m_paio_stage i)) (m_default_workflow_id i)
    (m_default_secondary_workflow_identifier i) (m_default_operation_type i)
    (m_default_operation_context i) (sleeps i + k).

Definition ready_after (k : nat) (i : t) : bool :=
  PaioStage.m_ready (after_sleeps k (sleeps i) (m_paio_stage i)).

(** The core of a stage enforces a request. *)
Definition enforced_by_core (context : Context) (buffer : option (list Z)) (size : Z)
    (result : Result.t) : M t Result.t :=
  on_stage (PaioStage.on_core (Core.enforce_request fuel context buffer size result)).

Lemma enforce_not_ready context buffer size result i n : ready_after O i = false ->
  on_stage (PaioStage.enforce_request fuel context buffer size result) i n =
  Ok (PStatus_Error, result) i n.
Proof.
  intros Hr. unfold on_stage, zoom, PaioStage.enforce_request. rewrite gets_bind. unfold Datatypes.id.
  unfold ready_after in Hr. cbn [after_sleeps] in Hr. rewrite Hr. by destruct i.
Qed.

Lemma enforce_ready context buffer size result i n attempts : ready_after O i = true ->
  enforce_buffer fuel (S attempts) context buffer size result i n =
  enforced_by_core context buffer size result i n.
Proof.
  intros Hr. cbn [enforce_buffer]. unfold mbind at 1, M_bind at 1.
  unfold enforced_by_core, on_stage, zoom, PaioStage.enforce_request. rewrite gets_bind.
  unfold Datatypes.id. unfold ready_after in Hr. cbn [after_sleeps] in Hr. rewrite Hr.
  unfold mbind, M_bind. by destruct (PaioStage.on_core _ _ _).
Qed.

Lemma slept_step k i n : 
  slept k (slept 1 i) = slept (S k) i /\
  (forall j, ready_after j (slept 1 i) = ready_after (S j) i) /\ sleep i n = Ok tt (slept 1 i) n.
Proof.
  unfold slept, ready_after, sleep, modify. cbn. rewrite Nat.add_1_r, Nat.add_succ_r. done.
Qed.

Lemma enforce_waits k : forall attempts context buffer size result i n,
  (forall j, (j < k)%nat -> ready_after j i = false) -> ready_after k i = true ->
  (k < attempts)%nat ->
  enforce_buffer fuel attempts context buffer size result i n =
  enforced_by_core context buffer size result (slept k i) n.
Proof.
  induction k as [|k IH]; intros attempts context buffer size result i n Hnot Hready Hk;
    (destruct attempts as [|attempts]; [lia|]).
  - rewrite enforce_ready by done. f_equal. destruct i. unfold slept. cbn. by rewrite Nat.add_0_r.
  - destruct (slept_step k i n) as (Hslept & Hj & Hsleep). cbn [enforce_buffer].
    rewrite (bind_Ok _ _ _ _ _ _ _ (enforce_not_ready context buffer size result i n (Hnot O ltac:(lia)))).
    change (is_enforced PStatus_Error) with false. cbv iota.
    rewrite (bind_Ok _ _ _ _ _ _ _ Hsleep), IH; [by rewrite Hslept|..|lia].
    + intros j Hlt. rewrite Hj. apply Hnot. lia.
    + by rewrite Hj.
Qed.

Lemma enforce_stuck attempts : forall context buffer size result i n,
  (forall j, ready_after j i = false) ->
  enforce_buffer fuel attempts context buffer size result i n = Crash OutOfFuel.
Proof.
  induction attempts as [|attempts IH]; intros context buffer size result i n Hnot; [done|].
  destruct (slept_step O i n) as (_ & Hj & Hsleep). cbn [enforce_buffer].
  rewrite (bind_Ok _ _ _ _ _ _ _ (enforce_not_ready context buffer size result i n (Hnot O))).
  change (is_enforced PStatus_Error) with false. cbv iota.
  rewrite (bind_Ok _ _ _ _ _ _ _ Hsleep). apply IH. intros j. by rewrite Hj.
Qed.

(** C26.  A caller waits for the stage, a second at a time, and no longer than
    it must: when the other threads make it ready in the k-th sleep, the request
    is enforced by the core after k sleeps, exactly once, with any fuel above k;
    when they never do, no number of attempts is enough. *)
Theorem enforce_until_ready context buffer size result i n :
  (forall k attempts, (forall j, (j < k)%nat -> ready_after j i = false) ->
     ready_after k i = true -> (k < attempts)%nat ->
     enforce_buffer fuel attempts context buffer size result i n =
     enforced_by_core context buffer size result (slept k i) n) /\
  ((forall j, ready_after j i = false) ->
   forall attempts, enforce_buffer fuel attempts context buffer size result i n = Crash OutOfFuel).
Proof. split; intros; [by apply enforce_waits|by apply enforce_stuck]. Qed.

End Waiting.

(** ** Reads and writes *)

Section ReadsAndWrites.
Import PosixLayer.
Context `{SystemClock} `{OtherThreads} `{Posix} (fuel : nat).

Definition stage_of (l : t) : PaioStage.t := InstanceInterface.m_paio_stage (instance l).

Definition with_core (c : Core.t) (l : t) : t :=
  set_instance (InstanceInterface.set_stage (PaioStage.set_core c (stage_of l)) (instance l)) l.

Definition issue (call : SystemCall) (l : t) : t :=
  mk (instance l) (m_has_io_transformation l) (calls l ++ [call]).

(** The token of the channel of a request of the layer. *)
Definition token_for (operation : POSIX_.t) (count : Z) (l : t) : Z :=
  let context := context_of operation count l in
  channel_token (Core.m_channel_diff_builder (PaioStage.m_core (stage_of l)))
    (u32 (m_workflow_id context)) (u32 (m_operation_type context)) (u32 (m_operation_context context)).

Lemma enforce_instance_ready attempts context content size l n :
  PaioStage.m_ready (stage_of l) = true ->
  on_instance (InstanceInterface.enforce_buffer fuel (S attempts) context content size Result.default) l n =
  match Core.enforce_request fuel context content size Result.default (PaioStage.m_core (stage_of l)) n with
  | Ok result c n' => Ok result (with_core c l) n'
  | Raise e c n' => Raise e (with_core c l) n'
  | Crash x => Crash x
  end.
Proof.
  intros Hr. unfold on_instance, zoom at 1. rewrite (enforce_ready fuel) by done.
  unfold enforced_by_core, InstanceInterface.on_stage, PaioStage.on_core, zoom, stage_of.
  by destruct (Core.enforce_request _ _ _ _ _ _ _).
Qed.

Lemma write_enforced_aux attempts fd buf count l n :
  PaioStage.m_ready (stage_of l) = true -> m_has_io_transformation l = false ->
  write fuel (S attempts) fd buf count l n =
  match Core.enforce_request fuel (context_of POSIX_.write count l) None 0 Result.default
          (PaioStage.m_core (stage_of l)) n with
  | Ok result c n' =>
      if bool_decide (Result.m_result_status result = success) then
        Ok (call_result (length (calls l)) (sys_write fd buf count))
          (issue (sys_write fd buf count) (with_core c l)) n'
      else Ok (-1) (with_core c l) n'
  | Raise e c n' => Raise e (with_core c l) n'
  | Crash x => Crash x
  end.
Proof.
  intros Hr Ht. unfold write, write_context, write_with, enforce_request. rewrite !gets_bind.
  unfold Datatypes.id. unfold mbind, M_bind, gets. rewrite Ht.
  unfold enforce_context, InstanceInterface.enforce. rewrite enforce_instance_ready by done.
  destruct (Core.enforce_request _ _ _ _ _ _ _) as [result c k| |]; [|done..]. cbn [andb].
  by destruct (bool_decide _).
Qed.

(** C27.  A write of the POSIX layer on a stage that is ready is enforced before it is made.
    The core gets one request, of the workflow of the layer, the operation [write], the
    default context of the layer, the size of the write, and one operation; with it go
    the caller's bytes when the layer has I/O transformations, and no content when it has
    not.  When the result is a success, one [write] is made on the descriptor: of the
    content of the result with transformations, of the caller's bytes without; its value is
    the answer.  When the result is not a success no call is made and the answer is -1. *)
Theorem write_enforced_first attempts fd buf count l n :
  PaioStage.m_ready (stage_of l) = true ->
  let request := mkContext (InstanceInterface.m_default_workflow_id (instance l))
    (POSIX_.code POSIX_.write) (InstanceInterface.m_default_operation_context (instance l)) count 1 in
  let '(content, size) := if m_has_io_transformation l then (buf, count) else (None, 0) in
  write fuel (S attempts) fd buf count l n =
  match Core.enforce_request fuel request content size Result.default (PaioStage.m_core (stage_of l)) n with
  | Ok result c n' =>
      if bool_decide (Result.m_result_status result = success) then
        let call := if m_has_io_transformation l
                    then sys_write fd (Result.m_content result) (Result.m_content_size result)
                    else sys_write fd buf count in
        Ok (call_result (length (calls l)) call) (issue call (with_core c l)) n'
      else Ok (-1) (with_core c l) n'
  | Raise e c n' => Raise e (with_core c l) n'
  | Crash x => Crash x
  end.
Proof.
  intros Hr request. destruct (m_has_io_transformation l) eqn:Ht; [|by apply write_enforced_aux].
  unfold write, write_context, write_with, enforce_request. rewrite !gets_bind.
  unfold Datatypes.id. unfold mbind, M_bind, gets. rewrite Ht.
  unfold enforce_content. rewrite enforce_instance_ready by done. fold request.
  change (context_of POSIX_.write count l) with request.
  destruct (Core.enforce_request _ _ _ _ _ _ _) as [result c k| |]; [|done..]. cbn [andb].
  by destruct (bool_decide _).
Qed.

Lemma unmatched_core operation count l n : core_well_formed (PaioStage.m_core (stage_of l)) ->
  Core.m_channels (PaioStage.m_core (stage_of l)) !! token_for operation count l = None ->
  Core.enforce_request fuel (context_of operation count l) None 0 Result.default
    (PaioStage.m_core (stage_of l)) n = Ok Result.default (PaioStage.m_core (stage_of l)) n.
Proof.
  intros Hc Hnone. rewrite enforce_request_routed by done. unfold token_for in Hnone. cbv zeta in *.
  by rewrite Hnone.
Qed.

Lemma with_same_core l : with_core (PaioStage.m_core (stage_of l)) l = l.
Proof.
  by destruct l as [[[[] ? ?] ? ? ? ? ?] ? ?].
Qed.

(** A request that no channel matches: a write is refused, with -1 and no
    system call, but a read goes through, unlimited. *)
Theorem unmatched_write_and_read attempts fd buf block count bytes l n :
  PaioStage.m_ready (stage_of l) = true -> m_has_io_transformation l = false ->
  core_well_formed (PaioStage.m_core (stage_of l)) ->
  (Core.m_channels (PaioStage.m_core (stage_of l)) !! token_for POSIX_.write count l = None ->
   write fuel (S attempts) fd buf count l n = Ok (-1) l n) /\
  (Core.m_channels (PaioStage.m_core (stage_of l)) !! token_for POSIX_.read count l = None ->
   call_bytes (length (calls l)) (sys_read fd count) = Some bytes ->
   Z.of_nat (length bytes) <= count <= Z.of_nat (length block) ->
   read fuel (S attempts) fd block count l n =
     Ok (Z.of_nat (length bytes), holds (bytes ++ drop (length bytes) block))
       (issue (sys_read fd count) l) n).
Proof.
  intros Hr Ht Hc. split.
  - intros Hnone. unfold write, write_context, write_with, enforce_request. rewrite !gets_bind.
    unfold Datatypes.id, mbind, M_bind, gets. rewrite Ht.
    unfold enforce_context, InstanceInterface.enforce. rewrite enforce_instance_ready by done.
    by rewrite unmatched_core, with_same_core.
  - intros Hnone Hbytes Hlen. unfold read, read_context, read_with. rewrite !gets_bind.
    unfold Datatypes.id. rewrite Ht. unfold mbind at 1, M_bind at 1.
    unfold enforce_context, InstanceInterface.enforce. rewrite enforce_instance_ready by done.
    rewrite unmatched_core, with_same_core by done.
    unfold read_call, mbind, M_bind, log_call, state. rewrite Hbytes.
    rewrite take_ge by lia. by rewrite (proj2 (Nat.ltb_ge _ _)) by lia.
Qed.

(** A read whose bytes are transformed resizes the block of its caller:
    when [realloc] moves it, the caller gets the new size and a block that has
    been freed. *)
Theorem moved_block_is_freed attempts fd block count bytes l n result c n' :
  let context := context_of POSIX_.read count l in
  let filled := bytes ++ drop (length bytes) block in
  let size := Z.of_nat (length bytes) in
  PaioStage.m_ready (stage_of l) = true -> m_has_io_transformation l = true ->
  call_bytes (length (calls l)) (sys_read fd count) = Some bytes ->
  0 < size <= count -> count <= Z.of_nat (length block) ->
  Core.enforce_request fuel context (Some filled) size Result.default
    (PaioStage.m_core (stage_of l)) n = Ok result c n' ->
  Result.m_result_status result = success -> is_long (Result.m_content_size result) ->
  0 <= Result.m_content_size result <= Z.of_nat (length (default [] (Result.m_content result))) ->
  realloc (S (length (calls l))) (Result.m_content_size result) = new_place ->
  exists l', read fuel (S attempts) fd block count l n = Ok (Result.m_content_size result, freed) l' n'.
Proof.
  intros context filled size Hr Ht Hbytes Hsize Hcount Hcore Hsuccess Hlong Hcontent Hmoved.
  eexists. unfold read, read_context, read_with. rewrite !gets_bind. unfold Datatypes.id. rewrite Ht.
  rewrite (bind_Ok _ _ _ _ (size, filled) (issue (sys_read fd count) l) n).
  2: { unfold read_call, mbind, M_bind, log_call, state. rewrite Hbytes. rewrite take_ge by lia.
       by rewrite (proj2 (Nat.ltb_ge _ _)) by lia. }
  rewrite (proj2 (Z.ltb_lt _ _)) by lia.
  rewrite (bind_Ok _ _ _ _ result (with_core c (issue (sys_read fd count) l)) n').
  2: { unfold enforce_content. rewrite enforce_instance_ready by done. fold context.
       change (stage_of (issue (sys_read fd count) l)) with (stage_of l). by rewrite Hcore. }
  rewrite bool_decide_eq_true_2 by done. cbn [negb]. unfold resize_and_copy. rewrite gets_bind.
  unfold Datatypes.id. cbn [calls with_core set_instance issue]. rewrite length_app, Nat.add_1_r.
  rewrite s64_small by done.
  rewrite u64_small by (unfold word; unfold is_long, long_max in Hlong; lia).
  rewrite Hmoved. unfold memcpy. destruct (Result.m_content result) as [content|].
  - simpl in Hcontent. rewrite (proj2 (Z.ltb_ge _ _)) by lia. reflexivity.
  - simpl in Hcontent. rewrite (proj2 (Z.eqb_eq _ _)) by lia. reflexivity.
Qed.

(** On a stage built from the default files of the repository, with no
    other thread that makes it ready, a write of the POSIX layer never returns:
    no number of attempts is enough. *)
Theorem default_stage_blocks_writes `{FileSystem} `{Sockets} `{Process} debug u k s u' k' :
  contents_of Agent.option_default_housekeeping_rules_file_path =
    Some default_housekeeping_rules_file ->
  make_stage fuel debug DefaultStage u k = Ok s u' k' ->
  (forall j s, PaioStage.m_ready (others j s) = PaioStage.m_ready s) ->
  forall attempts workflow fd buf count n,
  write fuel attempts fd buf count (make_workflow s workflow) n = Crash OutOfFuel.
Proof.
  intros Hfile Hm Hothers attempts workflow fd buf count n.
  assert (Hnot : PaioStage.m_ready s = false) by by apply (default_stage_unready fuel debug u k s u' k').
  unfold write, write_context, write_with, enforce_request. rewrite !gets_bind.
  unfold Datatypes.id, mbind, M_bind, gets.
  change (m_has_io_transformation (make_workflow s workflow)) with false. cbv iota.
  unfold enforce_context, InstanceInterface.enforce, on_instance, zoom.
  rewrite (enforce_stuck fuel); [done|]. intros j. unfold ready_after.
  cbn [instance make_workflow InstanceInterface.sleeps InstanceInterface.m_paio_stage
    InstanceInterface.make InstanceInterface.set_default_workflow_id
    InstanceInterface.set_default_operation_type InstanceInterface.set_default_operation_context].
  generalize O as i. clear Hm. revert s Hnot.
  induction j as [|j IH]; intros s Hnot i; [done|]. cbn [after_sleeps]. apply IH. by rewrite Hothers.
Qed.

End ReadsAndWrites.

(** ** Witnesses *)

Definition alone : OtherThreads := fun _ s => s.

(** A thread that makes the stage ready in the second sleep. *)
Definition helper : OtherThreads := fun n s =>
  if (n =? 1)%nat then PaioStage.set_agent (Agent.set_ready true (PaioStage.m_agent s)) s else s.

Definition sample_posix : Posix := {|
  call_result _ call := match call with sys_write _ _ count => count | _ => 0 end;
  call_bytes _ _ := Some [7; 8];
  realloc _ _ := new_place;
  O_CREAT := 64;
|}.

(** A core with a default channel and a default object. *)
Definition serving_core : Core.t :=
  match @Core.make bounded_clock 3 1 true true Core.make_default O with
  | Ok _ c _ => c
  | _ => Core.make_default
  end.

Definition serving_layer (transformation : bool) : PosixLayer.t :=
  PosixLayer.set_io_transformation transformation
    (PosixLayer.make_workflow
       (PaioStage.mk (Agent.set_ready true (Agent.set_core serving_core sample_agent)) false
          (ConnectionManager.initial sample_inet sample_agent Network.start)) 1).

Lemma enforce_until_ready_witness :
  @InstanceInterface.enforce_buffer bounded_clock helper 3 3 sample_context None 0 Result.default
    (InstanceInterface.make (sample_stage false)) O =
  @enforced_by_core bounded_clock 3 sample_context None 0 Result.default
    (@slept helper 2 (InstanceInterface.make (sample_stage false))) O.
Proof.
  apply (proj1 (@enforce_until_ready bounded_clock helper 3 sample_context None 0 Result.default
    (InstanceInterface.make (sample_stage false)) O) 2%nat 3%nat).
  - intros [|[|j]] Hj; [reflexivity|reflexivity|lia].
  - reflexivity.
  - lia.
Defined.

(** A layer whose write is served, without transformations and with them. *)
Lemma write_enforced_first_witness : exists l1 n1 l2 n2,
  @PosixLayer.write bounded_clock alone sample_posix 3 1 4 (Some [1; 2]) 2 (serving_layer false) O =
    Ok 2 l1 n1 /\ PosixLayer.calls l1 = [sys_write 4 (Some [1; 2]) 2] /\
  @PosixLayer.write bounded_clock alone sample_posix 3 1 4 (Some [1; 2; 3]) 2 (serving_layer true) O =
    Ok 2 l2 n2 /\ PosixLayer.calls l2 = [sys_write 4 (Some [1; 2]) 2].
Proof.
  pose proof (@write_enforced_first bounded_clock alone sample_posix 3 0 4 (Some [1; 2]) 2
    (serving_layer false) O eq_refl) as H1.
  pose proof (@write_enforced_first bounded_clock alone sample_posix 3 0 4 (Some [1; 2; 3]) 2
    (serving_layer true) O eq_refl) as H2. cbv zeta iota beta in H1, H2.
  change (PosixLayer.m_has_io_transformation (serving_layer false)) with false in H1.
  change (PosixLayer.m_has_io_transformation (serving_layer true)) with true in H2. cbv iota beta in H1, H2.
  match type of H1 with _ = match ?run with _ => _ end =>
    assert (Hrun1 : match run with
      | Ok result _ _ => bool_decide (Result.m_result_status result = success)
      | _ => false
      end = true) by (vm_compute; reflexivity);
    destruct run as [r1 c1 n1| |]; [|done..]
  end.
  match type of H2 with _ = match ?run with _ => _ end =>
    assert (Hrun2 : match run with
      | Ok result _ _ => bool_decide (Result.m_result_status result = success /\
          Result.m_content result = Some [1; 2] /\ Result.m_content_size result = 2)
      | _ => false
      end = true) by (vm_compute; reflexivity);
    destruct run as [r2 c2 n2| |]; [|done..]
  end.
  rewrite Hrun1 in H1. apply bool_decide_eq_true in Hrun2 as (Hs & Hc & Hz).
  rewrite bool_decide_eq_true_2, Hc, Hz in H2 by done. cbv zeta in H1, H2.
  do 4 eexists. split; [exact H1|]. split; [done|]. split; [exact H2|done].
Defined.

(** A layer on a ready stage without channels. *)
Definition bare_layer : PosixLayer.t :=
  PosixLayer.make_workflow
    (PaioStage.mk (Agent.set_ready true sample_agent) false
       (ConnectionManager.initial sample_inet sample_agent Network.start)) 1.

Lemma unmatched_write_and_read_witness :
  @PosixLayer.write bounded_clock alone sample_posix 3 1 4 (Some [1; 2]) 2 bare_layer O =
    Ok (-1) bare_layer O /\
  @PosixLayer.read bounded_clock alone sample_posix 3 1 4 [0; 0; 0] 3 bare_layer O =
    Ok (2, holds [7; 8; 0]) (issue (sys_read 4 3) bare_layer) O.
Proof.
  split.
  - apply (proj1 (@unmatched_write_and_read bounded_clock alone sample_posix 3 0 4 (Some [1; 2])
      [0; 0; 0] 2 [7; 8] bare_layer O eq_refl eq_refl default_core_well_formed)).
    apply lookup_empty.
  - apply (proj2 (@unmatched_write_and_read bounded_clock alone sample_posix 3 0 4 (Some [1; 2])
      [0; 0; 0] 3 [7; 8] bare_layer O eq_refl eq_refl default_core_well_formed)).
    + apply lookup_empty.
    + reflexivity.
    + split; vm_compute; discriminate.
Defined.

Lemma moved_block_is_freed_witness : exists l' n',
  @PosixLayer.read bounded_clock alone sample_posix 3 1 4 [0; 0; 0] 3 (serving_layer true) O =
    Ok (2, freed) l' n'.
Proof.
  set (run := @Core.enforce_request bounded_clock 3
    (PosixLayer.context_of POSIX_.read 3 (serving_layer true)) (Some [7; 8; 0]) 2 Result.default
    serving_core O).
  destruct (is_Ok_inv run) as (result & c & n' & Hrun); [vm_compute; reflexivity|].
  assert (Hfacts : match run with
    | Ok r _ _ => (Result.m_result_status r, Result.m_content_size r, Result.m_content r)
    | _ => (error, 0, None) end = (success, 2, Some [7; 8])) by (vm_compute; reflexivity).
  rewrite Hrun in Hfacts. injection Hfacts as Hstatus Hsize Hcontent.
  destruct (@moved_block_is_freed bounded_clock alone sample_posix 3 0 4 [0; 0; 0] 3 [7; 8]
    (serving_layer true) O result c n' eq_refl eq_refl eq_refl) as (l' & Hread).
  - split; vm_compute; (reflexivity || discriminate).
  - vm_compute. discriminate.
  - exact Hrun.
  - exact Hstatus.
  - rewrite Hsize. split; vm_compute; discriminate.
  - rewrite Hsize, Hcontent. split; vm_compute; discriminate.
  - reflexivity.
  - rewrite Hsize in Hread. exists l', n'. exact Hread.
Defined.

Lemma default_stage_blocks_writes_witness : exists s,
  forall attempts, @PosixLayer.write bounded_clock alone sample_posix 3 attempts 4 (Some [1; 2]) 2
    (PosixLayer.make_workflow s 1) O = Crash OutOfFuel.
Proof.
  destruct (is_Ok_inv (@make_stage bounded_clock sample_files handshake_script sample_process 3 false
    DefaultStage tt O)) as (s & u' & n' & Hm); [vm_compute; reflexivity|].
  exists s. intros attempts.
  apply (@default_stage_blocks_writes bounded_clock alone sample_posix 3 sample_files handshake_script
    sample_process false tt O s u' n' eq_refl Hm (fun _ _ => eq_refl)).
Defined.
