(* ===== verification/Limits.v ===== *)
(** * A workflow under a rate limiter, from the layer to the bucket

    The parts composed: a POSIX layer on a stage whose core has, for the writes of
    the layer, a channel with a rate limiter.  Each write goes through the stage,
    the core, the channel, its submission queue and the limiter to the token
    bucket before its system call is made.  The theorem: the bytes that reach the
    system are a run of the abstract bucket. *)

From S2P Require Import Prelude MachineInt Binary64 Options Differentiation.
From S2P Require Import Rules TokenBucketStats TokenBucket EnforcementObjects.
From S2P Require Import ChannelStatistics Channel Core RulesParser StageInfo Agent.
From S2P Require Import Networking Southbound Connection Stage Instances.

(** The enforcement object of a channel for an operation type and context. *)
Definition object_at (type context : Z) (c : ChannelDefault.t) : option AnyObject :=
  let q := ChannelDefault.m_submission_queue c in
  view q !! object_token (SubmissionQueue.m_diff_builder q) (u32 type) (u32 context).

(** The place of a limiter in a channel: the channel enforces in the caller, and
    the token of the operation has a limiter whose bucket is [a]. *)
Definition limits_channel (type context : Z) (a : TokenBucket.abstract) (c : ChannelDefault.t) : Prop :=
  ChannelDefault.m_use_fast_path c = true /\
  exists o, object_at type context c = Some (DRLPtr o) /\
    DynamicRateLimiter.m_cost_per_request o = 1 /\
    TokenBucket.represents (DynamicRateLimiter.m_bucket o) a.

(** The place of the channel in the core of the stage of a layer. *)
Definition limits_writes (a : TokenBucket.abstract) (l : PosixLayer.t) : Prop :=
  let s := stage_of l in
  PaioStage.m_ready s = true /\ PosixLayer.m_has_io_transformation l = false /\
  core_well_formed (PaioStage.m_core s) /\
  exists c, Core.m_channels (PaioStage.m_core s) !! token_for POSIX_.write 0 l = Some c /\
    limits_channel (POSIX_.code POSIX_.write)
      (InstanceInterface.m_default_operation_context (PosixLayer.instance l)) a c.

(** A sequence of writes: descriptor, content and size. *)
Definition writes := list (Z * option (list Z) * Z).

Definition sizes (ws : writes) : Z := foldr (fun w z => w.2 + z) 0 ws.

Definition write_calls (ws : writes) : list SystemCall :=
  (fun '(fd, buf, count) => sys_write fd buf count) <$> ws.

Section Limits.
Context `{SystemClock} `{OtherThreads} `{Posix} (fuel attempts : nat).
Hypothesis clock_range : forall n, 0 <= clock_at n < 2 ^ 62.

Fixpoint write_all (ws : writes) : M PosixLayer.t unit :=
  match ws with
  | [] => mret tt
  | (fd, buf, count) :: ws =>
      _ ← PosixLayer.write fuel attempts fd buf count; write_all ws
  end.

(** ** The limiter *)

Lemma limiter_consumes ticket result o a n result' x n' :
  DynamicRateLimiter.m_cost_per_request o = 1 -> 0 <= Ticket.m_payload ticket < 2 ^ 53 ->
  TokenBucket.represents (DynamicRateLimiter.m_bucket o) a ->
  obj_enforce (EnforcementObject := Any_object fuel) ticket result (DRLPtr o) n = Ok result' x n' ->
  exists o' instants a', x = DRLPtr o' /\ DynamicRateLimiter.m_cost_per_request o' = 1 /\
    TokenBucket.serves a (Ticket.m_payload ticket) instants a' /\ TokenBucket.timely n n' a a' /\
    TokenBucket.represents (DynamicRateLimiter.m_bucket o') a'.
Proof.
  intros Hcost Hp Hr Hrun. simpl in Hrun. unfold dispatch in Hrun.
  destruct (DynamicRateLimiter.obj_enforce fuel ticket result o n) as [r o' m| |] eqn:He; [|done..].
  injection Hrun as <- <- <-.
  destruct (enforce_consumes_aux fuel ticket result o a n r o' m clock_range Hcost Hp Hr He)
    as (instants & a' & Hs & Ht & Hr' & Hc). by exists o', instants, a'.
Qed.

(** ** The channel *)

(** The statistics of a channel read no clock. *)
Lemma update_entry_untimed operation value s n u s' n' :
  ChannelStatistics.update_entry operation value s n = Ok u s' n' -> n' = n.
Proof.
  unfold ChannelStatistics.update_entry. rewrite gets_bind. unfold Datatypes.id.
  destruct (_ =? 0); [done|]. cbv zeta. intros Hrun. run_inv Hrun.
  apply vector_index_state in Hrun0 as [-> ->], Hrun1 as [-> ->]. done.
Qed.

Lemma update_statistic_entry_untimed type context value s n u s' n' :
  ChannelStatistics.update_statistic_entry type context value s n = Ok u s' n' -> n' = n.
Proof.
  unfold ChannelStatistics.update_statistic_entry. rewrite gets_bind.
  destruct (ChannelStatistics.m_classifier_type s); apply update_entry_untimed.
Qed.

Lemma channel_fast_path context c n result' c' n' :
  ChannelDefault.m_use_fast_path c = true ->
  ChannelDefault.channel_enforce fuel context None 0 Result.default c n = Ok result' c' n' ->
  exists ticket, ticket_of context None 0 (ChannelDefault.m_ticket_id c) = Some ticket /\
    SubmissionQueue.enforce_mechanism fuel ticket
      (Result.set_ticket_id (ChannelDefault.m_ticket_id c) Result.default)
      (ChannelDefault.m_submission_queue c) n =
      Ok result' (ChannelDefault.m_submission_queue c') n' /\
    ChannelDefault.m_use_fast_path c' = true.
Proof.
  intros Hfast. unfold ChannelDefault.channel_enforce. cbv zeta.
  intros (ticket & c1 & n1 & Hb & Hr)%bind_Ok_inv. rewrite build_ticket_outcome in Hb.
  destruct (ticket_of _ _ _ _) as [ticket'|] eqn:Ht; [|done]. injection Hb as <- <- <-.
  rewrite gets_bind in Hr. unfold Datatypes.id in Hr.
  apply bind_Ok_inv in Hr as (r & c2 & n2 & Hq & Hr). cbn in Hq. rewrite Hfast in Hq.
  apply zoom_Ok_inv in Hq as (q' & Hq & ->).
  apply bind_Ok_inv in Hr as (u & c3 & n3 & Hst & [= <- <- <-]).
  exists ticket'. split; [done|].
  assert (ChannelDefault.m_submission_queue c3 = q' /\ ChannelDefault.m_use_fast_path c3 = true /\
    n3 = n2) as (-> & -> & ->).
  { destruct (ChannelDefault.m_collect_channel_statistics _); [|by injection Hst as <- <- <-].
    apply zoom_Ok_inv in Hst as (st & Hst%update_statistic_entry_untimed & ->). done. }
  split; [|done]. apply ticket_of_content in Ht as [_ <-]. exact Hq.
Qed.

Lemma channel_limited context a c n result' c' n' :
  channel_well_formed c ->
  limits_channel (m_operation_type context) (m_operation_context context) a c ->
  0 < m_operation_size context < 2 ^ 53 -> m_total_operations context = 1 ->
  ChannelDefault.channel_enforce fuel context None 0 Result.default c n = Ok result' c' n' ->
  Result.m_result_status result' = success /\
  exists instants a', TokenBucket.serves a (m_operation_size context) instants a' /\
    TokenBucket.timely n n' a a' /\
    limits_channel (m_operation_type context) (m_operation_context context) a' c'.
Proof.
  intros Hwf (Hfast & o & Ho & Hcost & Hrep) Hsize Htotal Hrun. unfold object_at in Ho.
  apply channel_fast_path in Hrun as (ticket & Ht & Hm & Hfast'); [|done].
  unfold ticket_of in Ht. rewrite (proj2 (Z.eqb_neq _ 0)), Htotal in Ht by lia.
  injection Ht as <-. rewrite payload_exact, Z.mul_1_r in Hm by lia.
  apply enforce_mechanism_aux in Hm as (token & Htok & Hcall & Hframe).
  unfold token_of_ticket in Htok. rewrite bound_token in Htok by apply Hwf. injection Htok as <-.
  apply abstract_call_enforced in Hcall as Hres. split; [by rewrite Hres|].
  unfold abstract_call in Hcall. cbn [Ticket.m_operation_type Ticket.m_operation_context] in Hcall.
  rewrite Ho in Hcall. destruct Hcall as (x & Hx & Hview & _).
  apply (limiter_consumes _ _ _ a) in Hx as (o' & instants & a' & -> & Hcost' & Hs & Htime & Hrep');
    [|done|simpl; lia|done].
  exists instants, a'. split; [exact Hs|]. split; [exact Htime|]. split; [done|].
  destruct Hframe as (_ & _ & _ & Hb & _). exists o'. unfold object_at. cbv zeta. rewrite Hb, Hview. by rewrite lookup_insert_eq.
Qed.

(** ** The core *)

Lemma core_channel_well_formed c token channel : core_well_formed c ->
  Core.m_channels c !! token = Some channel -> channel_well_formed channel.
Proof.
  intros (_ & _ & _ & Hdom & Hlinks) Hl.
  assert (Hin : token ∈ (Core.m_channel_id_to_token_linkers c).*2) by (apply Hdom; by eexists).
  apply list_elem_of_fmap in Hin as ([id tok] & -> & Hin).
  destruct (Hlinks _ _ Hin) as (channel' & Hl' & _ & Hw). simpl in Hl. congruence.
Qed.

(** A request of a channel with a limiter. *)
Lemma core_limited context token a channel c n result c' n' : core_well_formed c ->
  channel_token (Core.m_channel_diff_builder c) (u32 (m_workflow_id context))
    (u32 (m_operation_type context)) (u32 (m_operation_context context)) = token ->
  Core.m_channels c !! token = Some channel ->
  limits_channel (m_operation_type context) (m_operation_context context) a channel ->
  0 < m_operation_size context < 2 ^ 53 -> m_total_operations context = 1 ->
  Core.enforce_request fuel context None 0 Result.default c n = Ok result c' n' ->
  Result.m_result_status result = success /\ core_well_formed c' /\
  Core.m_channel_diff_builder c' = Core.m_channel_diff_builder c /\
  exists instants a' channel', TokenBucket.serves a (m_operation_size context) instants a' /\
    TokenBucket.timely n n' a a' /\ Core.m_channels c' !! token = Some channel' /\
    limits_channel (m_operation_type context) (m_operation_context context) a' channel'.
Proof.
  intros Hwf Htok Hc Hlim Hsize Htotal Hrun.
  pose proof (enforce_request_well_formed fuel context None 0 Result.default c n Hwf) as Hwf'.
  rewrite Hrun in Hwf'. rewrite enforce_request_routed in Hrun by done. cbv zeta in Hrun.
  rewrite Htok, Hc in Hrun.
  destruct (ChannelDefault.channel_enforce _ _ _ _ _ _ _) as [r channel' n1| |] eqn:He; [|done..].
  apply (channel_limited context a) in He as (Hs & instants & a' & Hserves & Htime & Hlim');
    [|exact (core_channel_well_formed c token channel Hwf Hc)|done..].
  cbn [outcome_map] in Hrun. injection Hrun as <- <- <-. split; [done|]. split; [exact Hwf'|].
  split; [done|]. exists instants, a', channel'. split; [done|]. split; [done|]. split; [|done].
  simpl. apply lookup_insert_eq.
Qed.

(** One write: the system call is made, once the bucket has served its bytes. *)
Lemma write_limited k a fd buf count l n r l' n' : limits_writes a l -> 0 < count < 2 ^ 53 ->
  PosixLayer.write fuel (S k) fd buf count l n = Ok r l' n' ->
  PosixLayer.calls l' = PosixLayer.calls l ++ [sys_write fd buf count] /\
  exists instants a', TokenBucket.serves a count instants a' /\ TokenBucket.timely n n' a a' /\
    limits_writes a' l'.
Proof.
  intros (Hready & Htr & Hwf & channel & Hc & Hlim) Hcount Hrun.
  rewrite write_enforced_aux in Hrun by done.
  destruct (Core.enforce_request _ _ _ _ _ _ _) as [result c' n1| |] eqn:He; [|done..].
  destruct (core_limited (PosixLayer.context_of POSIX_.write count l) (token_for POSIX_.write 0 l) a
    channel (PaioStage.m_core (stage_of l)) n result c' n1)
    as (Hs & Hwf' & Hb & instants & a' & channel' & Hserves & Htime & Hc' & Hlim'); [exact Hwf| |done..|].
  { unfold token_for. cbv zeta. f_equal. }
  rewrite bool_decide_eq_true_2 in Hrun by done. injection Hrun as <- <- <-.
  split; [done|]. exists instants, a'. split; [done|]. split; [done|].
  split; [done|]. split; [done|]. split; [exact Hwf'|]. exists channel'. split; [|exact Hlim'].
  assert (token_for POSIX_.write 0 (issue (sys_write fd buf count) (with_core c' l)) =
          token_for POSIX_.write 0 l) as ->; [|exact Hc'].
  unfold token_for. cbv zeta. f_equal. exact Hb.
Qed.

Lemma writes_limited ws : forall a l n l' n', (0 < attempts)%nat -> limits_writes a l ->
  Forall (fun w => 0 < w.2 < 2 ^ 53) ws -> write_all ws l n = Ok tt l' n' ->
  PosixLayer.calls l' = PosixLayer.calls l ++ write_calls ws /\
  exists instants a', TokenBucket.serves a (sizes ws) instants a' /\ TokenBucket.timely n n' a a' /\
    limits_writes a' l'.
Proof.
  induction ws as [|[[fd buf] count] ws IH]; intros a l n l' n' Hatt Hl Hws Hrun.
  - injection Hrun as <- <-. split; [by rewrite app_nil_r|]. exists [], a. split; [constructor|].
    by split; [apply timely_refl|].
  - apply Forall_cons_1 in Hws as [Hcount Hws]. cbn [write_all] in Hrun.
    apply bind_Ok_inv in Hrun as (r & l1 & n1 & Hw1 & Hw2).
    destruct (Nat.lt_exists_pred 0 attempts Hatt) as (k & Hk & _). rewrite Hk in Hw1.
    apply (write_limited k a) in Hw1 as (Hcalls1 & i1 & a1 & Hs1 & Ht1 & Hl1); [|done..].
    destruct (IH _ _ _ _ _ Hatt Hl1 Hws Hw2) as (Hcalls2 & i2 & a2 & Hs2 & Ht2 & Hl2).
    split; [by rewrite Hcalls2, Hcalls1, <- app_assoc|]. exists (i1 ++ i2), a2.
    split; [by eapply serves_app|]. split; [by eapply timely_trans|done].
Qed.

Lemma limits_represents a l : limits_writes a l -> exists b, TokenBucket.represents b a.
Proof. intros (_ & _ & _ & c & _ & _ & o & _ & _ & Hr). by eexists. Qed.

(** ** Theorems *)

(** C4.  Every byte that a sequence of writes brings to the system has been
    served by the bucket of the limiter: the system calls are those asked for, in
    their order; their sizes are a run of the abstract bucket, whose refills are at
    least a period apart; and up to an instant [T], the clock of the last reading
    or later, they are bounded by the tokens at hand and a capacity each period. *)
Theorem writes_are_limited a ws l n l' n' :
  limits_writes a l -> Forall (fun w => 0 < w.2 < 2 ^ 53) ws -> (0 < attempts)%nat ->
  write_all ws l n = Ok tt l' n' ->
  PosixLayer.calls l' = PosixLayer.calls l ++ write_calls ws /\
  (exists instants a', TokenBucket.serves a (sizes ws) instants a' /\ limits_writes a' l' /\
    TokenBucket.spaced (TokenBucket.a_period a) (TokenBucket.a_next a) instants) /\
  forall T, (forall i, (n <= i < n')%nat -> clock_at i <= T) ->
    TokenBucket.a_period a * (sizes ws - TokenBucket.a_tokens a) <=
    TokenBucket.a_capacity a * Z.max 0 (T + TokenBucket.a_period a - TokenBucket.a_next a).
Proof.
  intros Hl Hws Hatt Hrun.
  destruct (writes_limited ws a l n l' n' Hatt Hl Hws Hrun)
    as (Hcalls & instants & a' & Hs & Ht & Hl').
  destruct (limits_represents a l Hl) as (b & (Htok & Hcap & Hper)%represents_range).
  split; [done|]. split.
  - exists instants, a'. split; [done|]. split; [done|]. by eapply serves_spaced.
  - intros T HT. by eapply serves_rate.
Qed.

End Limits.

(** ** Witness *)

(** A core with one channel, and in it a limiter of ten tokens each second for the
    writes, made by calls on the core. *)
Definition limiting_calls : list core_call :=
  [CreateChannel 1 (mkTuple 1 0 (u32 (POSIX_.code POSIX_.no_op)));
   DefineObjectDifferentiation 1 true false;
   CreateEnforcementObject 1 5 (mkPair (u32 (POSIX_.code POSIX_.write)) 0) 1 [1000000; 10]].

Definition limiting_core : Core.t :=
  match @run_core_calls bounded_clock 3 limiting_calls Core.make_default O with
  | Ok _ c _ => c
  | _ => Core.make_default
  end.

Definition limiting_layer : PosixLayer.t :=
  PosixLayer.make_workflow
    (PaioStage.mk (Agent.set_ready true (Agent.set_core limiting_core sample_agent)) false
       (ConnectionManager.initial sample_inet sample_agent Network.start)) 1.

Definition limiting_channel : ChannelDefault.t :=
  match Core.m_channels limiting_core !! token_for POSIX_.write 0 limiting_layer with
  | Some c => c
  | None => ChannelDefault.mk 0 SubmissionQueue.make true 0 [] false false ChannelDefault.stats_member 0
  end.

Definition limiting_object : DynamicRateLimiter.t :=
  match object_at (POSIX_.code POSIX_.write)
          (InstanceInterface.m_default_operation_context (PosixLayer.instance limiting_layer))
          limiting_channel with
  | Some (DRLPtr o) => o
  | _ => sample_limiter
  end.

(** They are found: the tests evaluate to a boolean. *)
Lemma limiting_channel_found :
  Core.m_channels limiting_core !! token_for POSIX_.write 0 limiting_layer = Some limiting_channel.
Proof.
  assert (Hs : match Core.m_channels limiting_core !! token_for POSIX_.write 0 limiting_layer with
               | Some _ => true | None => false end = true) by (vm_compute; reflexivity).
  unfold limiting_channel. by destruct (_ !! _).
Qed.

Lemma limiting_object_found :
  object_at (POSIX_.code POSIX_.write)
    (InstanceInterface.m_default_operation_context (PosixLayer.instance limiting_layer))
    limiting_channel = Some (DRLPtr limiting_object).
Proof.
  assert (Hs : match object_at (POSIX_.code POSIX_.write)
                 (InstanceInterface.m_default_operation_context (PosixLayer.instance limiting_layer))
                 limiting_channel with Some (DRLPtr _) => true | _ => false end = true)
    by (vm_compute; reflexivity).
  unfold limiting_object. by destruct (object_at _ _ _) as [[]|].
Qed.

Lemma limiting_represents : TokenBucket.represents (DynamicRateLimiter.m_bucket limiting_object)
  (TokenBucket.mkAbstract 10 10 1000000
     (TokenBucket.m_next_refill_period (DynamicRateLimiter.m_bucket limiting_object))).
Proof.
  assert (Hten : forall x, x = to_double 10 -> Binary64.holds x 10) by (intros x ->; by apply holds_to_double).
  split; [apply Hten; vm_compute; reflexivity|]. split; [apply Hten; vm_compute; reflexivity|].
  split_and!; try reflexivity; vm_compute; discriminate.
Qed.

Lemma limiting_core_well_formed : core_well_formed limiting_core.
Proof.
  pose proof (@run_core_calls_well_formed bounded_clock 3 limiting_calls Core.make_default O
    default_core_well_formed) as Hk.
  unfold limiting_core. destruct (run_core_calls _ _ _ _); [exact Hk|apply default_core_well_formed..].
Qed.

Lemma bounded_clock_range : forall n, 0 <= @clock_at bounded_clock n < 2 ^ 62.
Proof. intros n. unfold clock_at, bounded_clock. lia. Qed.

Lemma limiting_layer_limits : limits_writes
  (TokenBucket.mkAbstract 10 10 1000000
     (TokenBucket.m_next_refill_period (DynamicRateLimiter.m_bucket limiting_object))) limiting_layer.
Proof.
  split; [reflexivity|]. split; [reflexivity|]. split; [exact limiting_core_well_formed|].
  exists limiting_channel. split; [exact limiting_channel_found|].
  split; [vm_compute; reflexivity|]. exists limiting_object. split; [exact limiting_object_found|].
  split; [vm_compute; reflexivity|].
  exact limiting_represents.
Qed.

Lemma writes_are_limited_witness : exists l' n',
  PosixLayer.calls l' = [sys_write 4 None 7; sys_write 4 None 25] /\
  forall T, (forall i, (0 <= i < n')%nat -> @clock_at bounded_clock i <= T) ->
    1000000 * (32 - 10) <= 10 * Z.max 0 (T + 1000000 -
      TokenBucket.m_next_refill_period (DynamicRateLimiter.m_bucket limiting_object)).
Proof.
  destruct (is_Ok_inv (@write_all bounded_clock alone sample_posix 40 1 [(4, None, 7); (4, None, 25)]
    limiting_layer O)) as ([] & l' & n' & Hrun); [vm_compute; reflexivity|].
  assert (Hsizes : Forall (fun w => 0 < w.2 < 2 ^ 53) ([(4, None, 7); (4, None, 25)] : writes))
    by (repeat (constructor; [split; reflexivity|]); constructor).
  destruct (@writes_are_limited bounded_clock alone sample_posix 40 1 bounded_clock_range _ _ _ _ _ _
    limiting_layer_limits Hsizes (Nat.lt_0_succ 0) Hrun) as (Hcalls & _ & HT).
  exists l', n'. split; [exact Hcalls|exact HT].
Defined.
