(* ===== verification/RateControl.v ===== *)
(** * A rate from the control plane

    The parts composed: the southbound handler, the agent it shares with the stage,
    the core, the channel and the limiter; and then the layer, whose writes the
    limiter serves.  The theorem: once an enforcement rule with a rate has been
    read from the socket, acknowledged, the writes that follow are bounded by that
    rate. *)

From S2P Require Import Prelude MachineInt Binary64 Options Differentiation.
From S2P Require Import Rules TokenBucketStats TokenBucket EnforcementObjects.
From S2P Require Import ChannelStatistics Channel Core RulesParser StageInfo Agent.
From S2P Require Import Networking Southbound Connection Stage Instances Limits.

(** The identifiers of the control plane lead to the limiter of the writes. *)
Definition controls_object (type context object_id : Z) (c : ChannelDefault.t) : Prop :=
  let q := ChannelDefault.m_submission_queue c in
  let token := object_token (SubmissionQueue.m_diff_builder q) (u32 type) (u32 context) in
  ChannelDefault.get_enforcement_object_diff_token object_id c = token /\ token <> invalid_token.

Definition controls_writes (channel_id object_id : Z) (l : PosixLayer.t) : Prop :=
  let core := PaioStage.m_core (stage_of l) in
  let token := token_for POSIX_.write 0 l in
  (channel_id, token) ∈ Core.m_channel_id_to_token_linkers core /\ token <> invalid_token /\
  forall c, Core.m_channels core !! token = Some c ->
    controls_object (POSIX_.code POSIX_.write)
      (InstanceInterface.m_default_operation_context (PosixLayer.instance l)) object_id c.

(** The agent of the stage of a layer, which its connection handler changes. *)
Definition agent_of (l : PosixLayer.t) : Agent.t := PaioStage.m_agent (stage_of l).

Definition with_agent (agent : Agent.t) (l : PosixLayer.t) : PosixLayer.t :=
  PosixLayer.set_instance
    (InstanceInterface.set_stage (PaioStage.set_agent agent (stage_of l)) (PosixLayer.instance l)) l.

(** The rule of the control plane for a rate. *)
Definition rate_rule (rule_id channel_id object_id rate : Z) : EnforcementRuleRaw :=
  mkEnforcementRuleRaw rule_id channel_id object_id (DRLConfiguration_code DRL_rate) rate (-1) (-1).

(** Changes of the rate: the identifiers of the operation and of the rule, and the
    rate, as the control plane writes them. *)
Definition rate_changes := list (Z * Z * Z).

Definition change_valid (channel_id object_id : Z) (change : Z * Z * Z) : Prop :=
  let '(id, rule_id, rate) := change in
  is_int id /\ valid (rate_rule rule_id channel_id object_id rate) /\ 0 <= rate < 2 ^ 53.

Definition change_requests (channel_id object_id : Z) (changes : rate_changes) : list (Z * Request) :=
  (fun '(id, rule_id, rate) => (id, EnforceRequestRule (rate_rule rule_id channel_id object_id rate)))
  <$> changes.

(** The bucket under another rate. *)
Definition with_rate (rate : Z) (a : TokenBucket.abstract) : TokenBucket.abstract :=
  TokenBucket.mkAbstract rate (Z.min (TokenBucket.a_tokens a) rate) one_second (TokenBucket.a_next a).

Definition with_rates (changes : rate_changes) (a : TokenBucket.abstract) : TokenBucket.abstract :=
  foldl (fun a '(_, _, rate) => with_rate rate a) a changes.

Section Control.
Context `{SystemClock} (fuel : nat).

(** ** The channel *)

Lemma channel_rate_changed type context object_id rate values a c n :
  0 <= rate < 2 ^ 53 -> TokenBucket.a_period a = one_second ->
  limits_channel type context a c -> controls_object type context object_id c ->
  exists c',
    ChannelDefault.configure_enforcement_object fuel object_id (DRLConfiguration_code DRL_rate)
      (rate :: values) c n = Ok PStatus_OK c' n /\
    limits_channel type context (with_rate rate a) c' /\ controls_object type context object_id c'.
Proof.
  intros Hrate Hone (Hfast & o & Ho & Hcost & Hrep) (Htok & Hne).
  unfold object_at in Ho. cbv zeta in Ho, Htok, Hne.
  destruct (rate_reconfigured rate values o a n Hrate Hrep Hone) as (o' & Hconf & Hcost' & Hrep').
  destruct (call_returns _ _ _ (DRLPtr o') Ho) as (i & q' & Hsel & Hview & Hframe & Hcall).
  exists (ChannelDefault.set_submission_queue q' c). destruct Hframe as (_ & _ & _ & Hb & _).
  split; [|split].
  - unfold ChannelDefault.configure_enforcement_object. rewrite gets_bind, Htok.
    rewrite (proj2 (Z.eqb_neq _ _)) by done. unfold ChannelDefault.on_queue. apply zoom_Ok.
    unfold SubmissionQueue.configure_enforcement_object. rewrite gets_bind. unfold Datatypes.id.
    rewrite Hsel. apply Hcall. cbn [obj_configure Any_object]. unfold dispatch. by rewrite Hconf.
  - split; [done|]. exists o'. unfold object_at. cbn. rewrite Hb, Hview.
    split; [apply lookup_insert_eq|]. split; [congruence|done].
  - unfold controls_object. cbn. rewrite Hb. by split.
Qed.

(** ** The core *)

Lemma employ_rule_well_formed channel_id object_id type conf c n st c' n' : core_well_formed c ->
  Core.employ_enforcement_rule fuel channel_id object_id type conf c n = Ok st c' n' ->
  core_well_formed c'.
Proof.
  intros Hwf Hrun. pose proof (run_core_well_formed fuel
    (EmployEnforcementRule channel_id object_id type conf) c n Hwf) as Hk.
  cbn [run_core] in Hk. unfold mbind, M_bind in Hk. by rewrite Hrun in Hk.
Qed.

Lemma core_rate_changed channel_id object_id type context token rate values a channel c n :
  core_well_formed c -> 0 <= rate < 2 ^ 53 -> TokenBucket.a_period a = one_second ->
  (channel_id, token) ∈ Core.m_channel_id_to_token_linkers c -> token <> invalid_token ->
  Core.m_channels c !! token = Some channel ->
  limits_channel type context a channel -> controls_object type context object_id channel ->
  exists channel',
    Core.employ_enforcement_rule fuel channel_id object_id (DRLConfiguration_code DRL_rate)
      (rate :: values) c n =
      Ok PStatus_OK (Core.set_channels (<[token := channel']> (Core.m_channels c)) c) n /\
    limits_channel type context (with_rate rate a) channel' /\
    controls_object type context object_id channel'.
Proof.
  intros Hwf Hrate Hone Hin Hne Hc Hlim Hctl.
  destruct (proj2 (enforcement_rule_routing fuel channel_id object_id (DRLConfiguration_code DRL_rate)
    (rate :: values) c n Hwf) token Hin Hne) as (ch & Hl & _ & Hrun).
  rewrite Hc in Hl. injection Hl as <-.
  destruct (channel_rate_changed type context object_id rate values a channel n Hrate Hone Hlim Hctl)
    as (channel' & Hconf & Hlim' & Hctl').
  exists channel'. rewrite Hrun, Hconf. by split.
Qed.

(** ** The agent and the layer *)

Lemma rate_configurations rule_id channel_id object_id rate : 0 <= rate ->
  EnforcementRule.m_configurations
    (EnforcementRule.of_raw (rate_rule rule_id channel_id object_id rate)) = [rate].
Proof.
  intros Hr. unfold EnforcementRule.of_raw. cbn. by rewrite (proj2 (Z.eqb_neq rate (-1))) by lia.
Qed.

(** The layer, apart from the channels of its core, and its token. *)
Lemma token_for_core operation l channels :
  token_for operation 0
    (with_agent (Agent.set_core (Core.set_channels channels (PaioStage.m_core (stage_of l))) (agent_of l)) l)
  = token_for operation 0 l.
Proof. unfold token_for. cbv zeta. f_equal. Qed.

Lemma layer_rate_changed rule_id channel_id object_id rate a l n :
  0 <= rate < 2 ^ 53 -> TokenBucket.a_period a = one_second ->
  limits_writes a l -> controls_writes channel_id object_id l ->
  exists agent',
    Agent.employ_enforcement_rule fuel
      (EnforcementRule.of_raw (rate_rule rule_id channel_id object_id rate)) (agent_of l) n =
      Ok PStatus_OK agent' n /\
    limits_writes (with_rate rate a) (with_agent agent' l) /\
    controls_writes channel_id object_id (with_agent agent' l).
Proof.
  intros Hrate Hone (Hready & Htr & Hwf & channel & Hc & Hlim) (Hin & Hne & Hctl).
  destruct (core_rate_changed channel_id object_id _ _ (token_for POSIX_.write 0 l) rate [] a channel
    (PaioStage.m_core (stage_of l)) n Hwf Hrate Hone Hin Hne Hc Hlim (Hctl _ Hc))
    as (channel' & Hrun & Hlim' & Hctl').
  eexists. split.
  { unfold Agent.employ_enforcement_rule. rewrite rate_configurations by lia.
    unfold Agent.on_core. apply zoom_Ok. exact Hrun. }
  split.
  - split; [exact Hready|]. split; [exact Htr|].
    split; [exact (employ_rule_well_formed _ _ _ _ _ _ _ _ _ Hwf Hrun)|].
    exists channel'. split; [|exact Hlim']. rewrite token_for_core. apply lookup_insert_eq.
  - unfold controls_writes. cbv zeta. rewrite token_for_core. split; [exact Hin|]. split; [exact Hne|].
    intros c Hl. assert (c = channel') as ->; [|exact Hctl'].
    apply (f_equal (default channel')) in Hl. cbn in Hl. by rewrite lookup_insert_eq in Hl.
Qed.

Lemma with_agent_twice agent agent' l : with_agent agent' (with_agent agent l) = with_agent agent' l.
Proof. reflexivity. Qed.

Lemma with_own_agent l : with_agent (agent_of l) l = l.
Proof. by destruct l as [[[? ? ?] ? ? ? ? ?] ? ?]. Qed.

Lemma with_rates_next changes : forall a,
  TokenBucket.a_next (with_rates changes a) = TokenBucket.a_next a.
Proof.
  induction changes as [|[[id rule_id] rate] changes IH]; intros a; [done|].
  exact (IH (with_rate rate a)).
Qed.

(** Changes of the rate one after the other. *)
Lemma rates_changed `{RulesOrder} channel_id object_id changes : forall a l n,
  Forall (change_valid channel_id object_id) changes -> TokenBucket.a_period a = one_second ->
  limits_writes a l -> controls_writes channel_id object_id l ->
  exists agent',
    serve_all fuel (change_requests channel_id object_id changes) (agent_of l) n =
      Ok (replicate (length changes) PStatus_OK) agent' n /\
    limits_writes (with_rates changes a) (with_agent agent' l) /\
    TokenBucket.a_period (with_rates changes a) = one_second.
Proof.
  induction changes as [|[[id rule_id] rate] changes IH]; intros a l n Hv Hone Hlim Hctl.
  - exists (agent_of l). rewrite with_own_agent. split; [done|by split].
  - apply Forall_cons_1 in Hv as [(_ & _ & Hrate) Hv].
    destruct (layer_rate_changed rule_id channel_id object_id rate a l n Hrate Hone Hlim Hctl)
      as (agent1 & Hrun1 & Hlim1 & Hctl1).
    destruct (IH (with_rate rate a) (with_agent agent1 l) n Hv eq_refl Hlim1 Hctl1)
      as (agent' & Hrun & Hlim' & Hone').
    exists agent'. rewrite with_agent_twice in Hlim'. split; [|by split].
    cbn [change_requests fmap list_fmap serve_all request_effect].
    rewrite (bind_Ok _ _ _ _ _ _ _ Hrun1). change (agent_of (with_agent agent1 l)) with agent1 in Hrun.
    change (list_fmap _ _ _ changes) with (change_requests channel_id object_id changes).
    by rewrite (bind_Ok _ _ _ _ _ _ _ Hrun).
Qed.

End Control.

(** ** Theorem *)

Section Theorems.
Context `{SystemClock} `{Sockets} `{Process} `{RulesOrder} `{OtherThreads} `{Posix}.
Context (fuel attempts : nat) (shutdown : nat -> bool).
Import ConnectionHandler.

(** C6.  The control plane sets the rate: on a layer whose writes a limiter serves that
    refills each second, a conversation of enforcement rules with rates for that limiter
    is read from the socket and each acknowledged; the writes of the layer that follow, up to an
    instant [T], are bounded by the tokens that the smallest of the rates has left
    and by the last rate each second. *)
Theorem control_plane_sets_rate channel_id object_id changes debug a l h n rounds :
  (forall i, 0 <= clock_at i < 2 ^ 62) -> (0 < attempts)%nat ->
  limits_writes a l -> TokenBucket.a_period a = one_second -> controls_writes channel_id object_id l ->
  Forall (change_valid channel_id object_id) changes -> m_agent_ptr h = agent_of l ->
  (forall i, shutdown i = false) -> 0 < m_socket h -> (forall k, libc_write k (m_socket h) 4 = 4) ->
  stream (m_socket h) (Network.reads (network h)) (chunks (change_requests channel_id object_id changes)) ->
  (length changes < rounds)%nat ->
  exists h', SouthboundConnectionHandler.listen fuel shutdown debug rounds h n = Ok tt h' n /\
    Network.sent (network h') =
      Network.sent (network h) ++ replicate (length changes) (m_socket h, ack_of PStatus_OK) /\
    forall ws l' n', Forall (fun w => 0 < w.2 < 2 ^ 53) ws ->
      write_all fuel attempts ws (with_agent (m_agent_ptr h') l) n = Ok tt l' n' ->
      PosixLayer.calls l' = PosixLayer.calls l ++ write_calls ws /\
      forall T, (forall i, (n <= i < n')%nat -> clock_at i <= T) ->
        one_second * (sizes ws - TokenBucket.a_tokens (with_rates changes a)) <=
        TokenBucket.a_capacity (with_rates changes a) * Z.max 0 (T + one_second - TokenBucket.a_next a).
Proof.
  intros Hclock Hatt Hlim Hone Hctl Hv Hagent Hshut Hs Hw Hst Hrounds.
  destruct (rates_changed fuel channel_id object_id changes a l n Hv Hone Hlim Hctl)
    as (agent' & Hrun & Hlim' & Hone'). rewrite <- Hagent in Hrun.
  destruct (listen_serves fuel shutdown debug (change_requests channel_id object_id changes)
    h n O rounds zero_ControlOperation (replicate (length changes) PStatus_OK)
    agent' n Hshut Hs Hw) as (h' & Hl & Ha & Hsent);
    [|exact Hst|by unfold change_requests; rewrite length_fmap|exact Hrun|].
  { apply Forall_fmap. eapply Forall_impl; [|exact Hv].
    by intros [[id rule_id] rate] (Hid & Hr & _). }
  exists h'. split; [exact Hl|]. split; [by rewrite Hsent, fmap_replicate|].
  intros ws l' n' Hws Hwrites. rewrite Ha in Hwrites.
  destruct (writes_limited fuel attempts Hclock ws _ _ n l' n' Hatt Hlim' Hws Hwrites)
    as (Hcalls & instants & a' & Hserves & Htime & _). split; [exact Hcalls|]. intros T HT.
  destruct (limits_represents _ _ Hlim') as (b & (Htok & Hcap & Hper)%represents_range).
  pose proof (serves_rate n n' _ _ _ _ T Hserves Htime Htok Hcap Hper HT) as Hb.
  by rewrite Hone', with_rates_next in Hb.
Qed.

End Theorems.

(** ** Witness *)

Definition limiting_changes : rate_changes := [(1, 1, 20); (2, 2, 5)].

Definition limiting_handler : ConnectionHandler.t :=
  ConnectionHandler.mk 3 sample_inet (agent_of limiting_layer) southbound_handler Network.start.

Lemma limiting_layer_controlled : controls_writes 1 5 limiting_layer.
Proof.
  unfold controls_writes. cbv zeta.
  split; [apply (bool_decide_unpack _); vm_compute; exact I|]. split; [vm_compute; discriminate|].
  intros c Hc. change (Core.m_channels limiting_core !! token_for POSIX_.write 0 limiting_layer = Some c) in Hc.
  rewrite limiting_channel_found in Hc. apply (inj Some) in Hc. subst c.
  unfold controls_object. cbv zeta.
  split; [apply Z.eqb_eq|apply Z.eqb_neq]; vm_compute; reflexivity.
Qed.

Lemma control_plane_sets_rate_witness : exists h' : ConnectionHandler.t,
  Network.sent (ConnectionHandler.network h') = [(3, ack_of PStatus_OK); (3, ack_of PStatus_OK)] /\
  forall ws l' n', Forall (fun w => 0 < w.2 < 2 ^ 53) ws ->
    @write_all bounded_clock alone sample_posix 40 1 ws
      (with_agent (ConnectionHandler.m_agent_ptr h') limiting_layer) O = Ok tt l' n' ->
    forall T, (forall i, (0 <= i < n')%nat -> @clock_at bounded_clock i <= T) ->
      one_second * (sizes ws - 5) <= 5 * Z.max 0 (T + one_second -
        TokenBucket.m_next_refill_period (DynamicRateLimiter.m_bucket limiting_object)).
Proof.
  destruct (@control_plane_sets_rate bounded_clock
    (scripted (chunks (change_requests 1 5 limiting_changes))) sample_process listed_order alone
    sample_posix 40 1 never 1 5 limiting_changes false
    (TokenBucket.mkAbstract 10 10 1000000
       (TokenBucket.m_next_refill_period (DynamicRateLimiter.m_bucket limiting_object)))
    limiting_layer limiting_handler O 3) as (h' & _ & Hsent & Hwrites).
  - exact bounded_clock_range.
  - lia.
  - exact limiting_layer_limits.
  - reflexivity.
  - exact limiting_layer_controlled.
  - repeat apply Forall_cons_2; try apply Forall_nil_2;
      (split; [split; vm_compute; discriminate|]); (split; [|lia]);
      apply fits_layoutb_sound; vm_compute; reflexivity.
  - reflexivity.
  - reflexivity.
  - reflexivity.
  - reflexivity.
  - split; [|reflexivity]. intros i c Hc.
    change (Some (default [] (chunks (change_requests 1 5 limiting_changes) !! i)) = Some c).
    by rewrite Hc.
  - cbn. lia.
  - exists h'. split; [exact Hsent|]. intros ws l' n' Hws Hrun.
    exact (proj2 (Hwrites ws l' n' Hws Hrun)).
Defined.
