(* ===== verification/Progress.v ===== *)
(** * A write under a rate limiter returns

    The composition of [Limits], for progress: when the clock does not stop, a
    write of the layer comes out of the loops of the bucket and makes its system
    call, whatever its size.  The lemmas of the section [Through] follow a request
    through a queue, a channel and the core for any object that answers. *)

From S2P Require Import Prelude MachineInt Binary64 Options Differentiation.
From S2P Require Import Rules TokenBucketStats TokenBucket EnforcementObjects.
From S2P Require Import ChannelStatistics Channel Core RulesParser StageInfo Agent.
From S2P Require Import Networking Southbound Connection Stage Instances Limits.

(** A limiter that can serve: at least a token of capacity, no statistics. *)
Definition can_serve (o : DynamicRateLimiter.t) : Prop :=
  DynamicRateLimiter.m_cost_per_request o = 1 /\ waits (DynamicRateLimiter.m_bucket o) /\
  one64 <= dval (TokenBucket.m_capacity (DynamicRateLimiter.m_bucket o)).

(** The counters of a channel have a place for each classifier. *)
Definition can_count (c : ChannelDefault.t) : Prop :=
  ChannelDefault.m_collect_channel_statistics c = true ->
  ChannelStatistics.well_formed (ChannelDefault.m_channel_statistics c).

Definition serves_channel (type context : Z) (c : ChannelDefault.t) : Prop :=
  ChannelDefault.m_use_fast_path c = true /\ can_count c /\
  exists o, object_at type context c = Some (DRLPtr o) /\ can_serve o.

Definition serves_writes (l : PosixLayer.t) : Prop :=
  let s := stage_of l in
  let context := InstanceInterface.m_default_operation_context (PosixLayer.instance l) in
  PaioStage.m_ready s = true /\ PosixLayer.m_has_io_transformation l = false /\
  core_well_formed (PaioStage.m_core s) /\ 0 <= context /\
  exists c, Core.m_channels (PaioStage.m_core s) !! token_for POSIX_.write 0 l = Some c /\
    serves_channel (POSIX_.code POSIX_.write) context c.

(** ** Through the channel and the core

    What an object answers, its channel and the core answer: a lemma for each level,
    for the fuels ([enough]) with which the object returns, whatever object it is. *)

Section Through.
Context `{SystemClock} (enough : nat -> Prop).

(** The object answers the ticket of a request. *)
Definition answers (ticket : Ticket.t) (result : Result.t) (o : AnyObject) (n : nat)
    (o' : AnyObject) (n' : nat) : Prop :=
  forall fuel, enough fuel ->
    obj_enforce (EnforcementObject := Any_object fuel) ticket result o n =
      Ok (enforced ticket result) o' n'.

(** Counting a request leaves the rest of the channel. *)
Lemma counted collect type context value c n :
  (collect = true -> ChannelStatistics.well_formed (ChannelDefault.m_channel_statistics c)) ->
  ChannelDefault.m_collect_channel_statistics c = collect -> 0 <= type -> 0 <= context -> exists c',
  (if collect then
     ChannelDefault.on_statistics (ChannelStatistics.update_statistic_entry type context value)
   else mret tt) c n = Ok tt c' n /\
  ChannelDefault.m_submission_queue c' = ChannelDefault.m_submission_queue c /\
  ChannelDefault.m_use_fast_path c' = ChannelDefault.m_use_fast_path c /\
  ChannelDefault.m_ticket_id c' = ChannelDefault.m_ticket_id c /\
  ChannelDefault.m_channel_id c' = ChannelDefault.m_channel_id c /\ can_count c'.
Proof.
  intros Hc Hcol Ht Hx. destruct collect.
  2: { exists c. split_and!; [done..|]. intros Hn. congruence. }
  assert (Hu : exists s', ChannelStatistics.update_statistic_entry type context value
    (ChannelDefault.m_channel_statistics c) n = Ok tt s' n /\ ChannelStatistics.well_formed s').
  { unfold ChannelStatistics.update_statistic_entry. rewrite gets_bind.
    destruct (ChannelStatistics.m_classifier_type _); by apply update_entry_total; [apply Hc|]. }
  destruct Hu as (s' & Hs & Hw). eexists. split; [apply zoom_Ok, Hs|].
  split_and!; [done..|]. by intros _.
Qed.

(** The queue, for a token that has an object. *)
Lemma queue_returns ticket result q o o' token n n' : bound (SubmissionQueue.m_diff_builder q) ->
  object_token (SubmissionQueue.m_diff_builder q) (u32 (Ticket.m_operation_type ticket))
    (u32 (Ticket.m_operation_context ticket)) = token ->
  view q !! token = Some o -> answers ticket result o n o' n' ->
  exists q', view q' !! token = Some o' /\ same_frame q q' /\
  forall fuel, enough fuel ->
    SubmissionQueue.enforce_mechanism fuel ticket result q n = Ok (enforced ticket result) q' n'.
Proof.
  intros Hb Htok Ho Ha.
  destruct (call_returns token q _ o' Ho) as (i & q' & Hsel & Hview & Hframe & Hcall).
  exists q'. split; [rewrite Hview; apply lookup_insert_eq|]. split; [done|].
  intros fuel Hf. unfold SubmissionQueue.enforce_mechanism.
  rewrite (bind_Ok _ _ _ _ _ _ _ (bound_token _ _ q n Hb)), Htok, gets_bind. unfold Datatypes.id.
  rewrite Hsel. apply Hcall, Ha, Hf.
Qed.

(** The channel, for a request on its context alone: a single operation, whose size
    may be unknown (0). *)
Definition plain_request (context : Context) : Prop :=
  0 <= m_operation_type context /\ 0 <= m_operation_context context /\
  0 <= m_operation_size context < 2 ^ 53 /\ m_total_operations context = 1.

Definition plain_ticket (context : Context) (id : Z) : Ticket.t :=
  Ticket.make id 1 (if m_operation_size context =? 0 then 1 else m_operation_size context)
    (m_operation_type context) (m_operation_context context).

Lemma plain_ticket_of context id : plain_request context ->
  ticket_of context None 0 id = Some (plain_ticket context id).
Proof.
  intros (Htype & Hctx & Hsize & Htotal). unfold ticket_of, plain_ticket. cbv zeta. rewrite Htotal.
  destruct (m_operation_size context =? 0); [done|]. cbn. by rewrite payload_exact, Z.mul_1_r by lia.
Qed.

Lemma ticket_classifiers context content size id ticket :
  ticket_of context content size id = Some ticket ->
  Ticket.m_operation_type ticket = m_operation_type context /\
  Ticket.m_operation_context ticket = m_operation_context context /\ Ticket.m_ticket_id ticket = id.
Proof. unfold ticket_of. intros Ht. repeat case_match; by simplify_eq. Qed.

Lemma channel_returns context content size c o o' ticket n n' :
  channel_well_formed c -> ChannelDefault.m_use_fast_path c = true -> can_count c ->
  0 <= m_operation_type context -> 0 <= m_operation_context context ->
  ticket_of context content size (ChannelDefault.m_ticket_id c) = Some ticket ->
  object_at (m_operation_type context) (m_operation_context context) c = Some o ->
  answers ticket (Result.of_ticket (ChannelDefault.m_ticket_id c)) o n o' n' ->
  exists c', ChannelDefault.m_use_fast_path c' = true /\ can_count c' /\
    object_at (m_operation_type context) (m_operation_context context) c' = Some o' /\
    ChannelDefault.m_ticket_id c' = u64 (ChannelDefault.m_ticket_id c + 1) /\
    ChannelDefault.m_channel_id c' = ChannelDefault.m_channel_id c /\
    forall fuel, enough fuel ->
      ChannelDefault.channel_enforce fuel context content size Result.default c n =
        Ok (enforced ticket (Result.of_ticket (ChannelDefault.m_ticket_id c))) c' n'.
Proof.
  intros Hwf Hfast Hcount Htype Hctx Hticket Ho Ha.
  destruct (ticket_classifiers _ _ _ _ _ Hticket) as (Htt & Htc & Hti).
  unfold object_at in Ho. cbv zeta in Ho. rewrite <- Htt, <- Htc in Ho.
  destruct (queue_returns ticket (Result.of_ticket (ChannelDefault.m_ticket_id c))
    (ChannelDefault.m_submission_queue c) o o' _ n n' (proj1 Hwf) eq_refl Ho Ha) as (q' & Hview & Hframe & HN).
  set (c1 := ChannelDefault.set_ticket (u64 (ChannelDefault.m_ticket_id c + 1)) c).
  set (counted_size := if bool_decide (option_default_statistic_metric = counter) &&
                          (m_operation_size context =? 0) then 1 else m_operation_size context).
  destruct (counted _ (m_operation_type context) (m_operation_context context)
    (u64 (m_total_operations context * counted_size)) (ChannelDefault.set_submission_queue q' c1) n' Hcount
    eq_refl Htype Hctx) as (c' & Hst & Hq' & Hfast' & Hid' & Hch' & Hcount').
  exists c'. split; [by rewrite Hfast'|]. split; [exact Hcount'|].
  split; [|split; [by rewrite Hid'|split; [by rewrite Hch'|]]].
  - unfold object_at. cbv zeta. rewrite Hq'. cbn. destruct Hframe as (_ & _ & _ & Hb & _).
    rewrite Hb, <- Htt, <- Htc. exact Hview.
  - intros fuel Hf. unfold ChannelDefault.channel_enforce.
    erewrite bind_Ok by (rewrite build_ticket_outcome, Hticket; reflexivity). cbv zeta.
    rewrite gets_bind. unfold Datatypes.id. fold c1. rewrite Hti.
    change (ChannelDefault.m_use_fast_path c1) with (ChannelDefault.m_use_fast_path c). rewrite Hfast.
    erewrite bind_Ok by (apply zoom_Ok; exact (HN fuel Hf)).
    by erewrite bind_Ok by exact Hst.
Qed.

(** The core, for a token that has a channel. *)
Lemma core_returns context content size token channel c o o' ticket n n' : core_well_formed c ->
  channel_token (Core.m_channel_diff_builder c) (u32 (m_workflow_id context))
    (u32 (m_operation_type context)) (u32 (m_operation_context context)) = token ->
  Core.m_channels c !! token = Some channel ->
  ChannelDefault.m_use_fast_path channel = true -> can_count channel ->
  0 <= m_operation_type context -> 0 <= m_operation_context context ->
  ticket_of context content size (ChannelDefault.m_ticket_id channel) = Some ticket ->
  object_at (m_operation_type context) (m_operation_context context) channel = Some o ->
  answers ticket (Result.of_ticket (ChannelDefault.m_ticket_id channel)) o n o' n' ->
  exists channel', ChannelDefault.m_use_fast_path channel' = true /\ can_count channel' /\
    object_at (m_operation_type context) (m_operation_context context) channel' = Some o' /\
    ChannelDefault.m_ticket_id channel' = u64 (ChannelDefault.m_ticket_id channel + 1) /\
    ChannelDefault.m_channel_id channel' = ChannelDefault.m_channel_id channel /\
    forall fuel, enough fuel ->
      let c' := Core.set_channels (<[token := channel']> (Core.m_channels c)) c in
      Core.enforce_request fuel context content size Result.default c n =
        Ok (enforced ticket (Result.of_ticket (ChannelDefault.m_ticket_id channel))) c' n' /\
      core_well_formed c'.
Proof.
  intros Hwf Htok Hc Hfast Hcount Htype Hctx Hticket Ho Ha.
  destruct (channel_returns context content size channel o o' ticket n n'
    (core_channel_well_formed c token channel Hwf Hc) Hfast Hcount Htype Hctx Hticket Ho Ha)
    as (channel' & Hfast' & Hcount' & Ho' & Hid & Hch & HN).
  exists channel'. split_and!; try done. intros fuel Hf c'.
  assert (Hrun : Core.enforce_request fuel context content size Result.default c n =
    Ok (enforced ticket (Result.of_ticket (ChannelDefault.m_ticket_id channel))) c' n').
  { rewrite enforce_request_routed by done. cbv zeta. by rewrite Htok, Hc, HN. }
  split; [exact Hrun|].
  pose proof (enforce_request_well_formed fuel context content size Result.default c n Hwf) as Hk.
  by rewrite Hrun in Hk.
Qed.

End Through.

(** ** The limiter *)

Section Progress.
Context `{SystemClock}.
Hypothesis progress : clock_progress.

Lemma limiter_returns ticket result o n :
  can_serve o -> 0 <= Ticket.m_payload ticket < 2 ^ 53 -> Ticket.m_buffer_size ticket = 0 ->
  exists N o' n', can_serve o' /\ answers (fun fuel => (N <= fuel)%nat) ticket result (DRLPtr o) n (DRLPtr o') n'.
Proof.
  intros (Hcost & Hw & Hcap) Hp Hsize.
  assert (Hc : Binary64.holds (DynamicRateLimiter.basic_io_cost ticket o) (Ticket.m_payload ticket)).
  { unfold DynamicRateLimiter.basic_io_cost. rewrite Hcost, Z.mul_1_l, s64_small;
      [by apply holds_to_double|]. unfold is_long, long_min, long_max. lia. }
  destruct Hc as (Hwf & Hval & _).
  destruct (try_consume_ends progress _ _ n Hw Hcap Hwf) as (N & b' & n' & Hw' & Hs & HN);
    [rewrite Hval; pose proof one64_pos; nia|].
  exists N, (DynamicRateLimiter.set_bucket b' o), n'.
  split; [split; [done|]; split; [done|]; simpl; by rewrite (proj1 Hs)|]. intros fuel Hf.
  cbn [obj_enforce Any_object]. unfold dispatch, DynamicRateLimiter.obj_enforce. rewrite gets_bind.
  unfold Datatypes.id. rewrite (bind_Ok _ _ _ _ _ _ _ (zoom_Ok _ _ _ _ _ _ _ _ (HN fuel Hf))).
  unfold enforced. by rewrite Hsize.
Qed.

(** ** The layer *)

Context `{OtherThreads} `{Posix} (attempts : nat).

Lemma write_returns k fd buf count l n : serves_writes l -> 0 < count < 2 ^ 53 ->
  exists N l' n', serves_writes l' /\
    PosixLayer.calls l' = PosixLayer.calls l ++ [sys_write fd buf count] /\
    forall fuel, (N <= fuel)%nat -> PosixLayer.write fuel (S k) fd buf count l n =
      Ok (call_result (length (PosixLayer.calls l)) (sys_write fd buf count)) l' n'.
Proof.
  intros (Hready & Htr & Hwf & Hctx & channel & Hc & Hfast & Hcnt & o & Ho & Hserves) Hcount.
  set (context := PosixLayer.context_of POSIX_.write count l).
  assert (Hplain : plain_request context) by (unfold plain_request; cbn; split_and!; done || lia).
  destruct (limiter_returns (plain_ticket context (ChannelDefault.m_ticket_id channel))
    (Result.of_ticket (ChannelDefault.m_ticket_id channel)) o n Hserves) as (N & o' & n' & Hserves' & HN);
    [unfold plain_ticket; cbn; case_match; lia|done|].
  destruct (core_returns (fun fuel => (N <= fuel)%nat) context None 0 (token_for POSIX_.write 0 l) channel
    (PaioStage.m_core (stage_of l)) (DRLPtr o) (DRLPtr o') _ n n' Hwf eq_refl Hc Hfast Hcnt (proj1 Hplain)
    (proj1 (proj2 Hplain)) (plain_ticket_of context _ Hplain) Ho HN)
    as (channel' & Hfast' & Hcnt' & Ho' & _ & _ & Hrun).
  set (c' := Core.set_channels _ _) in Hrun. set (l' := issue (sys_write fd buf count) (with_core c' l)).
  exists N, l', n'. split; [|split; [done|]].
  - split; [done|]. split; [done|]. split; [exact (proj2 (Hrun N (Nat.le_refl _)))|]. split; [exact Hctx|].
    exists channel'. split; [|split; [done|split; [done|by exists o']]].
    assert (token_for POSIX_.write 0 l' = token_for POSIX_.write 0 l) as ->; [|apply lookup_insert_eq].
    unfold token_for. cbv zeta. f_equal.
  - intros fuel Hf. rewrite write_enforced_aux by done. fold context.
    rewrite (proj1 (Hrun fuel Hf)).
    by rewrite bool_decide_eq_true_2.
Qed.

(** The same writes as [write_all], with what each of them returns. *)
Fixpoint write_each (fuel : nat) (ws : writes) : M PosixLayer.t (list Z) :=
  match ws with
  | [] => mret []
  | (fd, buf, count) :: ws =>
      result ← PosixLayer.write fuel attempts fd buf count;
      results ← write_each fuel ws;
      mret (result :: results)
  end.

Definition call_results (issued : nat) (ws : writes) : list Z :=
  imap (fun i call => call_result (issued + i) call) (write_calls ws).

Lemma writes_end ws : forall l n, (0 < attempts)%nat -> serves_writes l ->
  Forall (fun w => 0 < w.2 < 2 ^ 53) ws ->
  exists N l' n', serves_writes l' /\
    PosixLayer.calls l' = PosixLayer.calls l ++ write_calls ws /\
    forall fuel, (N <= fuel)%nat ->
      write_each fuel ws l n = Ok (call_results (length (PosixLayer.calls l)) ws) l' n'.
Proof.
  induction ws as [|[[fd buf] count] ws IH]; intros l n Hatt Hl Hws.
  - exists O, l, n. by rewrite app_nil_r.
  - apply Forall_cons_1 in Hws as [Hcount Hws].
    destruct (Nat.lt_exists_pred 0 attempts Hatt) as (k & Hk & _).
    destruct (write_returns k fd buf count l n Hl Hcount) as (N1 & l1 & n1 & Hl1 & Hcalls1 & HN1).
    destruct (IH l1 n1 Hatt Hl1 Hws) as (N2 & l' & n' & Hl' & Hcalls & HN2).
    exists (N1 + N2)%nat, l', n'. split; [done|]. split; [by rewrite Hcalls, Hcalls1, <- app_assoc|].
    intros fuel Hf. cbn [write_each]. rewrite Hk at 1. rewrite (bind_Ok _ _ _ _ _ _ _ (HN1 fuel ltac:(lia))).
    rewrite (bind_Ok _ _ _ _ _ _ _ (HN2 fuel ltac:(lia))). cbn [mret M_ret]. f_equal.
    unfold call_results. cbn [write_calls fmap list_fmap imap]. rewrite Nat.add_0_r. f_equal.
    rewrite Hcalls1, length_app. apply imap_ext. intros i call _. cbn. f_equal. lia.
Qed.

End Progress.

(** ** Theorem *)


(** ** Witness *)

Lemma limiting_layer_serves : serves_writes limiting_layer.
Proof.
  split; [reflexivity|]. split; [reflexivity|]. split; [exact limiting_core_well_formed|].
  split; [vm_compute; discriminate|]. exists limiting_channel. split; [exact limiting_channel_found|].
  split; [vm_compute; reflexivity|]. split.
  - intros _. unfold ChannelStatistics.well_formed.
    assert (ChannelStatistics.m_stats_size (ChannelDefault.m_channel_statistics limiting_channel) = 5)
      as -> by (vm_compute; reflexivity).
    assert (ChannelStatistics.m_total_counter (ChannelDefault.m_channel_statistics limiting_channel) =
            replicate 5 0) as -> by (vm_compute; reflexivity).
    assert (ChannelStatistics.m_windowed_counter (ChannelDefault.m_channel_statistics limiting_channel) =
            replicate 5 0) as -> by (vm_compute; reflexivity).
    split; [lia|]. split; [done|]. split; [done|]. split; by repeat constructor.
  - exists limiting_object. split; [exact limiting_object_found|]. split; [vm_compute; reflexivity|].
    split; [|vm_compute; discriminate]. split; [vm_compute; intuition discriminate|].
    split; [vm_compute; reflexivity|vm_compute; intuition discriminate].
Qed.

