(* ===== verification/SharedQueue.v ===== *)
(** * A submission queue that several threads use

    Callers in the fast path, workers and the control plane meet at
    [m_objects_lock] of a [SubmissionQueue] ([submission_queue.cpp]): enforcing a
    request, creating, configuring and collecting an object are each one critical
    section.  The one of a request contains the loops of the token bucket
    ([token_bucket.cpp]), sleeps included, and here it runs by steps, one for each
    test of a loop, while other threads arrive and wait.  The lock of
    the limiter itself ([m_mutex]) is only taken inside this one. *)

From S2P Require Import Prelude MachineInt Binary64 Options Differentiation.
From S2P Require Import TokenBucketStats TokenBucket EnforcementObjects ChannelStatistics Channel.

(** ** [try_consume] by steps *)

Module ConsumeSteps.
Import TokenBucket.

(** At the test of the loop of [consume_operation], with what [try_consume] has
    left when it is in its rounds; at the test of the loop of the rounds. *)
Inductive place :=
| Consuming (consume_tokens : double) (tokens_left : option double)
| Rounds (tokens_left iteration_tokens : double).

Definition start (consume_tokens : double) (b : t) : place :=
  if dgt consume_tokens (m_capacity b)
  then Rounds consume_tokens (m_capacity b)
  else Consuming consume_tokens None.

Section Clock.
Context `{SystemClock}.

(** The test of the loop of [consume_operation], and its body. *)
Definition wait_iteration (consume_tokens : double) : M t bool :=
  tokens ← gets m_tokens;
  if dgt consume_tokens tokens then
    time_left ← try_refill;
    _ ← sleep_for_refill time_left;
    mret false
  else mret true.

(** The next place, or none at the end of [try_consume]. *)
Definition step (p : place) : M t (option place) :=
  match p with
  | Consuming consume_tokens tokens_left =>
      enough ← wait_iteration consume_tokens;
      if enough : bool then
        _ ← modify (fun b => set_tokens_field (dsub (m_tokens b) consume_tokens) b);
        match tokens_left with
        | None => mret None
        | Some tokens_left =>
            capacity ← gets m_capacity;
            let tokens_left := dsub tokens_left consume_tokens in
            mret (Some (Rounds tokens_left
                          (if dlt tokens_left capacity then tokens_left else consume_tokens)))
        end
      else mret (Some p)
  | Rounds tokens_left iteration_tokens =>
      mret (if dgt tokens_left d0 then Some (Consuming iteration_tokens (Some tokens_left)) else None)
  end.

(** The steps from a place to the end. *)
Inductive finishes : place -> t -> nat -> t -> nat -> Prop :=
| finishes_last p b n b' n' : step p b n = Ok None b' n' -> finishes p b n b' n'
| finishes_step p b n p1 b1 n1 b' n' :
    step p b n = Ok (Some p1) b1 n1 -> finishes p1 b1 n1 b' n' -> finishes p b n b' n'.

(** What is left to run of [try_consume]. *)
Definition rest (fuel : nat) (p : place) : M t unit :=
  match p with
  | Consuming consume_tokens None => consume_operation fuel consume_tokens
  | Consuming consume_tokens (Some tokens_left) =>
      _ ← consume_operation fuel consume_tokens;
      capacity ← gets m_capacity;
      let tokens_left := dsub tokens_left consume_tokens in
      consume_rounds fuel fuel tokens_left
        (if dlt tokens_left capacity then tokens_left else consume_tokens)
  | Rounds tokens_left iteration_tokens => consume_rounds fuel fuel tokens_left iteration_tokens
  end.

End Clock.

End ConsumeSteps.

(** ** The queue and its lock *)

Module SharedQueue.

(** The calls that take the lock. *)
Inductive operation :=
| EnforceMechanism (ticket : Ticket.t) (result : Result.t)
| CreateEnforcementObject (token : Z) (object : AnyObject)
| ConfigureEnforcementObject (token config : Z) (configurations : list Z)
| CollectEnforcementObjectStatistics (token : Z) (statistics_raw : ObjectStatisticsRaw).

Inductive answer :=
| Enforced (result : Result.t)
| Answered (status : PStatus)
| Collected (status : PStatus) (statistics_raw : ObjectStatisticsRaw).

(** A call as it gets to the lock: the token of a request is built before. *)
Inductive critical_section :=
| EnforceSection (object_token : Z) (ticket : Ticket.t) (result : Result.t)
| CreateSection (token : Z) (object : AnyObject)
| ConfigureSection (token config : Z) (configurations : list Z)
| CollectSection (token : Z) (statistics_raw : ObjectStatisticsRaw).

(** Where the holder of the lock is: it has just taken it, or it is in the
    bucket of the limiter behind a pointer. *)
Inductive position :=
| Entered (section : critical_section)
| InBucket (pointer : nat) (ticket : Ticket.t) (result : Result.t) (place : ConsumeSteps.place).

Record system := mk {
  queue : SubmissionQueue.t;
  readings : nat;                                             (* of the clock, so far *)
  m_objects_lock : option (nat * operation * position);       (* the thread that holds it *)
  waiting : gmap nat (operation * critical_section);
  completed : list (nat * operation * answer);
}.

Definition initial (q : SubmissionQueue.t) (n : nat) : system := mk q n None ∅ [].

(** A computation on the bucket of a limiter. *)
Definition on_bucket {A} (pointer : nat) (m : M TokenBucket.t A) : M SubmissionQueue.t A :=
  SubmissionQueue.call_object pointer (fun object n =>
    match object with
    | DRLPtr o => outcome_map DRLPtr
        (zoom DynamicRateLimiter.m_bucket DynamicRateLimiter.set_bucket m o n)
    | NoopPtr _ => Crash (UndefinedBehaviour "not a DynamicRateLimiter")
    end).

Definition section_of (op : operation) : M SubmissionQueue.t critical_section :=
  match op with
  | EnforceMechanism ticket result =>
      object_token ← SubmissionQueue.build_object_token (u32 (Ticket.m_operation_type ticket))
                       (u32 (Ticket.m_operation_context ticket));
      mret (EnforceSection object_token ticket result)
  | CreateEnforcementObject token object => mret (CreateSection token object)
  | ConfigureEnforcementObject token config configurations =>
      mret (ConfigureSection token config configurations)
  | CollectEnforcementObjectStatistics token statistics_raw =>
      mret (CollectSection token statistics_raw)
  end.

Section Clock.
Context `{SystemClock}.

(** The next step of the holder: its new position, or its answer when it releases the
    lock.  Only the limiter loops, so that the other calls need no fuel. *)
Definition advance (p : position) : M SubmissionQueue.t (position + answer) :=
  match p with
  | Entered (EnforceSection object_token ticket result) =>
      q ← gets id;
      match SubmissionQueue.select_enforcement_object object_token q with
      | Some pointer =>
          match SubmissionQueue.m_enf_objects q !! pointer with
          | Some (_, DRLPtr o) =>
              mret (inl (InBucket pointer ticket result
                (ConsumeSteps.start (DynamicRateLimiter.basic_io_cost ticket o)
                   (DynamicRateLimiter.m_bucket o))))
          | _ =>
              result ← SubmissionQueue.call_object pointer
                (obj_enforce (EnforcementObject := Any_object 0) ticket result);
              mret (inr (Enforced result))
          end
      | None =>
          result ← zoom SubmissionQueue.m_no_match_object SubmissionQueue.set_no_match
            (obj_enforce (EnforcementObject := Any_object 0) ticket result);
          mret (inr (Enforced result))
      end
  | Entered (CreateSection token object) =>
      status ← SubmissionQueue.create_enforcement_object token object;
      mret (inr (Answered status))
  | Entered (ConfigureSection token config configurations) =>
      status ← SubmissionQueue.configure_enforcement_object 0 token config configurations;
      mret (inr (Answered status))
  | Entered (CollectSection token statistics_raw) =>
      '(status, statistics_raw) ←
        SubmissionQueue.collect_enforcement_object_statistics 0 token statistics_raw;
      mret (inr (Collected status statistics_raw))
  | InBucket pointer ticket result place =>
      next ← on_bucket pointer (ConsumeSteps.step place);
      match next with
      | Some place => mret (inl (InBucket pointer ticket result place))
      | None =>
          result ← fill_result ticket result;
          mret (inr (Enforced result))
      end
  end.

(** A thread arrives at the lock, a thread takes it, its holder does a step. *)
Inductive event := Arrive (thread : nat) (op : operation) | Acquire (thread : nat) | Work.

Definition holds_lock (thread : nat) (s : system) : bool :=
  match m_objects_lock s with Some (holder, _, _) => bool_decide (holder = thread) | None => false end.

Definition exec (e : event) (s : system) : option system :=
  match e with
  | Arrive thread op =>
      if bool_decide (waiting s !! thread = None) && negb (holds_lock thread s) then
        match section_of op (queue s) (readings s) with
        | Ok section q n =>
            Some (mk q n (m_objects_lock s) (<[thread := (op, section)]> (waiting s)) (completed s))
        | _ => None
        end
      else None
  | Acquire thread =>
      match m_objects_lock s, waiting s !! thread with
      | None, Some (op, section) =>
          Some (mk (queue s) (readings s) (Some (thread, op, Entered section))
                  (delete thread (waiting s)) (completed s))
      | _, _ => None
      end
  | Work =>
      match m_objects_lock s with
      | Some (thread, op, p) =>
          match advance p (queue s) (readings s) with
          | Ok (inl p) q n => Some (mk q n (Some (thread, op, p)) (waiting s) (completed s))
          | Ok (inr a) q n => Some (mk q n None (waiting s) (completed s ++ [(thread, op, a)]))
          | _ => None
          end
      | None => None
      end
  end.

Fixpoint exec_all (events : list event) (s : system) : option system :=
  match events with
  | [] => Some s
  | e :: events => exec e s ≫= exec_all events
  end.

(** ** The calls, one after the other *)

Definition perform (fuel : nat) (op : operation) : M SubmissionQueue.t answer :=
  match op with
  | EnforceMechanism ticket result =>
      result ← SubmissionQueue.enforce_mechanism fuel ticket result;
      mret (Enforced result)
  | CreateEnforcementObject token object =>
      status ← SubmissionQueue.create_enforcement_object token object;
      mret (Answered status)
  | ConfigureEnforcementObject token config configurations =>
      status ← SubmissionQueue.configure_enforcement_object fuel token config configurations;
      mret (Answered status)
  | CollectEnforcementObjectStatistics token statistics_raw =>
      '(status, statistics_raw) ←
        SubmissionQueue.collect_enforcement_object_statistics fuel token statistics_raw;
      mret (Collected status statistics_raw)
  end.

Fixpoint perform_all (fuel : nat) (ops : list operation) : M SubmissionQueue.t (list answer) :=
  match ops with
  | [] => mret []
  | op :: ops => a ← perform fuel op; answers ← perform_all fuel ops; mret (a :: answers)
  end.

(** The steps from a position to an answer. *)
Inductive completes : position -> SubmissionQueue.t -> nat -> answer -> SubmissionQueue.t -> nat -> Prop :=
| completes_last p q n a q' n' : advance p q n = Ok (inr a) q' n' -> completes p q n a q' n'
| completes_step p q n p1 q1 n1 a q' n' :
    advance p q n = Ok (inl p1) q1 n1 -> completes p1 q1 n1 a q' n' -> completes p q n a q' n'.

End Clock.

Fixpoint works (events : list event) : nat :=
  match events with
  | [] => O
  | Work :: events => S (works events)
  | _ :: events => works events
  end.

Definition ops_of (l : list (nat * operation * answer)) : list operation := (fun x => x.1.2) <$> l.
Definition answers_of (l : list (nat * operation * answer)) : list answer := (fun x => x.2) <$> l.

End SharedQueue.

(** ** The bucket: steps and runs *)

Section Steps.
Context `{SystemClock}.
Import TokenBucket ConsumeSteps.

Lemma wait_unfold fuel c b n :
  wait_for_tokens (S fuel) c b n =
  (wait_iteration c ≫= fun enough : bool => if enough then mret tt else wait_for_tokens fuel c) b n.
Proof.
  unfold wait_iteration. cbn [wait_for_tokens]. rewrite gets_bind.
  unfold gets, mbind, M_bind, mret, M_ret. destruct (dgt c (m_tokens b)); [|done].
  destruct (try_refill b n) as [l b1 n1| |]; [|done..].
  by destruct (sleep_for_refill l b1 n1).
Qed.

(** Runs that return do so with more fuel. *)
Lemma operation_more fuel fuel' c b n b' n' : (fuel <= fuel')%nat ->
  consume_operation fuel c b n = Ok tt b' n' -> consume_operation fuel' c b n = Ok tt b' n'.
Proof.
  intros Hle ([] & b1 & n1 & Hw & Hm)%bind_Ok_inv. unfold consume_operation.
  by rewrite (bind_Ok _ _ _ _ _ _ _ (consume_fuel _ _ _ _ _ _ _ Hle Hw)).
Qed.

Lemma rounds_more fuel : forall fuel' inner inner' l it b n b' n',
  (fuel <= fuel')%nat -> (inner <= inner')%nat ->
  consume_rounds fuel inner l it b n = Ok tt b' n' ->
  consume_rounds fuel' inner' l it b n = Ok tt b' n'.
Proof.
  induction fuel as [|fuel IH]; intros [|fuel'] inner inner' l it b n b' n' Hf Hi; [done|done|lia|].
  cbn [consume_rounds]. destruct (dgt l d0); [|done].
  intros ([] & b1 & n1 & Ho & Hr)%bind_Ok_inv.
  rewrite (bind_Ok _ _ _ _ _ _ _ (operation_more _ _ _ _ _ _ _ Hi Ho)).
  rewrite gets_bind in Hr |- *. revert Hr. apply IH; lia.
Qed.

Lemma rest_more fuel fuel' p b n b' n' : (fuel <= fuel')%nat ->
  rest fuel p b n = Ok tt b' n' -> rest fuel' p b n = Ok tt b' n'.
Proof.
  intros Hle. destruct p as [c [l|]|l it]; cbn [rest].
  - intros ([] & b1 & n1 & Ho & Hr)%bind_Ok_inv.
    rewrite (bind_Ok _ _ _ _ _ _ _ (operation_more _ _ _ _ _ _ _ Hle Ho)).
    rewrite gets_bind in Hr |- *. revert Hr. by apply rounds_more.
  - by apply operation_more.
  - by apply rounds_more.
Qed.

(** An operation from its first test on. *)
Lemma operation_unfold fuel c b n b1 n1 enough : wait_iteration c b n = Ok enough b1 n1 ->
  consume_operation (S fuel) c b n =
  if enough : bool then Ok tt (set_tokens_field (dsub (m_tokens b1) c) b1) n1
  else consume_operation fuel c b1 n1.
Proof.
  intros Hi. unfold consume_operation at 1. unfold mbind at 1, M_bind at 1.
  rewrite wait_unfold, (bind_Ok _ _ _ _ _ _ _ Hi). by destruct enough.
Qed.

Lemma step_rest fuel p b n p1 b1 n1 b' n' :
  step p b n = Ok (Some p1) b1 n1 -> rest fuel p1 b1 n1 = Ok tt b' n' ->
  rest (S fuel) p b n = Ok tt b' n'.
Proof.
  destruct p as [c l|l it]; cbn [step].
  - intros (enough & b2 & n2 & Hi & Hs)%bind_Ok_inv Hr.
    assert (Hop : enough = true -> consume_operation (S fuel) c b n =
        Ok tt (set_tokens_field (dsub (m_tokens b2) c) b2) n2).
    { intros ->. by rewrite (operation_unfold fuel _ _ _ _ _ _ Hi). }
    destruct enough.
    + rewrite modify_bind in Hs. destruct l as [l|]; [|done].
      rewrite gets_bind in Hs. injection Hs as <- <- <-. cbn [rest].
      rewrite (bind_Ok _ _ _ _ _ _ _ (Hop eq_refl)), gets_bind. revert Hr. apply rounds_more; lia.
    + injection Hs as <- <- <-. pose proof (operation_unfold fuel _ _ _ _ _ _ Hi) as Hu. cbn [rest] in *.
      destruct l as [l|]; [|by rewrite Hu].
      apply bind_Ok_inv in Hr as ([] & b3 & n3 & Ho & Hr). rewrite Ho in Hu.
      rewrite (bind_Ok _ _ _ _ _ _ _ Hu), gets_bind. rewrite gets_bind in Hr.
      revert Hr. apply rounds_more; lia.
  - destruct (dgt l d0) eqn:Hd; [|done]. intros [= <- <- <-]. cbn [rest consume_rounds]. rewrite Hd.
    intros ([] & b3 & n3 & Ho & Hr)%bind_Ok_inv.
    rewrite (bind_Ok _ _ _ _ _ _ _ (operation_more fuel (S fuel) _ _ _ _ _ ltac:(lia) Ho)).
    rewrite gets_bind in Hr |- *. revert Hr. apply rounds_more; lia.
Qed.

Lemma last_rest fuel p b n b' n' : step p b n = Ok None b' n' -> rest (S fuel) p b n = Ok tt b' n'.
Proof.
  destruct p as [c l|l it]; cbn [step].
  - intros (enough & b2 & n2 & Hi & Hs)%bind_Ok_inv. destruct enough; [|done].
    rewrite modify_bind in Hs. destruct l as [l|]; [done|]. injection Hs as <- <-. cbn [rest].
    by rewrite (operation_unfold fuel _ _ _ _ _ _ Hi).
  - destruct (dgt l d0) eqn:Hd; [done|]. intros [= <- <-]. cbn [rest consume_rounds]. by rewrite Hd.
Qed.

Lemma finishes_rest p b n b' n' : finishes p b n b' n' ->
  exists N, forall fuel, (N <= fuel)%nat -> rest fuel p b n = Ok tt b' n'.
Proof.
  induction 1 as [p b n b' n' Hs|p b n p1 b1 n1 b' n' Hs _ [N IH]].
  - exists 1%nat. intros fuel Hf. apply (rest_more 1); [done|]. by apply last_rest.
  - exists (S N). intros [|fuel] Hf; [lia|]. eapply step_rest; [exact Hs|]. apply IH. lia.
Qed.

(** The steps of one operation, and of what follows it. *)
Lemma operation_steps fuel c l : forall b n b' n', consume_operation fuel c b n = Ok tt b' n' ->
  match l with
  | None => finishes (Consuming c None) b n b' n'
  | Some l => forall b2 n2,
      finishes (Rounds (dsub l c)
        (if dlt (dsub l c) (m_capacity b') then dsub l c else c)) b' n' b2 n2 ->
      finishes (Consuming c (Some l)) b n b2 n2
  end.
Proof.
  induction fuel as [|fuel IH]; intros b n b' n' Ho; [done|].
  assert (Hi : exists enough b1 n1, wait_iteration c b n = Ok enough b1 n1).
  { apply bind_Ok_inv in Ho as ([] & b1 & n1 & Hw & _). rewrite wait_unfold in Hw.
    apply bind_Ok_inv in Hw as (e & b2 & n2 & Hi & _). eauto. }
  destruct Hi as (enough & b1 & n1 & Hi). rewrite (operation_unfold fuel _ _ _ _ _ _ Hi) in Ho.
  assert (Hstep : step (Consuming c l) b n =
    (if enough then
       _ ← modify (fun b => set_tokens_field (dsub (m_tokens b) c) b);
       match l with
       | None => mret None
       | Some l =>
           capacity ← gets m_capacity;
           mret (Some (Rounds (dsub l c) (if dlt (dsub l c) capacity then dsub l c else c)))
       end
     else mret (Some (Consuming c l))) b1 n1).
  { cbn [step]. by rewrite (bind_Ok _ _ _ _ _ _ _ Hi). }
  destruct enough.
  - injection Ho as <- <-. destruct l as [l|].
    + intros b2 n2 Hf. eapply finishes_step; [|exact Hf]. exact Hstep.
    + apply finishes_last. exact Hstep.
  - specialize (IH _ _ _ _ Ho). destruct l as [l|].
    + intros b2 n2 Hf. eapply finishes_step; [exact Hstep|]. by apply IH.
    + eapply finishes_step; [exact Hstep|]. exact IH.
Qed.

Lemma rounds_steps fuel inner : forall l it b n b' n',
  consume_rounds fuel inner l it b n = Ok tt b' n' -> finishes (Rounds l it) b n b' n'.
Proof.
  induction fuel as [|fuel IH]; intros l it b n b' n'; [done|]. cbn [consume_rounds].
  assert (Hs : step (Rounds l it) b n =
    Ok (if dgt l d0 then Some (Consuming it (Some l)) else None) b n) by done.
  destruct (dgt l d0).
  - intros ([] & b1 & n1 & Ho & Hr)%bind_Ok_inv. rewrite gets_bind in Hr.
    eapply finishes_step; [exact Hs|]. apply (operation_steps _ _ (Some l) _ _ _ _ Ho).
    exact (IH _ _ _ _ _ _ Hr).
  - intros [= <- <-]. by apply finishes_last.
Qed.

Lemma try_consume_start fuel c b n : try_consume fuel c b n = rest fuel (start c b) b n.
Proof. unfold try_consume, start. rewrite gets_bind. by destruct (dgt c (m_capacity b)). Qed.

(** Steps and runs have the same ends. *)
Lemma try_consume_steps c b n b' n' :
  finishes (start c b) b n b' n' <->
  exists N, forall fuel, (N <= fuel)%nat -> try_consume fuel c b n = Ok tt b' n'.
Proof.
  split.
  - intros [N HN]%finishes_rest. exists N. intros fuel Hf. rewrite try_consume_start. by apply HN.
  - intros [N HN]. specialize (HN N (Nat.le_refl _)). rewrite try_consume_start in HN.
    unfold start in *. destruct (dgt c (m_capacity b)).
    + by apply (rounds_steps N N).
    + exact (operation_steps N c None _ _ _ _ HN).
Qed.

End Steps.

(** ** The queue: steps and calls *)

Section Calls.
Context `{SystemClock}.
Import SharedQueue.

(** The queue with another limiter at a place of its vector. *)
Definition put (i : nat) (token : Z) (o : DynamicRateLimiter.t) (q : SubmissionQueue.t) :
    SubmissionQueue.t :=
  SubmissionQueue.set_objects (<[i := (token, DRLPtr o)]> (SubmissionQueue.m_enf_objects q)) q.

Definition limiter_at (i : nat) (token : Z) (o : DynamicRateLimiter.t) (q : SubmissionQueue.t) : Prop :=
  SubmissionQueue.m_enf_objects q !! i = Some (token, DRLPtr o).

Lemma put_limiter i token o o' q : limiter_at i token o q -> limiter_at i token o' (put i token o' q).
Proof.
  intros Hi. unfold limiter_at, put. cbn. apply list_lookup_insert_eq.
  exact (lookup_lt_Some _ _ _ Hi).
Qed.

Lemma put_put i token o o' q : put i token o' (put i token o q) = put i token o' q.
Proof. unfold put. cbn. by rewrite list_insert_insert_eq. Qed.

Lemma on_bucket_run {A} i token o q (m : M TokenBucket.t A) n : limiter_at i token o q ->
  on_bucket i m q n =
  outcome_map (fun b => put i token (DynamicRateLimiter.set_bucket b o) q)
    (m (DynamicRateLimiter.m_bucket o) n).
Proof.
  intros Hi. unfold on_bucket, SubmissionQueue.call_object, zoom. rewrite Hi.
  by destruct (m (DynamicRateLimiter.m_bucket o) n).
Qed.

Lemma on_bucket_Ok {A} i token o q (m : M TokenBucket.t A) n x b n' : limiter_at i token o q ->
  m (DynamicRateLimiter.m_bucket o) n = Ok x b n' ->
  on_bucket i m q n = Ok x (put i token (DynamicRateLimiter.set_bucket b o) q) n'.
Proof. intros Hi Hm. by rewrite (on_bucket_run _ _ _ _ _ _ Hi), Hm. Qed.

Lemma fill_result_state {S S'} ticket result (s s1 : S) (s' : S') n n1 n' r :
  fill_result ticket result s n = Ok r s1 n1 -> fill_result ticket result s' n' = Ok r s' n'.
Proof.
  unfold fill_result, Result.set_content. cbn. destruct (0 <? Ticket.m_buffer_size ticket);
    [|by intros [= <- <- <-]].
  cbn. unfold memcpy. destruct (Ticket.m_buffer ticket) as [bytes|].
  - destruct (Z.of_nat (length bytes) <? _); [done|]. by intros [= <- <- <-].
  - destruct (Ticket.m_buffer_size ticket =? 0); [|done]. by intros [= <- <- <-].
Qed.

Lemma bucket_steps i token o q ticket result place n a q' n' : limiter_at i token o q ->
  completes (InBucket i ticket result place) q n a q' n' ->
  exists b r, ConsumeSteps.finishes place (DynamicRateLimiter.m_bucket o) n b n' /\
    a = Enforced r /\ fill_result ticket result q' n' = Ok r q' n' /\
    q' = put i token (DynamicRateLimiter.set_bucket b o) q.
Proof.
  intros Hi Hc. remember (InBucket i ticket result place) as p eqn:Hp.
  revert place o Hp Hi. induction Hc as [p q n a q' n' Ha|p q n p1 q1 n1 a q' n' Ha _ IH];
    intros place o -> Hi; cbn [advance] in Ha;
    apply bind_Ok_inv in Ha as (next & q2 & n2 & Hs & Ha); rewrite (on_bucket_run _ _ _ _ _ _ Hi) in Hs;
    destruct (ConsumeSteps.step place (DynamicRateLimiter.m_bucket o) n) as [x b n3| |] eqn:Hb; try done;
    injection Hs as <- <- <-; destruct x as [place'|]; try done.
  - apply bind_Ok_inv in Ha as (r & q3 & n4 & Hf & [= <- <- <-]).
    destruct (fill_result_Ok _ _ _ _ _ _ _ Hf) as (-> & -> & _).
    exists b, r. split; [by apply ConsumeSteps.finishes_last|]. done.
  - injection Ha as <- <- <-.
    destruct (IH place' (DynamicRateLimiter.set_bucket b o) eq_refl (put_limiter _ _ _ _ _ Hi))
      as (b' & r & Hf & -> & Hr & ->).
    exists b', r. split; [by eapply ConsumeSteps.finishes_step|]. split; [done|]. split; [exact Hr|].
    exact (put_put i token _ _ q).
  - by apply bind_Ok_inv in Ha as (? & ? & ? & _ & ?).
Qed.

Lemma steps_bucket i token o ticket result place q n b n' r : limiter_at i token o q ->
  ConsumeSteps.finishes place (DynamicRateLimiter.m_bucket o) n b n' ->
  fill_result ticket result q n = Ok r q n ->
  completes (InBucket i ticket result place) q n (Enforced r)
    (put i token (DynamicRateLimiter.set_bucket b o) q) n'.
Proof.
  intros Hi Hf. remember (DynamicRateLimiter.m_bucket o) as b0 eqn:Hb. revert o q Hb Hi.
  induction Hf as [p b0 n b n' Hs|p b0 n p1 b1 n1 b n' Hs _ IH]; intros o q -> Hi Hr.
  - apply completes_last. cbn [advance].
    rewrite (bind_Ok _ _ _ _ _ _ _ (on_bucket_Ok _ _ _ _ _ _ _ _ _ Hi Hs)).
    by rewrite (bind_Ok _ _ _ _ _ _ _ (fill_result_state _ _ _ _ _ _ _ _ _ Hr)).
  - eapply completes_step.
    + cbn [advance]. by rewrite (bind_Ok _ _ _ _ _ _ _ (on_bucket_Ok _ _ _ _ _ _ _ _ _ Hi Hs)).
    + pose proof (IH (DynamicRateLimiter.set_bucket b1 o) _ eq_refl (put_limiter _ _ _ _ _ Hi)
        (fill_result_state _ _ _ _ _ _ _ _ _ Hr)) as Hc.
      rewrite put_put in Hc. exact Hc.
Qed.

(** A request that a limiter serves, whole. *)
Lemma limiter_runs fuel ticket result o n b n' (q : SubmissionQueue.t) r :
  TokenBucket.try_consume fuel (DynamicRateLimiter.basic_io_cost ticket o)
    (DynamicRateLimiter.m_bucket o) n = Ok tt b n' ->
  fill_result ticket result q n' = Ok r q n' ->
  obj_enforce (EnforcementObject := Any_object fuel) ticket result (DRLPtr o) n =
    Ok r (DRLPtr (DynamicRateLimiter.set_bucket b o)) n'.
Proof.
  intros Ht Hr. cbn [obj_enforce Any_object]. unfold dispatch, DynamicRateLimiter.obj_enforce.
  rewrite gets_bind. unfold Datatypes.id. rewrite (bind_Ok _ _ _ _ _ _ _ (zoom_Ok _ _ _ _ _ _ _ _ Ht)).
  pose proof (fill_result_state ticket result q q (DynamicRateLimiter.set_bucket b o) n' n' n' r Hr) as Hf.
  unfold fill_result in Hf. cbv zeta in Hf |- *. by rewrite Hf.
Qed.

(** A call that needs no fuel is the same with any. *)
Lemma no_fuel fuel ticket result object n r object' n' :
  obj_enforce (EnforcementObject := Any_object 0) ticket result object n = Ok r object' n' ->
  obj_enforce (EnforcementObject := Any_object fuel) ticket result object n = Ok r object' n'.
Proof.
  destruct object as [o|o]; [done|].
  assert (Hlost : DynamicRateLimiter.obj_enforce 0 ticket result o n = Crash OutOfFuel).
  { unfold DynamicRateLimiter.obj_enforce. rewrite gets_bind. apply bind_Crash.
    unfold zoom, TokenBucket.try_consume. rewrite gets_bind. by destruct (dgt _ _). }
  cbn [obj_enforce Any_object]. unfold dispatch at 1. by rewrite Hlost.
Qed.

Definition section_value (b : ObjectHashingDifferentiation.t) (op : operation) : critical_section :=
  match op with
  | EnforceMechanism ticket result =>
      EnforceSection (object_token b (u32 (Ticket.m_operation_type ticket))
        (u32 (Ticket.m_operation_context ticket))) ticket result
  | CreateEnforcementObject token object => CreateSection token object
  | ConfigureEnforcementObject token config configurations =>
      ConfigureSection token config configurations
  | CollectEnforcementObjectStatistics token statistics_raw => CollectSection token statistics_raw
  end.

Lemma section_bound op q n : bound (SubmissionQueue.m_diff_builder q) ->
  section_of op q n = Ok (section_value (SubmissionQueue.m_diff_builder q) op) q n.
Proof.
  intros Hb. destruct op; try done. cbn [section_of].
  by rewrite (bind_Ok _ _ _ _ _ _ _ (bound_token _ _ q n Hb)).
Qed.

(** No call binds another builder. *)
Lemma perform_builder fuel op q n :
  keeps (fun q' => SubmissionQueue.m_diff_builder q' = SubmissionQueue.m_diff_builder q)
    (perform fuel op q n).
Proof.
  set (P := fun q' => SubmissionQueue.m_diff_builder q' = SubmissionQueue.m_diff_builder q).
  assert (Hframe : forall A (o : Outcome SubmissionQueue.t A), keeps (queue_frame q) o -> keeps P o).
  { intros A o. apply keeps_mono. by intros q' [? _]. }
  destruct op; cbn [perform]; (apply keeps_bind; [|by intros; case_match || apply keeps_ret]).
  - apply Hframe, enforce_mechanism_frame.
  - unfold SubmissionQueue.create_enforcement_object. rewrite gets_bind. by case_match.
  - apply Hframe, configure_frame.
  - apply Hframe, collect_frame.
Qed.

(** The calls that take one step. *)
Lemma one_step op q n a q' n' : bound (SubmissionQueue.m_diff_builder q) ->
  advance (Entered (section_value (SubmissionQueue.m_diff_builder q) op)) q n = Ok (inr a) q' n' ->
  forall fuel, perform fuel op q n = Ok a q' n'.
Proof.
  intros Hb Ha fuel. destruct op as [ticket result|token object|token config values|token raw];
    cbn [section_value advance] in Ha; cbn [perform].
  - unfold SubmissionQueue.enforce_mechanism. unfold mbind at 1, M_bind at 1.
    rewrite (bind_Ok _ _ _ _ _ _ _ (bound_token _ _ q n Hb)), gets_bind.
    rewrite gets_bind in Ha. unfold Datatypes.id in *.
    destruct (SubmissionQueue.select_enforcement_object _ q) as [i|] eqn:Hsel.
    + assert (Hc : (r ← SubmissionQueue.call_object i
          (obj_enforce (EnforcementObject := Any_object 0) ticket result);
        mret (inr (Enforced r) : position + answer)) q n = Ok (inr a) q' n').
      { unfold limiter_at in *. by destruct (SubmissionQueue.m_enf_objects q !! i) as [[? [o|o]]|]. }
      apply bind_Ok_inv in Hc as (r & q1 & n1 & Hc & [= <- <- <-]).
      revert Hc. unfold SubmissionQueue.call_object. destruct (_ !! i) as [[token o]|]; [|done].
      intros (o' & Hm & ->)%zoom_Ok_inv. by rewrite (zoom_Ok _ _ _ _ _ _ _ _ (no_fuel fuel _ _ _ _ _ _ _ Hm)).
    + apply bind_Ok_inv in Ha as (r & q1 & n1 & (o' & Hm & ->)%zoom_Ok_inv & [= <- <- <-]).
      by rewrite (zoom_Ok _ _ _ _ _ _ _ _ (no_fuel fuel _ _ _ _ _ _ _ Hm)).
  - apply bind_Ok_inv in Ha as (r & q1 & n1 & Hc & [= <- <- <-]). by rewrite (bind_Ok _ _ _ _ _ _ _ Hc).
  - apply bind_Ok_inv in Ha as (r & q1 & n1 & Hc & [= <- <- <-]).
    change (SubmissionQueue.configure_enforcement_object 0 token config values q n = Ok r q1 n1) in Hc.
    by rewrite (bind_Ok _ _ _ _ _ _ _ Hc).
  - apply bind_Ok_inv in Ha as ([r raw'] & q1 & n1 & Hc & [= <- <- <-]). by rewrite (bind_Ok _ _ _ _ _ _ _ Hc).
Qed.

(** The one call that takes more steps. *)
Lemma more_steps section q n p q1 n1 : advance (Entered section) q n = Ok (inl p) q1 n1 ->
  exists token ticket result i token' o, section = EnforceSection token ticket result /\
    SubmissionQueue.select_enforcement_object token q = Some i /\ limiter_at i token' o q /\
    p = InBucket i ticket result (ConsumeSteps.start (DynamicRateLimiter.basic_io_cost ticket o)
      (DynamicRateLimiter.m_bucket o)) /\ q1 = q /\ n1 = n.
Proof.
  destruct section as [token ticket result|token object|token config values|token raw]; cbn [advance].
  - rewrite gets_bind. unfold Datatypes.id.
    destruct (SubmissionQueue.select_enforcement_object token q) as [i|] eqn:Hsel.
    + destruct (SubmissionQueue.m_enf_objects q !! i) as [[token' [o|o]]|] eqn:Hi.
      * by intros (? & ? & ? & _ & ?)%bind_Ok_inv.
      * intros [= <- <- <-]. by exists token, ticket, result, i, token', o.
      * by intros (? & ? & ? & _ & ?)%bind_Ok_inv.
    + by intros (? & ? & ? & _ & ?)%bind_Ok_inv.
  - by intros (? & ? & ? & _ & ?)%bind_Ok_inv.
  - by intros (? & ? & ? & _ & ?)%bind_Ok_inv.
  - by intros ([] & ? & ? & _ & ?)%bind_Ok_inv.
Qed.

Lemma enforce_section_inj token ticket result token' ticket' result' :
  EnforceSection token ticket result = EnforceSection token' ticket' result' ->
  token = token' /\ ticket = ticket' /\ result = result'.
Proof. by intros [= -> -> ->]. Qed.

(** What the steps of a call do, the call does with enough fuel. *)
Lemma completes_perform op q n a q' n' : bound (SubmissionQueue.m_diff_builder q) ->
  completes (Entered (section_value (SubmissionQueue.m_diff_builder q) op)) q n a q' n' ->
  exists N, forall fuel, (N <= fuel)%nat -> perform fuel op q n = Ok a q' n'.
Proof.
  intros Hb Hc. inversion Hc as [? ? ? ? ? ? Ha|? ? ? p1 q1 n1 ? ? ? Ha Hc1]; subst.
  { exists O. intros fuel _. by apply one_step. }
  apply more_steps in Ha as (token & ticket & result & i & token' & o & Hs & Hsel & Hi & -> & -> & ->).
  destruct op as [t r| | |]; try done.
  destruct (enforce_section_inj _ _ _ _ _ _ Hs) as (Htoken & <- & <-). rewrite <- Htoken in Hsel.
  destruct (bucket_steps _ _ _ _ _ _ _ _ _ _ _ Hi Hc1) as (b & r0 & Hf & -> & Hr & ->).
  apply try_consume_steps in Hf as [N HN]. exists N. intros fuel Hle. cbn [perform].
  unfold SubmissionQueue.enforce_mechanism. unfold mbind at 1, M_bind at 1.
  rewrite (bind_Ok _ _ _ _ _ _ _ (bound_token _ _ q n Hb)), gets_bind. unfold Datatypes.id. rewrite Hsel.
  unfold SubmissionQueue.call_object. unfold limiter_at in Hi. rewrite Hi.
  unfold zoom. by rewrite (limiter_runs _ _ _ _ _ _ _ _ _ (HN fuel Hle) Hr).
Qed.

(** The steps of a request that a limiter serves. *)
Lemma request_steps token i token' o ticket result q n b n' r :
  SubmissionQueue.select_enforcement_object token q = Some i -> limiter_at i token' o q ->
  ConsumeSteps.finishes (ConsumeSteps.start (DynamicRateLimiter.basic_io_cost ticket o)
    (DynamicRateLimiter.m_bucket o)) (DynamicRateLimiter.m_bucket o) n b n' ->
  fill_result ticket result q n = Ok r q n ->
  completes (Entered (EnforceSection token ticket result)) q n (Enforced r)
    (put i token' (DynamicRateLimiter.set_bucket b o) q) n'.
Proof.
  intros Hsel Hi Hf Hr. eapply completes_step; [|by apply steps_bucket].
  cbn [advance]. rewrite gets_bind. unfold Datatypes.id. rewrite Hsel. unfold limiter_at in Hi.
  by rewrite Hi.
Qed.

End Calls.

(** ** The lock *)

Section Lock.
Context `{SystemClock}.
Import SharedQueue.

(** The call of the holder, from where it is. *)
Definition about (op : operation) (q0 : SubmissionQueue.t) (n0 : nat) (p : position)
    (q : SubmissionQueue.t) (n : nat) : Prop :=
  forall a q' n', completes p q n a q' n' ->
  exists N, forall fuel, (N <= fuel)%nat -> perform fuel op q0 n0 = Ok a q' n'.

(** The calls that are over are, in their order, a sequential run that started from
    the first queue; the one that holds the lock started where it ended. *)
Definition sequential (q0 : SubmissionQueue.t) (n0 : nat) (s : system) : Prop :=
  exists q1 n1,
    (exists N, forall fuel, (N <= fuel)%nat ->
       perform_all fuel (ops_of (completed s)) q0 n0 = Ok (answers_of (completed s)) q1 n1) /\
    SubmissionQueue.m_diff_builder q1 = SubmissionQueue.m_diff_builder q0 /\
    match m_objects_lock s with
    | None => q1 = queue s /\ n1 = readings s
    | Some (_, op, p) => about op q1 n1 p (queue s) (readings s) /\
        SubmissionQueue.m_diff_builder (queue s) = SubmissionQueue.m_diff_builder q0
    end /\
    map_Forall (fun _ '(op, section) =>
      section = section_value (SubmissionQueue.m_diff_builder q0) op) (waiting s).

Lemma perform_all_snoc fuel ops op : forall q n answers q1 n1 a q2 n2,
  perform_all fuel ops q n = Ok answers q1 n1 -> perform fuel op q1 n1 = Ok a q2 n2 ->
  perform_all fuel (ops ++ [op]) q n = Ok (answers ++ [a]) q2 n2.
Proof.
  induction ops as [|op0 ops IH]; intros q n answers q1 n1 a q2 n2; cbn [perform_all app].
  - intros [= <- <- <-] Hp. by rewrite (bind_Ok _ _ _ _ _ _ _ Hp).
  - intros (a0 & q3 & n3 & H0 & (answers' & q4 & n4 & Hr & [= <- <- <-])%bind_Ok_inv)%bind_Ok_inv Hp.
    rewrite (bind_Ok _ _ _ _ _ _ _ H0). by rewrite (bind_Ok _ _ _ _ _ _ _ (IH _ _ _ _ _ _ _ _ Hr Hp)).
Qed.

Lemma arrive_sequential q0 n0 s thread op s' : bound (SubmissionQueue.m_diff_builder q0) ->
  sequential q0 n0 s -> exec (Arrive thread op) s = Some s' -> sequential q0 n0 s'.
Proof.
  intros Hb (q1 & n1 & HN & Hb1 & Hl & Hw). cbn [exec].
  destruct (bool_decide (waiting s !! thread = None) && negb (holds_lock thread s)); [|done].
  assert (Hq : SubmissionQueue.m_diff_builder (queue s) = SubmissionQueue.m_diff_builder q0).
  { destruct (m_objects_lock s) as [[[t op'] p]|]; [by destruct Hl|]. destruct Hl as [<- _]. exact Hb1. }
  rewrite section_bound by (by rewrite Hq). intros [= <-]. exists q1, n1.
  split; [done|]. split; [done|]. split; [done|]. cbn. apply map_Forall_insert_2; [by rewrite Hq|done].
Qed.

Lemma acquire_sequential q0 n0 s thread s' : bound (SubmissionQueue.m_diff_builder q0) ->
  sequential q0 n0 s -> exec (Acquire thread) s = Some s' -> sequential q0 n0 s'.
Proof.
  intros Hb (q1 & n1 & HN & Hb1 & Hl & Hw). cbn [exec].
  destruct (m_objects_lock s) as [|] eqn:Hlock; [done|].
  destruct (waiting s !! thread) as [[op section]|] eqn:Ht; [|done]. intros [= <-]. exists q1, n1.
  destruct Hl as [-> ->]. split; [done|]. split; [done|]. cbn. split.
  - split; [|done]. pose proof (Hw _ _ Ht) as Hs. cbn in Hs. rewrite Hs, <- Hb1. intros a q' n' Hc.
    apply completes_perform in Hc; [done|by rewrite Hb1].
  - by apply map_Forall_delete.
Qed.

Lemma ops_of_snoc l thread op a : ops_of (l ++ [(thread, op, a)]) = ops_of l ++ [op].
Proof. unfold ops_of. by rewrite fmap_app. Qed.

Lemma answers_of_snoc l thread op a : answers_of (l ++ [(thread, op, a)]) = answers_of l ++ [a].
Proof. unfold answers_of. by rewrite fmap_app. Qed.

(** The steps of the holder leave the builder. *)
Lemma advance_builder p q n r q' n' : advance p q n = Ok r q' n' ->
  SubmissionQueue.m_diff_builder q' = SubmissionQueue.m_diff_builder q.
Proof.
  intros Ha.
  assert (Hk : keeps (fun q' => SubmissionQueue.m_diff_builder q' = SubmissionQueue.m_diff_builder q)
    (advance p q n)); [|by rewrite Ha in Hk]. clear Ha.
  assert (Hcall : forall A i (m : M AnyObject A),
    keeps (fun q' => SubmissionQueue.m_diff_builder q' = SubmissionQueue.m_diff_builder q)
      (SubmissionQueue.call_object i m q n)).
  { intros A i m. unfold SubmissionQueue.call_object. destruct (_ !! i) as [[token o]|]; [|done].
    by apply (keeps_zoom (fun _ => True)); [destruct (m o n)|]. }
  destruct p as [[token ticket result|token object|token config values|token raw]|i ticket result place];
    cbn [advance].
  - rewrite gets_bind. unfold Datatypes.id.
    destruct (SubmissionQueue.select_enforcement_object token q) as [i|].
    + assert (Hobj : keeps (fun q' => SubmissionQueue.m_diff_builder q' = SubmissionQueue.m_diff_builder q)
        ((r ← SubmissionQueue.call_object i (obj_enforce (EnforcementObject := Any_object 0) ticket result);
          mret (inr (Enforced r) : position + answer)) q n)) by (apply keeps_bind; [apply Hcall|done]).
      by destruct (SubmissionQueue.m_enf_objects q !! i) as [[? [o|o]]|].
    + apply keeps_bind; [|done].
      by apply (keeps_zoom (fun _ => True)); [destruct (obj_enforce _ _ _ _)|].
  - apply keeps_bind; [|done]. unfold SubmissionQueue.create_enforcement_object.
    rewrite gets_bind. by case_match.
  - apply keeps_bind; [|done]. unfold SubmissionQueue.configure_enforcement_object.
    rewrite gets_bind. case_match; [apply Hcall|done].
  - apply keeps_bind; [|by intros []]. unfold SubmissionQueue.collect_enforcement_object_statistics.
    rewrite gets_bind. case_match; [apply Hcall|].
    by apply (keeps_zoom (fun _ => True)); [destruct (obj_collect_statistics _ _)|].
  - apply keeps_bind; [apply Hcall|]. intros [place'|] q1 n1 Hq1; [done|].
    apply keeps_bind; [|done]. unfold fill_result, Result.set_content. cbn. unfold memcpy.
    repeat case_match; done.
Qed.

Lemma work_sequential q0 n0 s s' : bound (SubmissionQueue.m_diff_builder q0) ->
  sequential q0 n0 s -> exec Work s = Some s' -> sequential q0 n0 s'.
Proof.
  intros Hb (q1 & n1 & [N HN] & Hb1 & Hl & Hw). cbn [exec].
  destruct (m_objects_lock s) as [[[thread op] p]|]; [|done]. destruct Hl as [Hab Hq].
  destruct (advance p (queue s) (readings s)) as [[p'|a] q n| |] eqn:Ha; try done; intros [= <-];
    pose proof (advance_builder _ _ _ _ _ _ Ha) as Hbq.
  - exists q1, n1. split; [by exists N|]. split; [done|]. cbn. split; [|done]. split; [|congruence].
    intros a q' n' Hc. apply Hab. by eapply completes_step.
  - destruct (Hab a q n) as [N' HN']; [by apply completes_last|]. exists q, n. split.
    + exists (N `max` N')%nat. intros fuel Hf. cbn. rewrite ops_of_snoc, answers_of_snoc.
      eapply perform_all_snoc; [apply HN; lia|apply HN'; lia].
    + split; [congruence|]. done.
Qed.

Lemma exec_all_sequential q0 n0 events : bound (SubmissionQueue.m_diff_builder q0) ->
  forall s s', sequential q0 n0 s -> exec_all events s = Some s' -> sequential q0 n0 s'.
Proof.
  intros Hb. induction events as [|e events IH]; intros s s' Hs; cbn [exec_all]; [by intros [= <-]|].
  destruct (exec e s) as [s1|] eqn:He; [|done]. apply IH.
  destruct e as [thread op|thread|]; [by eapply arrive_sequential|by eapply acquire_sequential|].
  by eapply work_sequential.
Qed.

(** C5.  Whatever the interleaving of the threads and however long they loop
    in the buckets, the calls on a submission queue are atomic: those that are over
    gave the answers of a run that makes them one after the other, in the order in which
    they released the lock, and left the queue and the clock where that
    run ends; the call that holds the lock has not begun for that run. *)
Theorem calls_are_atomic q n events s : bound (SubmissionQueue.m_diff_builder q) ->
  exec_all events (initial q n) = Some s ->
  exists q' n', (exists N, forall fuel, (N <= fuel)%nat ->
      perform_all fuel (ops_of (completed s)) q n = Ok (answers_of (completed s)) q' n') /\
    (m_objects_lock s = None -> q' = queue s /\ n' = readings s).
Proof.
  intros Hb He.
  assert (Hs : sequential q n (initial q n)).
  { exists q, n. split; [by exists O|]. split; [done|]. split; [done|]. apply map_Forall_empty. }
  destruct (exec_all_sequential _ _ _ Hb _ _ Hs He) as (q' & n' & HN & _ & Hl & _).
  exists q', n'. split; [done|]. intros Hlock. by rewrite Hlock in Hl.
Qed.

(** *** A limiter that cannot serve *)

(** A request that turns in the rounds of a bucket without capacity. *)
Definition turning (p : ConsumeSteps.place) (b : TokenBucket.t) : Prop :=
  TokenBucket.well_formed b /\ dval (TokenBucket.m_capacity b) = 0 /\
  match p with
  | ConsumeSteps.Consuming it (Some l) | ConsumeSteps.Rounds l it =>
      dwf l /\ 0 < dval l /\ dwf it /\ dval it = 0
  | ConsumeSteps.Consuming _ None => False
  end.

Lemma turning_step p b n : turning p b -> exists p' b',
  ConsumeSteps.step p b n = Ok (Some p') b' n /\ turning p' b'.
Proof.
  intros ((Hcap & Htok & Hle) & Hc0 & Hp). destruct p as [it [l|]|l it]; [|done|].
  - destruct Hp as (Hl & Hl0 & Hi & Hi0).
    destruct (dsub_zero l it Hl Hi Hi0) as [Hd1 Hd2], (dsub_zero _ it Htok Hi Hi0) as [Hd3 Hd4].
    do 2 eexists. split.
    + cbn [ConsumeSteps.step]. unfold ConsumeSteps.wait_iteration, gets, modify, mret, M_ret, mbind, M_bind.
      rewrite dgt_val, (proj2 (Z.ltb_ge _ _)) by (done || rewrite Hi0; apply dval_nonneg).
      cbn [TokenBucket.m_capacity TokenBucket.set_tokens_field].
      rewrite dlt_val, (proj2 (Z.ltb_ge _ _)) by (done || lia). reflexivity.
    + split; [|split; [done|split_and!; done || lia]].
      split_and!; cbn [TokenBucket.m_capacity TokenBucket.m_tokens TokenBucket.set_tokens_field]; done || lia.
  - destruct Hp as (Hl & Hl0 & Hi & Hi0). exists (ConsumeSteps.Consuming it (Some l)), b. split; [|done].
    cbn [ConsumeSteps.step]. rewrite dgt_val by (done || apply dwf_d0).
    destruct d0_val as [_ ->]. by rewrite (proj2 (Z.ltb_lt 0 _)).
Qed.

Lemma view_limiter token o q : view q !! token = Some (DRLPtr o) -> exists i,
  SubmissionQueue.select_enforcement_object token q = Some i /\ limiter_at i token o q.
Proof.
  unfold view, SubmissionQueue.select_enforcement_object. intros Hv.
  destruct (SubmissionQueue.select_in token (SubmissionQueue.m_enf_objects q)) as [i|] eqn:Hs.
  - destruct (select_in_Some _ _ _ Hs) as (o' & Hi & Hv'). rewrite Hv in Hv'. injection Hv' as <-. eauto.
  - apply select_in_None in Hs as [_ Hs]. by rewrite Hs in Hv.
Qed.

(** The thread that holds the lock is in a request, or about to begin one, that a
    limiter without capacity does not serve. *)
Definition closed_by (thread : nat) (op : operation) (s : system) : Prop :=
  exists i token o ticket result,
    limiter_at i token o (queue s) /\
    ((exists p, m_objects_lock s = Some (thread, op, InBucket i ticket result p) /\
       turning p (DynamicRateLimiter.m_bucket o)) \/
     (m_objects_lock s = Some (thread, op, Entered (EnforceSection token ticket result)) /\
      SubmissionQueue.select_enforcement_object token (queue s) = Some i /\
      turning (ConsumeSteps.start (DynamicRateLimiter.basic_io_cost ticket o)
        (DynamicRateLimiter.m_bucket o)) (DynamicRateLimiter.m_bucket o))).

Lemma closed_work thread op s : closed_by thread op s -> exists s',
  exec Work s = Some s' /\ closed_by thread op s' /\ completed s' = completed s /\ waiting s' = waiting s.
Proof.
  intros (i & token & o & ticket & result & Hi & [(p & Hl & Ht)|(Hl & Hsel & Ht)]); cbn [exec]; rewrite Hl;
    cbn [advance].
  - destruct (turning_step p _ (readings s) Ht) as (p' & b' & Hs & Ht').
    rewrite (bind_Ok _ _ _ _ _ _ _ (on_bucket_Ok _ _ _ _ _ _ _ _ _ Hi Hs)).
    eexists. split; [reflexivity|]. split; [|done].
    exists i, token, (DynamicRateLimiter.set_bucket b' o), ticket, result. cbn.
    split; [by eapply put_limiter|]. left. eauto.
  - rewrite gets_bind. unfold Datatypes.id. rewrite Hsel.
    assert (Hi' := Hi). unfold limiter_at in Hi'. rewrite Hi'.
    eexists. split; [reflexivity|]. split; [|done]. exists i, token, o, ticket, result. cbn.
    split; [done|]. left. eauto.
Qed.

Lemma section_state op q n section q' n' : section_of op q n = Ok section q' n' -> q' = q /\ n' = n.
Proof.
  destruct op; cbn [section_of]; try by intros [= <- <- <-].
  intros (token & q1 & n1 & Ht & [= <- <- <-])%bind_Ok_inv. by eapply build_object_token_state.
Qed.

(** What the other threads do while the lock is held. *)
Lemma exec_locked e s s' thread op p : m_objects_lock s = Some (thread, op, p) -> exec e s = Some s' ->
  e = Work \/
  ((forall events, works (e :: events) = works events) /\ queue s' = queue s /\ readings s' = readings s /\ m_objects_lock s' = m_objects_lock s /\
   completed s' = completed s /\ waiting s ⊆ waiting s').
Proof.
  intros Hl. destruct e as [other op'|other|]; cbn [exec]; [|by rewrite Hl|by left].
  intros He. right. revert He. destruct (bool_decide (waiting s !! other = None)) eqn:Hw; [|done]. apply bool_decide_eq_true in Hw.
  cbn [andb]. destruct (negb (holds_lock other s)); [|done].
  destruct (section_of op' (queue s) (readings s)) as [section q n| |] eqn:Hs; [|done..].
  apply section_state in Hs as [-> ->].
  intros [= <-]. cbn. repeat (split; [done|]). by apply insert_subseteq.
Qed.

(** C18.  A limiter without capacity closes its channel.  Once a thread has taken the
    lock of the queue with a request that such a limiter is to serve, no call on that
    queue is ever answered again, whatever threads come and for as long as they
    run: neither other requests, of other objects too, nor the configuration that
    would give the limiter a rate.  The thread never waits for another: it can always do
    a step, and keeps the lock. *)
Theorem no_capacity_closes_queue s thread op object_token ticket result o events s' :
  m_objects_lock s = Some (thread, op, Entered (EnforceSection object_token ticket result)) ->
  view (queue s) !! object_token = Some (DRLPtr o) ->
  TokenBucket.well_formed (DynamicRateLimiter.m_bucket o) ->
  dval (TokenBucket.m_capacity (DynamicRateLimiter.m_bucket o)) = 0 ->
  dwf (DynamicRateLimiter.basic_io_cost ticket o) ->
  0 < dval (DynamicRateLimiter.basic_io_cost ticket o) ->
  exec_all events s = Some s' ->
  completed s' = completed s /\ waiting s ⊆ waiting s' /\
  (exists p, m_objects_lock s' = Some (thread, op, p)) /\ is_Some (exec Work s').
Proof.
  intros Hl Hv Hwf Hc0 Hcost Hpos.
  assert (Hclosed : closed_by thread op s).
  { destruct (view_limiter _ _ _ Hv) as (i & Hsel & Hi).
    exists i, object_token, o, ticket, result. split; [done|]. right. split; [done|]. split; [done|].
    unfold ConsumeSteps.start. rewrite dgt_val by (done || apply Hwf).
    rewrite (proj2 (Z.ltb_lt _ _)) by lia. split; [done|]. split; [done|]. by destruct Hwf. }
  clear Hl Hv Hwf Hc0 Hcost Hpos. revert s Hclosed.
  induction events as [|e events IH]; intros s Hclosed; cbn [exec_all].
  - intros [= <-]. split; [done|]. split; [done|]. destruct (closed_work _ _ _ Hclosed) as (s1 & Hw & _).
    split; [|by exists s1]. destruct Hclosed as (i & tok & o' & t & r & _ & [(p & Hl & _)|(Hl & _)]); eauto.
  - destruct (exec e s) as [s1|] eqn:He; [|done]. cbn. intros Hrun.
    assert (H1 : closed_by thread op s1 /\ completed s1 = completed s /\ waiting s ⊆ waiting s1).
    { assert (Hlock : exists p, m_objects_lock s = Some (thread, op, p)).
      { destruct Hclosed as (i & tok & o' & t & r & _ & [(p & Hl & _)|(Hl & _)]); eauto. }
      destruct Hlock as [p Hl]. destruct (exec_locked _ _ _ _ _ _ Hl He) as [->|(_ & Hq & _ & Hlk & Hc & Hw)].
      - destruct (closed_work _ _ _ Hclosed) as (s2 & He2 & Hc2 & Hd & Hw). rewrite He in He2.
        injection He2 as <-. by rewrite Hw.
      - split; [|done]. unfold closed_by in *. by rewrite Hq, Hlk. }
    destruct H1 as (Hc1 & Hd1 & Hw1). destruct (IH s1 Hc1 Hrun) as (Hd & Hw & Hrest).
    split; [congruence|]. split; [by etransitivity|done].
Qed.

(** *** A limiter that serves *)

Lemma completed_grows events : forall s s', exec_all events s = Some s' ->
  exists l, completed s' = completed s ++ l.
Proof.
  induction events as [|e events IH]; intros s s'; cbn [exec_all].
  - intros [= <-]. exists []. by rewrite app_nil_r.
  - destruct (exec e s) as [s1|] eqn:He; [|done]. intros (l & ->)%IH.
    assert (H1 : exists l1, completed s1 = completed s ++ l1).
    { destruct (m_objects_lock s) as [[[thread op] p]|] eqn:Hl.
      - destruct (exec_locked _ _ _ _ _ _ Hl He) as [->|(_ & _ & _ & _ & Hc & _)];
          [|exists []; by rewrite app_nil_r].
        cbn [exec] in He. rewrite Hl in He. revert He.
        destruct (advance p (queue s) (readings s)) as [[p'|a] q n| |]; intros [= <-];
          [exists []; by rewrite app_nil_r|by eexists].
      - destruct e as [other op'|other|]; cbn [exec] in He; [|by rewrite Hl in He; repeat case_match; simplify_eq; exists []; rewrite app_nil_r|by rewrite Hl in He].
        repeat case_match; simplify_eq; exists []; by rewrite app_nil_r. }
    destruct H1 as (l1 & ->). exists (l1 ++ l). by rewrite (assoc_L (++)).
Qed.

(** The next step of the holder. *)
Lemma next_work thread op p events : forall s s', m_objects_lock s = Some (thread, op, p) ->
  exec_all events s = Some s' -> (0 < works events)%nat ->
  exists s1 s2 events', exec Work s1 = Some s2 /\ exec_all events' s2 = Some s' /\
    works events = S (works events') /\ queue s1 = queue s /\ readings s1 = readings s /\
    m_objects_lock s1 = m_objects_lock s /\ completed s1 = completed s.
Proof.
  induction events as [|e events IH]; intros s s' Hl Hrun Hk; [cbn in Hk; lia|].
  cbn [exec_all] in Hrun. destruct (exec e s) as [s1|] eqn:He; [|done]. cbn [mbind option_bind] in Hrun.
  destruct (exec_locked _ _ _ _ _ _ Hl He) as [->|(Hworks & Hq1 & Hn1 & Hl1 & Hc1 & _)].
  - by exists s, s1, events.
  - rewrite Hworks in *. destruct (IH s1 s') as (s2 & s3 & events' & Hw & Hr & Hk' & ? & ? & ? & ?);
      [congruence|done..|]. exists s2, s3, events'. split_and!; congruence.
Qed.

(** A call that completes is answered after so many steps of its thread, whatever the
    other threads do meanwhile. *)
Lemma completes_released p q n a q' n' : completes p q n a q' n' -> exists k,
  forall thread op events s s', queue s = q -> readings s = n ->
  m_objects_lock s = Some (thread, op, p) -> exec_all events s = Some s' -> (k <= works events)%nat ->
  exists l, completed s' = completed s ++ (thread, op, a) :: l.
Proof.
  induction 1 as [p q n a q' n' Ha|p q n p1 q1 n1 a q' n' Ha _ [k IH]]; [exists 1%nat|exists (S k)];
    intros thread op events s s' <- <- Hl Hrun Hk;
    (destruct (next_work _ _ _ _ _ _ Hl Hrun) as (s1 & s2 & events' & Hw & Hr & Hk' & Hq & Hn & Hl1 & <-);
      [lia|]); cbn [exec] in Hw; rewrite Hl1, Hl, Hq, Hn, Ha in Hw; injection Hw as <-.
  - destruct (completed_grows _ _ _ Hr) as (l & ->). exists l. cbn. by rewrite <- (assoc_L (++)).
  - apply (IH thread op events' (mk q1 n1 (Some (thread, op, p1)) (waiting s1) (completed s1)) s');
      [done..|lia].
Qed.

(** C17.  A limiter that can serve gives the lock back.  When the clock gets past every
    instant, the bucket has at least a token of capacity and does not collect statistics,
    and the ticket costs less than 2^53 tokens, a thread that has taken the
    lock of the queue with a request answers it after finitely many of its own steps,
    whatever threads arrive meanwhile, and the answer is the one of the
    enforcement object. *)
Theorem requests_release_lock s thread op object_token ticket result o :
  clock_progress ->
  m_objects_lock s = Some (thread, op, Entered (EnforceSection object_token ticket result)) ->
  view (queue s) !! object_token = Some (DRLPtr o) ->
  waits (DynamicRateLimiter.m_bucket o) ->
  one64 <= dval (TokenBucket.m_capacity (DynamicRateLimiter.m_bucket o)) ->
  dwf (DynamicRateLimiter.basic_io_cost ticket o) ->
  dval (DynamicRateLimiter.basic_io_cost ticket o) < 2 ^ 53 * one64 ->
  (0 < Ticket.m_buffer_size ticket -> exists bytes, Ticket.m_buffer ticket = Some bytes /\
     Ticket.m_buffer_size ticket <= Z.of_nat (length bytes)) ->
  exists k, forall events s', exec_all events s = Some s' ->
  (k <= works events)%nat ->
  exists l, completed s' = completed s ++ (thread, op, Enforced (enforced ticket result)) :: l.
Proof.
  intros Hprog Hl Hv Hw Hcap Hcost Hlt Hbuffer. destruct (view_limiter _ _ _ Hv) as (i & Hsel & Hi).
  destruct (try_consume_ends Hprog _ _ (readings s) Hw Hcap Hcost Hlt) as (N & b & n' & _ & _ & HN).
  assert (Hf : fill_result ticket result (queue s) (readings s) =
    Ok (enforced ticket result) (queue s) (readings s)).
  { destruct (fill_result ticket result (queue s) (readings s)) as [r q n| |] eqn:Hr.
    - by destruct (fill_result_Ok _ _ _ _ _ _ _ Hr) as (-> & -> & ->).
    - exfalso. revert Hr. unfold fill_result, Result.set_content, memcpy. cbn. repeat case_match; done.
    - exfalso. revert Hr. unfold fill_result, Result.set_content. cbn.
      destruct (Z.ltb_spec 0 (Ticket.m_buffer_size ticket)) as [H0|]; [|done].
      destruct (Hbuffer H0) as (bytes & -> & Hle). cbn. by rewrite (proj2 (Z.ltb_ge _ _)). }
  destruct (completes_released _ _ _ _ _ _ (request_steps _ _ _ _ _ _ _ _ _ _ _ Hsel Hi
    (proj2 (try_consume_steps _ _ _ _ _) (ex_intro _ N HN)) Hf)) as [k Hk].
  exists k. intros events s' He Hle. by eapply Hk.
Qed.

End Lock.

(** ** Witnesses *)

Import SharedQueue.

Definition sample_object_token : Z :=
  object_token (SubmissionQueue.m_diff_builder SubmissionQueue.make) (u32 0) (u32 0).

(** A queue with one limiter, for operations of type 0 in context 0. *)
Definition limited_queue (o : DynamicRateLimiter.t) : SubmissionQueue.t :=
  SubmissionQueue.set_objects
    [(sample_object_token, DRLPtr o)]
    SubmissionQueue.make.

Lemma limited_bound o : bound (SubmissionQueue.m_diff_builder (limited_queue o)).
Proof. split; reflexivity. Qed.

Definition sample_request : operation := EnforceMechanism (Ticket.make 1 1 15 0 0) Result.default.

Definition sample_configuration_call : operation :=
  ConfigureEnforcementObject sample_object_token (DRLConfiguration_code DRL_rate) [100].

(** Two threads arrive; the second one gets the lock after the steps of the first. *)
Definition sample_events : list event :=
  [Arrive 1 sample_request; Arrive 2 sample_configuration_call; Acquire 1]
  ++ replicate 17 Work ++ [Acquire 2; Work].

Lemma calls_are_atomic_witness : exists s q' n',
  @exec_all bounded_clock sample_events (initial (limited_queue sample_limiter) O) = Some s /\
  length (completed s) = 2%nat /\
  (exists N, forall fuel, (N <= fuel)%nat ->
     @perform_all bounded_clock fuel (ops_of (completed s)) (limited_queue sample_limiter) O =
       Ok (answers_of (completed s)) q' n') /\
  q' = queue s /\ n' = readings s.
Proof.
  assert (Hrun : match @exec_all bounded_clock sample_events (initial (limited_queue sample_limiter) O) with
    | Some s => (length (completed s) =? 2)%nat && bool_decide (m_objects_lock s = None)
    | None => false
    end = true) by (vm_compute; reflexivity).
  destruct (@exec_all bounded_clock sample_events _) as [s|] eqn:He; [|done].
  apply andb_true_iff in Hrun as [Hlen Hlock].
  destruct (@calls_are_atomic bounded_clock (limited_queue sample_limiter) O sample_events s)
    as (q' & n' & HN & Hend); [apply limited_bound|exact He|].
  exists s, q', n'. split; [done|]. split; [by apply Nat.eqb_eq|]. split; [exact HN|].
  apply Hend. exact (proj1 (bool_decide_eq_true _) Hlock).
Defined.

(** The limiter of a line [create_object drl 0 0] of a rules file. *)
Definition closed_limiter : DynamicRateLimiter.t :=
  let o := DynamicRateLimiter.mk 1 false sample_bucket 1 d0 0 DynamicRateLimiter.drl_option_convergence_factor in
  match DynamicRateLimiter.obj_configure (DRLConfiguration_code DRL_init) [0; 0] o O with
  | Ok _ o _ => o
  | _ => o
  end.

(** A request has taken the lock, and the rule that would set the rate waits. *)
Definition closed_system : system :=
  mk (limited_queue closed_limiter) O
    (Some (1%nat, sample_request,
       Entered (EnforceSection sample_object_token (Ticket.make 1 1 15 0 0) Result.default)))
    {[2%nat := (sample_configuration_call,
        ConfigureSection sample_object_token (DRLConfiguration_code DRL_rate) [100])]} [].

Lemma arrive_bound `{SystemClock} thread op s : bound (SubmissionQueue.m_diff_builder (queue s)) ->
  waiting s !! thread = None -> holds_lock thread s = false ->
  exec (Arrive thread op) s =
  Some (mk (queue s) (readings s) (m_objects_lock s)
    (<[thread := (op, section_value (SubmissionQueue.m_diff_builder (queue s)) op)]> (waiting s))
    (completed s)).
Proof.
  intros Hb Hw Hl. cbn [exec]. rewrite bool_decide_eq_true_2, Hl by done. cbn [andb negb].
  by rewrite section_bound.
Qed.

(** Two threads that meet at the lock. *)
Lemma threads_meet `{SystemClock} q n op1 op2 : bound (SubmissionQueue.m_diff_builder q) ->
  exec_all [Arrive 1 op1; Arrive 2 op2; Acquire 1] (initial q n) =
  Some (mk q n (Some (1%nat, op1, Entered (section_value (SubmissionQueue.m_diff_builder q) op1)))
    {[2%nat := (op2, section_value (SubmissionQueue.m_diff_builder q) op2)]} []).
Proof.
  intros Hb. cbn [exec_all]. rewrite (arrive_bound 1 op1 (initial q n)) by done.
  cbn [mbind option_bind]. rewrite (arrive_bound 2 op2) by done. cbn [queue initial].
  generalize (section_value (SubmissionQueue.m_diff_builder q) op1),
    (section_value (SubmissionQueue.m_diff_builder q) op2). intros v1 v2. reflexivity.
Qed.

Lemma no_capacity_closes_queue_witness :
  @exec_all ticking_clock [Arrive 1 sample_request; Arrive 2 sample_configuration_call; Acquire 1]
    (initial (limited_queue closed_limiter) O) = Some closed_system /\
  forall events s', @exec_all ticking_clock events closed_system = Some s' ->
  completed s' = [] /\ waiting closed_system ⊆ waiting s' /\
  (exists p, m_objects_lock s' = Some (1%nat, sample_request, p)) /\ is_Some (@exec ticking_clock Work s').
Proof.
  split; [exact (@threads_meet ticking_clock _ _ _ _ (limited_bound closed_limiter))|]. intros events s' He.
  apply (@no_capacity_closes_queue ticking_clock closed_system 1%nat sample_request
    sample_object_token (Ticket.make 1 1 15 0 0) Result.default closed_limiter events s').
  - reflexivity.
  - exact (lookup_insert_eq ∅ sample_object_token (DRLPtr closed_limiter)).
  - split_and!; [vm_compute; intuition congruence..|vm_compute; intuition discriminate].
  - vm_compute. reflexivity.
  - vm_compute. intuition congruence.
  - vm_compute. reflexivity.
  - exact He.
Defined.

Definition serving_system : system :=
  mk (limited_queue sample_limiter) O
    (Some (1%nat, sample_request,
       Entered (EnforceSection sample_object_token (Ticket.make 1 1 15 0 0) Result.default))) ∅ [].

Lemma requests_release_lock_witness : exists k,
  forall events s', @exec_all ticking_clock events serving_system = Some s' -> (k <= works events)%nat ->
  exists l, completed s' =
    (1%nat, sample_request, Enforced (enforced (Ticket.make 1 1 15 0 0) Result.default)) :: l.
Proof.
  apply (@requests_release_lock ticking_clock serving_system 1%nat sample_request sample_object_token
    (Ticket.make 1 1 15 0 0) Result.default sample_limiter).
  - intros instant. exists (Z.to_nat instant). intros m Hm. unfold clock_at, ticking_clock. lia.
  - reflexivity.
  - exact (lookup_insert_eq ∅ sample_object_token (DRLPtr sample_limiter)).
  - split_and!; [vm_compute; intuition congruence..| |]; vm_compute; intuition congruence.
  - vm_compute. intuition congruence.
  - vm_compute. intuition congruence.
  - vm_compute. reflexivity.
  - vm_compute. intuition discriminate.
Defined.
