(* ===== verification/Microbenchmark.v ===== *)
(** * The microbenchmark

    [benchmarking/paio_microbenchmarking.cpp]: a stage with as many channels as worker
    threads, whose workers submit operations in a closed loop through one [PosixLayer],
    and the statistics of the runs.  A run is a system of workers whose events
    interleave.  The reports, the flags and the files are left out.  The theorems say what
    the options and the files of the repository make of a run: it ends with one
    worker and with two, all their operations in one channel, and with three or more
    no worker ever gets through its first operation. *)

From S2P Require Import Prelude MachineInt Binary64 Options Differentiation.
From S2P Require Import Rules TokenBucketStats TokenBucket EnforcementObjects.
From S2P Require Import ChannelStatistics Channel Core RulesParser StageInfo Agent.
From S2P Require Import Networking Southbound Connection Stage Instances Limits Progress.

(** Of the mathematical library, and of [std::chrono]: a difference of readings in
    seconds. *)
Class Numerics := {
  pow : double -> double -> double;
  sqrt : double -> double;
  seconds : Z -> double;
}.

Module Microbenchmark.

Record ThreadResults := mkThreadResults {
  m_iops : double;
  m_throughput : double;
}.

Record MergedResults := mkMergedResults {
  m_run_id : Z;                    (* uint32_t *)
  m_iops_of_threads : list double;            (* m_iops *)
  m_throughput_of_threads : list double;      (* m_throughput *)
  m_cumulative_iops : double;
  m_cumulative_throughput : double;
}.

Record SetupResults := mkSetupResults {
  m_avg_cumulative_iops : double;
  m_stdev_cumulative_iops : double;
  m_avg_cumulative_throughput : double;
  m_stdev_cumulative_throughput : double;
}.

(** ** Results *)

Definition record_stress_test_results (results : MergedResults) (threaded_results : ThreadResults) :
    MergedResults :=
  mkMergedResults (m_run_id results)
    (m_iops_of_threads results ++ [m_iops threaded_results])
    (m_throughput_of_threads results ++ [m_throughput threaded_results])
    (dadd (m_cumulative_iops results) (m_iops threaded_results))
    (dadd (m_cumulative_throughput results) (m_throughput threaded_results)).

Section Numbers.
Context `{Numerics}.

Definition compute_stdev (sample : list double) : double :=
  let sample_size := to_double (s32 (Z.of_nat (length sample))) in
  let sum := fold_left dadd sample d0 in
  let mean := ddiv sum sample_size in
  let stdev := fold_left (fun stdev x => dadd stdev (pow (dsub x mean) (to_double 2))) sample d0 in
  sqrt (ddiv stdev sample_size).

Definition merge_final_results (results : list MergedResults) : SetupResults :=
  let total_runs := to_double (s32 (Z.of_nat (length results))) in
  let iops_sample_stdev := m_cumulative_iops <$> results in
  let throughput_sample_stdev := m_cumulative_throughput <$> results in
  let cumulative_iops := fold_left dadd iops_sample_stdev d0 in
  let cumulative_throughput := fold_left dadd throughput_sample_stdev d0 in
  mkSetupResults (ddiv cumulative_iops total_runs) (compute_stdev iops_sample_stdev)
    (ddiv cumulative_throughput total_runs) (compute_stdev throughput_sample_stdev).

Definition perf_result (total_ops operation_size : Z) (elapsed_seconds : double) : ThreadResults :=
  let k := to_double 1024 in
  mkThreadResults
    (ddiv (ddiv (to_double total_ops) elapsed_seconds) (to_double 1000))
    (ddiv (dmul (to_double total_ops) (ddiv (ddiv (ddiv (to_double operation_size) k) k) k))
       elapsed_seconds).

End Numbers.

(** ** A worker *)

Section Worker.
Context `{SystemClock} `{OtherThreads} `{Numerics}.
(** Fuel of the loops of the token buckets, and of the loop of [enforce]. *)
Context (fuel attempts : nat).

Definition context_of_flow (workflow_id operation_size : Z) : Context :=
  mkContext (u32 (workflow_id * 1000)) (PAIO_GENERAL_.code PAIO_GENERAL_.no_op)
    (PAIO_GENERAL_.code PAIO_GENERAL_.no_op) (u64 operation_size) 1.

(** The buffer, after [memset]. *)
Definition message_of (operation_size : Z) : option (list Z) :=
  if operation_size =? 0 then None else Some (replicate (Z.to_nat operation_size) 0).

(** The body of the loop, with its assertion. *)
Definition submit (workflow_id operation_size : Z) : M PosixLayer.t unit :=
  result ← PosixLayer.posix_base_context fuel attempts (message_of operation_size)
             (u64 operation_size) (context_of_flow workflow_id operation_size);
  if result =? -1 then crash_with (AssertionFailed "result != -1") else mret tt.

Fixpoint submit_all (workflow_id operation_size : Z) (total_ops : nat) : M PosixLayer.t unit :=
  match total_ops with
  | O => mret tt
  | S total_ops =>
      _ ← submit workflow_id operation_size;
      submit_all workflow_id operation_size total_ops
  end.

Definition stress_test (workflow_id operation_size total_ops : Z) : M PosixLayer.t ThreadResults :=
  if operation_size <? 0 then throw (RuntimeError "std::bad_array_new_length")
  else
    start ← now;
    _ ← submit_all workflow_id operation_size (Z.to_nat total_ops);
    end_ ← now;
    mret (perf_result total_ops operation_size (seconds (end_ - start))).

(** ** A run *)

Definition build_stage `{FileSystem} `{Sockets} `{Process} (debug : bool) (channels : Z)
    (create_default_enf_objects : bool) (stage_name : string) : M unit PaioStage.t :=
  match option_default_communication_type with
  | Options.none => make_stage fuel debug (Stage (s32 channels) create_default_enf_objects stage_name)
  | _ =>
      make_stage fuel debug (ConnectedStage (s32 channels) create_default_enf_objects stage_name
        Options.none ConnectionOptions.option_default_socket_name ConnectionOptions.option_default_port)
  end.

(** A worker has been spawned, is in its loop, or has its results. *)
Inductive worker :=
| Spawned
| Submitting (operations_left : nat) (start : Z)
| Measured (thread_results : ThreadResults).

Record run := mkRun {
  posix_instance : PosixLayer.t;
  readings : nat;
  workers : gmap Z worker;           (* by their flow, without those that ended *)
  results : MergedResults;
}.

(** The flows are 1, 2, ..., [channels]. *)
Definition flows (channels : Z) : list Z := Z.of_nat <$> seq 1 (Z.to_nat channels).

Definition readings_so_far {S} : M S nat := fun s n => Ok n s n.

Definition start_run `{FileSystem} `{Sockets} `{Process} (debug : bool) (run_id channels : Z)
    (create_default_enf_objects : bool) (stage_name : string) (op_size : Z) : M unit run :=
  stage ← build_stage debug channels create_default_enf_objects stage_name;
  let instance := PosixLayer.make stage in
  let instance := if 0 <? op_size then PosixLayer.set_io_transformation true instance else instance in
  n ← readings_so_far;
  mret (mkRun instance n (list_to_map ((fun flow => (flow, Spawned)) <$> flows channels))
          (mkMergedResults (u32 (run_id + 1)) [] [] d0 d0)).

(** A worker takes the time and enters its loop, submits an operation, leaves its loop and
    takes the time, records its results under the lock and ends. *)
Inductive event := Begin (flow : Z) | Submit (flow : Z) | Finish (flow : Z) | Report (flow : Z).

Definition exec (op_size total_ops : Z) (e : event) (r : run) : option run :=
  match e with
  | Begin flow =>
      match workers r !! flow with
      | Some Spawned =>
          if op_size <? 0 then None
          else Some (mkRun (posix_instance r) (S (readings r))
            (<[flow := Submitting (Z.to_nat total_ops) (clock_at (readings r))]> (workers r)) (results r))
      | _ => None
      end
  | Submit flow =>
      match workers r !! flow with
      | Some (Submitting (S operations_left) start) =>
          match submit flow op_size (posix_instance r) (readings r) with
          | Ok _ instance n =>
              Some (mkRun instance n (<[flow := Submitting operations_left start]> (workers r)) (results r))
          | _ => None
          end
      | _ => None
      end
  | Finish flow =>
      match workers r !! flow with
      | Some (Submitting O start) =>
          Some (mkRun (posix_instance r) (S (readings r))
            (<[flow := Measured (perf_result total_ops op_size
                (seconds (clock_at (readings r) - start)))]> (workers r)) (results r))
      | _ => None
      end
  | Report flow =>
      match workers r !! flow with
      | Some (Measured thread_results) =>
          Some (mkRun (posix_instance r) (readings r) (delete flow (workers r))
            (record_stress_test_results (results r) thread_results))
      | _ => None
      end
  end.

Fixpoint exec_all (op_size total_ops : Z) (events : list event) (r : run) : option run :=
  match events with
  | [] => Some r
  | e :: events => exec op_size total_ops e r ≫= exec_all op_size total_ops events
  end.

(** The join of the workers: a run is over when none is left. *)
Inductive execute_run `{FileSystem} `{Sockets} `{Process} (debug : bool) (run_id channels : Z)
    (create_default_enf_objects : bool) (stage_name : string) (total_ops op_size : Z) :
    nat -> MergedResults -> nat -> Prop :=
| execute_run_joined n r0 u n0 events r :
    start_run debug run_id channels create_default_enf_objects stage_name op_size tt n = Ok r0 u n0 ->
    exec_all op_size total_ops events r0 = Some r -> workers r = ∅ ->
    execute_run debug run_id channels create_default_enf_objects stage_name total_ops op_size
      n (results r) (readings r).

(** The loop over the runs of [main]: the runs from [run] on, and what they return. *)
Inductive execute_runs `{FileSystem} `{Sockets} `{Process} (debug : bool) (channels : Z)
    (total_ops op_size : Z) : Z -> nat -> nat -> list MergedResults -> Prop :=
| no_run_left run n : execute_runs debug channels total_ops op_size run O n []
| another_run run runs n r n' run_results :
    execute_run debug run channels true "microbenchmark-stage" total_ops op_size n r n' ->
    execute_runs debug channels total_ops op_size (u32 (run + 1)) runs n' run_results ->
    execute_runs debug channels total_ops op_size run (S runs) n (r :: run_results).

End Worker.

End Microbenchmark.

(** ** One worker, two workers *)

Import Microbenchmark.

Definition default_enforcement_rules_file : string :=
"1 1000 1 drl init 10000 120000
2 2000 1 drl init 10000 120000
3 3000 1 drl init 10000 120000
4 4000 1 drl init 10000 120000
5 1000 1 drl rate 150000
6 2000 1 drl rate 150000
7 3000 1 drl rate 150000
8 4000 1 drl rate 150000".

(** The token that all the flows have. *)
Definition shared_token (c : Core.t) : Z := channel_token (Core.m_channel_diff_builder c) 0 0 0.

Definition channel_facts (c : ChannelDefault.t) : bool * Z * list Z * list Z * Z * Z * bool :=
  let s := ChannelDefault.m_channel_statistics c in
  (ChannelDefault.m_use_fast_path c, ChannelStatistics.m_stats_size s, ChannelStatistics.m_total_counter s,
   ChannelStatistics.m_windowed_counter s, ChannelDefault.m_ticket_id c, ChannelDefault.m_channel_id c,
   match object_at 0 0 c with Some (NoopPtr _) => true | _ => false end).

(** The files of the repository, at the paths of the options. *)
Definition shipped_files : FileSystem := fun path =>
  if bool_decide (path = Agent.option_default_housekeeping_rules_file_path)
  then Some default_housekeeping_rules_file
  else if bool_decide (path = Agent.option_default_enforcement_rules_file_path)
  then Some default_enforcement_rules_file
  else None.

(** An agent reads two files. *)
Lemma load_rules_same `{SystemClock} (files files' : FileSystem) fuel type instances a n :
  files (Agent.m_housekeeping_rule_file a) = files' (Agent.m_housekeeping_rule_file a) ->
  (forall path, path = Agent.m_enforcement_rule_file a -> files path = files' path) ->
  @Agent.load_rules _ files fuel type instances a n = @Agent.load_rules _ files' fuel type instances a n.
Proof.
  intros Hh He. destruct type; try done. unfold Agent.load_rules. rewrite !gets_bind. unfold Datatypes.id.
  assert (@Agent.insert_housekeeping_rules_from_file _ files fuel (Agent.m_housekeeping_rule_file a) instances =
    @Agent.insert_housekeeping_rules_from_file _ files' fuel (Agent.m_housekeeping_rule_file a) instances)
    as -> by (unfold Agent.insert_housekeeping_rules_from_file, contents_of; by rewrite Hh).
  assert (@Agent.insert_enforcement_rules_from_file _ files fuel (Agent.m_enforcement_rule_file a) (-1) =
    @Agent.insert_enforcement_rules_from_file _ files' fuel (Agent.m_enforcement_rule_file a) (-1))
    as -> by (unfold Agent.insert_enforcement_rules_from_file, contents_of; by rewrite (He _ eq_refl)).
  done.
Qed.

Lemma shared_stage `{SystemClock} fuel channels info a u n k : channels = 1 \/ channels = 2 ->
  match PaioStage.build_core fuel channels true u n with
  | Ok core _ _ =>
      match @Agent.make _ shipped_files fuel Options.none core false channels info a k with
      | Ok _ a' _ =>
          Agent.m_ready a' = true /\
          ChannelHashingDifferentiation.m_use_workflow (Core.m_channel_diff_builder (Agent.m_core a')) = false /\
          channel_facts <$> (Core.m_channels (Agent.m_core a') !! shared_token (Agent.m_core a')) =
            Some (true, 5, replicate 5 0, replicate 5 0, 0, 1, true)
      | _ => False
      end
  | _ => False
  end.
Proof. intros [-> | ->]; (vm_compute; repeat split). Qed.

(** *** An operation *)

Section Operations.
Context `{SystemClock} `{OtherThreads} `{Numerics} (fuel attempts : nat).

Lemma base_enforced buf count context l n :
  PaioStage.m_ready (stage_of l) = true ->
  let content := if PosixLayer.m_has_io_transformation l then buf else None in
  let size := if PosixLayer.m_has_io_transformation l then count else 0 in
  PosixLayer.posix_base_context fuel (S attempts) buf count context l n =
  match Core.enforce_request fuel context content size Result.default (PaioStage.m_core (stage_of l)) n with
  | Ok result c n' =>
      Ok (if bool_decide (Result.m_result_status result = success) then
            if 0 <? Result.m_content_size result then s64 (Result.m_content_size result) else s64 count
          else -1) (with_core c l) n'
  | Raise e c n' => Raise e (with_core c l) n'
  | Crash x => Crash x
  end.
Proof.
  intros Hr content size. unfold PosixLayer.posix_base_context, PosixLayer.enforce_request.
  unfold mbind, M_bind, gets, Datatypes.id, content, size.
  destruct (PosixLayer.m_has_io_transformation l);
    unfold PosixLayer.enforce_content, PosixLayer.enforce_context, InstanceInterface.enforce;
    rewrite enforce_instance_ready by done;
    (destruct (Core.enforce_request _ _ _ _ _ _ _) as [result c k| |]; [|done..]);
    by destruct (bool_decide _).
Qed.

Lemma flow_token c flow op_size :
  ChannelHashingDifferentiation.m_use_workflow (Core.m_channel_diff_builder c) = false ->
  channel_token (Core.m_channel_diff_builder c) (u32 (m_workflow_id (context_of_flow flow op_size)))
    (u32 (m_operation_type (context_of_flow flow op_size)))
    (u32 (m_operation_context (context_of_flow flow op_size))) =
  shared_token c.
Proof.
  intros Hw. unfold shared_token, channel_token. rewrite Hw.
  change (u32 (m_operation_type (context_of_flow flow op_size))) with 0.
  by change (u32 (m_operation_context (context_of_flow flow op_size))) with 0.
Qed.

(** A no-op answers a ticket whose content has its size. *)
Lemma noop_answers ticket result o n :
  (0 < Ticket.m_buffer_size ticket -> exists bytes, Ticket.m_buffer ticket = Some bytes /\
     Z.of_nat (length bytes) = Ticket.m_buffer_size ticket) ->
  answers (fun _ => True) ticket result (NoopPtr o) n
    (NoopPtr (NoopObject.mk (NoopObject.m_object_id o) (NoopObject.m_tag_name o)
       (u32 (NoopObject.m_counter o + 1)) (NoopObject.m_shared o))) n.
Proof.
  intros Hb fuel' _. cbn [obj_enforce Any_object Noop_object].
  unfold dispatch, NoopObject.obj_enforce, NoopObject.increment_counter, modify, mbind, M_bind, enforced.
  destruct (Z.ltb_spec 0 (Ticket.m_buffer_size ticket)) as [Hpos|]; [|done].
  destruct (Hb Hpos) as (bytes & Hbuf & Hlen). rewrite Hbuf, <- Hlen.
  unfold Result.set_content, memcpy. cbn. by rewrite Z.ltb_irrefl.
Qed.

(** *** Operations of a size *)

Context (op_size : Z).
Hypothesis size_range : 0 <= op_size < 2 ^ 63.

(** The flows of a layer share one channel, the one with the identifier 1, whose object is a
    no-op; [k] operations have gone through it.  The layer passes the contents on when
    the operations have one. *)
Definition shares (k : Z) (l : PosixLayer.t) : Prop :=
  let core := PaioStage.m_core (stage_of l) in
  PaioStage.m_ready (stage_of l) = true /\ PosixLayer.m_has_io_transformation l = (0 <? op_size) /\
  core_well_formed core /\
  ChannelHashingDifferentiation.m_use_workflow (Core.m_channel_diff_builder core) = false /\
  exists c o, Core.m_channels core !! shared_token core = Some c /\
    ChannelDefault.m_use_fast_path c = true /\ can_count c /\ object_at 0 0 c = Some (NoopPtr o) /\
    ChannelDefault.m_ticket_id c = u64 k /\ ChannelDefault.m_channel_id c = 1.

(** The ticket of an operation, with the buffer of zeros as its content. *)
Lemma operation_ticket flow id : exists ticket,
  ticket_of (context_of_flow flow op_size) (if 0 <? op_size then message_of op_size else None)
    (if 0 <? op_size then u64 op_size else 0) id = Some ticket /\
  Ticket.m_buffer_size ticket = op_size /\
  (0 < op_size -> Ticket.m_buffer ticket = Some (replicate (Z.to_nat op_size) 0)).
Proof.
  destruct (Z.ltb_spec 0 op_size) as [Hpos|Hzero].
  - unfold ticket_of, message_of. rewrite u64_small by (unfold word; lia).
    rewrite (proj2 (Z.eqb_neq _ _)), (proj2 (Z.ltb_lt _ _)) by lia.
    rewrite length_replicate, Z2Nat.id, Z.ltb_irrefl by lia. eexists. split; [done|]. split; [done|].
    intros _. cbn. by rewrite firstn_all2 by (rewrite length_replicate; lia).
  - assert (op_size = 0) as -> by lia. eexists. split; [done|]. split; [done|lia].
Qed.

Lemma submit_shared k flow l n : shares k l -> exists l',
  submit fuel (S attempts) flow op_size l n = Ok tt l' n /\ shares (k + 1) l'.
Proof.
  intros (Hready & Htr & Hwf & Hflag & c & o & Hc & Hfast & Hcount & Ho & Hid & Hch).
  set (context := context_of_flow flow op_size).
  destruct (operation_ticket flow (ChannelDefault.m_ticket_id c)) as (ticket & Hticket & Hsize & Hbuffer).
  destruct (core_returns (fun _ => True) context _ _ (shared_token (PaioStage.m_core (stage_of l))) c
    (PaioStage.m_core (stage_of l)) (NoopPtr o) _ ticket n n Hwf (flow_token _ flow op_size Hflag) Hc Hfast
    Hcount (Z.le_refl 0) (Z.le_refl 0) Hticket Ho
    (noop_answers ticket (Result.of_ticket (ChannelDefault.m_ticket_id c)) o n
      ltac:(rewrite Hsize; intros Hpos; eexists; split; [by apply Hbuffer|]; rewrite length_replicate; lia)))
    as (c' & Hfast' & Hcount' & Ho' & Hid' & Hch' & Hrun).
  destruct (Hrun fuel I) as [Hrun' Hwf']. set (core' := Core.set_channels _ _) in *.
  exists (with_core core' l). split.
  - unfold submit, mbind at 1, M_bind at 1. rewrite base_enforced by done. cbv zeta. fold context.
    rewrite Htr, Hrun'. unfold enforced. rewrite Hsize.
    destruct (Z.ltb_spec 0 op_size) as [Hpos|Hzero]; cbn [Result.m_result_status Result.m_content_size].
    + rewrite bool_decide_eq_true_2 by done. rewrite (proj2 (Z.ltb_lt _ _) Hpos), s64_small
        by (unfold is_long, long_min, long_max; lia). by rewrite (proj2 (Z.eqb_neq _ _)) by lia.
    + by assert (op_size = 0) as -> by lia.
  - assert (Htok : shared_token core' = shared_token (PaioStage.m_core (stage_of l)))
      by (unfold shared_token; f_equal).
    unfold shares. change (PaioStage.m_core (stage_of (with_core core' l))) with core'. rewrite Htok.
    split; [done|]. split; [done|]. split; [exact Hwf'|]. split; [exact Hflag|].
    exists c'. eexists. split; [apply lookup_insert_eq|]. split; [done|]. split; [done|].
    split; [exact Ho'|]. split; [|by rewrite Hch'].
    rewrite Hid', Hid. unfold u64. by rewrite Zplus_mod_idemp_l.
Qed.

End Operations.

(** *** A run *)

Fixpoint submissions (events : list event) : Z :=
  match events with
  | [] => 0
  | Submit _ :: events => 1 + submissions events
  | _ :: events => submissions events
  end.

Section Runs.
Context `{SystemClock} `{FileSystem} `{OtherThreads} `{Sockets} `{Process} `{Numerics}.
Context (fuel attempts : nat).

Hypothesis housekeeping_shipped :
  contents_of Agent.option_default_housekeeping_rules_file_path = Some default_housekeeping_rules_file.
Hypothesis enforcement_shipped :
  contents_of Agent.option_default_enforcement_rules_file_path = Some default_enforcement_rules_file.

Lemma make_shipped core channels info a n :
  Agent.make fuel Options.none core false channels info a n =
  @Agent.make _ shipped_files fuel Options.none core false channels info a n.
Proof.
  unfold Agent.make. rewrite !modify_bind. apply load_rules_same.
  - etransitivity; [exact housekeeping_shipped|]. by vm_compute.
  - intros path ->. etransitivity; [exact enforcement_shipped|]. by vm_compute.
Qed.

Lemma counting_facts c x : channel_facts c = (true, 5, replicate 5 0, replicate 5 0, 0, x, true) ->
  ChannelDefault.m_use_fast_path c = true /\ can_count c /\ ChannelDefault.m_ticket_id c = 0 /\
  ChannelDefault.m_channel_id c = x /\ exists o, object_at 0 0 c = Some (NoopPtr o).
Proof.
  unfold channel_facts. set (o := object_at 0 0 c). intros [= Hfast Hsize Htotal Hwindow Hid Hch Ho].
  split; [done|]. split.
  { intros _. unfold ChannelStatistics.well_formed. rewrite Hsize, Htotal, Hwindow.
    split_and!; try done; by repeat constructor. }
  split; [done|]. split; [done|]. destruct o as [[o|]|]; [by exists o|done..].
Qed.

Section Sized.
Context (op_size : Z).
Hypothesis size_range : 0 <= op_size < 2 ^ 63.

(** A stage that is made with the files of the repository, for one channel or two. *)
Lemma shared_start debug run_id channels name u n r u' n' : channels = 1 \/ channels = 2 ->
  start_run fuel debug run_id channels true name op_size u n = Ok r u' n' -> shares op_size 0 (posix_instance r).
Proof.
  intros Hch Hs. unfold start_run in Hs.
  apply bind_Ok_inv in Hs as (stage & u1 & n1 & Hm & Hs).
  apply bind_Ok_inv in Hs as (k & u2 & n2 & _ & [= <- _ _]). cbn [posix_instance].
  unfold build_stage in Hm. cbn [option_default_communication_type] in Hm.
  assert (s32 channels = channels) as Hs32 by (by destruct Hch as [-> | ->]). rewrite Hs32 in Hm.
  assert (Hwf := make_stage_core _ _ _ _ _ _ _ _ Hm).
  cbn [make_stage] in Hm. unfold PaioStage.make in Hm. run_inv Hm.
  apply build_inv in Hrun1 as [b Hb]. rewrite make_shipped in Hb.
  pose proof (shared_stage fuel channels a0 (PaioStage.raw_agent a0) u n n3 Hch) as Hfacts.
  rewrite Hrun, Hb in Hfacts. destruct Hfacts as (Hready & Hflag & Hc).
  apply fmap_Some in Hc as (c & Hc & Hfacts).
  destruct (counting_facts c 1 (eq_sym Hfacts)) as (Hfast & Hcount & Hid & Hch1 & o & Ho).
  match goal with |- shares _ _ ?l =>
    assert (Hst : stage_of l = PaioStage.mk a1 false a2) by (by destruct (0 <? op_size))
  end.
  unfold shares. rewrite Hst. split; [exact Hready|]. split; [by destruct (0 <? op_size)|].
  split; [exact Hwf|]. split; [exact Hflag|]. exists c, o. by split_and!.
Qed.

Lemma exec_shares total_ops e k r r' : shares op_size k (posix_instance r) ->
  exec fuel (S attempts) op_size total_ops e r = Some r' ->
  shares op_size (submissions [e] + k) (posix_instance r').
Proof.
  intros Hs. destruct e as [flow|flow|flow|flow]; cbn [exec submissions];
    (destruct (workers r !! flow) as [[|[|ops] start|result]|]; try done);
    rewrite ?(proj2 (Z.ltb_ge op_size 0) (proj1 size_range)); try (intros [= <-]; exact Hs).
  destruct (submit_shared fuel attempts op_size size_range k flow _ (readings r) Hs) as (l' & -> & Hs').
  intros [= <-]. cbn. by rewrite Z.add_comm.
Qed.

Lemma exec_all_shares total_ops events : forall k r r', shares op_size k (posix_instance r) ->
  exec_all fuel (S attempts) op_size total_ops events r = Some r' ->
  shares op_size (submissions events + k) (posix_instance r').
Proof.
  induction events as [|e events IH]; intros k r r' Hs; cbn [exec_all]; [by intros [= <-]|].
  destruct (exec fuel (S attempts) op_size total_ops e r) as [r1|] eqn:He; [|done]. intros Hrun.
  pose proof (IH _ _ _ (exec_shares _ _ _ _ _ Hs He) Hrun) as Hs'.
  assert (submissions (e :: events) = submissions events + submissions [e]) as -> by (destruct e; cbn; lia).
  by rewrite <- Z.add_assoc.
Qed.

Lemma exec_all_app tries size total_ops events events' r :
  exec_all fuel tries size total_ops (events ++ events') r =
  exec_all fuel tries size total_ops events r ≫= exec_all fuel tries size total_ops events'.
Proof.
  revert r. induction events as [|e events IH]; intros r; [done|]. cbn [app exec_all].
  destruct (exec fuel tries size total_ops e r); [apply IH|done].
Qed.

(** A worker that is let run gets to its end, and leaves the others where they are. *)
Definition leaves (total_ops flow : Z) (r : run) : Prop := exists events r' k,
  exec_all fuel (S attempts) op_size total_ops events r = Some r' /\
  workers r' = delete flow (workers r) /\ shares op_size k (posix_instance r').

Lemma leaves_step total_ops flow w r e r1 :
  exec fuel (S attempts) op_size total_ops e r = Some r1 ->
  workers r1 = <[flow := w]> (workers r) -> leaves total_ops flow r1 -> leaves total_ops flow r.
Proof.
  intros He Hw (events & r' & k & Hrun & Hr' & Hk). exists (e :: events), r', k.
  cbn [exec_all]. rewrite He. split; [exact Hrun|]. split; [|exact Hk].
  by rewrite Hr', Hw, delete_insert_eq.
Qed.

Lemma worker_leaves total_ops flow w k r : workers r !! flow = Some w -> shares op_size k (posix_instance r) ->
  leaves total_ops flow r.
Proof.
  assert (Hmeasured : forall k r result, workers r !! flow = Some (Measured result) ->
    shares op_size k (posix_instance r) -> leaves total_ops flow r).
  { intros k1 r1 result Hw Hk. exists [Report flow]. eexists. exists k1. cbn [exec_all exec]. rewrite Hw.
    split; [reflexivity|]. by split. }
  assert (Hsubmitting : forall ops k r start, workers r !! flow = Some (Submitting ops start) ->
    shares op_size k (posix_instance r) -> leaves total_ops flow r).
  { induction ops as [|ops IH]; intros k1 r1 start Hw Hk.
    - eapply (leaves_step _ _ _ _ (Finish flow)); [cbn [exec]; rewrite Hw; reflexivity|reflexivity|].
      eapply Hmeasured; [apply lookup_insert_eq|exact Hk].
    - destruct (submit_shared fuel attempts op_size size_range k1 flow _ (readings r1) Hk) as (l' & Hs & Hk').
      eapply (leaves_step _ _ _ _ (Submit flow)); [cbn [exec]; rewrite Hw, Hs; reflexivity|reflexivity|].
      eapply IH; [apply lookup_insert_eq|exact Hk']. }
  intros Hw Hk. destruct w as [|ops start|result]; [|by eapply Hsubmitting|by eapply Hmeasured].
  eapply (leaves_step _ _ _ _ (Begin flow));
    [cbn [exec]; by rewrite Hw, (proj2 (Z.ltb_ge op_size 0) (proj1 size_range))|reflexivity|].
  eapply Hsubmitting; [apply lookup_insert_eq|exact Hk].
Qed.

Lemma workers_leave total_ops n : forall k r, base.size (workers r) = n ->
  shares op_size k (posix_instance r) ->
  exists events r', exec_all fuel (S attempts) op_size total_ops events r = Some r' /\ workers r' = ∅.
Proof.
  induction n as [|n IH]; intros k r Hsize Hk.
  { exists [], r. split; [done|]. by apply map_size_empty_inv. }
  destruct (map_choose (workers r)) as (flow & w & Hw).
  { intros He. by rewrite He, map_size_empty in Hsize. }
  destruct (worker_leaves total_ops flow w k r Hw Hk) as (events & r1 & k1 & Hrun & Hr1 & Hk1).
  destruct (IH k1 r1) as (events' & r' & Hrun' & Hr'); [|exact Hk1|].
  { rewrite Hr1, (map_size_delete_Some _ _ (mk_is_Some _ _ Hw)), Hsize. done. }
  exists (events ++ events'), r'. split; [|exact Hr'].
  revert Hrun Hrun'. rewrite exec_all_app. by intros ->.
Qed.

(** C19.  The microbenchmark with one worker or two, on the options and the files of the
    repository, for operations of any size from 0 to 2^63 - 1, with contents above 0:
    however the workers interleave, an operation that a worker is about to
    submit is served, so that its assertion holds, the workers can all be brought to
    their ends, and all the operations of all the workers have gone through one
    channel, the one with the identifier 1, that has numbered them. *)
Theorem two_workers_share_channel debug run_id channels name total_ops events u n r0 u' n' r :
  channels = 1 \/ channels = 2 ->
  start_run fuel debug run_id channels true name op_size u n = Ok r0 u' n' ->
  exec_all fuel (S attempts) op_size total_ops events r0 = Some r ->
  (forall flow left start, workers r !! flow = Some (Submitting (S left) start) ->
     is_Some (exec fuel (S attempts) op_size total_ops (Submit flow) r)) /\
  (exists events' r', exec_all fuel (S attempts) op_size total_ops events' r = Some r' /\ workers r' = ∅) /\
  exists c, Core.m_channels (PaioStage.m_core (stage_of (posix_instance r))) !!
      shared_token (PaioStage.m_core (stage_of (posix_instance r))) = Some c /\
    ChannelDefault.m_channel_id c = 1 /\ ChannelDefault.m_ticket_id c = u64 (submissions events).
Proof.
  intros Hch Hs He.
  pose proof (exec_all_shares _ _ _ _ _ (shared_start _ _ _ _ _ _ _ _ _ Hch Hs) He) as Hshares.
  rewrite Z.add_0_r in Hshares. split; [|split; [by eapply workers_leave|]].
  - intros flow left start Hw. cbn [exec]. rewrite Hw.
    destruct (submit_shared fuel attempts op_size size_range _ flow _ (readings r) Hshares) as (l' & -> & _). by eexists.
  - destruct Hshares as (_ & _ & _ & _ & c & o & Hc & _ & _ & _ & Hid & Hch1). by exists c.
Qed.

End Sized.

(** *** Three workers and more *)

(** Default channels leave the builder of the core. *)
Lemma default_channel_builder i c n : core_well_formed c ->
  keeps (fun c' => Core.m_channel_diff_builder c' = Core.m_channel_diff_builder c)
    (Core.create_default_channel fuel i true c n).
Proof.
  intros Hc. unfold Core.create_default_channel. cbn [andb]. apply keeps_bind.
  - pose proof (create_channel_aux i (mkTuple (u32 i) 0 0) c n Hc) as Ha. cbv zeta in Ha.
    change (keeps (fun c' => Core.m_channel_diff_builder c' = Core.m_channel_diff_builder c)
      (Core.create_channel i (mkTuple (u32 i) 0 0) c n)).
    case_bool_decide; [by rewrite Ha|]. by destruct Ha as (channel & n' & -> & _).
  - intros status c' n' Hb. destruct (is_ok status); [|done]. apply keeps_bind; [|done].
    unfold Core.create_enforcement_object. rewrite gets_bind. unfold Datatypes.id.
    destruct (_ =? invalid_token); [done|]. destruct (Core.select_channel _ c') as [ptr|]; [|done].
    unfold Core.call_channel. destruct (Core.m_channels c' !! ptr) as [channel|]; [|done].
    by apply (keeps_zoom (fun _ => True)); [destruct (ChannelDefault.create_enforcement_object _ _ _ _ _ _ _)|].
Qed.

(** The default channels after the first one are refused. *)
Lemma many_channels channels u n : 1 <= channels < int_max ->
  PaioStage.build_core fuel channels true u n = PaioStage.build_core fuel 1 true u n.
Proof.
  intros Hch. unfold PaioStage.build_core, build, Core.make. rewrite !modify_bind.
  destruct (Z.to_nat channels) as [|k] eqn:Hk; [lia|].
  change (Z.to_nat 1) with 1%nat. cbn [option_create_default_channels Core.create_default_channels].
  assert (Hfirst : match Core.create_default_channel fuel 1 true Core.make_default n with
    | Ok _ c _ => match Core.m_channels c !! token_of [0] with Some _ => True | None => False end
    | _ => False
    end) by (vm_compute; exact I).
  pose proof (create_default_channel_well_formed fuel 1 true Core.make_default n default_core_well_formed) as Hwf.
  pose proof (default_channel_builder 1 Core.make_default n default_core_well_formed) as Hb.
  unfold mbind, M_bind.
  destruct (Core.create_default_channel fuel 1 true Core.make_default n) as [[] c1 n1| |]; [|done..].
  change (1 =? int_max) with false. cbv iota.
  rewrite (default_channels_stop fuel k); [done|done|exact Hb| |lia..]. by destruct (_ !! _).
Qed.

Lemma bind_same {S A B} (m m' : M S A) (f : A -> M S B) s k : m s k = m' s k -> (m ≫= f) s k = (m' ≫= f) s k.
Proof. intros Hm. unfold mbind, M_bind. by rewrite Hm. Qed.

(** A limit above the number of the lines is no limit. *)
Lemma collect_unlimited {S} operation min_elements build staged : forall rules passed total total',
  passed + Z.of_nat (length staged) < total -> passed + Z.of_nat (length staged) < total' ->
  forall (s : S) k,
  RulesParser.collect_rules operation min_elements build staged rules passed total s k =
  RulesParser.collect_rules operation min_elements build staged rules passed total' s k.
Proof.
  induction staged as [|line staged IH]; intros rules passed total total' Ht Ht' s k; [done|].
  cbn [RulesParser.collect_rules length] in *.
  unfold mbind at 1 3, M_bind at 1 3. destruct (vector_index line 1 s k) as [name s1 k1| |]; [|done..].
  destruct (bool_decide _); [|apply IH; lia].
  destruct (_ <? min_elements); [apply IH; lia|].
  unfold mbind, M_bind. destruct (build line s1 k1) as [rule s2 k2| |]; [|done..].
  rewrite !(proj2 (Z.eqb_neq _ _)) by lia. apply IH; lia.
Qed.

Lemma file_unlimited (files : FileSystem) path contents total total' a k :
  files path = Some contents -> total <> -1 -> total' <> -1 ->
  let lines := Z.of_nat (length (RulesParser.m_staged_rules
    (RulesParser.make rules_housekeeping (Some contents)))) in
  lines < total -> lines < total' ->
  @Agent.insert_housekeeping_rules_from_file _ files fuel path total a k =
  @Agent.insert_housekeeping_rules_from_file _ files fuel path total' a k.
Proof.
  intros Hfile Ht Ht' lines Hl Hl'. unfold Agent.insert_housekeeping_rules_from_file, contents_of.
  rewrite Hfile. destruct (bool_decide (path = "")); [done|].
  set (p := RulesParser.make rules_housekeeping (Some contents)) in *.
  assert (Hch : forall (a : Agent.t) k,
    Agent.on_parser p (RulesParser.get_create_channel_rules [] total) a k =
    Agent.on_parser p (RulesParser.get_create_channel_rules [] total') a k).
  { intros b j. unfold Agent.on_parser, zoom, RulesParser.get_create_channel_rules. rewrite !gets_bind.
    unfold RulesParser.limit, Datatypes.id. rewrite !(proj2 (Z.eqb_neq _ (-1))) by done.
    by rewrite (collect_unlimited _ _ _ _ _ _ total total') by lia. }
  assert (Hobj : forall (a : Agent.t) k,
    Agent.on_parser p (RulesParser.get_create_object_rules [] total) a k =
    Agent.on_parser p (RulesParser.get_create_object_rules [] total') a k).
  { intros b j. unfold Agent.on_parser, zoom, RulesParser.get_create_object_rules. rewrite !gets_bind.
    unfold RulesParser.limit, Datatypes.id. rewrite !(proj2 (Z.eqb_neq _ (-1))) by done.
    by rewrite (collect_unlimited _ _ _ _ _ _ total total') by lia. }
  unfold mbind, M_bind. rewrite Hch.
  destruct (Agent.on_parser p _ a k) as [[size rules] a1 k1| |]; [|done..].
  destruct (Agent.employ_housekeeping_rules fuel rules PStatus_Error a1 k1) as [status a2 k2| |]; [|done..].
  by rewrite Hobj.
Qed.

(** With three to nine instances, what the file asks for is refused in the end. *)
Lemma instances_refused channels info a u n k : 3 <= channels <= 9 ->
  match PaioStage.build_core fuel 1 true u n with
  | Ok core _ _ =>
      match @Agent.make _ shipped_files fuel Options.none core false channels info a k with
      | Ok _ a' _ => Agent.m_ready a' = false
      | _ => False
      end
  | _ => False
  end.
Proof.
  intros Hch. assert (Hcases : channels = 3 \/ channels = 4 \/ channels = 5 \/ channels = 6 \/
    channels = 7 \/ channels = 8 \/ channels = 9) by lia.
  destruct Hcases as [-> | [-> | [-> | [-> | [-> | [-> | ->]]]]]]; (vm_compute; reflexivity).
Qed.

Lemma many_instances channels info core a k : 9 <= channels ->
  @Agent.make _ shipped_files fuel Options.none core false channels info a k =
  @Agent.make _ shipped_files fuel Options.none core false 9 info a k.
Proof.
  intros Hch. unfold Agent.make. rewrite !modify_bind. unfold Agent.load_rules. rewrite !gets_bind.
  unfold Datatypes.id. cbn [Agent.m_housekeeping_rule_file].
  assert (Hlines : Z.of_nat (length (RulesParser.m_staged_rules
    (RulesParser.make rules_housekeeping (Some default_housekeeping_rules_file)))) = 8)
    by (vm_compute; reflexivity).
  assert (Hfile : shipped_files Agent.option_default_housekeeping_rules_file_path =
    Some default_housekeeping_rules_file) by (vm_compute; reflexivity).
  pose proof (fun b => file_unlimited _ _ _ channels 9 b k Hfile) as Hsame. cbv zeta in Hsame.
  rewrite Hlines in Hsame. apply bind_same, Hsame; lia.
Qed.

Lemma refused_start channels info u n core u1 n1 k b a' k' : 3 <= channels < int_max ->
  PaioStage.build_core fuel channels true u n = Ok core u1 n1 ->
  Agent.make fuel Options.none core false channels info (PaioStage.raw_agent info) k = Ok b a' k' ->
  Agent.m_ready a' = false.
Proof.
  intros Hch Hcore Hmake. rewrite many_channels in Hcore by lia. rewrite make_shipped in Hmake.
  destruct (Z.le_gt_cases channels 9) as [Hle|Hgt].
  - pose proof (instances_refused channels info (PaioStage.raw_agent info) u n k ltac:(lia)) as Hr.
    by rewrite Hcore, Hmake in Hr.
  - rewrite many_instances in Hmake by lia.
    pose proof (instances_refused 9 info (PaioStage.raw_agent info) u n k ltac:(lia)) as Hr.
    by rewrite Hcore, Hmake in Hr.
Qed.

(** A layer whose stage is never ready. *)
Definition waits_for_ever (l : PosixLayer.t) : Prop :=
  forall j, ready_after j (PosixLayer.instance l) = false.

Lemma never_ready stage tr : (forall j s, PaioStage.m_ready (others j s) = PaioStage.m_ready s) ->
  PaioStage.m_ready stage = false ->
  waits_for_ever (PosixLayer.set_io_transformation tr (PosixLayer.make stage)).
Proof.
  intros Hothers Hnot j. unfold ready_after.
  cbn [PosixLayer.instance PosixLayer.make PosixLayer.set_io_transformation InstanceInterface.sleeps
    InstanceInterface.m_paio_stage InstanceInterface.make
    InstanceInterface.set_default_operation_type InstanceInterface.set_default_operation_context].
  generalize O as i. revert stage Hnot. induction j as [|j IH]; intros stage Hnot i; [done|].
  cbn [after_sleeps]. apply IH. by rewrite Hothers.
Qed.

Lemma submit_stuck flow op_size l n : waits_for_ever l ->
  submit fuel attempts flow op_size l n = Crash OutOfFuel.
Proof.
  intros Hl. unfold submit, PosixLayer.posix_base_context. apply bind_Crash, bind_Crash.
  unfold PosixLayer.enforce_request. rewrite gets_bind. unfold Datatypes.id.
  destruct (PosixLayer.m_has_io_transformation l);
    unfold PosixLayer.enforce_content, PosixLayer.enforce_context, InstanceInterface.enforce,
      PosixLayer.on_instance, zoom; by rewrite (enforce_stuck fuel).
Qed.

(** No worker has got through an operation, and there are workers. *)
Definition at_first_operation (r : run) : Prop :=
  waits_for_ever (posix_instance r) /\ workers r <> ∅ /\
  map_Forall (fun _ w => match w with Spawned | Submitting (S _) _ => True | _ => False end) (workers r).

Lemma worker_stuck op_size total_ops e r r' : 0 < total_ops -> at_first_operation r ->
  exec fuel attempts op_size total_ops e r = Some r' ->
  at_first_operation r' /\ submissions [e] = 0.
Proof.
  intros Htotal (Hl & Hne & Hall). destruct e as [flow|flow|flow|flow]; cbn [exec submissions];
    (destruct (workers r !! flow) as [[|[|ops] start|result]|] eqn:Hw; try done).
  - destruct (op_size <? 0); [done|]. intros [= <-]. split; [|done].
    split; [exact Hl|]. split; [apply insert_non_empty|].
    destruct (Z.to_nat total_ops) as [|ops] eqn:Hops; [lia|]. by apply map_Forall_insert_2.
  - by rewrite submit_stuck.
  - by specialize (Hall _ _ Hw).
  - by specialize (Hall _ _ Hw).
Qed.

Lemma all_spawned : forall l : list Z,
  map_Forall (fun _ w => w = Spawned) (list_to_map ((fun flow => (flow, Spawned)) <$> l) : gmap Z worker).
Proof.
  induction l as [|flow l IH]; [apply map_Forall_empty|]. by apply map_Forall_insert_2.
Qed.

Lemma start_waits debug run_id channels name op_size u n r u' n' : 3 <= channels < int_max ->
  (forall j s, PaioStage.m_ready (others j s) = PaioStage.m_ready s) ->
  start_run fuel debug run_id channels true name op_size u n = Ok r u' n' ->
  at_first_operation r.
Proof.
  intros Hch Hothers Hs. unfold start_run in Hs.
  apply bind_Ok_inv in Hs as (stage & u1 & n1 & Hm & Hs).
  apply bind_Ok_inv in Hs as (k & u2 & n2 & _ & [= <- _ _]). unfold at_first_operation.
  cbn [posix_instance workers]. assert (forall P Q : Prop, P -> Q -> P /\ Q) as Hand by done.
  apply Hand; [clear Hand|clear Hand Hm; split].
  2: { unfold flows. destruct (Z.to_nat channels) as [|k'] eqn:Hk; [lia|]. apply insert_non_empty. }
  2: { eapply map_Forall_impl; [apply all_spawned|]. by intros i w ->. }
  unfold build_stage in Hm. cbn [option_default_communication_type] in Hm.
  assert (s32 channels = channels) as Hs32 by (apply s32_small; unfold is_int, int_min, int_max in *; lia).
  rewrite Hs32 in Hm. cbn [make_stage] in Hm. unfold PaioStage.make in Hm. run_inv Hm.
  apply build_inv in Hrun1 as [b Hb].
  pose proof (refused_start _ _ _ _ _ _ _ _ _ _ _ Hch Hrun Hb) as Hnot.
  destruct (0 <? op_size); [by apply never_ready|].
  exact (never_ready (PaioStage.mk a1 false a2) option_default_has_io_transformation Hothers Hnot).
Qed.

(** C20.  The microbenchmark with three workers or more, on the options and the files of the
    repository, never gets through an operation, whatever the size: the stage
    is not made ready, and no number of attempts is enough for the first call of a
    worker; in a run of all the workers, however they interleave, nothing is
    ever submitted and workers are always left, so that the run is never over.  With the
    default channels, the token of the third channel of the housekeeping file is taken,
    and its object is refused. *)
Theorem three_workers_never_start debug run_id channels name op_size total_ops u n r u' n' :
  3 <= channels < int_max -> 0 <= op_size -> 0 < total_ops ->
  (forall j s, PaioStage.m_ready (others j s) = PaioStage.m_ready s) ->
  start_run fuel debug run_id channels true name op_size u n = Ok r u' n' ->
  (forall flow k, stress_test fuel attempts flow op_size total_ops (posix_instance r) k = Crash OutOfFuel) /\
  (forall events r', exec_all fuel attempts op_size total_ops events r = Some r' ->
     submissions events = 0 /\ workers r' <> ∅).
Proof.
  intros Hch Hop Htotal Hothers Hs.
  pose proof (start_waits _ _ _ _ _ _ _ _ _ _ Hch Hothers Hs) as Hwait. split.
  - intros flow k. unfold stress_test. rewrite (proj2 (Z.ltb_ge _ _)) by done.
    destruct (Z.to_nat total_ops) as [|ops] eqn:Ho; [lia|].
    unfold now, mbind, M_bind. cbn [submit_all]. unfold mbind, M_bind.
    by rewrite submit_stuck by apply Hwait.
  - clear Hs. intros events. revert r Hwait. induction events as [|e events IH]; intros r Hwait r';
      cbn [exec_all]; [intros [= <-]; split; [done|apply Hwait]|].
    destruct (exec fuel attempts op_size total_ops e r) as [r1|] eqn:He; [|done]. intros Hrun.
    destruct (worker_stuck _ _ _ _ _ Htotal Hwait He) as [Hwait' Hsub].
    destruct (IH r1 Hwait' r' Hrun) as [Hsubs Hw]. split; [|done].
    destruct e; cbn [submissions] in *; lia.
Qed.

End Runs.

(** ** The results of a run *)

Section Reports.
Context `{SystemClock} `{FileSystem} `{OtherThreads} `{Sockets} `{Process} `{Numerics}.
Context (fuel attempts : nat).

(** A result for each worker that has ended, and their sums in the order of the reports. *)
Definition reported (k : nat) (r : run) : Prop :=
  (length (m_iops_of_threads (results r)) + base.size (workers r) = k)%nat /\
  (length (m_throughput_of_threads (results r)) + base.size (workers r) = k)%nat /\
  m_cumulative_iops (results r) = fold_left dadd (m_iops_of_threads (results r)) d0 /\
  m_cumulative_throughput (results r) = fold_left dadd (m_throughput_of_threads (results r)) d0.

Lemma exec_reported op_size total_ops k e r r' : reported k r ->
  exec fuel attempts op_size total_ops e r = Some r' -> reported k r'.
Proof.
  intros (Hi & Ht & Hsi & Hst). destruct e as [flow|flow|flow|flow]; cbn [exec];
    (destruct (workers r !! flow) as [[|[|ops] start|result]|] eqn:Hw; try done).
  - destruct (op_size <? 0); [done|]. intros [= <-]. unfold reported; cbn.
    rewrite map_size_insert, Hw. by split_and!.
  - destruct (submit _ _ _ _ _ _) as [? instance n| |]; [|done..]. intros [= <-]. unfold reported; cbn.
    rewrite map_size_insert, Hw. by split_and!.
  - intros [= <-]. unfold reported; cbn. rewrite map_size_insert, Hw. by split_and!.
  - intros [= <-]. unfold reported, record_stress_test_results.
    cbn [workers results m_iops_of_threads m_throughput_of_threads m_cumulative_iops m_cumulative_throughput].
    assert (base.size (workers r) <> O) by (apply map_size_non_empty_iff; by intros He; rewrite He in Hw).
    rewrite map_size_delete, Hw, !length_app, !fold_left_app, <- Hsi, <- Hst. cbn [length fold_left].
    split_and!; [lia..|done|done].
Qed.

Lemma flows_size channels :
  base.size (list_to_map ((fun flow => (flow, Spawned)) <$> flows channels) : gmap Z worker) = Z.to_nat channels.
Proof.
  rewrite map_size_list_to_map.
  - unfold flows. by rewrite !length_fmap, length_seq.
  - rewrite <- list_fmap_compose. unfold flows. rewrite <- list_fmap_compose.
    apply NoDup_fmap_2; [intros ? ? ?; cbn in *; lia|apply NoDup_seq].
Qed.

(** What [execute_run] returns has one entry for each worker, and its cumulative
    values are the sums of the entries, however the workers interleave. *)
Lemma run_reports_all debug run_id channels defaults name total_ops op_size n r n' :
  execute_run fuel attempts debug run_id channels defaults name total_ops op_size n r n' ->
  length (m_iops_of_threads r) = Z.to_nat channels /\
  length (m_throughput_of_threads r) = Z.to_nat channels /\
  m_cumulative_iops r = fold_left dadd (m_iops_of_threads r) d0 /\
  m_cumulative_throughput r = fold_left dadd (m_throughput_of_threads r) d0.
Proof.
  intros [n1 r0 u n0 events r1 Hs He Hend].
  assert (Hr0 : reported (Z.to_nat channels) r0).
  { unfold start_run in Hs. apply bind_Ok_inv in Hs as (stage & u1 & n2 & _ & Hs).
    apply bind_Ok_inv in Hs as (j & u2 & n3 & _ & [= <- _ _]). unfold reported. cbn [workers results].
    rewrite flows_size. by split_and!. }
  assert (Hr1 : reported (Z.to_nat channels) r1).
  { clear Hs Hend. revert r0 Hr0 He. induction events as [|e events IH]; intros r0 Hr0; cbn [exec_all];
      [by intros [= <-]|].
    destruct (exec fuel attempts op_size total_ops e r0) as [r2|] eqn:Hr2; [|done].
    apply IH. by eapply exec_reported. }
  destruct Hr1 as (Hi & Ht & Hsi & Hst). rewrite Hend, map_size_empty, Nat.add_0_r in Hi, Ht. by split_and!.
Qed.

End Reports.

(** ** Witnesses *)

Definition sample_numerics : Numerics := {|
  pow x _ := dmul x x;
  sqrt x := x;
  seconds z := ddiv (to_double z) (to_double 1000000);
|}.

Definition sample_start (channels op_size : Z) : Outcome unit run :=
  @start_run bounded_clock 3 shipped_files handshake_script sample_process false 0 channels true
    "microbenchmark-stage" op_size tt O.

Definition sample_schedule : list event :=
  [Begin 2; Begin 1; Submit 2; Submit 1; Submit 2; Finish 2; Submit 1; Report 2].

(** Operations of 64 bytes, with their contents. *)
Lemma two_workers_share_channel_witness : exists r c,
  Core.m_channels (PaioStage.m_core (stage_of (posix_instance r))) !!
    shared_token (PaioStage.m_core (stage_of (posix_instance r))) = Some c /\
  ChannelDefault.m_channel_id c = 1 /\ ChannelDefault.m_ticket_id c = 4.
Proof.
  assert (Hrun : match sample_start 2 64 with
    | Ok r0 _ _ =>
        match @exec_all bounded_clock alone sample_numerics 3 1 64 2 sample_schedule r0 with
        | Some _ => true
        | None => false
        end
    | _ => false
    end = true) by (vm_compute; reflexivity).
  destruct (sample_start 2 64) as [r0 u' n'| |] eqn:Hs; [|done..].
  destruct (@exec_all _ _ _ 3 1 64 2 sample_schedule r0) as [r|] eqn:He; [|done].
  destruct (@two_workers_share_channel bounded_clock shipped_files alone handshake_script
    sample_process sample_numerics 3 0 ltac:(vm_compute; reflexivity) ltac:(vm_compute; reflexivity)
    64 ltac:(lia) false 0 2 "microbenchmark-stage" 2 sample_schedule tt O r0 u' n' r (or_intror eq_refl) Hs He)
    as (_ & _ & c & Hc & Hid & Hticket).
  exists r, c. split; [exact Hc|]. split; [exact Hid|exact Hticket].
Defined.

Lemma three_workers_never_start_witness : exists r,
  (forall flow k, @stress_test bounded_clock alone sample_numerics 3 5 flow 16 1000
     (posix_instance r) k = Crash OutOfFuel) /\
  (forall events r', @exec_all bounded_clock alone sample_numerics 3 5 16 1000 events r = Some r' ->
     submissions events = 0 /\ workers r' <> ∅).
Proof.
  destruct (is_Ok_inv (sample_start 3 16)) as (r & u' & n' & Hs); [vm_compute; reflexivity|].
  exists r.
  apply (@three_workers_never_start bounded_clock shipped_files alone handshake_script
    sample_process sample_numerics 3 5 ltac:(vm_compute; reflexivity) ltac:(vm_compute; reflexivity)
    false 0 3 "microbenchmark-stage" 16 1000 tt O r u' n').
  - split; [discriminate|reflexivity].
  - discriminate.
  - reflexivity.
  - done.
  - exact Hs.
Defined.
