(* ===== verification/DrlBenchmark.v ===== *)
(** * The benchmark of the rate limiter

    [benchmarking/paio_object_drl_test.cpp] drives a [DynamicRateLimiter] without a
    channel around it: it configures it at random, lets a thread enforce tickets, and
    at last lets one thread enforce and another adjust the rate.  The two meet at the
    [m_mutex] of the limiter: a ticket holds it through the loops of the bucket, sleeps
    included, and an adjustment takes it twice.  The theorems are about this last test: the
    rates that are drawn limit it however the threads interleave, it ends on every
    schedule when they are not 0, and a rate of 0 stops it for ever. *)

From S2P Require Import Prelude MachineInt Binary64 Options TokenBucketStats TokenBucket.
From S2P Require Import EnforcementObjects Differentiation ChannelStatistics Channel SharedQueue.

(** What the n-th call of [random] returns. *)
Class Random := random : nat -> Z.

Module DrlTest.

(** A computation on an object of the caller's own, and the object after it. *)
Definition on_local {S T A} (o : T) (m : M T A) : M S (A * T) := fun s n =>
  match m o n with
  | Ok a o n => Ok (a, o) s n
  | Raise e _ n => Raise e s n
  | Crash c => Crash c
  end.

Definition readings_so_far {S} : M S nat := fun s n => Ok n s n.

(** ** The tests of one thread *)

Section Calls.
Context `{SystemClock} `{Random}.
(** Fuel of the loops of the bucket. *)
Context (fuel : nat).

(** [random () % range], for the k-th call of [random]. *)
Definition draw {S} (range : Z) (k : nat) : M S Z :=
  if range =? 0 then crash_with (UndefinedBehaviour "division by zero")
  else mret (Z.rem (random k) range).

(** The rates before and after, which are logged, and the status. *)
Definition obj_drl_change_rate (rate : Z) (log : bool) :
    M DynamicRateLimiter.t (PStatus * list Z) :=
  before ← (if log then r ← DynamicRateLimiter.get_token_bucket_rate; mret [r] else mret []);
  status ← DynamicRateLimiter.obj_configure (DRLConfiguration_code DRL_rate) [rate];
  after ← (if log then r ← DynamicRateLimiter.get_token_bucket_rate; mret [r] else mret []);
  mret (status, before ++ after).

(** The values of a configuration, from the k-th call of [random]. *)
Definition configuration_values {S} (configuration : DRLConfiguration) (max_range : Z) (k : nat) :
    M S (list Z) :=
  match configuration with
  | DRL_init => rate ← draw max_range k; mret [100000; rate]
  | DRL_rate => rate ← draw max_range k; mret [rate]
  | DRL_refill => window ← draw (Z.quot max_range 10) k; mret [window]
  end.

Fixpoint configure_loop (configuration : DRLConfiguration) (max_range : Z) (iterations k : nat) :
    M DynamicRateLimiter.t (list PStatus) :=
  match iterations with
  | O => mret []
  | S iterations =>
      values ← configuration_values configuration max_range k;
      status ← DynamicRateLimiter.obj_configure (DRLConfiguration_code configuration) values;
      statuses ← configure_loop configuration max_range iterations (S k);
      mret (status :: statuses)
  end.

(** On a limiter of its own. *)
Definition test_obj_drl_configure {S} (configuration : DRLConfiguration) (max_range iterations : Z)
    (k : nat) : M S (list PStatus) :=
  drl_object ← DynamicRateLimiter.default;
  '(statuses, _) ← on_local drl_object
                     (configure_loop configuration max_range (Z.to_nat iterations) k);
  mret statuses.

Definition test_obj_drl_change_rate (rate : Z) (log : bool) :
    M DynamicRateLimiter.t (PStatus * list Z) :=
  obj_drl_change_rate rate log.

(** The loop of the background worker; it sleeps before each adjustment. *)
Fixpoint test_obj_configure_bg_worker (iterations : nat) (range : Z) (k : nat) :
    M DynamicRateLimiter.t unit :=
  match iterations with
  | O => mret tt
  | S iterations =>
      rate ← draw range k;
      _ ← obj_drl_change_rate rate true;
      test_obj_configure_bg_worker iterations range (S k)
  end.

Definition ticket_of (i size : Z) : Ticket.t :=
  Ticket.make (u64 i) 1 size (PAIO_GENERAL_.code PAIO_GENERAL_.no_op)
    (PAIO_GENERAL_.code PAIO_GENERAL_.no_op).

Fixpoint enforce_loop (i size : Z) (iterations : nat) : M DynamicRateLimiter.t unit :=
  match iterations with
  | O => mret tt
  | S iterations =>
      _ ← DynamicRateLimiter.obj_enforce fuel (ticket_of i size) Result.default;
      enforce_loop (i + 1) size iterations
  end.

(** The elapsed time, and the rate that is printed beside it. *)
Definition test_obj_drl_enforce (size iterations : Z) : M DynamicRateLimiter.t (Z * Z) :=
  _ ← DynamicRateLimiter.get_token_bucket_rate;
  start ← now;
  _ ← enforce_loop 0 size (Z.to_nat iterations);
  end_ ← now;
  rate ← DynamicRateLimiter.get_token_bucket_rate;
  mret (end_ - start, rate).

(** ** An enforcing and an adjusting thread *)

(** Before the i-th ticket, or in the bucket with it, and with the mutex. *)
Inductive consumer :=
| Enforcing (i : Z) (iterations : nat)
| InLimiter (i : Z) (iterations : nat) (place : ConsumeSteps.place).

(** Asleep; with a rate, before [configure_rate]; between the two critical sections
    of [obj_configure]. *)
Inductive adjuster :=
| Sleeping (iterations : nat)
| Drawn (rate : Z) (iterations : nat)
| Updating (iterations : nat).

Record system := mk {
  drl : DynamicRateLimiter.t;
  readings : nat;                 (* of the clock, so far *)
  draws : nat;                    (* calls of random, so far *)
  enforce : consumer;
  adjust : adjuster;
}.

(** [m_mutex] is taken: the critical sections of the adjuster are single events. *)
Definition locked (s : system) : bool :=
  match enforce s with Enforcing _ _ => false | InLimiter _ _ _ => true end.

Inductive event := Enforce | Adjust.

Definition exec_enforce (size : Z) (s : system) : option system :=
  match enforce s with
  | Enforcing i (S iterations) =>
      Some (mk (drl s) (readings s) (draws s)
        (InLimiter i iterations
          (ConsumeSteps.start (DynamicRateLimiter.basic_io_cost (ticket_of i size) (drl s))
             (DynamicRateLimiter.m_bucket (drl s)))) (adjust s))
  | Enforcing _ O => None
  | InLimiter i iterations place =>
      match zoom DynamicRateLimiter.m_bucket DynamicRateLimiter.set_bucket
              (ConsumeSteps.step place) (drl s) (readings s) with
      | Ok (Some place) o n => Some (mk o n (draws s) (InLimiter i iterations place) (adjust s))
      | Ok None o n => Some (mk o n (draws s) (Enforcing (i + 1) iterations) (adjust s))
      | _ => None
      end
  end.

(** The rates that are logged are read without the mutex, by the only thread that
    writes what they are computed from. *)
Definition exec_adjust (range : Z) (s : system) : option system :=
  match adjust s with
  | Sleeping (S iterations) =>
      match (rate ← draw range (draws s); _ ← DynamicRateLimiter.get_token_bucket_rate; mret rate)
              (drl s) (readings s) with
      | Ok rate o n => Some (mk o n (S (draws s)) (enforce s) (Drawn rate iterations))
      | _ => None
      end
  | Sleeping O => None
  | Drawn rate iterations =>
      if locked s then None
      else match DynamicRateLimiter.configure_rate rate (drl s) (readings s) with
           | Ok _ o n => Some (mk o n (draws s) (enforce s) (Updating iterations))
           | _ => None
           end
  | Updating iterations =>
      if locked s then None
      else
        let o := DynamicRateLimiter.set_rate
          (ddiv (TokenBucket.get_capacity (DynamicRateLimiter.m_bucket (drl s)))
             (to_double (TokenBucket.get_refill_period (DynamicRateLimiter.m_bucket (drl s))))) (drl s) in
        match DynamicRateLimiter.get_token_bucket_rate o (readings s) with
        | Ok _ o n => Some (mk o n (draws s) (enforce s) (Sleeping iterations))
        | _ => None
        end
  end.

Definition exec (size range : Z) (e : event) (s : system) : option system :=
  match e with Enforce => exec_enforce size s | Adjust => exec_adjust range s end.

Fixpoint exec_all (size range : Z) (events : list event) (s : system) : option system :=
  match events with
  | [] => Some s
  | e :: events => exec size range e s ≫= exec_all size range events
  end.

(** One event after another, on a schedule. *)
Definition steps (size range : Z) (s s' : system) : Prop := exists e, exec size range e s = Some s'.

Definition ended (s : system) : bool :=
  match enforce s, adjust s with Enforcing _ O, Sleeping O => true | _, _ => false end.

Definition test_drl_enforcement (o : DynamicRateLimiter.t) (n k : nat)
    (enforce_iterations configure_iterations : Z) : system :=
  mk o n k (Enforcing 0 (Z.to_nat enforce_iterations)) (Sleeping (Z.to_nat configure_iterations)).

(** ** The program *)

Inductive TestType := configs | simple_enforce | advanced_enforce.

Definition TestType_of (test : string) : option TestType :=
  if bool_decide (test = "config") then Some configs
  else if bool_decide (test = "simple_enforce") then Some simple_enforce
  else if bool_decide (test = "advanced_enforce") then Some advanced_enforce
  else None.

(** The tests of one thread, on the shared limiter. *)
Definition run_configs (ops throughput_range rate : Z) (detailed_logging : bool) :
    M DynamicRateLimiter.t unit :=
  let k := Z.to_nat (s32 ops) in
  _ ← test_obj_drl_configure DRL_init throughput_range (s32 ops) 0;
  _ ← test_obj_drl_configure DRL_rate throughput_range (s32 ops) k;
  _ ← test_obj_drl_configure DRL_refill throughput_range (s32 ops) (k + k);
  _ ← test_obj_drl_change_rate rate detailed_logging;
  mret tt.

Definition run_simple_enforce (enforcement_ops throughput_range rate : Z) (detailed_logging : bool) :
    M DynamicRateLimiter.t (Z * Z) :=
  _ ← test_obj_drl_change_rate rate detailed_logging;
  elapsed ← test_obj_drl_enforce 1 (s32 enforcement_ops);
  _ ← test_obj_configure_bg_worker 5 (s32 throughput_range) 0;
  mret elapsed.

Definition start_advanced_enforce (enforcement_ops rate : Z) (detailed_logging : bool) :
    M unit system :=
  shared_drl ← DynamicRateLimiter.default;
  '(_, shared_drl) ← on_local shared_drl (test_obj_drl_change_rate rate detailed_logging);
  n ← readings_so_far;
  mret (test_drl_enforcement shared_drl n 0 (s32 enforcement_ops) 10).

End Calls.

End DrlTest.

(** ** Rates *)

Import DrlTest.

Section Rates.
Context `{SystemClock} `{Random}.
Import DynamicRateLimiter.

(** A limiter of whole tokens each second, at least one, without statistics. *)
Definition setup (rate : Z) (o : DynamicRateLimiter.t) : Prop :=
  m_cost_per_request o = 1 /\ TokenBucket.m_collect_statistics (m_bucket o) = false /\
  TokenBucket.m_refill_period (m_bucket o) = one_second /\
  holds (TokenBucket.m_capacity (m_bucket o)) rate /\ 1 <= rate.

Definition rated (rate : Z) (o : DynamicRateLimiter.t) : Prop :=
  setup rate o /\ TokenBucket.well_formed (m_bucket o).

Lemma rated_waits rate o : rated rate o -> waits (m_bucket o).
Proof. intros [(_ & Hcol & Hp & _) Hwf]. split; [done|]. split; [done|]. rewrite Hp. done. Qed.

Lemma rate_read rate o n : setup rate o -> get_token_bucket_rate o n = Ok rate o n.
Proof.
  intros (_ & _ & Hp & Hc & _). unfold get_token_bucket_rate. rewrite gets_bind. unfold id.
  unfold TokenBucket.get_refill_period, TokenBucket.get_capacity. rewrite Hp.
  assert (ddiv (ddiv (to_double one_second) (to_double 1000)) (to_double 1000) = to_double 1) as ->
    by (vm_compute; reflexivity).
  destruct (holds_ddiv_one _ _ Hc) as (Hw & Hv & Hr). unfold double_to_long. rewrite dtrunc_val by done.
  rewrite Hv, Z.div_mul by (pose proof one64_pos; lia).
  rewrite decide_True by (unfold is_long, long_min, long_max; lia). done.
Qed.

Lemma configured old rate o n : rated old o -> 0 <= rate < 2 ^ 53 -> exists o',
  configure_rate rate o n = Ok tt o' n /\ m_cost_per_request o' = 1 /\
  TokenBucket.m_collect_statistics (m_bucket o') = false /\
  TokenBucket.m_refill_period (m_bucket o') = one_second /\
  holds (TokenBucket.m_capacity (m_bucket o')) rate /\ TokenBucket.well_formed (m_bucket o').
Proof.
  intros ((Hcost & Hcol & Hp & Hc & Ho) & (Hcap & Htok & Hle)) Hr.
  pose proof (normalize_one_second rate (m_bucket o) Hr Hp) as Hn.
  unfold configure_rate, modify. eexists. split; [reflexivity|].
  set (tokens := TokenBucket.normalize_tokens (to_double rate) (m_bucket o)) in *.
  change (TokenBucket.get_token_count (TokenBucket.set_capacity (to_double rate) (m_bucket o)))
    with (TokenBucket.m_tokens (m_bucket o)).
  assert (Hw : dwf tokens) by apply Hn.
  destruct (dgt (TokenBucket.m_tokens (m_bucket o)) tokens) eqn:Hg; rewrite dgt_val in Hg by done; bools;
    (split; [exact Hcost|split; [exact Hcol|split; [exact Hp|split; [exact Hn|]]]]).
  - split; [exact Hw|]. split; [exact Hw|reflexivity].
  - split; [exact Hw|]. split; [exact Htok|exact Hg].
Qed.

Lemma rate_configured old rate o n : rated old o -> 1 <= rate < 2 ^ 53 -> exists o',
  configure_rate rate o n = Ok tt o' n /\ rated rate o'.
Proof.
  intros Ho Hr. destruct (configured old rate o n Ho ltac:(lia)) as (o' & Hset & ? & ? & ? & ? & ?).
  exists o'. split; [exact Hset|]. split; [|done]. split_and!; (done || lia).
Qed.

(** Steps of the bucket leave how it is set up. *)
Lemma step_setup p b n r b' n' : ConsumeSteps.step p b n = Ok r b' n' ->
  TokenBucket.m_collect_statistics b = false -> same_setup b b'.
Proof.
  intros Hs Hcol. destruct p as [c l|l it]; cbn [ConsumeSteps.step] in Hs.
  - apply bind_Ok_inv in Hs as (enough & b1 & n1 & Hw & Hs).
    assert (Hsame : same_setup b b1).
    { clear Hs. unfold ConsumeSteps.wait_iteration, TokenBucket.try_refill, TokenBucket.is_time_to_refill,
        TokenBucket.refill_operation, TokenBucket.sleep_for_refill in Hw.
      unfold now, gets, modify, mret, M_ret, mbind, M_bind in Hw.
      destruct (dgt c (TokenBucket.m_tokens b)); [|by injection Hw as <- <- <-].
      cbn in Hw. set (left := s64 (TokenBucket.m_next_refill_period b) - clock_at n) in Hw.
      destruct (left <=? 0) eqn:Hl; cbn in Hw.
      - rewrite Hl in Hw. cbn in Hw. rewrite Hcol in Hw. cbn in Hw.
        assert ((0 <? left) = false) as Hl' by (apply Z.ltb_ge; by apply Z.leb_le in Hl). rewrite Hl' in Hw.
        by injection Hw as <- <- <-.
      - rewrite Hl in Hw. destruct (0 <? left); [rewrite Hcol in Hw; cbn in Hw|];
          repeat case_match; by simplify_eq. }
    destruct enough; [|by injection Hs as <- <- <-]. rewrite modify_bind in Hs.
    destruct l as [l|]; [rewrite gets_bind in Hs|]; injection Hs as <- <- <-; exact Hsame.
  - by injection Hs as <- <- <-.
Qed.

End Rates.

(** ** The start of the program *)

Section Start.
Context `{SystemClock} `{Random}.
Import DynamicRateLimiter.

(** The two critical sections of [obj_configure], one after the other. *)
Lemma configure_sections rate o n o1 n1 : configure_rate rate o n = Ok tt o1 n1 ->
  obj_configure (DRLConfiguration_code DRL_rate) [rate] o n =
  Ok PStatus_OK (set_rate (ddiv (TokenBucket.get_capacity (m_bucket o1))
    (to_double (TokenBucket.get_refill_period (m_bucket o1)))) o1) n1.
Proof.
  intros Hc. unfold obj_configure.
  change (DRLConfiguration_of (DRLConfiguration_code DRL_rate)) with (Some DRL_rate). cbv iota.
  erewrite bind_Ok; [rewrite modify_bind; reflexivity|].
  unfold mbind, M_bind. change (vector_index [rate] 0 o n) with (Ok (S := t) rate o n). cbv iota.
  by rewrite Hc.
Qed.

Lemma rate_set old rate o n : rated old o -> 1 <= rate < 2 ^ 53 -> exists o',
  obj_configure (DRLConfiguration_code DRL_rate) [rate] o n = Ok PStatus_OK o' n /\ rated rate o'.
Proof.
  intros Ho Hr. destruct (rate_configured old rate o n Ho Hr) as (o1 & Ho1 & Hr1).
  eexists. split; [by apply configure_sections|exact Hr1].
Qed.

(** A change of the rate logs the rates before and after. *)
Lemma rate_changed old rate log o n : rated old o -> 1 <= rate < 2 ^ 53 -> exists o',
  obj_drl_change_rate rate log o n = Ok (PStatus_OK, if log then [old; rate] else []) o' n /\
  obj_configure (DRLConfiguration_code DRL_rate) [rate] o n = Ok PStatus_OK o' n /\ rated rate o'.
Proof.
  intros Ho Hr. destruct (rate_set old rate o n Ho Hr) as (o' & Hset & Hr').
  exists o'. split; [|by split]. unfold obj_drl_change_rate. destruct log.
  - erewrite bind_Ok by (rewrite (bind_Ok _ _ _ _ _ _ _ (rate_read _ _ _ (proj1 Ho))); reflexivity).
    rewrite (bind_Ok _ _ _ _ _ _ _ Hset).
    by erewrite bind_Ok by (rewrite (bind_Ok _ _ _ _ _ _ _ (rate_read _ _ _ (proj1 Hr'))); reflexivity).
  - by rewrite ret_bind, (bind_Ok _ _ _ _ _ _ _ Hset).
Qed.

(** A limiter of the default constructor, made at the n-th reading. *)
Definition default_limiter (n : nat) : DynamicRateLimiter.t :=
  mk 0 false (TokenBucket.mk (to_double 50000) (to_double 50000) one_second
    (u64 (clock_at n + one_second)) (u64 (clock_at (S n))) false TBStats.default 5000000) 1 d0 0
    drl_option_convergence_factor.

Lemma default_run {T} (s : T) n : DynamicRateLimiter.default s n = Ok (default_limiter n) s (S (S n)).
Proof. done. Qed.

Lemma default_rated n : rated 50000 (default_limiter n).
Proof.
  pose proof (holds_to_double 50000 ltac:(lia)) as H5. split.
  - split; [reflexivity|]. split; [reflexivity|]. split; [reflexivity|]. split; [exact H5|lia].
  - split; [apply H5|]. split; [apply H5|reflexivity].
Qed.

(** The last test, when its threads start. *)
Lemma advanced_started ops rate log u n : 1 <= rate < 2 ^ 53 -> exists o,
  start_advanced_enforce ops rate log u n =
    Ok (DrlTest.mk o (S (S n)) 0 (Enforcing 0 (Z.to_nat (s32 ops))) (Sleeping 10)) u (S (S n)) /\
  obj_configure (DRLConfiguration_code DRL_rate) [rate] (default_limiter n) (S (S n)) =
    Ok PStatus_OK o (S (S n)) /\ rated rate o.
Proof.
  intros Hr. destruct (rate_changed 50000 rate log (default_limiter n) (S (S n)) (default_rated n) Hr)
    as (o & Hrun & Hset & Hr').
  exists o. split; [|by split]. unfold start_advanced_enforce. rewrite (bind_Ok _ _ _ _ _ _ _ (default_run u n)).
  erewrite bind_Ok; [|unfold on_local, test_obj_drl_change_rate; rewrite Hrun; reflexivity].
  by destruct log.
Qed.

End Start.

(** ** The schedules *)

Section Schedules.
Context `{SystemClock} `{Random}.
Context (size range : Z).
Hypothesis progress : clock_progress.
Hypothesis size_small : 0 <= size < 2 ^ 53.
Hypothesis range_small : 0 < range <= 2 ^ 53.
Hypothesis never_zero : forall k, 0 < Z.rem (random k) range.

(** The limiter is set up, the ticket that holds the mutex gets out of the bucket, and
    the rate that has been drawn is a rate. *)
Definition going (s : system) : Prop :=
  (match adjust s with Drawn rate _ => 1 <= rate < 2 ^ 53 | _ => True end) /\
  exists rate, setup rate (drl s) /\
    match enforce s with
    | Enforcing _ _ => TokenBucket.well_formed (DynamicRateLimiter.m_bucket (drl s))
    | InLimiter _ _ place => exists b n,
        ConsumeSteps.finishes place (DynamicRateLimiter.m_bucket (drl s)) (readings s) b n /\ TokenBucket.well_formed b
    end.

Lemma drawn {S} k (s : S) n : exists rate, draw range k s n = Ok rate s n /\ 1 <= rate < 2 ^ 53.
Proof.
  exists (Z.rem (random k) range). pose proof (never_zero k) as Hk.
  unfold draw. rewrite (proj2 (Z.eqb_neq _ _)) by lia. split; [done|].
  pose proof (Z.rem_bound_abs (random k) range ltac:(lia)). lia.
Qed.

Lemma cost_of_ticket i o : DynamicRateLimiter.m_cost_per_request o = 1 ->
  holds (DynamicRateLimiter.basic_io_cost (ticket_of i size) o) size.
Proof.
  intros Hc. unfold DynamicRateLimiter.basic_io_cost. rewrite Hc, Z.mul_1_l.
  change (Ticket.m_payload (ticket_of i size)) with size.
  rewrite s64_small by (unfold is_long, long_min, long_max; lia). by apply holds_to_double.
Qed.

(** A ticket that enters the bucket gets out of it. *)
Lemma ticket_finishes i rate o n : rated rate o -> exists b n',
  ConsumeSteps.finishes
    (ConsumeSteps.start (DynamicRateLimiter.basic_io_cost (ticket_of i size) o)
       (DynamicRateLimiter.m_bucket o)) (DynamicRateLimiter.m_bucket o) n b n' /\ TokenBucket.well_formed b.
Proof.
  intros Hr. pose proof (rated_waits _ _ Hr) as Hw. destruct Hr as [(Hcost & _ & _ & (_ & Hcap & _) & H1) _].
  destruct (cost_of_ticket i o Hcost) as (Hcw & Hcv & _). pose proof one64_pos.
  destruct (try_consume_ends progress _ _ n Hw ltac:(rewrite Hcap; nia) Hcw ltac:(rewrite Hcv; nia))
    as (N & b & n' & [Hwf _] & _ & HN).
  exists b, n'. split; [|done]. apply try_consume_steps. by exists N.
Qed.

(** The next step of a ticket in the bucket. *)
Lemma next_step place b n b' n' : ConsumeSteps.finishes place b n b' n' ->
  ConsumeSteps.step place b n = Ok None b' n' \/
  exists place1 b1 n1, ConsumeSteps.step place b n = Ok (Some place1) b1 n1 /\
    ConsumeSteps.finishes place1 b1 n1 b' n'.
Proof. intros [ | ]; [by left|right; eauto]. Qed.

Lemma setup_step rate o n place r b' n' : setup rate o ->
  ConsumeSteps.step place (DynamicRateLimiter.m_bucket o) n = Ok r b' n' ->
  setup rate (DynamicRateLimiter.set_bucket b' o).
Proof.
  intros (Hcost & Hcol & Hp & Hc & H1) Hs.
  destruct (step_setup _ _ _ _ _ _ Hs Hcol) as (Ec & Ecol & Ep).
  unfold setup. cbn. rewrite Ec, Ecol, Ep. done.
Qed.

(** Outside of the bucket. *)
Lemma going_enforcing d adj i k o n : (exists rate, rated rate o) ->
  match adj with Drawn rate _ => 1 <= rate < 2 ^ 53 | _ => True end ->
  going (mk o n d (Enforcing i k) adj).
Proof. intros (rate & Hs & Hwf) Hadj. split; [exact Hadj|]. by exists rate. Qed.

Lemma enforce_event s : going s ->
  match enforce s with
  | Enforcing _ O => exec size range Enforce s = None
  | Enforcing i (S k) => exists place, exec size range Enforce s =
        Some (mk (drl s) (readings s) (draws s) (InLimiter i k place) (adjust s)) /\
      going (mk (drl s) (readings s) (draws s) (InLimiter i k place) (adjust s))
  | InLimiter i k place => exists r b n, ConsumeSteps.step place (DynamicRateLimiter.m_bucket (drl s))
        (readings s) = Ok r b n /\
      let s' := mk (DynamicRateLimiter.set_bucket b (drl s)) n (draws s)
        (match r with Some place => InLimiter i k place | None => Enforcing (i + 1) k end) (adjust s) in
      exec size range Enforce s = Some s' /\ going s'
  end.
Proof.
  intros (Hadj & rate & Hs & He). cbn [exec]. unfold exec_enforce.
  destruct (enforce s) as [i [|k]|i k place]; [done|eexists; split; [reflexivity|]|].
  - split; [exact Hadj|]. exists rate. split; [exact Hs|]. by apply (ticket_finishes i rate).
  - destruct He as (b' & n' & Hf & Hwf).
    destruct (next_step _ _ _ _ _ Hf) as [Hstep|(place1 & b1 & n1 & Hstep & Hf1)].
    + exists None, b', n'. split; [exact Hstep|]. cbv zeta. unfold zoom. rewrite Hstep. split; [done|].
      split; [exact Hadj|]. exists rate. split; [by eapply setup_step|exact Hwf].
    + exists (Some place1), b1, n1. split; [exact Hstep|]. cbv zeta. unfold zoom. rewrite Hstep.
      split; [done|]. split; [exact Hadj|]. exists rate. split; [by eapply setup_step|].
      by exists b', n'.
Qed.

(** What an adjustment does to the thread, and when it can. *)
Lemma adjust_event s : going s ->
  match adjust s with
  | Sleeping O => exec size range Adjust s = None
  | Sleeping (S j) => exists rate,
      let s' := mk (drl s) (readings s) (S (draws s)) (enforce s) (Drawn rate j) in
      exec size range Adjust s = Some s' /\ going s'
  | Drawn rate j => locked s = true /\ exec size range Adjust s = None \/
      exists o, let s' := mk o (readings s) (draws s) (enforce s) (Updating j) in
      locked s = false /\ exec size range Adjust s = Some s' /\ going s'
  | Updating j => locked s = true /\ exec size range Adjust s = None \/
      exists o, let s' := mk o (readings s) (draws s) (enforce s) (Sleeping j) in
      locked s = false /\ exec size range Adjust s = Some s' /\ going s'
  end.
Proof.
  intros (Hadj & rate & Hs & He). cbn [exec]. unfold exec_adjust.
  destruct (adjust s) as [[|j]|r j|j]; [done|..].
  - destruct (drawn (draws s) (drl s) (readings s)) as (r & Hd & Hr). exists r. cbv zeta.
    rewrite (bind_Ok _ _ _ _ _ _ _ Hd), (bind_Ok _ _ _ _ _ _ _ (rate_read _ _ _ Hs)).
    split; [done|]. split; [exact Hr|]. by exists rate.
  - unfold locked. destruct (enforce s) as [i k|i k place]; [right|by left].
    destruct (rate_configured rate r (drl s) (readings s) ltac:(by split) Hadj) as (o & Ho & Hrated).
    exists o. cbv zeta. rewrite Ho. split; [done|]. split; [done|]. apply going_enforcing; [by exists r|done].
  - unfold locked. destruct (enforce s) as [i k|i k place]; [right|by left].
    eexists. cbv zeta. rewrite (rate_read rate) by exact Hs. split; [done|]. split; [reflexivity|].
    apply going_enforcing; [|done]. exists rate. by split.
Qed.

Lemma going_exec e s s' : going s -> exec size range e s = Some s' -> going s'.
Proof.
  intros Hg He. destruct e.
  - pose proof (enforce_event s Hg) as Hev. destruct (enforce s) as [i [|k]|i k place]; [congruence|..].
    + destruct Hev as (place & Hex & Hg'). congruence.
    + destruct Hev as (r & b & n & _ & Hex & Hg'). congruence.
  - pose proof (adjust_event s Hg) as Hev. destruct (adjust s) as [[|j]|r j|j]; [congruence|..].
    + destruct Hev as (rate & Hex & Hg'). congruence.
    + destruct Hev as [[_ Hex]|(o & _ & Hex & Hg')]; congruence.
    + destruct Hev as [[_ Hex]|(o & _ & Hex & Hg')]; congruence.
Qed.

Lemma going_rtc s s' : going s -> rtc (steps size range) s s' -> going s'.
Proof. intros Hg. induction 1 as [|s s1 s' [e He] _ IH]; [done|]. apply IH. by eapply going_exec. Qed.

(** A thread can do a step until both have ended. *)
Lemma going_step s : going s -> ended s = false -> exists s', steps size range s s'.
Proof.
  intros Hg Hend. pose proof (enforce_event s Hg) as He. pose proof (adjust_event s Hg) as Ha.
  unfold ended, locked in *. destruct (enforce s) as [i [|k]|i k place].
  - destruct (adjust s) as [[|j]|r j|j]; [done|..].
    + destruct Ha as (rate & Hex & _). by eexists _, Adjust.
    + destruct Ha as [[? _]|(o & _ & Hex & _)]; [done|]. by eexists _, Adjust.
    + destruct Ha as [[? _]|(o & _ & Hex & _)]; [done|]. by eexists _, Adjust.
  - destruct He as (place & Hex & _). by eexists _, Enforce.
  - destruct He as (r & b & n & _ & Hex & _). by eexists _, Enforce.
Qed.

Definition ends (s : system) : Prop := sn (steps size range) s.

(** A state from which the ticket gets on whatever the adjuster has done. *)
Lemma ends_locked (P : system -> Prop) :
  (forall s, P s -> going s /\ locked s = true) ->
  (forall s s', P s -> exec size range Adjust s = Some s' -> P s') ->
  (forall s s', P s -> exec size range Enforce s = Some s' -> ends s') ->
  forall s, P s -> ends s.
Proof.
  intros HP Hadjust Henforce.
  assert (Hblocked : forall s, P s -> exec size range Adjust s = None -> ends s).
  { intros s Hs Hnone. constructor. intros s' [[] He]; [by eapply Henforce|congruence]. }
  intros s Hs. constructor. intros s' [[] He]; [by eapply Henforce|].
  apply Hblocked; [by eapply Hadjust|].
  destruct (HP s Hs) as [Hg Hl]. pose proof (adjust_event s Hg) as Ha.
  destruct (adjust s) as [[|j]|r j|j]; [congruence|..].
  - destruct Ha as (rate & Hex & _). rewrite He in Hex. injection Hex as ->.
    cbn [exec]. unfold exec_adjust. cbn [adjust]. change (locked _) with (locked s). by rewrite Hl.
  - destruct Ha as [[_ Hex]|(o & Hl' & _)]; congruence.
  - destruct Ha as [[_ Hex]|(o & Hl' & _)]; congruence.
Qed.

(** The event of an adjuster keeps the ticket where it is. *)
Lemma adjust_locked s s' : going s -> locked s = true -> exec size range Adjust s = Some s' ->
  drl s' = drl s /\ readings s' = readings s /\ enforce s' = enforce s.
Proof.
  intros Hg Hl He. pose proof (adjust_event s Hg) as Ha.
  destruct (adjust s) as [[|j]|r j|j]; [congruence|..].
  - destruct Ha as (rate & Hex & _). rewrite He in Hex. by injection Hex as ->.
  - destruct Ha as [[_ Hex]|(o & Hl' & _)]; congruence.
  - destruct Ha as [[_ Hex]|(o & Hl' & _)]; congruence.
Qed.

(** With a ticket at a place of the bucket. *)
Definition at_place (i : Z) (k : nat) (place : ConsumeSteps.place) (b : TokenBucket.t) (n : nat)
    (s : system) : Prop :=
  going s /\ enforce s = InLimiter i k place /\ DynamicRateLimiter.m_bucket (drl s) = b /\ readings s = n.

Lemma at_place_ends i k place b n :
  (forall s s', at_place i k place b n s -> exec size range Enforce s = Some s' -> ends s') ->
  forall s, at_place i k place b n s -> ends s.
Proof.
  intros Hnext. apply (ends_locked (at_place i k place b n)); [| |exact Hnext].
  - intros s (Hg & He & _). split; [exact Hg|]. unfold locked. by rewrite He.
  - intros s s' (Hg & He & Hb & Hn) Hex.
    assert (locked s = true) as Hl by (unfold locked; by rewrite He).
    pose proof (going_exec _ _ _ Hg Hex) as Hg'.
    destruct (adjust_locked _ _ Hg Hl Hex) as (Hd & Hr & He').
    split; [exact Hg'|]. rewrite Hd, Hr, He'. split; [exact He|]. by split.
Qed.

Lemma in_limiter_ends k place b n b' n' : ConsumeSteps.finishes place b n b' n' ->
  (forall s i, going s -> enforce s = Enforcing i k -> ends s) ->
  forall s i, at_place i k place b n s -> ends s.
Proof.
  intros Hf Hk. induction Hf as [place b n b' n' Hs|place b n place1 b1 n1 b' n' Hs _ IH]; intros s i;
    apply at_place_ends; clear s; intros s s' (Hg & He & Hb & Hn) Hex;
    pose proof (enforce_event s Hg) as Hev; rewrite He in Hev;
    destruct Hev as (r & b2 & n2 & Hstep & Hex2 & Hg2); rewrite Hb, Hn, Hs in Hstep;
    injection Hstep as <- <- <-; rewrite Hex in Hex2; injection Hex2 as ->.
  - exact (Hk _ (i + 1) Hg2 eq_refl).
  - apply (IH _ i). split; [exact Hg2|]. done.
Qed.

(** How far the adjuster is from its end. *)
Definition adjustments_left (a : adjuster) : nat :=
  match a with Sleeping j => 3 * j | Drawn _ j => 3 * j + 2 | Updating j => 3 * j + 1 end.

Lemma adjust_gets_on s s' : going s -> exec size range Adjust s = Some s' ->
  going s' /\ enforce s' = enforce s /\ (adjustments_left (adjust s') < adjustments_left (adjust s))%nat.
Proof.
  intros Hg He. pose proof (adjust_event s Hg) as Ha. rewrite He in Ha. clear He.
  destruct (adjust s) as [[|j]|r j|j]; [done|..].
  - destruct Ha as (rate & [= ->] & Hg'). split; [exact Hg'|]. split; [done|]. cbn [adjust adjustments_left]. lia.
  - destruct Ha as [[_ ?]|(o & _ & [= ->] & Hg')]; [done|]. split; [exact Hg'|]. split; [done|].
    cbn [adjust adjustments_left]. lia.
  - destruct Ha as [[_ ?]|(o & _ & [= ->] & Hg')]; [done|]. split; [exact Hg'|]. split; [done|].
    cbn [adjust adjustments_left]. lia.
Qed.

(** From the number of tickets before to this one, whatever is left to adjust. *)
Lemma enforcing_ends_step k :
  match k with
  | O => True
  | S k => forall s i, going s -> enforce s = Enforcing i k -> ends s
  end ->
  forall m s i, adjustments_left (adjust s) = m -> going s -> enforce s = Enforcing i k -> ends s.
Proof.
  intros Hk. induction m as [m IHm] using lt_wf_ind. intros s i Hm Hg He. constructor. intros s' [e Hex].
  destruct e.
  - pose proof (enforce_event s Hg) as Hev. rewrite He in Hev. destruct k as [|k]; [by rewrite Hex in Hev|].
    destruct Hev as (place & Hex' & Hg'). rewrite Hex in Hex'. injection Hex' as ->.
    assert (Hf := Hg'). destruct Hf as (_ & rate & _ & b' & n' & Hf & _).
    by apply (in_limiter_ends _ _ _ _ _ _ Hf Hk _ i).
  - destruct (adjust_gets_on _ _ Hg Hex) as (Hg' & He' & Hlt).
    apply (IHm (adjustments_left (adjust s')) ltac:(lia) s' i eq_refl Hg'). by rewrite He'.
Qed.

Lemma enforcing_ends k : forall s i, going s -> enforce s = Enforcing i k -> ends s.
Proof.
  induction k as [|k IH]; intros s i; [by apply (enforcing_ends_step 0 I _ s i eq_refl)|].
  exact (enforcing_ends_step (S k) IH _ s i eq_refl).
Qed.

Lemma going_ends s : going s -> ends s.
Proof.
  intros Hg. destruct (enforce s) as [i k|i k place] eqn:He; [by eapply enforcing_ends|].
  assert (Hf := Hg). destruct Hf as (_ & rate & _ & Hf). rewrite He in Hf. destruct Hf as (b' & n' & Hf & _).
  by apply (in_limiter_ends _ _ _ _ _ _ Hf (enforcing_ends k) _ i).
Qed.

End Schedules.

(** ** A rate of 0 *)

Section Stop.
Context `{SystemClock} `{Random}.
Context (size range : Z).

(** A ticket that turns in the rounds of a bucket without capacity. *)
Definition stopped (i : Z) (k : nat) (s : system) : Prop := exists place,
  enforce s = InLimiter i k place /\ turning place (DynamicRateLimiter.m_bucket (drl s)).

Lemma rate_kept o n rate o' n' : DynamicRateLimiter.get_token_bucket_rate o n = Ok rate o' n' ->
  o' = o /\ n' = n.
Proof.
  unfold DynamicRateLimiter.get_token_bucket_rate. rewrite gets_bind.
  destruct (double_to_long _); [|done]. by intros [= _ <- <-].
Qed.

Lemma draw_kept {T} k (o : T) n rate o' n' : draw range k o n = Ok rate o' n' -> o' = o /\ n' = n.
Proof. unfold draw. destruct (range =? 0); [done|]. by intros [= _ <- <-]. Qed.

Lemma stopped_exec i k e s s' : stopped i k s -> exec size range e s = Some s' -> stopped i k s'.
Proof.
  intros (place & He & Ht). destruct e; cbn [exec].
  - unfold exec_enforce. rewrite He. destruct (turning_step _ _ (readings s) Ht) as (place' & b' & Hs & Ht').
    unfold zoom. rewrite Hs. intros [= <-]. by exists place'.
  - unfold exec_adjust, locked. rewrite He. destruct (adjust s) as [[|j]|r j|j]; [done| |done..].
    match goal with |- match ?m with _ => _ end = _ -> _ => destruct m as [rate o n| |] eqn:Hd end;
      [|done..]. intros [= <-].
    apply bind_Ok_inv in Hd as (r & o1 & n1 & Hd & (r' & o2 & n2 & Hr & [= _ <- <-])%bind_Ok_inv).
    apply draw_kept in Hd as [-> ->]. apply rate_kept in Hr as [-> _]. exists place. by split.
Qed.

Lemma stopped_goes_on i k s : stopped i k s -> exists s', steps size range s s' /\ stopped i k s'.
Proof.
  intros (place & He & Ht). destruct (turning_step _ _ (readings s) Ht) as (place' & b' & Hs & Ht').
  eexists. split; [exists Enforce; cbn [exec]; unfold exec_enforce; rewrite He; unfold zoom; rewrite Hs; reflexivity|].
  by exists place'.
Qed.

Lemma stopped_rtc i k s s' : stopped i k s -> rtc (steps size range) s s' -> stopped i k s'.
Proof. intros Hst. induction 1 as [|s s1 s' [e He] _ IH]; [done|]. apply IH. by eapply stopped_exec. Qed.

Lemma stopped_for_ever i k s : stopped i k s -> ~ sn (steps size range) s.
Proof.
  intros Hst Hsn. induction Hsn as [s _ IH]. destruct (stopped_goes_on i k s Hst) as (s' & Hs & Hst').
  by apply (IH s').
Qed.

End Stop.

(** ** The rate over a run *)

Section Limit.
Context `{SystemClock} `{Random}.
Import TokenBucket.
(** The bucket and the reading at the start, and a bound of the rates. *)
Context (a0 : abstract) (n0 : nat) (top range : Z).
Hypothesis clock_range : forall n, 0 <= clock_at n < 2 ^ 62.
Hypothesis top_small : top < 2 ^ 53.
Hypothesis range_small : 0 < range <= top.
Hypothesis never_zero : forall k, 0 < Z.rem (random k) range.

Definition tickets (s : system) : Z :=
  match enforce s with Enforcing i _ | InLimiter i _ _ => i end.

(** The abstract bucket of a state, with the refills up to it: what has been served
    and what is left come from the first tokens and the refills, which are a second
    apart. *)
Definition accounted (a : abstract) (refills : Z) (s : system) : Prop :=
  DynamicRateLimiter.m_cost_per_request (drl s) = 1 /\
  represents (DynamicRateLimiter.m_bucket (drl s)) a /\ a_period a = one_second /\
  1 <= a_capacity a <= top /\ 0 <= refills /\
  tickets s + a_tokens a <= a_tokens a0 + top * refills /\
  a_next a0 + one_second * refills <= a_next a /\ (n0 <= readings s)%nat /\
  forall T, (forall i, (n0 <= i < readings s)%nat -> clock_at i <= T) ->
    a_next a <= Z.max (a_next a0) (T + one_second).

Definition within (s : system) : Prop :=
  (match adjust s with Drawn rate _ => 1 <= rate <= top | _ => True end) /\
  (match enforce s with
   | InLimiter _ _ place => exists c, place = ConsumeSteps.Consuming c None /\ holds c 1
   | Enforcing _ _ => True
   end) /\
  exists a refills, accounted a refills s.

(** An iteration of the loop for one token. *)
Lemma iteration_refines c b a n enough b' n' : holds c 1 -> represents b a ->
  ConsumeSteps.wait_iteration c b n = Ok enough b' n' ->
  if enough then 1 <= a_tokens a /\ b' = b /\ n' = n
  else n' = S n /\ (b' = b \/
    a_next a <= clock_at n /\ a_tokens a <= 0 /\
    represents b' (mkAbstract (a_capacity a) (a_capacity a) (a_period a) (clock_at n + a_period a))).
Proof.
  intros Hc Hr Hw. assert (Hr' := Hr). destruct Hr' as (Hcap & Htok & Htc & Hper & Hpr & Hnext & Hnr & Hcol).
  unfold ConsumeSteps.wait_iteration in Hw. rewrite gets_bind in Hw.
  rewrite (holds_dgt _ _ _ _ Hc Htok) in Hw.
  destruct (Z.ltb_spec (a_tokens a) 1) as [Hlt|Hge]; [|by injection Hw as <- <- <-].
  apply bind_Ok_inv in Hw as (left & b1 & n1 & Htry & (u & b2 & n2 & Hsleep & [= <- <- <-])%bind_Ok_inv).
  unfold sleep_for_refill in Hsleep.
  unfold try_refill, is_time_to_refill, refill_operation, now, gets, modify, mret, M_ret, mbind, M_bind
    in Htry.
  set (l := s64 (m_next_refill_period b) - clock_at n) in Htry.
  assert (Hl : l = a_next a - clock_at n).
  { unfold l. rewrite Hnext, s64_small; [done|]. unfold is_long, long_min, long_max. lia. }
  destruct (Z.leb_spec l 0) as [H1|H1]; simpl in Htry.
  - rewrite (proj2 (Z.leb_le l 0)) in Htry by done. simpl in Htry. rewrite Hcol in Htry.
    injection Htry as <- <- <-. rewrite (proj2 (Z.ltb_ge 0 l)) in Hsleep by done.
    injection Hsleep as <- <- <-. split; [done|]. right. split; [lia|]. split; [lia|].
    pose proof (clock_range n). destruct (represents_range _ _ Hr) as (_ & Hcap0 & _).
    split_and!; simpl; try done; try lia.
    unfold calc_next_refill_period. rewrite Hper. apply u64_small. unfold word. lia.
  - rewrite (proj2 (Z.leb_gt l 0)) in Htry by done. simpl in Htry. injection Htry as <- <- <-.
    rewrite (proj2 (Z.ltb_lt 0 l)) in Hsleep by done. rewrite gets_bind, Hcol, ret_bind, gets_bind in Hsleep.
    destruct (time_to_sleep (m_refill_period b)); [|done]. injection Hsleep as <- <- <-.
    split; [done|]. by left.
Qed.

(** The readings of the clock of a longer run. *)
Lemma later_readings a n n' : (n <= n')%nat ->
  (forall T, (forall i, (n0 <= i < n)%nat -> clock_at i <= T) -> a_next a <= Z.max (a_next a0) (T + one_second)) ->
  forall T, (forall i, (n0 <= i < n')%nat -> clock_at i <= T) -> a_next a <= Z.max (a_next a0) (T + one_second).
Proof. intros Hn Ha T HT. apply Ha. intros i Hi. apply HT. lia. Qed.

Lemma within_enforce s s' : within s -> exec 1 range Enforce s = Some s' -> within s'.
Proof.
  intros (Hadj & Hplace & a & refills & Hcost & Hr & Hper & Hcap & Hre & Hsum & Hnext & Hn & Ht).
  assert (Hr' := Hr). destruct Hr' as (Hc & Htk & _). cbn [exec]. unfold exec_enforce.
  destruct (enforce s) as [i [|k]|i k place] eqn:He; [done|..].
  - intros [= <-]. split; [exact Hadj|]. cbn [enforce drl].
    destruct (cost_of_ticket 1 ltac:(lia) i (drl s) Hcost) as (Hw & Hv & Hrange).
    assert (Hone : holds (DynamicRateLimiter.basic_io_cost (ticket_of i 1) (drl s)) 1) by done.
    split.
    + exists (DynamicRateLimiter.basic_io_cost (ticket_of i 1) (drl s)). split; [|exact Hone].
      unfold ConsumeSteps.start. rewrite (holds_dgt _ _ _ _ Hone Hc). by rewrite (proj2 (Z.ltb_ge _ _)) by lia.
    + exists a, refills. unfold tickets in Hsum. rewrite He in Hsum. split_and!; (done || lia).
  - destruct Hplace as (c & -> & Hone). unfold tickets in Hsum. rewrite He in Hsum.
    unfold zoom. cbn [ConsumeSteps.step].
    destruct ((ConsumeSteps.wait_iteration c ≫= _) _ _) as [next b' n'| |] eqn:Hs; [|done..].
    apply bind_Ok_inv in Hs as (enough & b1 & n1 & Hw & Hs).
    pose proof (iteration_refines c _ a (readings s) enough b1 n1 Hone Hr Hw) as Hi. destruct enough.
    + destruct Hi as (Htok & -> & ->). rewrite modify_bind in Hs. injection Hs as <- <- <-.
      intros [= <-]. split; [exact Hadj|]. split; [done|].
      exists (mkAbstract (a_capacity a) (a_tokens a - 1) (a_period a) (a_next a)), refills.
      split; [done|]. split.
      { assert (Hr' := Hr). destruct Hr' as (? & ? & ? & ? & ? & ? & ? & ?).
        split_and!; simpl; try done; try lia. apply holds_dsub; [done|done|lia]. }
      split; [exact Hper|]. split; [exact Hcap|]. split; [done|]. split; [cbn; lia|].
      split; [exact Hnext|]. by split.
    + destruct Hi as (-> & Hi). injection Hs as <- <- <-. intros [= <-]. split; [exact Hadj|].
      split; [by exists c|]. destruct Hi as [->|(Hle & Htok & Hr1)].
      * exists a, refills. split; [exact Hcost|]. split; [exact Hr|]. split; [exact Hper|].
        split; [exact Hcap|]. split; [done|]. split; [exact Hsum|]. split; [exact Hnext|].
        split; [cbn [readings]; lia|]. apply (later_readings a (readings s)); [cbn [readings]; lia|exact Ht].
      * exists (mkAbstract (a_capacity a) (a_capacity a) (a_period a) (clock_at (readings s) + a_period a)),
          (refills + 1).
        pose proof (represents_range _ _ Hr) as (Ht0 & _ & _).
        split; [exact Hcost|]. split; [exact Hr1|]. split; [exact Hper|]. split; [exact Hcap|].
        split; [lia|]. cbn [tickets enforce a_tokens a_next readings]. rewrite Hper.
        split; [nia|]. split; [nia|]. split; [lia|].
        intros T HT. specialize (HT (readings s) ltac:(lia)). lia.
Qed.

Lemma rate_accounted rate o a n : 1 <= rate <= top -> represents (DynamicRateLimiter.m_bucket o) a ->
  a_period a = one_second -> exists o', DynamicRateLimiter.configure_rate rate o n = Ok tt o' n /\
    DynamicRateLimiter.m_cost_per_request o' = DynamicRateLimiter.m_cost_per_request o /\
    represents (DynamicRateLimiter.m_bucket o')
      (mkAbstract rate (Z.min (a_tokens a) rate) one_second (a_next a)).
Proof.
  intros Hrate Hr Hper.
  destruct (rate_reconfigured rate [] o a n ltac:(lia) Hr Hper) as (o' & Hset & Hcost & Hr').
  destruct (DynamicRateLimiter.configure_rate rate o n) as [[] o1 n1| |] eqn:Hc; [|done..].
  assert (n1 = n) as -> by (unfold DynamicRateLimiter.configure_rate, modify in Hc; by injection Hc).
  rewrite (configure_sections _ _ _ _ _ Hc) in Hset. injection Hset as <-. by exists o1.
Qed.

Lemma within_adjust s s' : within s -> exec 1 range Adjust s = Some s' -> within s'.
Proof.
  intros (Hadj & Hplace & a & refills & Hcost & Hr & Hper & Hcap & Hre & Hsum & Hnext & Hn & Ht).
  cbn [exec]. unfold exec_adjust, locked. destruct (adjust s) as [[|j]|r j|j]; [done|..].
  - match goal with |- match ?m with _ => _ end = _ -> _ => destruct m as [rate o n| |] eqn:Hd end;
      [|done..]. intros [= <-].
    apply bind_Ok_inv in Hd as (r & o1 & n1 & Hd & (r' & o2 & n2 & Hread & [= <- <- <-])%bind_Ok_inv).
    destruct (drawn range ltac:(lia) never_zero (draws s) (drl s) (readings s)) as (r1 & Hd1 & Hr1).
    assert (Hlt : r < range).
    { unfold draw in Hd. rewrite (proj2 (Z.eqb_neq _ _)) in Hd by lia. injection Hd as <- _ _.
      pose proof (Z.rem_bound_abs (random (draws s)) range ltac:(lia)). lia. }
    rewrite Hd1 in Hd. injection Hd as -> <- <-. apply rate_kept in Hread as [-> ->].
    split; [cbn [adjust]; lia|]. split; [exact Hplace|]. by exists a, refills.
  - destruct (enforce s) as [i k|i k place] eqn:He; [|done].
    destruct (rate_accounted r (drl s) a (readings s) Hadj Hr Hper) as (o & -> & Hcost' & Hr').
    intros [= <-]. split; [done|]. cbn [enforce]. split; [done|].
    eexists _, refills. split; [by rewrite <- Hcost|]. split; [exact Hr'|].
    unfold tickets in Hsum. rewrite He in Hsum.
    split_and!; try done; cbn [a_capacity a_tokens a_next tickets enforce] in *; lia.
  - destruct (enforce s) as [i k|i k place] eqn:He; [|done].
    destruct (DynamicRateLimiter.get_token_bucket_rate _ _) as [rate o n| |] eqn:Hread; [|done..].
    apply rate_kept in Hread as [-> ->]. intros [= <-]. split; [done|]. cbn [enforce]. split; [done|].
    exists a, refills. unfold tickets in Hsum. rewrite He in Hsum. split_and!; (done || lia).
Qed.

Lemma within_rtc s s' : within s -> rtc (steps 1 range) s s' -> within s'.
Proof.
  intros Hw. induction 1 as [|s s1 s' [[] He] _ IH]; [done|apply IH..];
    [by eapply within_enforce|by eapply within_adjust].
Qed.

(** The tickets that have been enforced. *)
Lemma within_bound s : within s -> 0 <= a_tokens a0 -> forall T,
  (forall i, (n0 <= i < readings s)%nat -> clock_at i <= T) ->
  one_second * (tickets s - a_tokens a0) <= top * Z.max 0 (T + one_second - a_next a0).
Proof.
  intros (_ & _ & a & refills & _ & Hr & _ & _ & Hre & Hsum & Hnext & _ & Ht) Ha0 T HT.
  destruct (represents_range _ _ Hr) as (Htok & _). specialize (Ht T HT).
  transitivity (top * (one_second * refills)); [|apply Z.mul_le_mono_nonneg_l; lia].
  rewrite Z.mul_assoc, (Z.mul_comm top), <- Z.mul_assoc. apply Z.mul_le_mono_nonneg_l; [done|lia].
Qed.

End Limit.

Lemma exec_all_steps `{SystemClock} `{Random} size range events : forall s s',
  exec_all size range events s = Some s' -> rtc (steps size range) s s'.
Proof.
  induction events as [|e events IH]; intros s s'; cbn [exec_all]; [by intros [= <-]|].
  destruct (exec size range e s) as [s1|] eqn:He; [|done]. intros Hrun.
  eapply rtc_l; [by exists e|by apply IH].
Qed.

(** ** Theorems *)

Section Theorems.
Context `{SystemClock} `{Random}.

(** C22.  The advanced test of the benchmark ends on every schedule, when the clock gets past
    every instant and no rate of 0 is drawn: no interleaving of the thread that enforces
    with the one that adjusts goes on for ever, and none gets stuck before both
    threads are through, for every number of operations and every rate flag from 1 to
    2^31 - 1. *)
Theorem adjusted_enforcement_ends ops rate log u n :
  clock_progress -> 0 < rate < 2 ^ 31 -> (forall k, 0 < Z.rem (random k) (s32 rate)) ->
  exists s n', start_advanced_enforce ops rate log u n = Ok s u n' /\
    sn (steps 1 (s32 rate)) s /\
    forall s', rtc (steps 1 (s32 rate)) s s' ->
      ended s' = true \/ exists s'', steps 1 (s32 rate) s' s''.
Proof.
  intros Hprog Hr Hdraw. destruct (advanced_started ops rate log u n ltac:(lia)) as (o & Hrun & _ & Hrated).
  eexists _, _. split; [exact Hrun|].
  assert (Hs32 : s32 rate = rate) by (apply s32_small; unfold is_int, int_min, int_max; lia).
  assert (Hg : going (DrlTest.mk o (S (S n)) 0 (Enforcing 0 (Z.to_nat (s32 ops))) (Sleeping 10))).
  { split; [done|]. exists rate. exact Hrated. }
  assert (Hsize : 0 <= 1 < 2 ^ 53) by lia. assert (Hrange : 0 < s32 rate <= 2 ^ 53) by lia.
  split; [exact (going_ends 1 (s32 rate) Hprog Hsize Hrange Hdraw _ Hg)|].
  intros s' Hs'. destruct (ended s') eqn:Hend; [by left|right].
  apply (going_step 1 (s32 rate) Hprog Hsize Hrange Hdraw); [|exact Hend].
  exact (going_rtc 1 (s32 rate) Hprog Hsize Hrange Hdraw _ _ Hg Hs').
Qed.

(** C23.  A rate of 0 stops the advanced test.  When it has been drawn while tickets are left,
    the adjusting thread can set it, the other one can then take the mutex for its next
    ticket, and from there on no schedule ever serves this ticket: one thread is always
    in the bucket, with the mutex that the other one needs for the next rate. *)
Theorem zero_rate_stops size range s old i k j :
  rated old (drl s) -> 1 <= size < 2 ^ 53 ->
  enforce s = Enforcing i (S k) -> adjust s = Drawn 0 j ->
  exists s1 s2, exec size range Adjust s = Some s1 /\ exec size range Enforce s1 = Some s2 /\
    ~ sn (steps size range) s2 /\
    forall s', rtc (steps size range) s2 s' ->
      (exists place, enforce s' = InLimiter i k place) /\ ended s' = false /\
      exists s'', steps size range s' s''.
Proof.
  intros Ho Hsize He Ha.
  destruct (configured old 0 (drl s) (readings s) Ho ltac:(lia))
    as (o & Hset & Hcost & _ & _ & (_ & Hcap & _) & Hwf).
  set (s1 := DrlTest.mk o (readings s) (draws s) (enforce s) (Updating j)).
  set (place := ConsumeSteps.start (DynamicRateLimiter.basic_io_cost (ticket_of i size) o)
    (DynamicRateLimiter.m_bucket o)).
  exists s1, (DrlTest.mk o (readings s) (draws s) (InLimiter i k place) (Updating j)).
  assert (Hst : stopped i k (DrlTest.mk o (readings s) (draws s) (InLimiter i k place) (Updating j))).
  { exists place. split; [done|]. destruct (cost_of_ticket size ltac:(lia) i o Hcost) as (Hcw & Hcv & _).
    pose proof one64_pos. unfold place, ConsumeSteps.start. rewrite dgt_val by (done || apply Hwf).
    rewrite (proj2 (Z.ltb_lt _ _)) by (rewrite Hcap, Hcv; nia).
    split; [exact Hwf|]. split; [exact Hcap|]. split; [done|]. split; [rewrite Hcv; nia|]. by destruct Hwf. }
  split; [|split; [|split; [by eapply stopped_for_ever|]]].
  - cbn [exec]. unfold exec_adjust, locked, s1. by rewrite Ha, He, Hset.
  - cbn [exec]. unfold exec_enforce, s1. cbn [enforce drl readings draws adjust]. by rewrite He.
  - intros s' Hs'. pose proof (stopped_rtc size range i k _ _ Hst Hs') as Hst'.
    assert (H' := Hst'). destruct H' as (place' & He' & _). split; [by exists place'|].
    split; [unfold ended; by rewrite He'|]. destruct (stopped_goes_on size range i k _ Hst') as (s'' & Hs'' & _).
    by exists s''.
Qed.

(** C21.  The rates that are drawn limit the advanced test on every schedule.  For a rate
    flag from 1 to 2^31 - 1, and as long as no rate of 0 is drawn, its tickets are enforced at the rate of its flag at most, whatever smaller rates the other
    thread sets meanwhile: from the reading [n] of the clock, at which the limiter is
    made, to an instant [T], the last one read or later, no more tickets have
    been enforced than the limiter had tokens, and the rate for each second. *)
Theorem adjusted_enforcement_is_limited ops rate log u n s n' s' T :
  (forall i, 0 <= clock_at i < 2 ^ 62) -> 0 < rate < 2 ^ 31 ->
  (forall k, 0 < Z.rem (random k) (s32 rate)) ->
  start_advanced_enforce ops rate log u n = Ok s u n' ->
  rtc (steps 1 (s32 rate)) s s' ->
  (forall i, (n <= i < readings s')%nat -> clock_at i <= T) ->
  one_second * (tickets s' - Z.min 50000 rate) <= rate * Z.max 0 (T - clock_at n).
Proof.
  intros Hclock Hr Hdraw Hstart Hs' HT.
  assert (Hs32 : s32 rate = rate) by (apply s32_small; unfold is_int, int_min, int_max; lia).
  destruct (advanced_started ops rate log u n ltac:(lia)) as (o & Hrun & Hset & [(Hcost & _) _]).
  rewrite Hstart in Hrun. injection Hrun as -> _.
  set (a := TokenBucket.mkAbstract 50000 50000 one_second (clock_at n + one_second)).
  assert (Ha : TokenBucket.represents (DynamicRateLimiter.m_bucket (default_limiter n)) a).
  { pose proof (holds_to_double 50000 ltac:(lia)) as H5. pose proof (Hclock n) as Hn.
    split; [exact H5|]. split; [exact H5|]. unfold one_second in *.
    split_and!; cbn; try done; unfold one_second; try lia. apply u64_small. unfold word. lia. }
  destruct (rate_reconfigured rate [] _ a (S (S n)) ltac:(lia) Ha eq_refl) as (o' & Hset' & _ & Hr').
  rewrite Hset in Hset'. injection Hset' as <-.
  set (a0 := TokenBucket.mkAbstract _ _ _ _) in Hr'. rewrite Hs32 in Hs', Hdraw.
  assert (Hw : within a0 n rate (DrlTest.mk o (S (S n)) 0 (Enforcing 0 (Z.to_nat (s32 ops))) (Sleeping 10))).
  { split; [done|]. split; [done|]. exists a0, 0. split_and!; try done; cbn; lia. }
  pose proof (within_rtc a0 n rate rate Hclock ltac:(lia) ltac:(lia) Hdraw _ _ Hw Hs') as Hw'.
  pose proof (within_bound a0 n rate rate ltac:(lia) _ Hw' ltac:(cbn; lia) T HT) as Hb.
  replace (T + one_second - TokenBucket.a_next a0) with (T - clock_at n) in Hb by (cbn; lia). exact Hb.
Qed.

End Theorems.

(** ** Witnesses *)

(** Numbers that are never a multiple of 10, and numbers that all are. *)
Definition sample_random : Random := fun n => 10 * Z.of_nat n + 7.
Definition zero_random : Random := fun n => 10 * Z.of_nat n.

Lemma sample_draws k : 0 < Z.rem (@random sample_random k) (s32 10).
Proof.
  change (s32 10) with 10. unfold random, sample_random. rewrite Z.rem_mod_nonneg by lia.
  rewrite Z.add_comm, (Z.mul_comm 10), Z.mod_add by lia. reflexivity.
Qed.

Lemma ticking_progress : @clock_progress ticking_clock.
Proof. intros instant. exists (Z.to_nat instant). intros m Hm. unfold clock_at, ticking_clock. lia. Qed.

Lemma adjusted_enforcement_ends_witness : exists s n',
  @start_advanced_enforce ticking_clock 2 10 true tt O = Ok s tt n' /\
  sn (@steps ticking_clock sample_random 1 (s32 10)) s /\
  forall s', rtc (@steps ticking_clock sample_random 1 (s32 10)) s s' ->
    ended s' = true \/ exists s'', @steps ticking_clock sample_random 1 (s32 10) s' s''.
Proof.
  apply (@adjusted_enforcement_ends ticking_clock sample_random 2 10 true tt O);
    [apply ticking_progress|lia|exact sample_draws].
Defined.

(** A negative rate makes a negative capacity: 101 steps after the start the first ticket,
    of one token, is still in the bucket, with 200 tokens and more left to consume. *)
Lemma negative_rate_adds_tokens :
  match @start_advanced_enforce ticking_clock 2 (-5) true tt O with
  | Ok s _ _ =>
      match @exec_all ticking_clock sample_random 1 (s32 (-5)) (replicate 101 Enforce) s with
      | Some s' =>
          match enforce s' with
          | InLimiter 0 1 (ConsumeSteps.Rounds tokens_left iteration) =>
              dgt tokens_left (to_double 200) && dgt d0 iteration = true
          | _ => False
          end
      | None => False
      end
  | _ => False
  end.
Proof. vm_compute. reflexivity. Qed.

(** The first rate that is drawn is 0. *)
Lemma zero_rate_stops_witness : exists s0 n' s s1 s2,
  @start_advanced_enforce ticking_clock 2 10 true tt O = Ok s0 tt n' /\
  @exec ticking_clock zero_random 1 10 Adjust s0 = Some s /\
  @exec ticking_clock zero_random 1 10 Adjust s = Some s1 /\
  @exec ticking_clock zero_random 1 10 Enforce s1 = Some s2 /\
  ~ sn (@steps ticking_clock zero_random 1 10) s2.
Proof.
  destruct (@advanced_started ticking_clock 2 10 true tt O ltac:(lia)) as (o & Hrun & _ & Hrated).
  destruct (@zero_rate_stops ticking_clock zero_random 1 10
    (DrlTest.mk o 2 1 (Enforcing 0 2) (Drawn 0 9)) 10 0 1 9 Hrated ltac:(lia) eq_refl eq_refl)
    as (s1 & s2 & H1 & H2 & Hsn & _).
  eexists _, _, _, s1, s2. split; [exact Hrun|]. split; [|split; [exact H1|]; by split].
  cbn [exec]. unfold exec_adjust. cbn [adjust readings drl draws].
  assert (Hdraw : @draw zero_random _ 10 0 o 2%nat = Ok 0 o 2%nat) by reflexivity.
  rewrite (bind_Ok _ _ _ _ _ _ _ Hdraw), (bind_Ok _ _ _ _ _ _ _ (rate_read 10 o 2 (proj1 Hrated))).
  reflexivity.
Defined.

Definition sample_run : list event := [Adjust; Enforce; Enforce; Adjust; Adjust; Enforce; Enforce].

Lemma adjusted_enforcement_is_limited_witness : exists s n' s',
  @start_advanced_enforce bounded_clock 2 10 true tt O = Ok s tt n' /\
  @exec_all bounded_clock sample_random 1 10 sample_run s = Some s' /\ tickets s' = 2 /\
  one_second * (tickets s' - 10) <= 10 * Z.max 0 (@clock_at bounded_clock 100 - @clock_at bounded_clock 0).
Proof.
  destruct (is_Ok_inv (@start_advanced_enforce bounded_clock 2 10 true tt O)) as (s & u & n' & Hs);
    [vm_compute; reflexivity|].
  assert (Hrun : match @start_advanced_enforce bounded_clock 2 10 true tt O with
    | Ok s _ _ => match @exec_all bounded_clock sample_random 1 10 sample_run s with
                  | Some s' => (tickets s' =? 2) && (readings s' <? 100)%nat
                  | None => false
                  end
    | _ => false
    end = true) by (vm_compute; reflexivity).
  rewrite Hs in Hrun. destruct (@exec_all bounded_clock sample_random 1 10 sample_run s) as [s'|] eqn:He; [|done].
  apply andb_true_iff in Hrun as [Htickets%Z.eqb_eq Hreadings%Nat.ltb_lt].
  exists s, n', s'. destruct u. split; [exact Hs|]. split; [done|]. split; [exact Htickets|].
  apply (@adjusted_enforcement_is_limited bounded_clock sample_random 2 10 true tt O s n' s').
  - intros i. unfold clock_at, bounded_clock. lia.
  - lia.
  - exact sample_draws.
  - exact Hs.
  - by eapply exec_all_steps.
  - intros i Hi. unfold clock_at, bounded_clock. lia.
Defined.
