(* ===== verification/ClassBenchmarks.v ===== *)
(** * The benchmarks of the no-op object and of the hash functions

    [benchmarking/paio_object_noop_test.cpp] lets threads enforce tickets on one
    [NoopObject], whose counter is behind a mutex when more than one thread shares it;
    [benchmarking/murmurhash_performance_test.cpp] hashes a message with the number of
    each iteration.  The theorems are that the counter misses no ticket however the
    threads interleave and that all of them end, and what the hash test computes. *)

From S2P Require Import Prelude MachineInt Murmur Options EnforcementObjects Differentiation.

(** ** The no-op object *)

Module NoopTest.

(** The ticket of the i-th iteration, from a buffer of zeros or without content. *)
Definition ticket_without_content {S} (i : Z) : M S Ticket.t :=
  mret (Ticket.make i 1 1 (PAIO_GENERAL_.code PAIO_GENERAL_.no_op)
          (PAIO_GENERAL_.code PAIO_GENERAL_.no_op)).

Definition ticket_with_content {S} (operation_size i : Z) : M S Ticket.t :=
  let message := replicate (Z.to_nat operation_size) 0 in
  Ticket_make_content i 1 (1 * operation_size) (PAIO_GENERAL_.code PAIO_GENERAL_.no_op)
    (PAIO_GENERAL_.code PAIO_GENERAL_.no_op) (u64 operation_size) (Some message).

(** The body of the loops: the line that an error prints counts as 1. *)
Definition enforce_ticket (ticket_of : Z -> M NoopObject.t Ticket.t) (i : Z) : M NoopObject.t Z :=
  ticket ← ticket_of i;
  result ← NoopObject.obj_enforce ticket Result.default;
  mret (if decide (Result.m_result_status result = error) then 1 else 0).

Section Fuel.
Context `{SystemClock}.
(** Fuel of the loop, whose counter wraps around. *)
Context (fuel : nat).

Fixpoint enforce_loop (fuel : nat) (ticket_of : Z -> M NoopObject.t Ticket.t) (iterations i : Z) :
    M NoopObject.t Z :=
  match fuel with
  | O => crash_with OutOfFuel
  | S fuel =>
      if i <=? iterations then
        error_line ← enforce_ticket ticket_of i;
        errors ← enforce_loop fuel ticket_of iterations (u64 (i + 1));
        mret (error_line + errors)
      else mret 0
  end.

Definition test_obj_noop_enforce_without_content (iterations : Z) : M NoopObject.t Z :=
  enforce_loop fuel ticket_without_content iterations 1.

Definition test_obj_noop_enforce_with_content (iterations operation_size : Z) :
    M NoopObject.t Z :=
  enforce_loop fuel (ticket_with_content operation_size) iterations 1.

(** The errors and the time that has elapsed. *)
Definition test_obj_noop_enforce (iterations buffer_size : Z) : M NoopObject.t (Z * Z) :=
  start ← now;
  errors ← (if 0 <? buffer_size
            then test_obj_noop_enforce_with_content iterations buffer_size
            else test_obj_noop_enforce_without_content iterations);
  end_ ← now;
  mret (errors, end_ - start).

End Fuel.

(** *** Threads *)

(** Before the test of the loop for the i-th ticket; about to increment the counter,
    with the lock of a shared object; with the value it has read of the counter. *)
Inductive worker :=
| Next (i : Z)
| Counting (i : Z)
| Counted (i value : Z).

Record system := mk {
  noop_obj : NoopObject.t;
  m_lock : option nat;            (* the worker that has it *)
  total_workers : list worker;
  errors : Z;                     (* the lines that report an error *)
}.

Definition set_worker (k : nat) (w : worker) (s : system) : system :=
  mk (noop_obj s) (m_lock s) (<[k:=w]> (total_workers s)) (errors s).
Definition set_lock (l : option nat) (s : system) : system :=
  mk (noop_obj s) l (total_workers s) (errors s).
Definition with_counter (value : Z) (o : NoopObject.t) : NoopObject.t :=
  NoopObject.mk (NoopObject.m_object_id o) (NoopObject.m_tag_name o) value (NoopObject.m_shared o).

Definition ticket_of_size {S} (buffer_size : Z) : Z -> M S Ticket.t :=
  if 0 <? buffer_size then ticket_with_content buffer_size else ticket_without_content.

(** One event of the k-th worker, in its loop or in [increment_counter].  The counter is read in one event and written in
    another one: the write is that of [obj_enforce] on the value that was read.  What
    else the call does is on the ticket and on the result of the worker. *)
Definition exec (iterations buffer_size : Z) (k : nat) (s : system) : option system :=
  match total_workers s !! k with
  | Some (Next i) =>
      if i <=? iterations then
        if NoopObject.m_shared (noop_obj s) then
          match m_lock s with
          | None => Some (set_lock (Some k) (set_worker k (Counting i) s))
          | Some _ => None
          end
        else Some (set_worker k (Counting i) s)
      else None
  | Some (Counting i) => Some (set_worker k (Counted i (NoopObject.m_counter (noop_obj s))) s)
  | Some (Counted i value) =>
      match enforce_ticket (ticket_of_size buffer_size) i (with_counter value (noop_obj s)) O with
      | Ok error_line o _ =>
          Some (mk o (if NoopObject.m_shared o then None else m_lock s)
                  (<[k:=Next (u64 (i + 1))]> (total_workers s)) (errors s + error_line))
      | _ => None
      end
  | None => None
  end.

Definition steps (iterations buffer_size : Z) (s s' : system) : Prop :=
  exists k, exec iterations buffer_size k s = Some s'.

Fixpoint exec_all (iterations buffer_size : Z) (events : list nat) (s : system) : option system :=
  match events with
  | [] => Some s
  | k :: events => exec iterations buffer_size k s ≫= exec_all iterations buffer_size events
  end.

(** The tickets that a worker is through with. *)
Definition enforced_by (w : worker) : Z :=
  match w with Next i | Counting i | Counted i _ => i - 1 end.

Definition total (f : worker -> Z) (ws : list worker) : Z := foldr (fun w n => f w + n) 0 ws.

(** The worker has left its loop. *)
Definition is_done (iterations : Z) (w : worker) : bool :=
  match w with Next i => iterations <? i | _ => false end.

Definition test_obj_noop_enforce_multithreading {S} (noop : NoopObject.t) (workers : Z) :
    M S system :=
  if workers <=? 0 then crash_with (UndefinedBehaviour "array without elements")
  else mret (mk noop None (replicate (Z.to_nat workers) (Next 1)) 0).

(** The flags of the program.  [ops] is a signed number, the loops count with an
    unsigned one. *)
Definition start {S} (threads : Z) : M S system :=
  let is_shared := 1 <? threads in
  test_obj_noop_enforce_multithreading (NoopObject.make_tagged 1 "noop_test" is_shared) (s32 threads).

Definition iterations_of (ops : Z) : Z := u64 ops.

End NoopTest.

(** ** The hash functions *)

Module MurmurHash3Test.

Definition build_message (workflow_id operation_type operation_context : Z) : string :=
  let message_token := to_string workflow_id in
  let message_token := (message_token +:+ "|") +:+ to_string operation_type in
  (message_token +:+ "|") +:+ to_string operation_context.

(** The 32-bit words that a scheme leaves from the address of the hash on. *)
Definition words_of (scheme : HashingScheme) (message : list Z) : list Z :=
  match scheme with
  | MurmurHash_x86_32 => [MurmurHash3.MurmurHash3_x86_32 message]
  | MurmurHash_x86_128 => MurmurHash3.MurmurHash3_x86_128 message
  | MurmurHash_x64_128 =>
      flat_map (fun h => [u32 h; Z.shiftr h 32]) (MurmurHash3.MurmurHash3_x64_128 message)
  end.

(** [generate_differentiation_token] into an array of [room] words. *)
Definition operation_hash {S} (scheme : HashingScheme) (room : Z) (content : string) : M S (list Z) :=
  if fst (MurmurHashTokenBuilder.generate_differentiation_token scheme (bytes_of_string content))
       <=? 4 * room
  then mret (words_of scheme (bytes_of_string content))
  else crash_with (UndefinedBehaviour "write past operation_hash").

Section Fuel.
Context `{SystemClock}.
Context (fuel : nat).

(** The hashes that are printed, one for each iteration.  The counter is an [int], the
    number of iterations a [long]. *)
Fixpoint hash_loop {S} (fuel : nat) (scheme : HashingScheme) (room : Z) (msg : string)
    (iterations : Z) (detailed : bool) (i : Z) : M S (list (list Z)) :=
  match fuel with
  | O => crash_with OutOfFuel
  | Datatypes.S fuel =>
      if i <? iterations then
        hash ← operation_hash scheme room (msg +:+ to_string i);
        if i =? int_max then crash_with (UndefinedBehaviour "signed overflow")
        else
          rest ← hash_loop fuel scheme room msg iterations detailed (i + 1);
          mret (if detailed then hash :: rest else rest)
      else mret []
  end.

(** The hashes, and the time that has elapsed. *)
Definition timed {S A} (test : M S A) : M S (A * Z) :=
  start ← now;
  a ← test;
  end_ ← now;
  mret (a, end_ - start).

Definition test_murmurhash3_x86_32 {S} (msg : string) (iterations : Z) (detailed : bool) :
    M S (list (list Z) * Z) :=
  timed (hash_loop fuel MurmurHash_x86_32 1 msg iterations detailed 0).

Definition test_murmurhash3_x86_128 {S} (msg : string) (iterations : Z) (detailed : bool) :
    M S (list (list Z) * Z) :=
  timed (hash_loop fuel MurmurHash_x86_128 4 msg iterations detailed 0).

Definition test_murmurhash3_x64_128 {S} (msg : string) (iterations : Z) (detailed : bool) :
    M S (list (list Z) * Z) :=
  timed (hash_loop fuel MurmurHash_x64_128 4 msg iterations detailed 0).

(** [None] where only "MurmurHash not supported." is printed; the scheme of a name
    that is not known is the value 0 of the enumeration, which has no case. *)
Definition test_murmurhash {S} (scheme : option HashingScheme) (message : string)
    (iterations : Z) (detailed : bool) : M S (option (list (list Z) * Z)) :=
  match scheme with
  | Some MurmurHash_x86_32 =>
      report ← test_murmurhash3_x86_32 message iterations detailed; mret (Some report)
  | Some MurmurHash_x86_128 =>
      report ← test_murmurhash3_x86_128 message iterations detailed; mret (Some report)
  | Some MurmurHash_x64_128 =>
      report ← test_murmurhash3_x64_128 message iterations detailed; mret (Some report)
  | None => mret None
  end.

Definition scheme_of (hash : string) : option HashingScheme :=
  if bool_decide (hash = "murmurhash_x86_32") then Some MurmurHash_x86_32
  else if bool_decide (hash = "murmurhash_x86_128") then Some MurmurHash_x86_128
  else if bool_decide (hash = "murmurhash_x64_128") then Some MurmurHash_x64_128
  else None.

Definition default_message : string :=
  build_message 0 (u32 (PAIO_GENERAL_.code PAIO_GENERAL_.no_op))
    (u32 (PAIO_GENERAL_.code PAIO_GENERAL_.no_op)).

Definition main {S} (hash : string) (ops : Z) (detailed_log : bool) :
    M S (option (list (list Z) * Z)) :=
  test_murmurhash (scheme_of hash) default_message ops detailed_log.

End Fuel.

End MurmurHash3Test.

(** ** Tickets on the no-op object *)

Import NoopTest.

Lemma with_counter_id o : with_counter (NoopObject.m_counter o) o = o.
Proof. by destruct o. Qed.

Lemma memcpy_all {S} bytes size (s : S) n : size = Z.of_nat (length bytes) ->
  memcpy (Some bytes) size s n = Ok bytes s n.
Proof. intros ->. unfold memcpy. by rewrite Z.ltb_irrefl, Nat2Z.id, firstn_all. Qed.

(** Every ticket is enforced, without an error and without a change but the counter. *)
Lemma ticket_enforced size i o n : is_long size ->
  enforce_ticket (ticket_of_size size) i o n
  = Ok 0 (with_counter (u32 (NoopObject.m_counter o + 1)) o) n.
Proof.
  unfold is_long, long_min, long_max. intros Hsize.
  unfold enforce_ticket, ticket_of_size, ticket_with_content, ticket_without_content.
  destruct (Z.ltb_spec 0 size) as [Hpos|]; [|by destruct o].
  assert (Hlen : size = Z.of_nat (length (replicate (Z.to_nat size) 0)))
    by (rewrite length_replicate; lia).
  unfold Ticket_make_content. rewrite u64_small by (unfold word; lia).
  erewrite bind_Ok by (by rewrite (bind_Ok _ _ _ _ _ _ _ (memcpy_all _ _ o n Hlen))).
  erewrite bind_Ok; cycle 1.
  - unfold NoopObject.obj_enforce, NoopObject.increment_counter. rewrite modify_bind.
    cbn [Ticket.m_buffer_size Ticket.m_buffer]. rewrite (proj2 (Z.ltb_lt 0 size) Hpos).
    unfold Result.set_content. cbn [Result.m_has_content Result.set_content_size Result.set_has_content].
    by rewrite (bind_Ok _ _ _ _ _ _ _ (memcpy_all _ _ _ _ Hlen)).
  - by destruct o.
Qed.

(** ** One thread *)

Section Loop.
Context (size : Z).
Hypothesis Hsize : is_long size.

Lemma tickets_enforced iterations fuel : forall i o n,
  0 <= i -> iterations < 2 ^ 64 - 1 -> (Z.to_nat (iterations + 1 - i) < fuel)%nat -> i <= iterations + 1 ->
  enforce_loop fuel (ticket_of_size size) iterations i o n
  = Ok 0 (with_counter (if i <=? iterations then u32 (NoopObject.m_counter o + (iterations + 1 - i))
                        else NoopObject.m_counter o) o) n.
Proof.
  induction fuel as [|fuel IH]; intros i o n Hi Hit Hfuel Hle; [lia|].
  cbn [enforce_loop]. destruct (Z.leb_spec i iterations) as [Hi'|]; [|by rewrite with_counter_id].
  rewrite (bind_Ok _ _ _ _ _ _ _ (ticket_enforced size i o n Hsize)).
  rewrite u64_small by (unfold word; lia).
  rewrite (bind_Ok _ _ _ _ _ _ _ (IH (i + 1) _ _ ltac:(lia) Hit ltac:(lia) ltac:(lia))).
  cbn [with_counter NoopObject.m_counter].
  replace (if i + 1 <=? iterations then _ else _)
    with (u32 (NoopObject.m_counter o + (iterations + 1 - i))); [done|].
  destruct (Z.leb_spec (i + 1) iterations).
  - unfold u32. rewrite Zplus_mod_idemp_l. f_equal. lia.
  - f_equal. lia.
Qed.

End Loop.

(** ** Threads *)

#[local] Arguments total : simpl never.

Lemma total_cons f w ws : total f (w :: ws) = f w + total f ws.
Proof. done. Qed.

Lemma total_insert f ws k w w' : ws !! k = Some w ->
  total f (<[k:=w']> ws) = total f ws - f w + f w'.
Proof.
  revert k. induction ws as [|x ws IH]; intros [|k] Hk; [done|done| |]; simpl; rewrite !total_cons.
  - injection Hk as ->. lia.
  - rewrite (IH k Hk). lia.
Qed.

Lemma total_replicate f n w : total f (replicate n w) = Z.of_nat n * f w.
Proof. induction n as [|n IH]; [done|]. simpl replicate. rewrite total_cons, IH. lia. Qed.

Lemma total_const f ws c : Forall (fun w => f w = c) ws -> total f ws = Z.of_nat (length ws) * c.
Proof. induction 1 as [|w ws Hw _ IH]; [done|]. rewrite total_cons, IH. simpl length. lia. Qed.

Lemma total_nonneg f ws : Forall (fun w => 0 <= f w) ws -> 0 <= total f ws.
Proof. induction 1 as [|w ws Hw _ IH]; [done|]. rewrite total_cons. lia. Qed.

Definition in_section (w : worker) : bool := match w with Next _ => false | _ => true end.

(** At most one worker is in the section of the counter, the one with the lock when the
    object is shared, and the value that it has read is still that of the counter. *)
Definition excluded (s : system) : Prop :=
  (forall k, m_lock s = Some k -> exists w, total_workers s !! k = Some w /\ in_section w = true) /\
  (forall k w, total_workers s !! k = Some w -> in_section w = true ->
     if NoopObject.m_shared (noop_obj s) then m_lock s = Some k else k = 0%nat) /\
  (NoopObject.m_shared (noop_obj s) = false -> length (total_workers s) = 1%nat /\ m_lock s = None) /\
  (forall k i value, total_workers s !! k = Some (Counted i value) ->
     value = NoopObject.m_counter (noop_obj s)).

Section Schedules.
Context (iterations size : Z).
Hypothesis Hsize : is_long size.

Lemma one_worker s k w : excluded s -> NoopObject.m_shared (noop_obj s) = false ->
  total_workers s !! k = Some w -> k = 0%nat.
Proof. intros (_ & _ & H & _) Hs Hk. apply lookup_lt_Some in Hk. destruct (H Hs). lia. Qed.

(** What an event does. *)
Inductive event_of (k : nat) (s : system) : system -> Prop :=
| EnterShared i : total_workers s !! k = Some (Next i) -> i <= iterations -> m_lock s = None ->
    NoopObject.m_shared (noop_obj s) = true ->
    event_of k s (set_lock (Some k) (set_worker k (Counting i) s))
| EnterAlone i : total_workers s !! k = Some (Next i) -> i <= iterations ->
    NoopObject.m_shared (noop_obj s) = false -> event_of k s (set_worker k (Counting i) s)
| ReadCounter i : total_workers s !! k = Some (Counting i) ->
    event_of k s (set_worker k (Counted i (NoopObject.m_counter (noop_obj s))) s)
| WriteCounter i value : total_workers s !! k = Some (Counted i value) ->
    event_of k s (mk (with_counter (u32 (value + 1)) (noop_obj s))
      (if NoopObject.m_shared (noop_obj s) then None else m_lock s)
      (<[k:=Next (u64 (i + 1))]> (total_workers s)) (errors s + 0)).

Lemma exec_events k s s' : exec iterations size k s = Some s' <-> event_of k s s'.
Proof.
  unfold exec. split.
  - destruct (total_workers s !! k) as [[i|i|i value]|] eqn:Hk; [| | |done].
    + destruct (Z.leb_spec i iterations); [|done].
      destruct (NoopObject.m_shared (noop_obj s)) eqn:Hs; [destruct (m_lock s) eqn:Hl; [done|]|];
        intros [= <-]; by econstructor.
    + intros [= <-]. by constructor.
    + rewrite ticket_enforced by done. intros [= <-]. by econstructor.
  - intros [i Hk Hi Hl Hs|i Hk Hi Hs|i Hk|i value Hk]; rewrite Hk.
    + by rewrite (proj2 (Z.leb_le _ _) Hi), Hs, Hl.
    + by rewrite (proj2 (Z.leb_le _ _) Hi), Hs.
    + done.
    + by rewrite ticket_enforced.
Qed.

Lemma excluded_enter s k i l : excluded s -> total_workers s !! k = Some (Next i) ->
  (NoopObject.m_shared (noop_obj s) = true /\ m_lock s = None /\ l = Some k \/
   NoopObject.m_shared (noop_obj s) = false /\ l = None) ->
  excluded (set_lock l (set_worker k (Counting i) s)).
Proof.
  intros He Hk Hl. assert (Hone : NoopObject.m_shared (noop_obj s) = false -> k = 0%nat)
    by (intros; by eapply one_worker). destruct He as (Hheld & Hin & Halone & Hread).
  assert (Hlt := lookup_lt_Some _ _ _ Hk).
  unfold excluded. cbn [set_lock set_worker noop_obj m_lock total_workers]. split_and!.
  - intros j Hj. destruct Hl as [(_ & _ & ->)|(_ & ->)]; [|done]. injection Hj as <-.
    exists (Counting i). by rewrite list_lookup_insert_eq.
  - intros j w Hj Hw. destruct (decide (j = k)) as [->|Hne].
    + destruct Hl as [(-> & _ & ->)|(Hs & _)]; [done|]. rewrite Hs. eauto.
    + rewrite list_lookup_insert_ne in Hj by done. specialize (Hin j w Hj Hw).
      destruct Hl as [(Hs & Hnone & ->)|(Hs & ->)]; rewrite Hs in *; [congruence|done].
  - intros Hs. rewrite length_insert. destruct Hl as [(Hs' & _)|(_ & ->)]; [congruence|].
    split; [by apply Halone|done].
  - intros j i' value Hj. apply list_lookup_insert_Some in Hj as [(_ & [=] & _)|[_ Hj]]. eauto.
Qed.

Lemma excluded_event k s s' : excluded s -> event_of k s s' -> excluded s'.
Proof.
  intros He [i Hk Hi Hl Hs|i Hk Hi Hs|i Hk|i value Hk].
  - apply (excluded_enter s k i); auto.
  - destruct s as [o l ws e]. cbn in *. assert (Hnone : l = None) by by apply He. subst l.
    apply (excluded_enter (mk o None ws e) k i); auto.
  - destruct He as (Hheld & Hin & Halone & Hread). assert (Hlt := lookup_lt_Some _ _ _ Hk).
    unfold excluded. cbn [set_worker noop_obj m_lock total_workers]. split_and!.
    + intros j Hj. destruct (decide (j = k)) as [->|].
      * eexists. split; [by rewrite list_lookup_insert_eq|done].
      * rewrite list_lookup_insert_ne by done. auto.
    + intros j w Hj Hw. apply list_lookup_insert_Some in Hj as [(-> & <- & _)|[_ Hj]].
      * exact (Hin _ _ Hk eq_refl).
      * exact (Hin _ _ Hj Hw).
    + intros Hs. rewrite length_insert. auto.
    + intros j i' value Hj. apply list_lookup_insert_Some in Hj as [(_ & [= <- <-] & _)|[_ Hj]]; eauto.
  - pose proof He as (Hheld & Hin & Halone & Hread). specialize (Hin k _ Hk eq_refl) as Hmine.
    assert (Hout : forall j w, <[k:=Next (u64 (i + 1))]> (total_workers s) !! j = Some w ->
      in_section w = false).
    { intros j w Hj. apply list_lookup_insert_Some in Hj as [(_ & <- & _)|[Hne Hj]]; [done|].
      destruct (in_section w) eqn:Hw; [|done]. specialize (Hin j w Hj Hw).
      destruct (NoopObject.m_shared (noop_obj s)); congruence. }
    unfold excluded. cbn [noop_obj m_lock total_workers with_counter NoopObject.m_shared NoopObject.m_counter].
    split_and!.
    + intros j Hj. destruct (NoopObject.m_shared (noop_obj s)); [done|].
      destruct (Halone eq_refl). congruence.
    + intros j w Hj Hw. rewrite (Hout j w Hj) in Hw. done.
    + intros Hs. rewrite Hs, length_insert. auto.
    + intros j i' value' Hj. by apply Hout in Hj.
Qed.

(** Some worker can go on, as long as one has not left its loop. *)
Lemma excluded_goes_on s k w : excluded s -> total_workers s !! k = Some w ->
  is_done iterations w = false -> exists s', steps iterations size s s'.
Proof.
  intros He Hk Hw. destruct He as (Hheld & Hin & Halone & _).
  assert (Hrun : forall j w, total_workers s !! j = Some w -> in_section w = true ->
    exists s', steps iterations size s s').
  { intros j [i|i|i value] Hj Hsec; [done|..]; eexists; exists j; apply exec_events; by econstructor. }
  destruct w as [i| |]; [|by eapply Hrun..]. cbn in Hw. apply Z.ltb_ge in Hw.
  destruct (m_lock s) as [j|] eqn:Hl; [destruct (Hheld j eq_refl) as (w & Hj & Hsec); by eapply Hrun|].
  destruct (NoopObject.m_shared (noop_obj s)) eqn:Hs; eexists; exists k; apply exec_events.
  - by eapply EnterShared.
  - by eapply EnterAlone.
Qed.

(** *** The counter *)

(** How far the loop of a worker is. *)
Definition in_range (w : worker) : Prop :=
  match w with
  | Next i => 1 <= i <= iterations + 1
  | Counting i | Counted i _ => 1 <= i <= iterations
  end.

Definition events_left (w : worker) : Z :=
  match w with
  | Next i => 3 * (iterations + 1 - i)
  | Counting i => 3 * (iterations + 1 - i) - 1
  | Counted i _ => 3 * (iterations + 1 - i) - 2
  end.

Definition counts (threads : Z) (s : system) : Prop :=
  excluded s /\ Forall in_range (total_workers s) /\
  Z.of_nat (length (total_workers s)) = threads /\ errors s = 0 /\
  NoopObject.m_counter (noop_obj s) = u32 (total enforced_by (total_workers s)).

Hypothesis Hiterations : iterations < 2 ^ 64 - 1.

Lemma counts_event threads k s s' : counts threads s -> event_of k s s' ->
  counts threads s' /\
  total events_left (total_workers s') = total events_left (total_workers s) - 1.
Proof.
  intros (He & Hrange & Hlen & Herr & Hcount) Hev. pose proof (excluded_event k s s' He Hev) as He'.
  assert (Hstep : forall w w', total_workers s !! k = Some w ->
    in_range w' -> events_left w' = events_left w - 1 ->
    Forall in_range (<[k:=w']> (total_workers s)) /\
    Z.of_nat (length (<[k:=w']> (total_workers s))) = threads /\
    total enforced_by (<[k:=w']> (total_workers s))
      = total enforced_by (total_workers s) - enforced_by w + enforced_by w' /\
    total events_left (<[k:=w']> (total_workers s)) = total events_left (total_workers s) - 1).
  { intros w w' Hk Hw' Hleft. rewrite length_insert, !(total_insert _ _ _ _ _ Hk), Hleft.
    split_and!; [by apply Forall_insert|done|done|lia]. }
  assert (Hin : forall w, total_workers s !! k = Some w -> in_range w)
    by (intros w; by apply Forall_lookup_1).
  destruct Hev as [i Hk Hi Hl Hs|i Hk Hi Hs|i Hk|i value Hk];
    pose proof (Hin _ Hk) as Hik; cbn [in_range] in Hik.
  1,2: destruct (Hstep _ (Counting i) Hk) as (H1 & H2 & H3 & H4); cbn [in_range events_left]; [lia..|];
       cbn [enforced_by] in H3; split; [split; [exact He'|]|exact H4];
       cbn [set_lock set_worker total_workers noop_obj errors]; rewrite H3, Hcount;
       split_and!; [done..|f_equal; lia].
  - destruct (Hstep _ (Counted i (NoopObject.m_counter (noop_obj s))) Hk) as (H1 & H2 & H3 & H4);
      cbn [in_range events_left]; [lia..|].
    cbn [enforced_by] in H3. split; [split; [exact He'|]|exact H4].
    cbn [set_worker total_workers noop_obj errors]. split_and!; [done..|].
    rewrite H3, Hcount. f_equal. lia.
  - destruct (Hstep _ (Next (u64 (i + 1))) Hk) as (H1 & H2 & H3 & H4);
      cbn [in_range events_left]; [rewrite u64_small by (unfold word; lia); lia..|].
    cbn [enforced_by] in H3. rewrite u64_small in * by (unfold word; lia).
    split; [split; [exact He'|]|exact H4].
    cbn [total_workers noop_obj errors with_counter NoopObject.m_counter]. rewrite H3.
    split_and!; [done|done|lia|].
    destruct He as (_ & _ & _ & Hread). rewrite (Hread k i value Hk), Hcount. unfold u32.
    rewrite Zplus_mod_idemp_l. f_equal. lia.
Qed.

Lemma counts_rtc threads s s' : counts threads s -> rtc (steps iterations size) s s' ->
  counts threads s'.
Proof.
  intros Hc Hrtc. induction Hrtc as [|s s1 s' [k Hk] _ IH]; [done|]. apply IH.
  apply exec_events in Hk. by eapply counts_event.
Qed.

Lemma events_left_nonneg threads s : counts threads s -> 0 <= total events_left (total_workers s).
Proof.
  intros (_ & Hrange & _). apply total_nonneg. eapply Forall_impl; [|exact Hrange].
  intros [i|i|i value]; cbn; lia.
Qed.

Lemma counts_ends threads m : forall s, counts threads s ->
  (Z.to_nat (total events_left (total_workers s)) < m)%nat -> sn (steps iterations size) s.
Proof.
  induction m as [|m IH]; intros s Hc Hm; [lia|]. constructor. intros s' [k Hk].
  apply exec_events in Hk. destruct (counts_event threads k s s' Hc Hk) as [Hc' Hleft].
  pose proof (events_left_nonneg _ _ Hc'). apply IH; [done|lia].
Qed.

(** When all workers have left their loops, they have enforced all tickets. *)
Lemma counts_done threads s : 0 <= iterations -> counts threads s ->
  forallb (is_done iterations) (total_workers s) = true ->
  total enforced_by (total_workers s) = threads * iterations.
Proof.
  intros Hpos (_ & Hrange & <- & _) Hdone. apply total_const. apply Forall_forall. intros w Hw.
  rewrite Forall_forall in Hrange. specialize (Hrange w Hw).
  rewrite forallb_forall in Hdone. specialize (Hdone w Hw).
  destruct w as [i| |]; [|done..]. cbn in *. lia.
Qed.

End Schedules.

(** ** The whole test *)

Lemma started {S} threads (u : S) n : 1 <= threads < 2 ^ 31 ->
  start threads u n = Ok (mk (NoopObject.make_tagged 1 "noop_test" (1 <? threads)) None
                            (replicate (Z.to_nat threads) (Next 1)) 0) u n.
Proof.
  intros Ht. unfold start, test_obj_noop_enforce_multithreading.
  rewrite s32_small by (unfold is_int, int_min, int_max; lia).
  by rewrite (proj2 (Z.leb_gt _ _)) by lia.
Qed.

Definition started_system (threads : Z) : system :=
  mk (NoopObject.make_tagged 1 "noop_test" (1 <? threads)) None
    (replicate (Z.to_nat threads) (Next 1)) 0.

Lemma excluded_start threads : 1 <= threads < 2 ^ 31 -> excluded (started_system threads).
Proof.
  intros Ht. unfold excluded, started_system. cbn [m_lock total_workers noop_obj NoopObject.make_tagged].
  split_and!.
  - done.
  - intros k w Hk Hw. apply lookup_replicate in Hk as [-> _]. done.
  - cbn. intros H%Z.ltb_ge. rewrite length_replicate. split; [lia|done].
  - intros k i value Hk. by apply lookup_replicate in Hk as [[=] _].
Qed.

Lemma counts_start iterations threads : 0 <= iterations -> 1 <= threads < 2 ^ 31 ->
  counts iterations threads (started_system threads).
Proof.
  intros Hit Ht. split; [by apply excluded_start|]. cbn [started_system total_workers noop_obj errors].
  rewrite length_replicate, total_replicate. split_and!; [|lia|done|].
  - apply Forall_replicate. cbn. lia.
  - cbn. by rewrite Z.mul_0_r.
Qed.

(** The threads of the test never stop while one of them is in its loop, whatever the
    number of iterations. *)
Lemma threads_go_on iterations size s s' : is_long size -> excluded s ->
  rtc (steps iterations size) s s' ->
  forallb (is_done iterations) (total_workers s') = false ->
  exists s'', steps iterations size s' s''.
Proof.
  intros Hsize He Hrtc Hdone.
  assert (He' : excluded s').
  { clear Hdone. induction Hrtc as [|s s1 s' [k Hk] _ IH]; [done|]. apply IH.
    apply exec_events in Hk; [|done]. by eapply excluded_event. }
  assert (exists w, w ∈ total_workers s' /\ is_done iterations w = false) as (w & Hw & Hnot).
  { clear -Hdone. induction (total_workers s') as [|w ws IH]; [done|]. cbn in Hdone.
    apply andb_false_iff in Hdone as [Hw|Hws].
    - exists w. split; [left|done].
    - destruct (IH Hws) as (w' & ? & ?). exists w'. split; [by right|done]. }
  apply list_elem_of_lookup in Hw as [k Hk]. by eapply excluded_goes_on.
Qed.

(** Workers whose loops have no end. *)
Definition endless (iterations : Z) (s : system) : Prop :=
  excluded s /\ total_workers s <> [] /\
  Forall (fun w => is_done iterations w = false) (total_workers s).

Lemma endless_goes_on iterations size s : is_long size -> iterations = 2 ^ 64 - 1 ->
  endless iterations s -> exists s', steps iterations size s s' /\ endless iterations s'.
Proof.
  intros Hsize Hit (He & Hne & Hall).
  destruct (total_workers s) as [|w ws] eqn:Hws; [done|].
  destruct (excluded_goes_on iterations size Hsize s 0 w He) as [s' [k Hk]];
    [by rewrite Hws|by inversion Hall|].
  exists s'. split; [by exists k|]. apply exec_events in Hk; [|done].
  split; [by eapply excluded_event|]. rewrite <- Hws in Hall.
  assert (Hput : forall w', is_done iterations w' = false ->
    <[k:=w']> (total_workers s) <> [] /\
    Forall (fun w => is_done iterations w = false) (<[k:=w']> (total_workers s))).
  { intros w' Hw'. split; [|by apply Forall_insert].
    intros Hnil%(f_equal length). rewrite length_insert, Hws in Hnil. done. }
  destruct Hk as [i _ _ _ _|i _ _ _|i _|i value _]; apply Hput; cbn; [done..|].
  apply Z.ltb_ge. pose proof (u64_word (i + 1)) as Hu. unfold word in Hu. lia.
Qed.

Lemma endless_never_ends iterations size s : is_long size -> iterations = 2 ^ 64 - 1 ->
  endless iterations s -> ~ sn (steps iterations size) s.
Proof.
  intros Hsize Hit He Hsn. induction Hsn as [s _ IH].
  destruct (endless_goes_on iterations size s Hsize Hit He) as (s' & Hs' & He'). by apply (IH s').
Qed.

(** Without the lock an increment is lost: two threads, a ticket each, counted once. *)
Lemma unshared_increment_lost :
  let s := mk (NoopObject.make_tagged 1 "noop_test" false) None [Next 1; Next 1] 0 in
  exists s', exec_all 1 0 [0; 1; 0; 1; 0; 1]%nat s = Some s' /\
    NoopObject.m_counter (noop_obj s') = 1 /\ total enforced_by (total_workers s') = 2.
Proof. eexists. split; [vm_compute; reflexivity|by vm_compute]. Qed.

(** ** Hashes *)

Import MurmurHash3Test.

(** The words are those that the token builder writes, and the arrays have room. *)
Lemma words_written scheme message :
  MurmurHashTokenBuilder.generate_differentiation_token scheme message
  = (4 * Z.of_nat (length (words_of scheme message)), nth 0 (words_of scheme message) 0).
Proof.
  destruct scheme; [done|..]; cbn [words_of MurmurHashTokenBuilder.generate_differentiation_token
    MurmurHashTokenBuilder.bind_function].
  - unfold MurmurHashTokenBuilder.WrapperMurmurHash3_x86_128, MurmurHash3.MurmurHash3_x86_128.
    by repeat case_match.
  - unfold MurmurHashTokenBuilder.WrapperMurmurHash3_x64_128, MurmurHash3.MurmurHash3_x64_128.
    by repeat case_match.
Qed.

Definition room_of (scheme : HashingScheme) : Z :=
  match scheme with MurmurHash_x86_32 => 1 | _ => 4 end.

Lemma hash_written {S} scheme content (s : S) n :
  operation_hash scheme (room_of scheme) content s n
  = Ok (words_of scheme (bytes_of_string content)) s n.
Proof. unfold operation_hash. by destruct scheme. Qed.

Section Hashes.
Context {S : Type} (scheme : HashingScheme) (msg : string) (iterations : Z).

Definition hash_of (i : nat) : list Z :=
  words_of scheme (bytes_of_string (msg +:+ to_string (Z.of_nat i))).

Lemma hash_loop_outputs fuel detailed (s : S) n : iterations < 2 ^ 31 -> forall i,
  Z.of_nat i <= iterations -> (Z.to_nat iterations - i < fuel)%nat ->
  hash_loop fuel scheme (room_of scheme) msg iterations detailed (Z.of_nat i) s n
  = Ok (if detailed then hash_of <$> seq i (Z.to_nat iterations - i) else []) s n.
Proof.
  intros Hit. induction fuel as [|fuel IH]; intros i Hi Hfuel; [lia|]. cbn [hash_loop].
  destruct (Z.ltb_spec (Z.of_nat i) iterations).
  - rewrite (bind_Ok _ _ _ _ _ _ _ (hash_written _ _ s n)).
    rewrite (proj2 (Z.eqb_neq _ _)) by (unfold int_max; lia).
    replace (Z.of_nat i + 1) with (Z.of_nat (Datatypes.S i)) by lia.
    rewrite (bind_Ok _ _ _ _ _ _ _ (IH (Datatypes.S i) ltac:(lia) ltac:(lia))).
    replace (Z.to_nat iterations - i)%nat with (Datatypes.S (Z.to_nat iterations - Datatypes.S i)) by lia.
    by destruct detailed.
  - replace (Z.to_nat iterations - i)%nat with 0%nat by lia. by destruct detailed.
Qed.

Lemma hash_loop_overflows fuel detailed (s : S) n : 2 ^ 31 <= iterations -> forall i,
  Z.of_nat i < 2 ^ 31 -> (Z.to_nat (2 ^ 31) - i < fuel)%nat ->
  hash_loop fuel scheme (room_of scheme) msg iterations detailed (Z.of_nat i) s n
  = Crash (UndefinedBehaviour "signed overflow").
Proof.
  intros Hit. induction fuel as [|fuel IH]; intros i Hi Hfuel; [lia|]. cbn [hash_loop].
  rewrite (proj2 (Z.ltb_lt _ _)) by lia.
  rewrite (bind_Ok _ _ _ _ _ _ _ (hash_written _ _ s n)).
  destruct (Z.eqb_spec (Z.of_nat i) int_max) as [|Hne]; [done|]. unfold int_max in Hne.
  replace (Z.of_nat i + 1) with (Z.of_nat (Datatypes.S i)) by lia.
  by rewrite (bind_Crash _ _ _ _ _ (IH (Datatypes.S i) ltac:(lia) ltac:(lia))).
Qed.

End Hashes.

Lemma test_runs_loop `{SystemClock} {S} fuel scheme msg iterations detailed (s : S) n :
  test_murmurhash fuel (Some scheme) msg iterations detailed s n
  = (report ← timed (hash_loop fuel scheme (room_of scheme) msg iterations detailed 0);
     mret (Some report)) s n.
Proof. by destruct scheme. Qed.

Section Theorems.
Context (threads ops size : Z).
Hypothesis Hthreads : 1 <= threads < 2 ^ 31.
Hypothesis Hsize : is_long size.

(** C24.  The no-op test counts every ticket, with 0 to 2^63 - 1 operations, 1 to 2^31 - 1
    threads and any size.  It ends on every schedule; no schedule gets stuck before the threads are through; the counter
    of the object is at every moment the number of tickets that have been enforced, as a
    32-bit number, none of them with an error; and at the end these are
    [ops] tickets for each thread. *)
Theorem noop_test_counts {S} (u : S) n : 0 <= ops < 2 ^ 63 ->
  exists s, start threads u n = Ok s u n /\ sn (steps (iterations_of ops) size) s /\
    forall s', rtc (steps (iterations_of ops) size) s s' ->
      let done_by_all := forallb (is_done (iterations_of ops)) (total_workers s') in
      let enforced_tickets := total enforced_by (total_workers s') in
      NoopObject.m_counter (noop_obj s') = u32 enforced_tickets /\ errors s' = 0 /\
      (if done_by_all then enforced_tickets = threads * ops
       else exists s'', steps (iterations_of ops) size s' s'').
Proof.
  intros Hops. exists (started_system threads).
  assert (Hit : iterations_of ops = ops) by (apply u64_small; unfold word; lia). rewrite Hit.
  pose proof (counts_start ops threads ltac:(lia) Hthreads) as Hc.
  split; [by apply started|]. split; [exact (counts_ends ops size Hsize ltac:(lia) threads _ _ Hc (Nat.lt_succ_diag_r _))|].
  intros s' Hrtc. pose proof (counts_rtc ops size Hsize ltac:(lia) threads _ _ Hc Hrtc) as Hc'.
  destruct Hc' as (He' & _ & _ & Herr & Hcount). split_and!; [done|done|].
  destruct (forallb _ _) eqn:Hdone.
  - apply (counts_done ops threads s'); [lia| |done].
    exact (counts_rtc ops size Hsize ltac:(lia) threads _ _ Hc Hrtc).
  - by eapply threads_go_on; [| |exact Hrtc|]; [done|by destruct Hc|].
Qed.

(** A number of operations that is -1 is the largest unsigned number: no counter is
    above it, and the test never ends. *)
Theorem negative_ops_never_end {S} (u : S) n : ops = -1 ->
  exists s, start threads u n = Ok s u n /\ ~ sn (steps (iterations_of ops) size) s.
Proof.
  intros ->. exists (started_system threads). split; [by apply started|].
  apply endless_never_ends; [done|done|]. split; [by apply excluded_start|].
  cbn [started_system total_workers]. split; [destruct (Z.to_nat threads) eqn:H; [lia|done]|].
  by apply Forall_replicate.
Qed.

End Theorems.

(** A thread alone enforces [iterations] tickets, without an error. *)
Theorem noop_thread_enforces `{SystemClock} iterations size fuel o n :
  is_long size -> 0 <= iterations < 2 ^ 64 - 1 -> (Z.to_nat iterations < fuel)%nat ->
  word 32 (NoopObject.m_counter o) ->
  test_obj_noop_enforce fuel iterations size o n
  = Ok (0, clock_at (S n) - clock_at n)
      (with_counter (u32 (NoopObject.m_counter o + iterations)) o) (S (S n)).
Proof.
  intros Hsize Hit Hfuel Hcounter.
  pose proof (tickets_enforced size Hsize iterations fuel 1 o (S n) ltac:(lia) ltac:(lia) ltac:(lia)
    ltac:(lia)) as Hloop.
  replace (if 1 <=? iterations then _ else _) with (u32 (NoopObject.m_counter o + iterations)) in Hloop
    by (destruct (Z.leb_spec 1 iterations); [f_equal; lia|];
        replace iterations with 0 by lia; rewrite Z.add_0_r; by apply u32_small).
  unfold test_obj_noop_enforce, test_obj_noop_enforce_with_content,
    test_obj_noop_enforce_without_content, now, mbind, M_bind, mret, M_ret.
  unfold ticket_of_size in Hloop. destruct (0 <? size); by rewrite Hloop.
Qed.

Section HashTheorems.
Context `{SystemClock} {S : Type} (scheme : HashingScheme) (msg : string) (iterations : Z) (fuel : nat).

(** The hash test computes what the token builder would: with the details asked for, it
    prints for each iteration the words of the hash of the message with the number of
    the iteration, and ends. *)
Theorem hash_test_outputs (s : S) n : 0 <= iterations < 2 ^ 31 -> (Z.to_nat iterations < fuel)%nat ->
  test_murmurhash fuel (Some scheme) msg iterations true s n
  = Ok (Some ((fun i => words_of scheme (bytes_of_string (msg +:+ to_string (Z.of_nat i))))
                <$> seq 0 (Z.to_nat iterations), clock_at (Datatypes.S n) - clock_at n))
      s (Datatypes.S (Datatypes.S n)).
Proof.
  intros Hit Hfuel. rewrite test_runs_loop.
  pose proof (hash_loop_outputs scheme msg iterations fuel true s (Datatypes.S n) ltac:(lia) 0
    ltac:(lia) ltac:(lia)) as Hloop. rewrite Nat.sub_0_r in Hloop.
  unfold timed, now, mbind, M_bind, mret, M_ret. change (Z.of_nat 0) with 0 in Hloop. by rewrite Hloop.
Qed.

(** From 2^31 operations on, which the flag can hold, the counter of the hash test
    overflows. *)
Theorem hash_counter_overflows detailed (s : S) n : 2 ^ 31 <= iterations < 2 ^ 63 ->
  (Z.to_nat (2 ^ 31) < fuel)%nat ->
  test_murmurhash fuel (Some scheme) msg iterations detailed s n
  = Crash (UndefinedBehaviour "signed overflow").
Proof.
  intros Hit Hfuel. rewrite test_runs_loop.
  pose proof (hash_loop_overflows scheme msg iterations fuel detailed s (Datatypes.S n) ltac:(lia) 0
    ltac:(lia) ltac:(lia)) as Hloop.
  unfold timed, now, mbind, M_bind, mret, M_ret. change (Z.of_nat 0) with 0 in Hloop. by rewrite Hloop.
Qed.

(** A name of a scheme that is not known computes nothing. *)
Lemma unknown_scheme hash ops detailed (s : S) n : scheme_of hash = None ->
  main fuel hash ops detailed s n = Ok None s n.
Proof. unfold main. by intros ->. Qed.

End HashTheorems.

(** ** Witnesses *)

Lemma noop_test_counts_witness : exists s : system,
  start 2 tt O = Ok s tt O /\ sn (steps (iterations_of 3) 8) s.
Proof.
  destruct (noop_test_counts 2 3 8 ltac:(lia) ltac:(unfold is_long, long_min, long_max; lia) tt O ltac:(lia))
    as (s & Hs & Hsn & _). by exists s.
Defined.

Lemma negative_ops_never_end_witness : exists s : system,
  start 2 tt O = Ok s tt O /\ ~ sn (steps (iterations_of (-1)) 8) s.
Proof.
  exact (negative_ops_never_end 2 (-1) 8 ltac:(lia) ltac:(unfold is_long, long_min, long_max; lia) tt O eq_refl).
Defined.

Lemma hash_test_outputs_witness : exists report,
  @test_murmurhash (fun n => Z.of_nat n) 3 unit (Some MurmurHash_x86_32) "0|1|1" 2 true tt O
  = Ok (Some report) tt 2%nat /\ length (fst report) = 2%nat.
Proof.
  eexists. split; [apply (hash_test_outputs (H := fun n => Z.of_nat n) MurmurHash_x86_32 "0|1|1" 2 3); lia|done].
Defined.
